(* ===== verification/_CoqProject ===== *)
-Q . S2P
Prelude.v
GoStrings.v
Quote.v
Base64.v
Sha256.v
GoPath.v
Sanitize.v
Domain.v
GoTime.v
Config.v
FileSys.v
Revisions.v
Materializer.v
X509.v
CertState.v
TLSStore.v
ShelfSpec.v
Store.v
StoreSpec.v
Manager.v
ManagerSpec.v
ManagerCert.v
Password.v
Limiter.v
Services.v
Apply.v
Users.v
Entropy.v
Session.v
SessionSpec.v
TLSService.v
TLSServiceSpec.v
TLSSettings.v
Supervisor.v
SupervisorSpec.v
ClientProfile.v
ClientExport.v
ReleaseScripts.v
PathFacts.v
PosixFs.v
TreeWalk.v
PosixFacts.v
AccountKey.v
Acme.v
Scheduler.v
Json.v
ProfileStore.v
Backup.v
BackupSafe.v
ManifestText.v
BackupSpec.v
BackupCreate.v
Schema.v
App.v
AppRun.v
Http.v
Http01.v
Metrics.v
AppWiring.v
WebHandlers.v
WebRouter.v
WebSpec.v
World.v
WorldLaws.v
Migration.v
MigrationSpec.v
Main.v
WebWorld.v
Demo.v
Witnesses.v
WebWitnesses.v
OpsWitnesses.v
AppWitnesses.v
ReleaseWitnesses.v
