(* ===== verification/Prelude.v ===== *)
(** * A verification library for the TrustTunnel controller

    The controller (Go, under [src/]) keeps one TrustTunnel VPN endpoint running:
    it stores users, settings and certificates in SQLite, renders them to the
    endpoint's configuration files, publishes the files and the key pairs as
    content-addressed revisions, supervises the endpoint process, obtains and
    renews certificates, and offers an administrator's web interface.  This
    library models that program function by function and proves what makes it
    correct.

    ** How code is modelled

    Pure Go functions are Rocq functions.  Code with effects is a computation
    [M W A = W → A * W] over a world [W] ([Prelude.v]); a call that returns
    [(T, error)] returns [result T], one that returns [error] returns
    [option gerror], and errors are values of [gerror].  Every call that can
    fail outside the program (system calls, statements, random bytes, the
    endpoint) takes its outcome from a stream of faults in the world, so a
    theorem about all worlds covers every pattern of failures.  Strings are byte
    strings ([string] of [ascii]); instants and durations are nanoseconds in
    [Z].  Locks that a method holds from its first to its last statement make
    the method one step; the supervisor and the scheduler's start and stop need
    interleavings and are step systems.

    Code outside [src/] is a parameter: the Unicode tables, argon2id, the x509
    and PEM functions, the ACME client, the TOML library, the endpoint binary,
    the order of Go's map iteration.  The classes that stand for them say the
    documented behaviour that is relied on, and [Demo.v] instantiates each with a
    concrete function.  SHA-256, base64, [strconv.Quote], [path/filepath], the
    formatting of instants and a file system are modelled, not assumed.

    ** The files

    - [Prelude.v]: errors, results, the state monad, tactics, hint databases.
    - [GoStrings.v], [Quote.v], [Base64.v], [Sha256.v], [GoPath.v], [GoTime.v]:
      the parts of Go's standard library the program uses.
    - [Domain.v]: [internal/domain].  [Sanitize.v]: the error sanitizers of
      [service], [certificate], [supervisor], [endpointcli] and [logbuffer].
    - [Config.v]: [internal/config/config.go]; the declarative reading of
      [Validate], a reader of the rendered credentials.
    - [FileSys.v], [Revisions.v]: a directory tree with failing system calls, and
      the layout of revisions and links both stores share, with its invariant
      [store_ok].  [Materializer.v] ([config/materializer.go]) and [TLSStore.v]
      ([certificate/tls_store.go]) instantiate it.
    - [X509.v], [CertState.v]: chains, keys, the certificate's state machine and
      settings ([certificate/issue.go], [state.go], [source.go], [acme.go]).
    - [Store.v], [StoreSpec.v]: the statements of [persistence/sqlite.go] over the
      tables, and the invariant [tables_ok].
    - [Manager.v], [ManagerSpec.v], [ManagerCert.v]: the certificate manager
      ([issue.go], [automatic.go], [self_signed.go], [provided.go]) against the
      interface [CertWorld].
    - [Password.v], [Limiter.v], [Session.v], [SessionSpec.v], [Entropy.v]:
      [internal/auth].
    - [Services.v]: the interfaces of [internal/service] and what their
      implementations promise; [Apply.v], [Users.v], [TLSService.v],
      [TLSServiceSpec.v], [TLSSettings.v]: the services, proved against those
      promises.
    - [Supervisor.v], [SupervisorSpec.v]: [supervisor/supervisor.go] as
      interleaved steps, with the invariant [sv_ok].
    - [ClientProfile.v], [ClientExport.v]: [internal/clientprofile],
      [endpointcli], [logbuffer] and [service/client_configs.go].
    - [Scheduler.v], [AccountKey.v], [Http01.v]: [certificate/scheduler.go] and the
      loop of [automatic.go], [account_key.go] with the key functions of [acme.go]
      and [admin_certificate.go], and [http01.go].
    - [Json.v], [ProfileStore.v]: [encoding/json] as the program uses it, read
      back as it was written; [persistence/client_profile.go].
    - [PathFacts.v], [PosixFs.v], [PosixFacts.v], [TreeWalk.v]: whole paths with
      symbolic links over the tree of [FileSys.v], and [filepath.Walk].
    - [Backup.v], [ManifestText.v], [BackupSafe.v], [BackupSpec.v],
      [BackupCreate.v]: [internal/datalock] and [internal/backup].
    - [Http.v], [WebHandlers.v], [WebRouter.v], [WebSpec.v]: requests, responses
      and the mux of [net/http], and [internal/webui] against interfaces of its
      services; [Metrics.v]: [internal/metrics] and [internal/probe].
    - [Acme.v]: the client of [certificate/acme.go] over lego.
    - [Schema.v]: [Open], [migrate] and the text of the migrations of
      [persistence/sqlite.go].
    - [App.v], [AppRun.v]: [internal/app]: the configuration, the seeding of the
      settings, the wait for the endpoint, the recovery at start-up, and the order
      in which [Run] opens and closes the parts.  [AppWiring.v]: the paths, limits
      and servers [Run] gives them.
    - [ReleaseScripts.v]: [scripts/verify-official-export.go] (Module
      [ExportCheck]) and [scripts/write-connection-smoke.go] (Module
      [ConnectionSmoke]).
    - [ShelfSpec.v]: what both revision stores promise, as an abstract machine on
      the names of the revisions, and that they refine it.
    - [Migration.v], [MigrationSpec.v]: [internal/migration] over the stores and
      files above.  [Main.v]: [cmd/trusttunnel-controller/main.go].
    - [World.v], [WorldLaws.v], [WebWorld.v]: the database, both revision stores,
      the endpoint and the random source together, and the web interface over
      them; the promises of [Services.v], [TLSServiceSpec.v] and [WebSpec.v]
      discharged for them.
    - [Demo.v], [Witnesses.v], [WebWitnesses.v], [OpsWitnesses.v],
      [AppWitnesses.v], [ReleaseWitnesses.v]:
      concrete worlds, and every theorem with hypotheses
      applied to one of them.

    ** What the theorems show

    - Publication.  Whatever system calls fail, the revision stores stay well
      formed ([Apply_publishes_atomically], [Publish_publishes_atomically]); a
      publication commits or is undone ([apply_commits],
      [apply_failure_restores], [TLS_publish_commits],
      [TLS_publish_failure_restores], [RevertLast_undoes],
      [Apply_then_Rollback]), with one exception, [republish_failure_swaps].  Any
      sequence of operations of a store is a run of the machine of [ShelfSpec.v]
      ([config_store_refines], [tls_store_refines]), which may forget the previous
      revision when [current] cannot be read ([unread_current_is_forgotten]).
    - Certificates.  The metadata and the published pair agree after every
      operation ([certificate_operation_agrees]); success certifies
      ([issue_certifies], [renew_certifies], [ValidateBundle_spec]); settings are
      those of one source ([ValidateSourceSettings_sound],
      [SaveConfiguration_consistent]).
    - Data.  The tables stay well formed ([store_invariant]); users change
      atomically and revocation is final ([Create_adds_one], [mutation_atomic],
      [revoked_is_final]); rendering is validated, injective on what it exports
      and deterministic ([Validate_spec], [Render_credentials_roundtrip],
      [Render_order_independent]).
    - Access.  [Bootstrap_once], [Login_opens_one_session], [Authenticate_sound],
      [ChangePassword_revokes], [DeleteAdmin_resets], [HashPassword_verifies],
      [Failure_bounded], [Failure_blocks_account].
    - Supervision.  [at_most_one_endpoint], [stopped_stays_stopped],
      [Stop_waits_for_exit], [crash_is_answered], and two behaviours that
      surprise: [ended_context_disarms_restart], [restart_can_lose_race].
    - Exports.  [tuneLink_entries], [tuneLink_idempotent], [tuned_link_decodes],
      [check_export_iff], [smoke_profile_isolated],
      [Profile_Apply_changes_settings], [limit_writes_bounded].
    - The interface.  Nothing it guards changes without a session and its CSRF
      token, or the bootstrap of an empty table
      ([only_authorised_requests_change]); [SaveClientProfile_loads], [ready_iff].
    - Keys and challenges.  [StoreAccountKey_atomic], [account_key_kept],
      [EnsureAccount_finds],
      [server_up_while_pending].
    - Renewal.  [Backoff_spec], [one_worker], and what overlapping stops do,
      [stale_stop_forgets_worker].
    - Backups.  What is created verifies and restores to what was saved
      ([Verify_accepts], [backup_round_trip]); verification is sound
      ([verifyDir_sound]); extraction is confined without links
      ([extract_confined]) and not with them ([extract_can_escape]).
    - The schema.  [migrate] reaches the last version and can be stopped anywhere
      ([migrate_resumes]); the statements check what the schema checks
      ([checks_match]).
    - Start-up.  [AppConfig_Validate_spec], [seedTLS_once], [startup_publishes],
      [waitTCP_returns]; whatever fails, [Run] closes what it opened
      ([Run_releases]); the endpoint reads what is published
      ([endpoint_reads_published]).  One command per run ([run_one_command]).
    - The import of a legacy volume.  Its marker is written last
      ([import_before_marker]), it is made once ([migration_once]) and reads only
      below the volume ([legacyPath_confined]).

    ** Fuel and bounds

    Loops over bytes take the length of their input as fuel ([parse_chain],
    [kept_entries], [read_clients], the runes of [GoStrings.v]); each step consumes a
    byte, and the specifications are proved without assuming that fuel remains.
    The eviction loop of the limiter takes the size of its table, the wait for the
    endpoint a number of rounds, of which one more than the ticks before its
    deadline is enough ([waitTCP_returns]).  Instants are
    unbounded integers: the program adds durations of days to the present, far
    from the range of [time.Time].

    ** Not modelled

    In [app.Run] the calls that only pass one part to another; the sockets and the
    serving of connections, the parsing of flags, the logger, the text of templates,
    [webui.IsMutation], which nothing calls, and the interfaces whose methods are
    arguments of the handlers here; lego's ACME
    protocol, SQLite, crypto/tls, gzip and tar, the TOML library and the endpoint
    binary are outside [src/].  In [Migration.v] the database, the configurations and
    the key pairs are stores of their own beside the tree of files, as in [World.v].
    *)
From Stdlib Require Export SpecFloat.
From stdpp Require Export base tactics list gmap strings fin_maps sorting.
From Stdlib Require Export ZArith Lia Ascii.
#[global] Open Scope Z_scope.

(** ** Errors

    Go's [error] values.  A call that returns a bare [error] is modelled by
    [option gerror]: [None] is Go's [nil].  [Errorf] is a fresh error known by
    its text only ([errors.New], [fmt.Errorf] without [%w]); [Wrapf] is
    [fmt.Errorf("prefix: %w", err)], [WrapIn] is [fmt.Errorf("before%wafter", err)]; [Joined] is [errors.Join] of two non-nil
    errors; [SysErr] is a failure of the operating system, of the database
    engine, of a context or of a third-party call, known by its text only. The
    other constructors are the sentinel errors the code compares with
    [errors.Is]. *)
Inductive gerror : Type :=
| ErrNoRows
| ErrNotExist
| ErrExist
| ErrRevokedUser
| ErrAlreadyBootstrapped
| ErrInvalidCredentials
| ErrInvalidSession
| Errorf (msg : string)
| Wrapf (prefix : string) (cause : gerror)
| WrapIn (before : string) (cause : gerror) (after : string)
| Joined (first second : gerror)
| SysErr (msg : string).

#[export] Instance gerror_eq_dec : EqDecision gerror.
Proof. solve_decision. Defined.

(** [err.Error()]. *)
Fixpoint error_text (e : gerror) : string :=
  match e with
  | ErrNoRows => "sql: no rows in result set"
  | ErrNotExist => "file does not exist"
  | ErrExist => "file already exists"
  | ErrRevokedUser => "revoked user cannot be changed"
  | ErrAlreadyBootstrapped => "administrator already exists"
  | ErrInvalidCredentials => "invalid username or password"
  | ErrInvalidSession => "invalid or expired session"
  | Errorf m => m
  | Wrapf p c => p +:+ ": " +:+ error_text c
  | WrapIn b c a => b +:+ error_text c +:+ a
  | Joined a b => error_text a +:+ String "010"%char (error_text b)
  | SysErr m => m
  end.

(** [errors.Is err target]. *)
Fixpoint errors_is (e target : gerror) : bool :=
  bool_decide (e = target) ||
  match e with
  | Wrapf _ c | WrapIn _ c _ => errors_is c target
  | Joined a b => errors_is a target || errors_is b target
  | _ => false
  end.

(** An error formatted with [%v]. *)
Definition error_v (e : option gerror) : string :=
  match e with Some e => error_text e | None => "<nil>" end.

(** [errors.Join(a, b)]: nil arguments are dropped. *)
Definition errors_join (a b : option gerror) : option gerror :=
  match a, b with
  | Some x, Some y => Some (Joined x y)
  | Some x, None => Some x
  | None, y => y
  end.

(** ** Results and the state monad

    A Go function [(T, error)] whose [T] is meaningless on error returns
    [result T]; one whose callers read both returns [T * option gerror]. *)
Inductive result (A : Type) : Type :=
| Ok (a : A)
| Err (e : gerror).
Arguments Ok {A} a.
Arguments Err {A} e.

#[export] Instance result_eq_dec {A} `{EqDecision A} : EqDecision (result A).
Proof. solve_decision. Defined.

Definition is_ok {A} (r : result A) : bool :=
  match r with Ok _ => true | Err _ => false end.

(** Explicit state passing: a computation over a world [W]. *)
Definition M (W A : Type) : Type := W → A * W.

Definition ret {W A} (a : A) : M W A := λ w, (a, w).
Definition bind {W A B} (m : M W A) (k : A → M W B) : M W B :=
  λ w, let '(a, w') := m w in k a w'.
Definition gets {W A} (f : W → A) : M W A := λ w, (f w, w).
Definition modify {W} (f : W → W) : M W unit := λ w, (tt, f w).

(** [if err != nil { return zero, err }] after a [(T, error)] call. *)
Definition try_ok {W A B} (m : M W (result A)) (k : A → M W (result B)) : M W (result B) :=
  bind m (λ r, match r with Ok a => k a | Err e => ret (Err e) end).

(** [if err != nil { return zero, err }] after an [error] call. *)
Definition try_nil {W B} (m : M W (option gerror)) (k : M W (result B)) : M W (result B) :=
  bind m (λ r, match r with None => k | Some e => ret (Err e) end).

(** [if err != nil { return err }] in a function that returns [error]. *)
Definition try_err {W} (m : M W (option gerror)) (k : M W (option gerror)) : M W (option gerror) :=
  bind m (λ r, match r with None => k | Some e => ret (Some e) end).

Declare Scope go_scope.
Delimit Scope go_scope with go.
Notation "'let*' x ':=' m 'in' k" := (bind m (λ x, k))
  (at level 100, x pattern, m at next level, right associativity) : go_scope.
Notation "m ;; k" := (bind m (λ _, k))
  (at level 100, right associativity) : go_scope.
Notation "'let?' x ':=' m 'in' k" := (try_ok m (λ x, k))
  (at level 100, x pattern, m at next level, right associativity) : go_scope.
Notation "'nil?' m 'in' k" := (try_nil m k)
  (at level 100, m at next level, right associativity) : go_scope.
Notation "'err?' m 'in' k" := (try_err m k)
  (at level 100, m at next level, right associativity) : go_scope.
#[global] Open Scope go_scope.

(** Running a computation on one component of a larger world. *)
Definition zoom {W S A} (get : W → S) (put : S → W → W) (m : M S A) : M W A :=
  λ w, let '(a, s) := m (get w) in (a, put s w).

(** A relation every run of a computation satisfies between the worlds before
    and after. *)
Definition preserves {W A} (R : W → W → Prop) (m : M W A) : Prop := ∀ w r w', m w = (r, w') → R w w'.

Section Preserves.
Context {W : Type} (R : W → W → Prop) `{!PreOrder R}.
Lemma preserves_ret {A} (a : A) : preserves R (ret a).
Proof. intros w r w' [= _ <-]. reflexivity. Qed.
Lemma preserves_gets {A} (f : W → A) : preserves R (gets f).
Proof. intros w r w' [= _ <-]. reflexivity. Qed.
Lemma preserves_bind {A B} (m : M W A) (k : A → M W B) :
  preserves R m → (∀ a, preserves R (k a)) → preserves R (bind m k).
Proof.
  intros Hm Hk w r w' H. unfold bind in H. destruct (m w) as [a w1] eqn:E.
  etrans; [by eapply Hm|by eapply Hk].
Qed.
Lemma preserves_try_ok {A B} (m : M W (result A)) (k : A → M W (result B)) :
  preserves R m → (∀ a, preserves R (k a)) → preserves R (try_ok m k).
Proof. intros Hm Hk. apply preserves_bind; [done|]. intros [a|e]; [done|apply preserves_ret]. Qed.
Lemma preserves_try_nil {B} (m : M W (option gerror)) (k : M W (result B)) :
  preserves R m → preserves R k → preserves R (try_nil m k).
Proof. intros Hm Hk. apply preserves_bind; [done|]. intros [e|]; [apply preserves_ret|done]. Qed.
Lemma preserves_try_err (m k : M W (option gerror)) :
  preserves R m → preserves R k → preserves R (try_err m k).
Proof. intros Hm Hk. apply preserves_bind; [done|]. intros [e|]; [apply preserves_ret|done]. Qed.
End Preserves.

(** ** Tactics *)

(** Walks through a computation, leaving its calls. *)
Ltac walk :=
  repeat lazymatch goal with
    | |- preserves _ (ret _) => apply preserves_ret; typeclasses eauto
    | |- preserves _ (gets _) => apply preserves_gets; typeclasses eauto
    | |- preserves _ (try_ok _ _) => apply preserves_try_ok; [typeclasses eauto| |intros ?]
    | |- preserves _ (try_nil _ _) => apply preserves_try_nil; [typeclasses eauto| |]
    | |- preserves _ (try_err _ _) => apply preserves_try_err; [typeclasses eauto| |]
    | |- preserves _ (bind _ _) => apply preserves_bind; [typeclasses eauto| |intros ?]
    | |- preserves _ (match _ with _ => _ end) => case_match
    end.

(** [lia] with division and modulo by constants. *)
Ltac zdiv := Z.to_euclidean_division_equations; lia.

(** Case analysis on every boolean comparison and match of the goal. *)
Ltac cases := repeat (case_match; simplify_eq/=; try done).

(** Inverts one binding of a run [m w = (r, w')] in the context. *)
Ltac run_bind H :=
  unfold try_err, try_nil, try_ok in H; unfold bind at 1 in H;
  lazymatch type of H with
  | (let '(_, _) := ?m ?w in _) = _ =>
    let a := fresh "a" in let w1 := fresh "w1" in let E := fresh "E" in
    destruct (m w) as [a w1] eqn:E
  end.
Ltac run_ret H := unfold ret in H; first [injection H as ? ? | injection H as ?]; subst.
Ltac run_absurd H := unfold ret in H; discriminate H.
