(* ===== verification/GoStrings.v ===== *)
(** Go strings as byte sequences: the functions of [strings], [strconv],
    [unicode/utf8] and [sort] that the program calls, on [String.string] with
    one [ascii] per byte.  Unicode tables for runes from 128 up are a class
    ([UnicodeTables]), as the code reads them from the Go runtime. *)
From S2P Require Import Prelude.

(** ** Bytes *)

Definition code (c : ascii) : Z := Z.of_N (N_of_ascii c).
Definition chr (z : Z) : ascii := ascii_of_N (Z.to_N z).

Definition chars : string → list ascii := String.list_ascii_of_string.
Definition of_chars : list ascii → string := String.string_of_list_ascii.

(** The string of one byte. *)
Definition byte_str (z : Z) : string := String (chr z) "".

Definition is_lower_ascii (c : ascii) : bool := (97 <=? code c) && (code c <=? 122).
Definition is_upper_ascii (c : ascii) : bool := (65 <=? code c) && (code c <=? 90).
Definition is_digit_ascii (c : ascii) : bool := (48 <=? code c) && (code c <=? 57).
Definition is_alnum_ascii (c : ascii) : bool :=
  is_lower_ascii c || is_upper_ascii c || is_digit_ascii c.
(** Every byte of the string is below 128. *)
Definition is_ascii_string (s : string) : bool := forallb (λ c, code c <? 128) (chars s).

(** [len(s)] *)
Definition len (s : string) : Z := Z.of_nat (String.length s).

(** ** Prefixes, searching, splitting *)

(** [strings.HasPrefix s p] *)
Fixpoint has_prefix (s p : string) : bool :=
  match p, s with
  | EmptyString, _ => true
  | String a p', String b s' => bool_decide (a = b) && has_prefix s' p'
  | String _ _, EmptyString => false
  end.

(** [strings.TrimPrefix s p] *)
Fixpoint drop_bytes (n : nat) (s : string) : string :=
  match n, s with
  | O, _ => s
  | S n', String _ s' => drop_bytes n' s'
  | S _, EmptyString => EmptyString
  end.
Definition trim_prefix (s p : string) : string :=
  if has_prefix s p then drop_bytes (String.length p) s else s.

Fixpoint take_bytes (n : nat) (s : string) : string :=
  match n, s with
  | S n', String c s' => String c (take_bytes n' s')
  | _, _ => EmptyString
  end.

(** [strings.Index s sub], [None] for -1. *)
Fixpoint str_index (s sub : string) : option nat :=
  if has_prefix s sub then Some O
  else match s with
       | EmptyString => None
       | String _ s' => S <$> str_index s' sub
       end.
(** [strings.Contains s sub] *)
Definition contains (s sub : string) : bool :=
  match str_index s sub with Some _ => true | None => false end.

(** [strings.Split s sep] for a one-byte separator. *)
Fixpoint split_chars (sep : ascii) (cur s : list ascii) : list (list ascii) :=
  match s with
  | [] => [rev cur]
  | c :: s' =>
    if bool_decide (c = sep) then rev cur :: split_chars sep [] s'
    else split_chars sep (c :: cur) s'
  end.
Definition split (s : string) (sep : ascii) : list string :=
  of_chars <$> split_chars sep [] (chars s).

(** [strings.Join] *)
Fixpoint join_strings (sep : string) (l : list string) : string :=
  match l with
  | [] => ""
  | [x] => x
  | x :: l' => x +:+ sep +:+ join_strings sep l'
  end.

(** [strings.LastIndexByte] *)
Fixpoint last_index (s : list ascii) (c : ascii) (i : nat) (acc : option nat) : option nat :=
  match s with
  | [] => acc
  | x :: s' => last_index s' c (S i) (if bool_decide (x = c) then Some i else acc)
  end.
Definition last_index_byte (s : string) (c : ascii) : option nat := last_index (chars s) c 0 None.

(** [strings.IndexByte(s, c) >= 0] *)
Definition has_byte (s : string) (c : ascii) : bool := existsb (λ x, bool_decide (x = c)) (chars s).

(** ** Runes *)

Class UnicodeTables := {
  uni_is_lower : Z → bool;   (** [unicode.IsLower] above 127 *)
  uni_is_upper : Z → bool;   (** [unicode.IsUpper] above 127 *)
  uni_is_digit : Z → bool;   (** [unicode.IsDigit] above 127 *)
  uni_is_print : Z → bool;   (** [strconv.IsPrint] above 127 *)
  uni_to_lower : Z → Z       (** [unicode.ToLower] above 127 *)
}.

(** U+FFFD, [utf8.RuneError]. *)
Definition rune_error : Z := 65533.

Definition is_cont (c : ascii) : bool := (128 <=? code c) && (code c <=? 191).

(** [utf8.DecodeRuneInString] on a non-empty sequence: the rune and its width;
    an invalid encoding is [(RuneError, 1)]. *)
Definition decode_rune (s : list ascii) : Z * nat :=
  match s with
  | [] => (rune_error, 0%nat)
  | c0 :: s0 =>
    let b0 := code c0 in
    if b0 <? 128 then (b0, 1%nat)
    else if (194 <=? b0) && (b0 <=? 223) then
      match s0 with
      | c1 :: _ =>
        if is_cont c1 then ((b0 - 192) * 64 + (code c1 - 128), 2%nat) else (rune_error, 1%nat)
      | _ => (rune_error, 1%nat)
      end
    else if (224 <=? b0) && (b0 <=? 239) then
      match s0 with
      | c1 :: c2 :: _ =>
        let lo := if b0 =? 224 then 160 else 128 in
        let hi := if b0 =? 237 then 159 else 191 in
        if (lo <=? code c1) && (code c1 <=? hi) && is_cont c2
        then ((b0 - 224) * 4096 + (code c1 - 128) * 64 + (code c2 - 128), 3%nat)
        else (rune_error, 1%nat)
      | _ => (rune_error, 1%nat)
      end
    else if (240 <=? b0) && (b0 <=? 244) then
      match s0 with
      | c1 :: c2 :: c3 :: _ =>
        let lo := if b0 =? 240 then 144 else 128 in
        let hi := if b0 =? 244 then 143 else 191 in
        if (lo <=? code c1) && (code c1 <=? hi) && is_cont c2 && is_cont c3
        then ((b0 - 240) * 262144 + (code c1 - 128) * 4096 + (code c2 - 128) * 64
              + (code c3 - 128), 4%nat)
        else (rune_error, 1%nat)
      | _ => (rune_error, 1%nat)
      end
    else (rune_error, 1%nat)
  end.

(** The runes of a string with the bytes each one takes, as [range] visits
    them.  Every rune takes at least one byte, so the length is enough fuel. *)
Fixpoint runes_fuel (fuel : nat) (s : list ascii) : list (Z * list ascii) :=
  match fuel, s with
  | S f, _ :: _ =>
    let '(r, w) := decode_rune s in
    (r, take w s) :: runes_fuel f (drop w s)
  | _, _ => []
  end.
Definition runes (s : string) : list (Z * list ascii) :=
  runes_fuel (String.length s) (chars s).

(** [utf8.AppendRune] *)
Definition encode_rune (r : Z) : list ascii :=
  if r <? 128 then [chr r]
  else if r <? 2048 then [chr (192 + r / 64); chr (128 + r mod 64)]
  else if r <? 65536 then [chr (224 + r / 4096); chr (128 + (r / 64) mod 64); chr (128 + r mod 64)]
  else [chr (240 + r / 262144); chr (128 + (r / 4096) mod 64);
        chr (128 + (r / 64) mod 64); chr (128 + r mod 64)].

(** [unicode.IsSpace] *)
Definition is_space_rune (r : Z) : bool :=
  (r =? 32) || ((9 <=? r) && (r <=? 13)) || (r =? 133) || (r =? 160) || (r =? 5760)
  || ((8192 <=? r) && (r <=? 8202)) || (r =? 8232) || (r =? 8233) || (r =? 8239)
  || (r =? 8287) || (r =? 12288).

Fixpoint drop_while {A} (f : A → bool) (l : list A) : list A :=
  match l with
  | [] => []
  | x :: l' => if f x then drop_while f l' else l
  end.

(** [strings.TrimSpace] *)
Definition trim_space (s : string) : string :=
  let sp := λ rb : Z * list ascii, is_space_rune rb.1 in
  let l := drop_while sp (runes s) in
  of_chars (concat (snd <$> rev (drop_while sp (rev l)))).

Section Unicode.
Context {UT : UnicodeTables}.

(** [unicode.IsLower], [IsUpper], [IsDigit], [ToLower] *)
Definition is_lower (r : Z) : bool :=
  if r <? 128 then (97 <=? r) && (r <=? 122) else uni_is_lower r.
Definition is_upper (r : Z) : bool :=
  if r <? 128 then (65 <=? r) && (r <=? 90) else uni_is_upper r.
Definition is_digit (r : Z) : bool :=
  if r <? 128 then (48 <=? r) && (r <=? 57) else uni_is_digit r.
Definition to_lower_rune (r : Z) : Z :=
  if r <? 128 then (if (65 <=? r) && (r <=? 90) then r + 32 else r) else uni_to_lower r.

(** [strings.ToLower]: bytes that are not valid UTF-8 become U+FFFD when the
    string is rebuilt, and an all-ASCII string is mapped byte by byte. *)
Definition to_lower (s : string) : string :=
  of_chars (concat ((λ rb : Z * list ascii, encode_rune (to_lower_rune rb.1)) <$> runes s)).

(** [strconv.Quote] *)
Definition hex_digit (z : Z) : ascii := if z <? 10 then chr (48 + z) else chr (87 + z).
Fixpoint hex_digits (n : nat) (z : Z) : list ascii :=
  match n with
  | O => []
  | S n' => hex_digits n' (z / 16) ++ [hex_digit (z mod 16)]
  end.

Definition is_print (r : Z) : bool :=
  if r <? 128 then (32 <=? r) && (r <=? 126) else uni_is_print r.

(** [appendEscapedRune], for the double quote. *)
Definition escape_rune (rb : Z * list ascii) : list ascii :=
  let '(r, bs) := rb in
  let bsl := chr 92 in
  if (r =? rune_error) && (length bs =? 1)%nat then
    bsl :: chr 120 :: hex_digits 2 (match bs with c :: _ => code c | [] => 0 end)
  else if (r =? 34) || (r =? 92) then [bsl; chr r]
  else if is_print r then bs
  else if r =? 7 then [bsl; chr 97]
  else if r =? 8 then [bsl; chr 98]
  else if r =? 12 then [bsl; chr 102]
  else if r =? 10 then [bsl; chr 110]
  else if r =? 13 then [bsl; chr 114]
  else if r =? 9 then [bsl; chr 116]
  else if r =? 11 then [bsl; chr 118]
  else if (r <? 32) || (r =? 127) then bsl :: chr 120 :: hex_digits 2 r
  else if r <? 65536 then bsl :: chr 117 :: hex_digits 4 r
  else bsl :: chr 85 :: hex_digits 8 r.

Definition quote (s : string) : string :=
  of_chars (chr 34 :: concat (escape_rune <$> runes s) ++ [chr 34]).
End Unicode.

(** ** Numbers *)

Definition min_int64 : Z := - 2 ^ 63.
Definition max_int64 : Z := 2 ^ 63 - 1.
(** Two's complement wrap-around of [int64]. *)
Definition wrap64 (z : Z) : Z := (z + 2 ^ 63) mod 2 ^ 64 - 2 ^ 63.

Fixpoint decimal_value (s : list ascii) (acc : Z) : option Z :=
  match s with
  | [] => Some acc
  | c :: s' => if is_digit_ascii c then decimal_value s' (acc * 10 + (code c - 48)) else None
  end.

(** [strconv.Atoi], [strconv.ParseInt(s, 10, 64)]: [None] for an error. *)
Definition atoi (s : string) : option Z :=
  let '(neg, ds) :=
    match chars s with
    | c :: r => if code c =? 45 then (true, r) else if code c =? 43 then (false, r) else (false, chars s)
    | [] => (false, [])
    end in
  match ds with
  | [] => None
  | _ =>
    match decimal_value ds 0 with
    | Some v =>
      let v := if neg : bool then - v else v in
      if (min_int64 <=? v) && (v <=? max_int64) then Some v else None
    | None => None
    end
  end.

(** ** Sorting

    [sort.Strings], and [sort.Slice] by a string key: [pdqsort] leaves the
    order of equal keys open, the stable merge sort below is one such order. *)
Definition key_le {A} (key : A → string) : relation A := λ x y, String.le (key x) (key y).
#[export] Instance key_le_dec {A} (key : A → string) : RelDecision (key_le key).
Proof. unfold key_le. intros x y. apply _. Defined.
Definition sort_by {A} (key : A → string) (l : list A) : list A := merge_sort (key_le key) l.
Definition sort_strings : list string → list string := sort_by id.

(** ** Strings as byte lists *)

Lemma chars_of_chars l : chars (of_chars l) = l.
Proof. apply String.list_ascii_of_string_of_list_ascii. Qed.
Lemma of_chars_chars s : of_chars (chars s) = s.
Proof. apply String.string_of_list_ascii_of_string. Qed.
Lemma chars_app a b : chars (a +:+ b) = chars a ++ chars b.
Proof. induction a as [|c a IH]; [done|]. change (c :: chars (a +:+ b) = c :: (chars a ++ chars b)). by rewrite IH. Qed.
Lemma of_chars_app a b : of_chars (a ++ b) = of_chars a +:+ of_chars b.
Proof. induction a as [|c a IH]; [done|]. change (String c (of_chars (a ++ b)) = String c (of_chars a +:+ of_chars b)). by rewrite IH. Qed.
Lemma chars_length s : length (chars s) = String.length s.
Proof. induction s as [|c s IH]; [done|]. simpl. by rewrite <-IH. Qed.
Lemma chars_inj a b : chars a = chars b → a = b.
Proof. intros E. by rewrite <-(of_chars_chars a), <-(of_chars_chars b), E. Qed.
Lemma string_length_app a b : String.length (a +:+ b) = (String.length a + String.length b)%nat.
Proof. by rewrite <-!chars_length, chars_app, length_app. Qed.
