(* ===== verification/Quote.v ===== *)
(** Facts about bytes, runes and [strconv.Quote]: a reference reader of quoted
    strings and the round trip through it. *)
From S2P Require Import Prelude GoStrings.

Lemma code_bounds c : 0 <= code c < 256.
Proof. unfold code. pose proof (N_ascii_bounded c). lia. Qed.
Lemma chr_code c : chr (code c) = c.
Proof. unfold chr, code. rewrite N2Z.id. apply ascii_N_embedding. Qed.
Lemma code_chr z : 0 <= z < 256 → code (chr z) = z.
Proof. intros. unfold chr, code. rewrite N_ascii_embedding; lia. Qed.
Lemma code_inj a b : code a = code b → a = b.
Proof. intros E. by rewrite <-(chr_code a), <-(chr_code b), E. Qed.

Create HintDb gostr.
Create Rewrite HintDb gostr_rw.
#[export] Hint Rewrite chars_of_chars of_chars_chars chars_app of_chars_app chars_length chr_code : gostr_rw.
#[export] Hint Resolve code_bounds : gostr.

(** ** Runes cover the string *)

Lemma decode_rune_width c s :
  ((decode_rune (c :: s)).2 = 1 ∨ (2 <= (decode_rune (c :: s)).2 <= 4)%nat)%nat.
Proof. unfold decode_rune; repeat case_match; simpl; lia. Qed.

Lemma decode_rune_width_pos c s : (1 <= (decode_rune (c :: s)).2)%nat.
Proof. pose proof (decode_rune_width c s). lia. Qed.

(** The bytes of the runes, in order, are the bytes of the string. *)
Lemma runes_fuel_concat fuel s :
  (length s <= fuel)%nat → concat (snd <$> runes_fuel fuel s) = s.
Proof.
  revert s; induction fuel as [|f IH]; intros s Hl.
  - by destruct s; [|simpl in Hl; lia].
  - destruct s as [|c s]; [done|]. cbn [runes_fuel].
    pose proof (decode_rune_width_pos c s) as Hw.
    destruct (decode_rune (c :: s)) as [r w] eqn:E. simpl in Hw.
    rewrite fmap_cons. cbn [concat snd]. rewrite IH; [apply take_drop|].
    rewrite length_drop. simpl in *. lia.
Qed.
Lemma runes_concat s : concat (snd <$> runes s) = chars s.
Proof. apply runes_fuel_concat. by rewrite chars_length. Qed.

(** What each entry of [runes] looks like: one ASCII byte, an invalid byte, or
    the UTF-8 encoding of a rune from 128 up. *)
Inductive rune_shape : Z * list ascii → Prop :=
| shape_ascii c : code c < 128 → rune_shape (code c, [c])
| shape_invalid c : 128 <= code c → rune_shape (rune_error, [c])
| shape_multi r bs :
    128 <= r < 1114112 → (2 <= length bs)%nat → encode_rune r = bs →
    Forall (λ c, 128 <= code c) bs → rune_shape (r, bs).

Lemma encode_rune_2 a b r :
  194 <= code a <= 223 → 128 <= code b <= 191 →
  r = (code a - 192) * 64 + (code b - 128) → encode_rune r = [a; b].
Proof.
  intros Ha Hb ->. unfold encode_rune.
  destruct (Z.ltb_spec ((code a - 192) * 64 + (code b - 128)) 128); [lia|].
  destruct (Z.ltb_spec ((code a - 192) * 64 + (code b - 128)) 2048); [|lia].
  repeat f_equal; apply code_inj; rewrite code_chr; zdiv.
Qed.
Lemma encode_rune_3 a b c r :
  224 <= code a <= 239 → 128 <= code b <= 191 → 128 <= code c <= 191 →
  r = (code a - 224) * 4096 + (code b - 128) * 64 + (code c - 128) →
  2048 <= r → encode_rune r = [a; b; c].
Proof.
  intros Ha Hb Hc -> Hr. unfold encode_rune.
  repeat match goal with |- context [if ?x <? ?y then _ else _] => destruct (Z.ltb_spec x y); try lia end.
  repeat f_equal; apply code_inj; rewrite code_chr; zdiv.
Qed.
Lemma encode_rune_4 a b c d r :
  240 <= code a <= 244 → 128 <= code b <= 191 → 128 <= code c <= 191 → 128 <= code d <= 191 →
  r = (code a - 240) * 262144 + (code b - 128) * 4096 + (code c - 128) * 64 + (code d - 128) →
  65536 <= r → encode_rune r = [a; b; c; d].
Proof.
  intros Ha Hb Hc Hd -> Hr. unfold encode_rune.
  repeat match goal with |- context [if ?x <? ?y then _ else _] => destruct (Z.ltb_spec x y); try lia end.
  repeat f_equal; apply code_inj; rewrite code_chr; zdiv.
Qed.

(** Splits the boolean conjunctions and comparisons of the context. *)
Ltac bsplit :=
  repeat match goal with
  | H : _ && _ = true |- _ => apply andb_true_iff in H as [? H]
  | H : (_ <=? _) = true |- _ => apply Z.leb_le in H
  | H : (_ <? _) = true |- _ => apply Z.ltb_lt in H
  | H : (_ <? _) = false |- _ => apply Z.ltb_ge in H
  | H : is_cont _ = true |- _ => unfold is_cont in H
  end.

Lemma decode_rune_shape c s r w :
  decode_rune (c :: s) = (r, w) → rune_shape (r, take w (c :: s)).
Proof.
  unfold decode_rune. intros E.
  pose proof (code_bounds c).
  repeat case_match; simplify_eq/=;
    try (apply shape_invalid; bsplit; lia);
    try (apply shape_ascii; bsplit; lia).
  all: bsplit; repeat case_match; bsplit; rewrite ?Z.eqb_eq, ?Z.eqb_neq in *.
  all: apply shape_multi;
    [lia|simpl; lia|first [apply encode_rune_2|apply encode_rune_3|apply encode_rune_4]; lia|].
  all: repeat constructor; lia.
Qed.

Lemma runes_shape s : Forall rune_shape (runes s).
Proof.
  unfold runes. generalize (String.length s), (chars s). intros n.
  induction n as [|n IH]; intros l; [constructor|].
  destruct l as [|c l]; [constructor|]. cbn [runes_fuel].
  destruct (decode_rune (c :: l)) as [r w] eqn:E.
  constructor; [by apply decode_rune_shape|apply IH].
Qed.

(** ** A reader of quoted strings

    [unquote_body] reads after the opening quote: the bytes denoted and what
    follows the closing quote.  It knows the escapes [strconv.Unquote] knows. *)
Definition hex_digit_value (c : ascii) : option Z :=
  let z := code c in
  if (48 <=? z) && (z <=? 57) then Some (z - 48)
  else if (97 <=? z) && (z <=? 102) then Some (z - 87)
  else None.

Fixpoint hex_number (l : list ascii) (acc : Z) : option Z :=
  match l with
  | [] => Some acc
  | c :: l' => match hex_digit_value c with
               | Some d => hex_number l' (acc * 16 + d)
               | None => None
               end
  end.

Definition simple_escape (z : Z) : option Z :=
  if z =? 97 then Some 7 else if z =? 98 then Some 8 else if z =? 102 then Some 12
  else if z =? 110 then Some 10 else if z =? 114 then Some 13 else if z =? 116 then Some 9
  else if z =? 118 then Some 11 else if z =? 34 then Some 34 else if z =? 92 then Some 92
  else None.

Definition push (bs : list ascii) (r : option (list ascii * list ascii)) : option (list ascii * list ascii) :=
  match r with Some (out, rest) => Some (bs ++ out, rest) | None => None end.

Fixpoint unquote_body (fuel : nat) (l : list ascii) : option (list ascii * list ascii) :=
  match fuel with
  | O => None
  | S f =>
    match l with
    | [] => None
    | c :: l1 =>
      if code c =? 34 then Some ([], l1)
      else if code c =? 10 then None
      else if negb (code c =? 92) then push [c] (unquote_body f l1)
      else
        match l1 with
        | [] => None
        | e :: l2 =>
          if code e =? 120 then
            match hex_number (take 2 l2) 0 with
            | Some v => push [chr v] (unquote_body f (drop 2 l2))
            | None => None
            end
          else if code e =? 117 then
            match hex_number (take 4 l2) 0 with
            | Some v => push (encode_rune v) (unquote_body f (drop 4 l2))
            | None => None
            end
          else if code e =? 85 then
            match hex_number (take 8 l2) 0 with
            | Some v => push (encode_rune v) (unquote_body f (drop 8 l2))
            | None => None
            end
          else
            match simple_escape (code e) with
            | Some v => push [chr v] (unquote_body f l2)
            | None => None
            end
        end
    end
  end.

(** Reads one quoted string from the front of [l]. *)
Definition unquote (l : list ascii) : option (list ascii * list ascii) :=
  match l with
  | c :: l' => if code c =? 34 then unquote_body (length l') l' else None
  | [] => None
  end.

(** More fuel reads the same. *)
Lemma unquote_body_mono f f' l r :
  unquote_body f l = Some r → (f <= f')%nat → unquote_body f' l = Some r.
Proof.
  revert f' l r; induction f as [|f IH]; intros f' l r E Hle; [done|].
  destruct f' as [|f']; [lia|]. revert E. cbn [unquote_body].
  repeat (case_match; try done);
    unfold push; repeat case_match; try done; intros; simplify_eq;
    match goal with
    | H1 : unquote_body f ?x = Some _, H2 : unquote_body f' ?x = _ |- _ =>
      apply (IH f') in H1; [congruence|lia]
    end.
Qed.

(** The length of the input is enough fuel. *)
Lemma unquote_body_fuel f l r :
  unquote_body f l = Some r → unquote_body (length l) l = Some r.
Proof.
  revert l r; induction f as [|f IH]; intros l r E; [done|].
  destruct l as [|c l1]; [done|]. revert E. cbn [unquote_body length].
  repeat (case_match; try done);
    unfold push; repeat case_match; try done; intros; simplify_eq;
    match goal with
    | H1 : unquote_body f ?x = Some _, H2 : unquote_body (length ?y) ?x = _ |- _ =>
      apply IH, (unquote_body_mono _ (length y)) in H1;
        [congruence|rewrite ?length_drop; simpl; lia]
    end.
Qed.

Lemma length_hex_digits n z : length (hex_digits n z) = n.
Proof. revert z; induction n; intros; simpl; [done|]. rewrite length_app, IHn. simpl. lia. Qed.

Lemma hex_digit_value_digit d : 0 <= d < 16 → hex_digit_value (hex_digit d) = Some d.
Proof.
  intros. unfold hex_digit_value, hex_digit.
  destruct (Z.ltb_spec d 10); rewrite code_chr by lia.
  - destruct (Z.leb_spec 48 (48 + d)), (Z.leb_spec (48 + d) 57); simpl; try lia. f_equal; lia.
  - destruct (Z.leb_spec 48 (87 + d)), (Z.leb_spec (87 + d) 57); simpl; try lia.
    destruct (Z.leb_spec 97 (87 + d)), (Z.leb_spec (87 + d) 102); simpl; try lia. f_equal; lia.
Qed.

Lemma hex_number_app l1 l2 acc :
  hex_number (l1 ++ l2) acc = match hex_number l1 acc with Some v => hex_number l2 v | None => None end.
Proof. revert acc; induction l1 as [|c l IH]; intros; simpl; [done|]. by case_match. Qed.

Lemma hex_number_digits n z acc :
  0 <= z < 16 ^ Z.of_nat n → hex_number (hex_digits n z) acc = Some (acc * 16 ^ Z.of_nat n + z).
Proof.
  revert z acc; induction n as [|n IH]; intros z acc Hz.
  - simpl in *. f_equal. lia.
  - cbn [hex_digits]. rewrite hex_number_app.
    assert (0 < 16 ^ Z.of_nat n) by (apply Z.pow_pos_nonneg; lia).
    replace (16 ^ Z.of_nat (S n)) with (16 * 16 ^ Z.of_nat n) in * by (rewrite Nat2Z.inj_succ, Z.pow_succ_r; lia).
    rewrite IH by zdiv. cbn [hex_number]. rewrite hex_digit_value_digit by zdiv.
    f_equal. zdiv.
Qed.

(** The three numeric escapes. *)
Lemma unquote_body_hex f (n : nat) (e z : Z) l :
  (e = 120 ∧ n = 2%nat ∨ e = 117 ∧ n = 4%nat ∨ e = 85 ∧ n = 8%nat) → 0 <= z < 16 ^ Z.of_nat n →
  unquote_body (S f) (chr 92 :: chr e :: hex_digits n z ++ l) =
  push (if e =? 120 then [chr z] else encode_rune z) (unquote_body f l).
Proof.
  intros He Hz. pose proof (hex_number_digits n z 0 Hz) as Hn.
  assert (Ht : take n (hex_digits n z ++ l) = hex_digits n z).
  { rewrite take_app_le by (rewrite length_hex_digits; lia).
    apply take_ge. rewrite length_hex_digits. lia. }
  assert (Hd : drop n (hex_digits n z ++ l) = l).
  { rewrite drop_app_ge by (rewrite length_hex_digits; lia).
    rewrite length_hex_digits, Nat.sub_diag. done. }
  cbn [unquote_body]. rewrite !code_chr by lia.
  destruct He as [[-> ->]|[[-> ->]|[-> ->]]]; simpl (_ =? _); cbn [negb];
    rewrite Ht, Hd, Hn; done.
Qed.

Section Roundtrip.
Context {UT : UnicodeTables}.

(** One ASCII byte, escaped or not: the 128 cases by computation. *)
Lemma unquote_escape_ascii f c l :
  code c < 128 →
  unquote_body (S f) (escape_rune (code c, [c]) ++ l) = push [c] (unquote_body f l).
Proof.
  intros Hc. destruct c as [[] [] [] [] [] [] [] []]; first [reflexivity | by vm_compute in Hc].
Qed.

(** One byte that needs no escape. *)
Lemma unquote_body_plain f c l :
  code c ≠ 34 → code c ≠ 92 → code c ≠ 10 →
  unquote_body (S f) (c :: l) = push [c] (unquote_body f l).
Proof.
  intros H1 H2 H3. cbn [unquote_body].
  destruct (Z.eqb_spec (code c) 34), (Z.eqb_spec (code c) 92), (Z.eqb_spec (code c) 10); done.
Qed.

Lemma push_app a b r : push a (push b r) = push (a ++ b) r.
Proof. destruct r as [[o q]|]; simpl; [by rewrite (assoc_L (++))|done]. Qed.

Lemma unquote_body_plains bs f l :
  Forall (λ c, 128 <= code c) bs →
  unquote_body (length bs + f) (bs ++ l) = push bs (unquote_body f l).
Proof.
  induction 1 as [|c bs Hc Hbs IH]; cbn [length Nat.add app].
  - by destruct (unquote_body f l) as [[? ?]|].
  - rewrite unquote_body_plain by lia. rewrite IH. apply push_app.
Qed.

(** The escape of one rune reads back as the bytes of the rune. *)
Lemma unquote_escape rb l r :
  rune_shape rb → (∃ f, unquote_body f l = Some r) →
  ∃ f, unquote_body f (escape_rune rb ++ l) = push (snd rb) (Some r).
Proof.
  intros Hs [f Hf]. destruct Hs as [c Hc|c Hc|z bs Hz Hl He Hbs].
  - exists (S f). by rewrite unquote_escape_ascii, Hf.
  - exists (S f). pose proof (code_bounds c). unfold escape_rune.
    rewrite Z.eqb_refl. cbn [length Nat.eqb andb snd].
    change ((chr 92 :: chr 120 :: hex_digits 2 (code c)) ++ l) with (chr 92 :: chr 120 :: hex_digits 2 (code c) ++ l).
    rewrite unquote_body_hex by (first [lia|left; done]). by rewrite Hf, chr_code.
  - cbn [snd]. unfold escape_rune.
    replace (length bs =? 1)%nat with false by (symmetry; apply Nat.eqb_neq; lia).
    rewrite andb_false_r.
    destruct (Z.eqb_spec z 34), (Z.eqb_spec z 92); cbn [orb]; try lia.
    case_match.
    { exists (length bs + f)%nat. by rewrite unquote_body_plains, Hf. }
    repeat match goal with |- context [z =? ?n] => destruct (Z.eqb_spec z n); try lia end.
    destruct (Z.ltb_spec z 32); cbn [orb]; try lia.
    exists (S f). destruct (Z.ltb_spec z 65536).
    + change ((chr 92 :: chr 117 :: hex_digits 4 z) ++ l) with (chr 92 :: chr 117 :: hex_digits 4 z ++ l).
      rewrite unquote_body_hex by (first [lia|right; left; done]). by rewrite Hf, He.
    + change ((chr 92 :: chr 85 :: hex_digits 8 z) ++ l) with (chr 92 :: chr 85 :: hex_digits 8 z ++ l).
      rewrite unquote_body_hex by (first [lia|right; right; done]). by rewrite Hf, He.
Qed.

Lemma unquote_escapes rs l :
  Forall rune_shape rs →
  ∃ f, unquote_body f (concat (escape_rune <$> rs) ++ chr 34 :: l) = Some (concat (snd <$> rs), l).
Proof.
  induction 1 as [|rb rs Hs Hrs IH].
  - by exists 1%nat.
  - destruct (unquote_escape rb _ _ Hs IH) as [f Hf]. exists f.
    rewrite !fmap_cons. cbn [concat]. rewrite <-(assoc_L (++)). by rewrite Hf.
Qed.

(** [strconv.Quote] is undone by the reader, whatever follows it: a quoted
    value ends at its own closing quote. *)
Lemma unquote_quote s l : unquote (chars (quote s) ++ l) = Some (chars s, l).
Proof.
  unfold quote. rewrite chars_of_chars. cbn [app unquote].
  rewrite code_chr by lia. cbn [Z.eqb Pos.eqb].
  rewrite <-(assoc_L (++)). cbn [app].
  destruct (unquote_escapes (runes s) l (runes_shape s)) as [f Hf].
  rewrite runes_concat in Hf.
  by apply unquote_body_fuel in Hf.
Qed.

Lemma quote_inj a b : quote a = quote b → a = b.
Proof.
  intros E. apply chars_inj.
  pose proof (unquote_quote a []) as Ha. rewrite E, unquote_quote in Ha. congruence.
Qed.
End Roundtrip.
