(* ===== verification/Base64.v ===== *)
(** [encoding/base64]: the raw (unpadded) encodings with the URL and the
    standard alphabets, as used for credentials, session tokens, password
    hashes and deep links. The decoder skips carriage returns and new lines and
    ignores the unused low bits of the last digit. *)
From S2P Require Import Prelude GoStrings Quote.

Inductive alphabet : Type := RawURL | RawStd.

Definition b64_char (a : alphabet) (v : Z) : ascii :=
  if v <? 26 then chr (65 + v)
  else if v <? 52 then chr (71 + v)
  else if v <? 62 then chr (v - 4)
  else match a with
       | RawURL => if v =? 62 then "-"%char else "_"%char
       | RawStd => if v =? 62 then "+"%char else "/"%char
       end.
Definition b64_value (a : alphabet) (c : ascii) : option Z :=
  if is_upper_ascii c then Some (code c - 65)
  else if is_lower_ascii c then Some (code c - 71)
  else if is_digit_ascii c then Some (code c + 4)
  else match a with
       | RawURL => if bool_decide (c = "-"%char) then Some 62 else if bool_decide (c = "_"%char) then Some 63 else None
       | RawStd => if bool_decide (c = "+"%char) then Some 62 else if bool_decide (c = "/"%char) then Some 63 else None
       end.

Fixpoint b64_digits (bs : list ascii) : list Z :=
  match bs with
  | a :: b :: c :: r =>
    code a / 4 :: (code a mod 4 * 16 + code b / 16) :: (code b mod 16 * 4 + code c / 64) :: code c mod 64
      :: b64_digits r
  | [a; b] => [code a / 4; code a mod 4 * 16 + code b / 16; code b mod 16 * 4]
  | [a] => [code a / 4; code a mod 4 * 16]
  | [] => []
  end.
Fixpoint b64_bytes (vs : list Z) : option (list ascii) :=
  match vs with
  | p :: q :: r :: s :: vs' =>
    (λ l, chr (p * 4 + q / 16) :: chr (q mod 16 * 16 + r / 4) :: chr (r mod 4 * 64 + s) :: l) <$> b64_bytes vs'
  | [p; q; r] => Some [chr (p * 4 + q / 16); chr (q mod 16 * 16 + r / 4)]
  | [p; q] => Some [chr (p * 4 + q / 16)]
  | [p] => None
  | [] => Some []
  end.

Definition b64_encode (a : alphabet) (s : string) : string :=
  of_chars (b64_char a <$> b64_digits (chars s)).
Definition is_line_end (c : ascii) : bool := (code c =? 10) || (code c =? 13).
Definition b64_decode (a : alphabet) (s : string) : option string :=
  match mapM (b64_value a) (List.filter (λ c, negb (is_line_end c)) (chars s)) with
  | Some vs => of_chars <$> b64_bytes vs
  | None => None
  end.

Example b64_encode_example : b64_encode RawURL "any carnal pleas" = "YW55IGNhcm5hbCBwbGVhcw".
Proof. vm_compute. reflexivity. Qed.

(** ** Round trip *)

(** Induction by three bytes. *)
Lemma list_ind3 {A} (P : list A → Prop) :
  P [] → (∀ a, P [a]) → (∀ a b, P [a; b]) → (∀ a b c l, P l → P (a :: b :: c :: l)) → ∀ l, P l.
Proof.
  intros H0 H1 H2 H3 l. cut (P l ∧ (∀ a, P (a :: l)) ∧ ∀ a b, P (a :: b :: l)); [by intros []|].
  induction l as [|x l (I0 & I1 & I2)]; [done|]. split; [done|]. split; auto.
Qed.

Definition sextet (v : Z) : Prop := 0 <= v < 64.
Lemma b64_digits_sextets bs : Forall sextet (b64_digits bs).
Proof.
  induction bs as [|a|a b|a b c l IH] using list_ind3; simpl; repeat constructor; try done;
    try pose proof (code_bounds a); try pose proof (code_bounds b); try pose proof (code_bounds c); zdiv.
Qed.
Lemma b64_bytes_digits bs : b64_bytes (b64_digits bs) = Some bs.
Proof.
  induction bs as [|a|a b|a b c l IH] using list_ind3; simpl; [done|..].
  - pose proof (code_bounds a). do 2 f_equal.
    replace (code a / 4 * 4 + code a mod 4 * 16 / 16) with (code a) by zdiv. apply chr_code.
  - pose proof (code_bounds a). pose proof (code_bounds b).
    replace (code a / 4 * 4 + (code a mod 4 * 16 + code b / 16) / 16) with (code a) by zdiv.
    replace ((code a mod 4 * 16 + code b / 16) mod 16 * 16 + code b mod 16 * 4 / 4) with (code b) by zdiv.
    by rewrite !chr_code.
  - rewrite IH. simpl. pose proof (code_bounds a). pose proof (code_bounds b). pose proof (code_bounds c).
    replace (code a / 4 * 4 + (code a mod 4 * 16 + code b / 16) / 16) with (code a) by zdiv.
    replace ((code a mod 4 * 16 + code b / 16) mod 16 * 16 + (code b mod 16 * 4 + code c / 64) / 4)
      with (code b) by zdiv.
    replace ((code b mod 16 * 4 + code c / 64) mod 4 * 64 + code c mod 64) with (code c) by zdiv.
    by rewrite !chr_code.
Qed.

Definition all_sextets : list Z := Z.of_nat <$> seq 0 64.
Lemma sextet_in v : sextet v → v ∈ all_sextets.
Proof.
  intros Hv. unfold all_sextets. apply list_elem_of_fmap. exists (Z.to_nat v).
  split; [by rewrite Z2Nat.id by apply Hv|]. apply elem_of_seq. unfold sextet in Hv. lia.
Qed.
(** A property of the digits, decided on each of them. *)
Lemma sextet_cases (f : Z → bool) : forallb f all_sextets = true → ∀ v, sextet v → f v = true.
Proof. intros H v Hv%sextet_in. rewrite forallb_forall in H. apply H. by apply list_elem_of_In. Qed.

Lemma b64_value_char a v : sextet v → b64_value a (b64_char a v) = Some v.
Proof.
  intros Hv.
  pose proof (sextet_cases (λ v, bool_decide (b64_value a (b64_char a v) = Some v))) as H.
  simpl in H. specialize (H ltac:(destruct a; vm_compute; reflexivity) v Hv).
  by apply bool_decide_eq_true in H.
Qed.
Lemma b64_char_not_line_end a v : sextet v → negb (is_line_end (b64_char a v)) = true.
Proof.
  revert v. apply (sextet_cases (λ v, negb (is_line_end (b64_char a v)))). destruct a; vm_compute; reflexivity.
Qed.

Lemma b64_decode_encode a s : b64_decode a (b64_encode a s) = Some s.
Proof.
  unfold b64_decode, b64_encode. rewrite chars_of_chars.
  assert (Hs := b64_digits_sextets (chars s)).
  assert (Hf : List.filter (λ c, negb (is_line_end c)) (b64_char a <$> b64_digits (chars s))
               = b64_char a <$> b64_digits (chars s)).
  { induction Hs as [|v l Hv Hs IH]; [done|]. rewrite fmap_cons. cbn [List.filter].
    by rewrite b64_char_not_line_end, IH. }
  rewrite Hf. assert (Hm : mapM (b64_value a) (b64_char a <$> b64_digits (chars s)) = Some (b64_digits (chars s))).
  { clear Hf. induction Hs as [|v l Hv Hs IH]; [done|]. rewrite fmap_cons. cbn [mapM].
    by rewrite b64_value_char, IH. }
  rewrite Hm, b64_bytes_digits. simpl. by rewrite of_chars_chars.
Qed.

(** The length of an encoding. *)
Lemma b64_encode_length a s : len (b64_encode a s) = (len s * 4 + 2) / 3.
Proof.
  unfold b64_encode, len. rewrite <-!chars_length, chars_of_chars, length_fmap.
  induction (chars s) as [|x|x y|x y z l IH] using list_ind3; simpl; [done..|].
  rewrite !Nat2Z.inj_succ. simpl length in *. rewrite IH. zdiv.
Qed.
