(* ===== verification/Sha256.v ===== *)
(** Go's [crypto/sha256] and [encoding/hex]: SHA-256 (FIPS 180-4) on 32-bit
    words kept as [Z] below [2^32], with the published test vectors.  The
    revision stores name their directories by this digest; the class below is
    the part of it they rely on. *)
From S2P Require Import Prelude GoStrings Quote.

(** ** Words *)

Definition w32 (x : Z) : Z := Z.land x (Z.ones 32).
Definition rotr (n x : Z) : Z := w32 (Z.lor (Z.shiftr x n) (Z.shiftl x (32 - n))).
Definition shr (n x : Z) : Z := Z.shiftr x n.
Definition not32 (x : Z) : Z := Z.lxor x (Z.ones 32).
Definition xor3 (a b c : Z) : Z := Z.lxor (Z.lxor a b) c.

Definition big_sigma0 x := xor3 (rotr 2 x) (rotr 13 x) (rotr 22 x).
Definition big_sigma1 x := xor3 (rotr 6 x) (rotr 11 x) (rotr 25 x).
Definition small_sigma0 x := xor3 (rotr 7 x) (rotr 18 x) (shr 3 x).
Definition small_sigma1 x := xor3 (rotr 17 x) (rotr 19 x) (shr 10 x).
Definition ch x y z := Z.lxor (Z.land x y) (Z.land (not32 x) z).
Definition maj x y z := xor3 (Z.land x y) (Z.land x z) (Z.land y z).

Definition sha_k : list Z :=
  [1116352408; 1899447441; 3049323471; 3921009573; 961987163; 1508970993;
   2453635748; 2870763221; 3624381080; 310598401; 607225278; 1426881987;
   1925078388; 2162078206; 2614888103; 3248222580; 3835390401; 4022224774;
   264347078; 604807628; 770255983; 1249150122; 1555081692; 1996064986;
   2554220882; 2821834349; 2952996808; 3210313671; 3336571891; 3584528711;
   113926993; 338241895; 666307205; 773529912; 1294757372; 1396182291;
   1695183700; 1986661051; 2177026350; 2456956037; 2730485921; 2820302411;
   3259730800; 3345764771; 3516065817; 3600352804; 4094571909; 275423344;
   430227734; 506948616; 659060556; 883997877; 958139571; 1322822218;
   1537002063; 1747873779; 1955562222; 2024104815; 2227730452; 2361852424;
   2428436474; 2756734187; 3204031479; 3329325298].
Definition sha_h0 : list Z :=
  [1779033703; 3144134277; 1013904242; 2773480762; 1359893119; 2600822924; 528734635; 1541459225].

(** ** The digest *)

(** The message, one bit, zeros up to 56 bytes modulo 64, the length in bits. *)
Definition sha_pad (msg : list Z) : list Z :=
  let n := Z.of_nat (length msg) in
  let zeros := Z.to_nat ((55 - n) mod 64) in
  msg ++ [128] ++ replicate zeros 0
  ++ map (λ i, Z.land (Z.shiftr (8 * n) (8 * (7 - i))) 255) [0; 1; 2; 3; 4; 5; 6; 7].

Fixpoint sha_words (bs : list Z) : list Z :=
  match bs with
  | a :: b :: c :: d :: r => (16777216 * a + 65536 * b + 256 * c + d) :: sha_words r
  | _ => []
  end.

(** The message schedule, newest word first, extended [n] times. *)
Fixpoint sha_schedule (n : nat) (rev_w : list Z) : list Z :=
  match n with
  | O => reverse rev_w
  | S n' =>
    let w i := nth i rev_w 0 in
    sha_schedule n' (w32 (small_sigma1 (w 1%nat) + w 6%nat + small_sigma0 (w 14%nat) + w 15%nat) :: rev_w)
  end.

Definition sha_round (s : list Z) (kw : Z * Z) : list Z :=
  match s with
  | [a; b; c; d; e; f; g; h] =>
    let t1 := h + big_sigma1 e + ch e f g + kw.1 + kw.2 in
    let t2 := big_sigma0 a + maj a b c in
    [w32 (t1 + t2); a; b; c; w32 (d + t1); e; f; g]
  | _ => s
  end.

Definition sha_block (s : list Z) (words : list Z) : list Z :=
  let w := sha_schedule 48 (reverse words) in
  zip_with (λ x y, w32 (x + y)) s (foldl sha_round s (zip sha_k w)).

Fixpoint sha_blocks (n : nat) (s : list Z) (words : list Z) : list Z :=
  match n with
  | O => s
  | S n' => sha_blocks n' (sha_block s (take 16 words)) (drop 16 words)
  end.

Definition sha256_words (msg : list Z) : list Z :=
  let words := sha_words (sha_pad msg) in
  sha_blocks (length words / 16) sha_h0 words.

(** ** [hex.EncodeToString] *)

Definition hex_word (x : Z) : list ascii :=
  map (λ i, hex_digit (Z.land (Z.shiftr x (4 * (7 - i))) 15)) [0; 1; 2; 3; 4; 5; 6; 7].

Definition sha256_sum_hex (s : string) : string :=
  of_chars (concat (map hex_word (take 8 (sha256_words (map code (chars s)) ++ replicate 8 0)))).

(** [sha256.Sum256]: the digest as bytes. *)
Definition word_bytes (x : Z) : list ascii :=
  map (λ i, chr (Z.land (Z.shiftr x (8 * (3 - i))) 255)) [0; 1; 2; 3].
Definition sha256_sum (s : string) : string :=
  of_chars (concat (map word_bytes (take 8 (sha256_words (map code (chars s)))))).

(** The published vectors. *)
Example sha256_empty :
  sha256_sum_hex "" = "e3b0c44298fc1c149afbf4c8996fb92427ae41e4649b934ca495991b7852b855".
Proof. vm_compute. reflexivity. Qed.
Example sha256_abc :
  sha256_sum_hex "abc" = "ba7816bf8f01cfea414140de5dae2223b00361a396177a9cb410ff61f20015ad".
Proof. vm_compute. reflexivity. Qed.
Example sha256_two_blocks :
  sha256_sum_hex "abcdbcdecdefdefgefghfghighijhijkijkljklmklmnlmnomnopnopq"
  = "248d6a61d20638b8e5c026930c3e6039a33ce45964ff2167f6ecedd419db06c1".
Proof. vm_compute. reflexivity. Qed.

(** ** What the stores rely on *)

Definition is_hex_digit (c : ascii) : Prop := is_digit_ascii c = true ∨ 97 <= code c <= 102.

Class Sha256 := {
  sha256_hex : string → string;
  sha256_hex_shape : ∀ s,
    String.length (sha256_hex s) = 64%nat ∧ Forall is_hex_digit (chars (sha256_hex s))
}.

Lemma hex_digit_shape d : 0 <= d < 16 → is_hex_digit (hex_digit d).
Proof.
  intros Hd. assert (Hin : In d [0;1;2;3;4;5;6;7;8;9;10;11;12;13;14;15]) by (simpl; lia).
  simpl in Hin. repeat (destruct Hin as [<-|Hin]; [first [left; done|right; vm_compute; done]|]). done.
Qed.
Lemma hex_word_digits x : Forall is_hex_digit (hex_word x).
Proof.
  unfold hex_word. apply Forall_forall. intros c [i [-> _]]%list_elem_of_fmap.
  apply hex_digit_shape. change 15 with (Z.ones 4). rewrite Z.land_ones by lia.
  apply Z.mod_pos_bound. lia.
Qed.

#[export] Program Instance sha256_go : Sha256 := {| sha256_hex := sha256_sum_hex |}.
Next Obligation.
  intros s. unfold sha256_sum_hex. rewrite chars_of_chars, <-chars_length, chars_of_chars.
  set (l := take 8 _). assert (Hl : length l = 8%nat).
  { unfold l. rewrite length_take, length_app, length_replicate. lia. }
  split.
  - clearbody l. do 9 (destruct l as [|? l]; try done).
  - clear Hl. induction l as [|x l IH]; [constructor|]. cbn [map concat]. apply Forall_app. split; [apply hex_word_digits|done].
Qed.
