(* ===== verification/GoPath.v ===== *)
(** [path/filepath] on Unix and the parts of [net] that the program calls:
    lexical paths, [SplitHostPort], [JoinHostPort], [ParseIP], [ParseCIDR]. *)
From S2P Require Import Prelude GoStrings Quote.

(** ** path/filepath *)

Definition slash : ascii := "/"%char.

(** [filepath.IsAbs] *)
Definition is_abs (p : string) : bool := has_prefix p "/".

(** The element loop of [filepath.Clean]: [acc] is the reversed output. *)
Fixpoint clean_elems (rooted : bool) (acc elems : list string) : list string :=
  match elems with
  | [] => rev acc
  | e :: es =>
    if bool_decide (e = "") || bool_decide (e = ".") then clean_elems rooted acc es
    else if bool_decide (e = "..") then
      match acc with
      | a :: acc' =>
        if bool_decide (a = "..") then clean_elems rooted (e :: acc) es
        else clean_elems rooted acc' es
      | [] => if rooted then clean_elems rooted [] es else clean_elems rooted [e] es
      end
    else clean_elems rooted (e :: acc) es
  end.

(** [filepath.Clean] *)
Definition clean (p : string) : string :=
  if bool_decide (p = "") then "."
  else
    let rooted := is_abs p in
    let out := (if rooted then "/" else "") +:+ join_strings "/" (clean_elems rooted [] (split p slash)) in
    if bool_decide (out = "") then "." else out.

(** [filepath.Join] *)
Definition join_path (elems : list string) : string :=
  match filter (λ e, e ≠ "") elems with
  | [] => ""
  | es => clean (join_strings "/" es)
  end.

Fixpoint strip_trailing (c : ascii) (l : list ascii) : list ascii :=
  match l with
  | [] => []
  | x :: l' => if bool_decide (x = c) then strip_trailing c l' else l
  end.

(** [filepath.Base] *)
Definition base_name (p : string) : string :=
  if bool_decide (p = "") then "."
  else
    let s := rev (strip_trailing slash (rev (chars p))) in
    match last_index s slash 0 None with
    | Some i => of_chars (drop (S i) s)
    | None => if bool_decide (s = []) then "/" else of_chars s
    end.

(** [filepath.Dir] *)
Definition dir_name (p : string) : string :=
  match last_index_byte p slash with
  | Some i => clean (take_bytes (S i) p)
  | None => clean ""
  end.

(** ** net *)

(** [net.SplitHostPort] *)
Definition split_host_port (hp : string) : option (string * string) :=
  let s := chars hp in
  match last_index_byte hp ":"%char with
  | None => None
  | Some i =>
    let finish (host : list ascii) (j k : nat) : option (string * string) :=
      if existsb (λ x, bool_decide (x = "["%char)) (drop j s) then None
      else if existsb (λ x, bool_decide (x = "]"%char)) (drop k s) then None
      else Some (of_chars host, of_chars (drop (S i) s)) in
    match s with
    | c :: _ =>
      if bool_decide (c = "["%char) then
        match list_find (λ x, x = "]"%char) s with
        | None => None
        | Some (e, _) => if (S e =? i)%nat then finish (drop 1 (take e s)) 1%nat (S e) else None
        end
      else
        let host := take i s in
        if existsb (λ x, bool_decide (x = ":"%char)) host then None else finish host 0%nat 0%nat
    | [] => None
    end
  end.

(** [net.JoinHostPort] *)
Definition join_host_port (host port : string) : string :=
  if has_byte host ":"%char then "[" +:+ host +:+ "]:" +:+ port else host +:+ ":" +:+ port.

(** One decimal field of an IPv4 address: 0-255, no leading zero. *)
Definition parse_octet (s : list ascii) : option Z :=
  match s with
  | [] => None
  | c :: r =>
    if (code c =? 48) && negb (bool_decide (r = [])) then None
    else match decimal_value s 0 with
         | Some v => if v <=? 255 then Some v else None
         | None => None
         end
  end.

Definition parse_ipv4 (s : list ascii) : option (list Z) :=
  match split_chars "."%char [] s with
  | [a; b; c; d] =>
    match parse_octet a, parse_octet b, parse_octet c, parse_octet d with
    | Some a, Some b, Some c, Some d => Some [a; b; c; d]
    | _, _, _, _ => None
    end
  | _ => None
  end.

Definition hex_value (c : ascii) : option Z :=
  if is_digit_ascii c then Some (code c - 48)
  else if (97 <=? code c) && (code c <=? 102) then Some (code c - 87)
  else if (65 <=? code c) && (code c <=? 70) then Some (code c - 55)
  else None.

(** The leading hexadecimal digits of [s]: value, count, rest. *)
Fixpoint take_hex (s : list ascii) (v : Z) (n : nat) : Z * nat * list ascii :=
  match s with
  | [] => (v, n, [])
  | c :: s' =>
    match hex_value c with
    | Some d => take_hex s' (v * 16 + d) (S n)
    | None => (v, n, s)
    end
  end.

(** The group loop of [netip.parseIPv6]: [acc] holds the bytes read so far,
    [ell] where [::] stood.  At most eight groups are read, so nine rounds of
    fuel are enough. *)
Fixpoint ipv6_groups (fuel : nat) (s : list ascii) (acc : list Z) (ell : option nat)
  : option (list Z * option nat) :=
  match fuel with
  | O => None
  | S f =>
    if (16 <=? length acc)%nat then (if bool_decide (s = []) then Some (acc, ell) else None)
    else
      let '(v, n, r) := take_hex s 0 0 in
      if (4 <? n)%nat || (n =? 0)%nat then None
      else
        match r with
        | [] => Some (acc ++ [v / 256; v mod 256], ell)
        | c :: r' =>
          if bool_decide (c = "."%char) then
            if (bool_decide (ell = None) && negb (length acc =? 12)%nat) || (12 <? length acc)%nat
            then None
            else match parse_ipv4 s with
                 | Some ip => Some (acc ++ ip, ell)
                 | None => None
                 end
          else if negb (bool_decide (c = ":"%char)) then None
          else
            let acc := acc ++ [v / 256; v mod 256] in
            match r' with
            | [] => None
            | c' :: r'' =>
              if bool_decide (c' = ":"%char) then
                match ell with
                | Some _ => None
                | None =>
                  if bool_decide (r'' = []) then Some (acc, Some (length acc))
                  else ipv6_groups f r'' acc (Some (length acc))
                end
              else ipv6_groups f r' acc ell
            end
        end
  end.

Definition parse_ipv6 (s : list ascii) : option (list Z) :=
  let finish (r : option (list Z * option nat)) :=
    match r with
    | Some (acc, ell) =>
      if (length acc <? 16)%nat then
        match ell with
        | None => None
        | Some e => Some (take e acc ++ replicate (16 - length acc) 0 ++ drop e acc)
        end
      else match ell with Some _ => None | None => Some acc end
    | None => None
    end in
  match s with
  | c1 :: c2 :: r =>
    if bool_decide (c1 = ":"%char) && bool_decide (c2 = ":"%char) then
      if bool_decide (r = []) then Some (replicate 16 0)
      else finish (ipv6_groups 9 r [] (Some 0%nat))
    else finish (ipv6_groups 9 s [] None)
  | _ => finish (ipv6_groups 9 s [] None)
  end.

(** [netip.ParseAddr] without a zone, as [net.ParseIP] and [net.ParseCIDR]
    call it: the first of [.] and [:] decides the family, and a [%] (a zone)
    is refused by both callers. *)
Fixpoint first_of (s : list ascii) : option ascii :=
  match s with
  | [] => None
  | c :: s' =>
    if bool_decide (c = "."%char) || bool_decide (c = ":"%char) || bool_decide (c = "%"%char)
    then Some c else first_of s'
  end.
Definition parse_addr (s : string) : option (list Z) :=
  match first_of (chars s) with
  | Some c =>
    if bool_decide (c = "."%char) then parse_ipv4 (chars s)
    else if bool_decide (c = ":"%char) then parse_ipv6 (chars s)
    else None
  | None => None
  end.

(** [net.ParseIP]: four or sixteen bytes. *)
Definition parse_ip : string → option (list Z) := parse_addr.

Definition is_v4_mapped (ip : list Z) : bool :=
  bool_decide (take 12 ip = replicate 10 0 ++ [255; 255]) && (length ip =? 16)%nat.
(** [IP.To4] *)
Definition to4 (ip : list Z) : option (list Z) :=
  if (length ip =? 4)%nat then Some ip
  else if is_v4_mapped ip then Some (drop 12 ip) else None.
(** [IP.IsUnspecified] *)
Definition ip_is_unspecified (ip : list Z) : bool :=
  match to4 ip with
  | Some a => bool_decide (a = [0; 0; 0; 0])
  | None => bool_decide (ip = replicate 16 0)
  end.
(** [IP.IsMulticast] *)
Definition ip_is_multicast (ip : list Z) : bool :=
  match to4 ip with
  | Some (a :: _) => Z.land a 240 =? 224
  | _ => match ip with a :: _ => (length ip =? 16)%nat && (a =? 255) | [] => false end
  end.

(** [dtoi] as [ParseCIDR] uses it: the whole text is digits, below 0xFFFFFF. *)
Definition dtoi (s : list ascii) : option Z :=
  match s with
  | [] => None
  | _ => match decimal_value s 0 with
         | Some v => if v <? 16777215 then Some v else None
         | None => None
         end
  end.

(** [net.ParseCIDR] succeeds. *)
Definition parse_cidr_ok (s : string) : bool :=
  match list_find (λ c, c = slash) (chars s) with
  | None => false
  | Some (i, _) =>
    match parse_addr (of_chars (take i (chars s))), dtoi (drop (S i) (chars s)) with
    | Some ip, Some n => n <=? 8 * Z.of_nat (length ip)
    | _, _ => false
    end
  end.

(** ** Facts about paths of plain components *)

(** A component: no slash, not empty, not a dot name. *)
Definition plain (s : string) : Prop :=
  (slash ∉ chars s) ∧ s ≠ "" ∧ s ≠ "." ∧ s ≠ "..".
#[export] Instance plain_dec s : Decision (plain s).
Proof. unfold plain. apply _. Defined.

Lemma split_chars_plain cur l : slash ∉ l → split_chars slash cur l = [rev cur ++ l].
Proof.
  revert cur; induction l as [|c l IH]; intros cur Hs; simpl.
  - by rewrite app_nil_r.
  - apply not_elem_of_cons in Hs as [Hc Hl]. rewrite bool_decide_eq_false_2 by congruence.
    rewrite IH by done. simpl. by rewrite <-(assoc_L (++)).
Qed.
Lemma split_chars_slash cur l l' :
  slash ∉ l → split_chars slash cur (l ++ slash :: l') = (rev cur ++ l) :: split_chars slash [] l'.
Proof.
  revert cur; induction l as [|c l IH]; intros cur Hs; simpl.
  - by rewrite app_nil_r.
  - apply not_elem_of_cons in Hs as [Hc Hl]. rewrite bool_decide_eq_false_2 by congruence.
    rewrite IH by done. simpl. by rewrite <-(assoc_L (++)).
Qed.

Lemma split_two a b : plain a → plain b → split (a +:+ "/" +:+ b) slash = [a; b].
Proof.
  intros [Ha _] [Hb _]. unfold split. rewrite !chars_app.
  change (chars "/" ++ chars b) with (slash :: chars b).
  rewrite split_chars_slash, split_chars_plain by done. simpl. by rewrite !of_chars_chars.
Qed.

Lemma clean_elems_two r a b : plain a → plain b → clean_elems r [] [a; b] = [a; b].
Proof.
  intros (_ & ? & ? & ?) (_ & ? & ? & ?). simpl.
  by rewrite !bool_decide_eq_false_2 by done.
Qed.

Lemma join_path_two a b : plain a → plain b → join_path [a; b] = a +:+ "/" +:+ b.
Proof.
  intros Ha Hb. pose proof Ha as (Hs & Ha1 & _). pose proof Hb as (_ & Hb1 & _). unfold join_path.
  rewrite !filter_cons, !decide_True by done. rewrite filter_nil.
  change (join_strings "/" [a; b]) with (a +:+ "/" +:+ b).
  unfold clean, is_abs. destruct a as [|c a]; [done|].
  rewrite bool_decide_eq_false_2 by done.
  rewrite split_two, clean_elems_two by done.
  assert (has_prefix (String c a +:+ "/" +:+ b) "/" = false) as ->.
  { change (bool_decide (slash = c) && has_prefix (a +:+ "/" +:+ b) "" = false).
    rewrite bool_decide_eq_false_2; [done|]. intros <-. apply Hs. left. }
  by rewrite bool_decide_eq_false_2.
Qed.

Lemma base_name_plain s : plain s → base_name s = s.
Proof.
  intros (Hs & Hne & _). unfold base_name. rewrite bool_decide_eq_false_2 by done.
  assert (strip_trailing slash (rev (chars s)) = rev (chars s)) as ->.
  { destruct (rev (chars s)) as [|c l] eqn:E; [done|]. simpl.
    rewrite bool_decide_eq_false_2; [done|]. intros ->. apply Hs.
    rewrite <-(rev_involutive (chars s)), E. simpl. set_solver. }
  rewrite rev_involutive.
  assert (∀ l i, slash ∉ l → last_index l slash i None = None) as Hl.
  { induction l as [|c l IH]; intros i Hc; [done|]. apply not_elem_of_cons in Hc as [? ?].
    simpl. rewrite bool_decide_eq_false_2 by congruence. by apply IH. }
  rewrite Hl by done. rewrite bool_decide_eq_false_2; [apply of_chars_chars|].
  intros E. apply Hne. by rewrite <-(of_chars_chars s), E.
Qed.
