(* ===== verification/Domain.v ===== *)
(** The data of [internal/domain/models.go].  A [time.Time] is the number of
    nanoseconds since Go's zero time, so [IsZero] is [t =? 0]; a
    [time.Duration] is a number of nanoseconds. *)
From S2P Require Import Prelude.

Definition Time : Type := Z.
Definition Duration : Type := Z.
Definition is_zero_time (t : Time) : bool := t =? 0.

Definition nanosecond : Duration := 1.
Definition millisecond : Duration := 1000000.
Definition second : Duration := 1000 * millisecond.
Definition minute : Duration := 60 * second.
Definition hour : Duration := 60 * minute.

(** [type UserStatus string]: any string, with three named values. *)
Definition UserStatus : Type := string.
Definition UserActive : UserStatus := "active".
Definition UserDisabled : UserStatus := "disabled".
Definition UserRevoked : UserStatus := "revoked".

Record VPNUser := mkVPNUser {
  User_ID : Z;
  User_Username : string;
  User_Credential : string;
  User_Status : UserStatus;
  User_CreatedAt : Time;
  User_UpdatedAt : Time
}.
#[export] Instance VPNUser_eq_dec : EqDecision VPNUser.
Proof. solve_decision. Defined.

Definition user_set_ID (i : Z) (u : VPNUser) : VPNUser :=
  mkVPNUser i (User_Username u) (User_Credential u) (User_Status u) (User_CreatedAt u) (User_UpdatedAt u).
Definition user_set_Credential (c : string) (u : VPNUser) : VPNUser :=
  mkVPNUser (User_ID u) (User_Username u) c (User_Status u) (User_CreatedAt u) (User_UpdatedAt u).
Definition user_set_Status (st : UserStatus) (u : VPNUser) : VPNUser :=
  mkVPNUser (User_ID u) (User_Username u) (User_Credential u) st (User_CreatedAt u) (User_UpdatedAt u).

Record Rule := mkRule {
  Rule_Name : string;
  Rule_Action : string;
  Rule_Network : string
}.
#[export] Instance Rule_eq_dec : EqDecision Rule.
Proof. solve_decision. Defined.

Record Snapshot := mkSnapshot {
  Snap_Revision : string;
  Snap_Hostname : string;
  Snap_ListenAddress : string;
  Snap_Users : list VPNUser;
  Snap_Rules : list Rule;
  Snap_TLSCertificatePath : string;
  Snap_TLSPrivateKeyPath : string
}.
#[export] Instance Snapshot_eq_dec : EqDecision Snapshot.
Proof. solve_decision. Defined.

Definition snap_set_tls (cert key : string) (s : Snapshot) : Snapshot :=
  mkSnapshot (Snap_Revision s) (Snap_Hostname s) (Snap_ListenAddress s) (Snap_Users s)
    (Snap_Rules s) cert key.

Record ApplyEvent := mkApplyEvent {
  Event_ID : Z;
  Event_Revision : string;
  Event_Kind : string;
  Event_Action : string;
  Event_Result : string;
  Event_Error : string;
  Event_At : Time
}.
#[export] Instance ApplyEvent_eq_dec : EqDecision ApplyEvent.
Proof. solve_decision. Defined.

(** The composite literal of an event to record: the store fills in the id
    and the time. *)
Definition apply_event (revision kind action res error : string) : ApplyEvent :=
  mkApplyEvent 0 revision kind action res error 0.

Record EndpointStatus := mkEndpointStatus {
  Status_State : string;
  Status_Revision : string;
  Status_Version : string;
  Status_PID : Z;
  Status_StartedAt : Time;
  Status_LastError : string
}.
#[export] Instance EndpointStatus_eq_dec : EqDecision EndpointStatus.
Proof. solve_decision. Defined.

(** Two [float64] values. *)
Record EndpointMetrics := mkEndpointMetrics { ActiveConnections : spec_float; TotalConnections : spec_float }.

Record ClientConfig := mkClientConfig {
  Client_DeepLink : string;
  Client_TOML : string;
  Client_CLI : string
}.
#[export] Instance ClientConfig_eq_dec : EqDecision ClientConfig.
Proof. solve_decision. Defined.
