(* ===== verification/GoTime.v ===== *)
(** [time.Time.Format(time.RFC3339Nano)] in UTC, and the byte order of the
    texts it gives: the store keeps its time stamps as such texts and compares
    some of them as texts. *)
From stdpp Require Import pretty.
From S2P Require Import Prelude GoStrings Domain.

(** The decimal digits of [z], [n] of them. *)
Fixpoint digits (n : nat) (z : Z) : list ascii :=
  match n with
  | O => []
  | S n' => digits n' (z / 10) ++ [chr (48 + z mod 10)]
  end.

(** The civil date of a day counted from January 1 of year 1: year, month and
    day, by the count of days since March 1 of year 0. *)
Definition civil (days : Z) : Z * Z * Z :=
  let z := days + 306 in
  let era := z / 146097 in
  let doe := z mod 146097 in
  let yoe := (doe - doe / 1460 + doe / 36524 - doe / 146096) / 365 in
  let doy := doe - (365 * yoe + yoe / 4 - yoe / 100) in
  let mp := (5 * doy + 2) / 153 in
  let d := doy - (153 * mp + 2) / 5 + 1 in
  let m := if mp <? 10 then mp + 3 else mp - 9 in
  (yoe + 400 * era + (if m <=? 2 then 1 else 0), m, d).

Fixpoint drop_zeros (l : list ascii) : list ascii :=
  match l with
  | c :: l' => if bool_decide (c = "0"%char) then drop_zeros l' else l
  | [] => []
  end.
(** The fraction: nothing when it is zero, else without its trailing zeros. *)
Definition format_nanos (ns : Z) : list ascii :=
  if ns =? 0 then [] else "."%char :: reverse (drop_zeros (reverse (digits 9 ns))).

Definition format_time (t : Time) : string :=
  let s := t / second in
  let '(y, m, d) := civil (s / 86400) in
  let sod := s mod 86400 in
  of_chars (digits 4 y ++ "-"%char :: digits 2 m ++ "-"%char :: digits 2 d ++ "T"%char ::
            digits 2 (sod / 3600) ++ ":"%char :: digits 2 (sod / 60 mod 60) ++ ":"%char ::
            digits 2 (sod mod 60) ++ format_nanos (t mod second) ++ ["Z"%char]).

(** The empty column of a zero time. *)
Definition formatTime (t : Time) : string := if is_zero_time t then "" else format_time t.

Example format_time_zero : format_time 0 = "0001-01-01T00:00:00Z".
Proof. vm_compute. reflexivity. Qed.
(** Unix time 1709210096 is 62135596800 seconds later than the zero time. *)
Example format_time_leap :
  format_time ((62135596800 + 1709210096) * second + 120000000) = "2024-02-29T12:34:56.12Z".
Proof. vm_compute. reflexivity. Qed.
Example format_time_year_end :
  format_time ((62135596800 + 1735689599) * second) = "2024-12-31T23:59:59Z".
Proof. vm_compute. reflexivity. Qed.

(** SQLite compares text columns byte by byte. *)
Definition text_le (a b : string) : bool := bool_decide (String.le a b).

(** The byte order of these texts is not the order of the times within a
    second: a fraction sorts before the [Z] that ends a whole second. *)
Example text_order_within_a_second :
  let t := 63871200000 * second in
  t < t + 500000000 ∧ text_le (format_time t) (format_time (t + 500000000)) = false.
Proof. vm_compute. done. Qed.
