(* ===== verification/Config.v ===== *)
(** [internal/config/config.go]: the validation of a snapshot and the
    deterministic rendering of the endpoint's four TOML files. *)
From S2P Require Import Prelude GoStrings GoPath Quote Domain.

(** [type Files map[string][]byte] *)
Abbreviation Files := (gmap string string).

Definition nl : string := byte_str 10.

(** ** The regular expressions *)

(** [usernameRE]: one of [A-Za-z0-9], then at most 63 of [A-Za-z0-9_.-]. *)
Definition is_name_byte (c : ascii) : bool :=
  is_alnum_ascii c || (code c =? 95) || (code c =? 46) || (code c =? 45).
Definition usernameRE (s : string) : bool :=
  match chars s with
  | [] => false
  | c :: r => is_alnum_ascii c && forallb is_name_byte r && (length r <=? 63)%nat
  end.

(** Under [(?i:...)] the class [[a-z]] also holds U+017F (bytes C5 BF) and
    U+212A (bytes E2 84 AA), the non-ASCII runes that fold to [s] and [k]. *)
Fixpoint fold_case_runes (s : list ascii) : list ascii :=
  match s with
  | a :: ((b :: r2) as r1) =>
    if (code a =? 197) && (code b =? 191) then "s"%char :: fold_case_runes r2
    else match r2 with
         | c :: r3 =>
           if (code a =? 226) && (code b =? 132) && (code c =? 170)
           then "k"%char :: fold_case_runes r3
           else a :: fold_case_runes r1
         | [] => a :: fold_case_runes r1
         end
  | _ => s
  end.

(** [(?i:[a-z0-9](?:[a-z0-9-]{0,61}[a-z0-9])?)] on one label. *)
Definition dns_label (l : list ascii) : bool :=
  match l, last l with
  | c :: _, Some z =>
    is_alnum_ascii c && is_alnum_ascii z
    && forallb (λ x, is_alnum_ascii x || (code x =? 45)) l && (length l <=? 63)%nat
  | _, _ => false
  end.
(** At least two labels. *)
Definition hostnameRE (s : string) : bool :=
  let ls := split_chars "."%char [] (fold_case_runes (chars s)) in
  (2 <=? length ls)%nat && forallb dns_label ls.

(** ** Validate *)

Definition valid_status (st : UserStatus) : bool :=
  bool_decide (st = UserActive) || bool_decide (st = UserDisabled) || bool_decide (st = UserRevoked).

Section Config.
Context {UT : UnicodeTables}.

(** The loop over [s.Users]; [seen] is the set of names met so far. *)
Fixpoint validate_users (seen : gset string) (us : list VPNUser) : option gerror :=
  match us with
  | [] => None
  | u :: us' =>
    let name := User_Username u in
    if negb (usernameRE name) then Some (Errorf ("invalid username " +:+ quote name))
    else if (len (User_Credential u) <? 12) || (512 <? len (User_Credential u))
    then Some (Errorf ("credential length for " +:+ quote name))
    else if bool_decide (name ∈ seen) then Some (Errorf ("duplicate username " +:+ quote name))
    else if negb (valid_status (User_Status u))
    then Some (Errorf ("invalid status for " +:+ quote name))
    else validate_users ({[name]} ∪ seen) us'
  end.

(** The loop over [s.Rules]. *)
Fixpoint validate_rules (rs : list Rule) : option gerror :=
  match rs with
  | [] => None
  | r :: rs' =>
    if negb (usernameRE (Rule_Name r))
       || negb (bool_decide (Rule_Action r = "allow") || bool_decide (Rule_Action r = "deny"))
    then Some (Errorf ("invalid rule " +:+ quote (Rule_Name r)))
    else if negb (parse_cidr_ok (Rule_Network r))
    then Some (Wrapf ("rule " +:+ quote (Rule_Name r) +:+ " network") (SysErr "invalid CIDR address"))
    else validate_rules rs'
  end.

(** The check of one TLS path. *)
Definition tls_path_ok (p : string) : bool :=
  bool_decide (p = "") || (is_abs p && negb (contains (clean p) "../")).

Definition Validate (s : Snapshot) : option gerror :=
  match split_host_port (Snap_ListenAddress s) with
  | None => Some (Wrapf "listen address" (SysErr "invalid address"))
  | Some (host, port) =>
    if bool_decide (host = "") then Some (Errorf "listen host is required")
    else if negb (match atoi port with Some n => (1 <=? n) && (n <=? 65535) | None => false end)
    then Some (Errorf "listen port is out of range")
    else if negb (bool_decide (Snap_Hostname s = ""))
            && (negb (hostnameRE (Snap_Hostname s)) || (253 <? len (Snap_Hostname s)))
    then Some (Errorf "invalid hostname")
    else if negb (Bool.eqb (bool_decide (Snap_TLSCertificatePath s = ""))
                           (bool_decide (Snap_TLSPrivateKeyPath s = "")))
    then Some (Errorf "certificate and private key paths must be set together")
    else if negb (forallb tls_path_ok [Snap_TLSCertificatePath s; Snap_TLSPrivateKeyPath s])
    then Some (Errorf "TLS paths must be absolute and clean")
    else match validate_users ∅ (Snap_Users s) with
         | Some e => Some e
         | None => validate_rules (Snap_Rules s)
         end
  end.

(** ** Render *)

Definition render_vpn (s : Snapshot) : string :=
  "listen_address = " +:+ quote (Snap_ListenAddress s) +:+ nl
  +:+ "credentials_file = " +:+ quote "credentials.toml" +:+ nl
  +:+ "rules_file = " +:+ quote "rules.toml" +:+ nl +:+ nl
  +:+ "[listen_protocols]" +:+ nl +:+ "http1 = {}" +:+ nl +:+ "http2 = {}" +:+ nl
  +:+ "quic = {}" +:+ nl +:+ nl +:+ "[forward_protocol]" +:+ nl +:+ "direct = {}" +:+ nl +:+ nl
  +:+ "[metrics]" +:+ nl +:+ "address = " +:+ quote "127.0.0.1:9090" +:+ nl
  +:+ "per_client_metrics = false" +:+ nl.

Definition render_hosts (s : Snapshot) : string :=
  "[[main_hosts]]" +:+ nl +:+ "hostname = " +:+ quote (Snap_Hostname s) +:+ nl
  +:+ (if bool_decide (Snap_TLSCertificatePath s = "") then ""
       else "cert_chain_path = " +:+ quote (Snap_TLSCertificatePath s) +:+ nl
            +:+ "private_key_path = " +:+ quote (Snap_TLSPrivateKeyPath s) +:+ nl).

Definition render_client (u : VPNUser) : string :=
  "[[client]]" +:+ nl +:+ "username = " +:+ quote (User_Username u) +:+ nl
  +:+ "password = " +:+ quote (User_Credential u) +:+ nl.

(** The loop over the sorted users: only active ones are written. *)
Fixpoint render_credentials (us : list VPNUser) : string :=
  match us with
  | [] => ""
  | u :: us' =>
    if negb (bool_decide (User_Status u = UserActive)) then render_credentials us'
    else render_client u +:+ render_credentials us'
  end.

Fixpoint render_rules (rs : list Rule) : string :=
  match rs with
  | [] => ""
  | r :: rs' =>
    "# " +:+ Rule_Name r +:+ nl +:+ "[[rule]]" +:+ nl
    +:+ "cidr = " +:+ quote (Rule_Network r) +:+ nl
    +:+ "action = " +:+ quote (Rule_Action r) +:+ nl +:+ render_rules rs'
  end.

Definition Render (s : Snapshot) : result Files :=
  match Validate s with
  | Some e => Err e
  | None =>
    let users := sort_by User_Username (Snap_Users s) in
    let rules := sort_by Rule_Name (Snap_Rules s) in
    Ok (<["vpn.toml" := render_vpn s]>
        (<["hosts.toml" := render_hosts s]>
         (<["credentials.toml" := render_credentials users]>
          (<["rules.toml" := render_rules rules]> ∅))))
  end.
End Config.

(** ** Sorting by key *)

Section SortFacts.
Context {A : Type} (key : A → string).

#[local] Instance key_le_trans : Transitive (key_le key).
Proof. intros x y z Hxy Hyz. unfold key_le in *. etrans; eauto. Qed.
#[local] Instance key_le_total : Total (key_le key).
Proof. intros x y. unfold key_le. apply total, _. Qed.

Lemma sort_by_perm l : sort_by key l ≡ₚ l.
Proof. apply merge_sort_Permutation. Qed.
Lemma sort_by_sorted l : StronglySorted (key_le key) (sort_by key l).
Proof. apply StronglySorted_merge_sort; apply _. Qed.

(** With distinct keys the sorted order is unique, so it depends on the
    elements only. *)
Lemma sorted_unique l1 l2 :
  NoDup (key <$> l1) → StronglySorted (key_le key) l1 → StronglySorted (key_le key) l2 →
  l1 ≡ₚ l2 → l1 = l2.
Proof.
  intros Hnd H1 H2 Hp.
  eapply (StronglySorted_unique_strong (key_le key)); [|done..].
  intros x1 x2 Hx1 Hx2 H12 H21.
  assert (Hk : key x1 = key x2) by (apply (anti_symm String.le); done).
  rewrite <-Hp in Hx2.
  apply list_elem_of_lookup in Hx1 as [i Hi]. apply list_elem_of_lookup in Hx2 as [j Hj].
  assert (i = j) as ->; [|congruence].
  eapply NoDup_lookup; [exact Hnd|rewrite list_lookup_fmap, Hi; done|].
  rewrite list_lookup_fmap, Hj. simpl. by rewrite Hk.
Qed.

Lemma sort_by_permutation l1 l2 :
  NoDup (key <$> l1) → l1 ≡ₚ l2 → sort_by key l1 = sort_by key l2.
Proof.
  intros Hnd Hp. apply sorted_unique; [|apply sort_by_sorted..|].
  - by rewrite (sort_by_perm l1).
  - by rewrite !sort_by_perm.
Qed.
End SortFacts.

(** ** Validation *)

(** What [Validate] accepts, without its order of tests. *)
Definition valid_user (u : VPNUser) : Prop :=
  usernameRE (User_Username u) = true ∧ 12 <= len (User_Credential u) <= 512
  ∧ (User_Status u = UserActive ∨ User_Status u = UserDisabled ∨ User_Status u = UserRevoked).
Definition valid_rule (r : Rule) : Prop :=
  usernameRE (Rule_Name r) = true ∧ (Rule_Action r = "allow" ∨ Rule_Action r = "deny")
  ∧ parse_cidr_ok (Rule_Network r) = true.
Definition valid_listen (a : string) : Prop :=
  ∃ host port n, split_host_port a = Some (host, port) ∧ host ≠ "" ∧ atoi port = Some n
                 ∧ 1 <= n <= 65535.
Record valid_snapshot (s : Snapshot) : Prop := {
  vs_listen : valid_listen (Snap_ListenAddress s);
  vs_hostname : Snap_Hostname s ≠ "" → hostnameRE (Snap_Hostname s) = true ∧ len (Snap_Hostname s) <= 253;
  vs_pair : Snap_TLSCertificatePath s = "" ↔ Snap_TLSPrivateKeyPath s = "";
  vs_paths : Forall (λ p, tls_path_ok p = true) [Snap_TLSCertificatePath s; Snap_TLSPrivateKeyPath s];
  vs_users : Forall valid_user (Snap_Users s);
  vs_unique : NoDup (User_Username <$> Snap_Users s);
  vs_rules : Forall valid_rule (Snap_Rules s)
}.

Section ConfigFacts.
Context {UT : UnicodeTables}.

Lemma valid_status_spec st :
  valid_status st = true ↔ st = UserActive ∨ st = UserDisabled ∨ st = UserRevoked.
Proof. unfold valid_status. rewrite !orb_true_iff, !bool_decide_eq_true. tauto. Qed.

Lemma validate_users_cons seen u us :
  validate_users seen (u :: us) = None ↔
  valid_user u ∧ (User_Username u ∉ seen) ∧ validate_users ({[User_Username u]} ∪ seen) us = None.
Proof.
  unfold valid_user. rewrite <-valid_status_spec. cbn [validate_users].
  destruct (usernameRE _); cbn [negb]; [|naive_solver].
  destruct (Z.ltb_spec (len (User_Credential u)) 12), (Z.ltb_spec 512 (len (User_Credential u)));
    cbn [orb]; try (split; [done|intros ([_ [? _]] & _); lia]).
  case_bool_decide; [naive_solver|].
  destruct (valid_status _); cbn [negb]; naive_solver.
Qed.

Lemma validate_users_None seen us :
  validate_users seen us = None ↔
  Forall valid_user us ∧ NoDup (User_Username <$> us) ∧ Forall (λ u, User_Username u ∉ seen) us.
Proof.
  revert seen; induction us as [|u us IH]; intros seen.
  - split; [|done]. intros _. repeat split; constructor.
  - rewrite validate_users_cons, IH, fmap_cons, NoDup_cons, !Forall_cons, !Forall_forall.
    setoid_rewrite list_elem_of_fmap. set_solver.
Qed.

Lemma validate_rules_None rs : validate_rules rs = None ↔ Forall valid_rule rs.
Proof.
  induction rs as [|r rs IH]; [split; [constructor|done]|].
  rewrite Forall_cons, <-IH. unfold valid_rule. cbn [validate_rules].
  destruct (usernameRE _); cbn [negb orb]; [|naive_solver].
  repeat case_bool_decide; cbn [negb orb]; destruct (parse_cidr_ok _); cbn [negb]; naive_solver.
Qed.

Lemma Validate_None s : Validate s = None ↔ valid_snapshot s.
Proof.
  unfold Validate. split.
  - intros E.
    destruct (split_host_port _) as [[host port]|] eqn:Ehp; [|done].
    case_bool_decide as Hh; [done|].
    destruct (atoi port) as [n|] eqn:En; [|done].
    destruct ((1 <=? n) && (n <=? 65535)) eqn:Eb; [|done]. cbn [negb] in E.
    destruct (negb _ && _) eqn:Ehost in E; [done|].
    destruct (negb _) eqn:Epair in E; [done|].
    destruct (negb _) eqn:Epaths in E; [done|].
    destruct (validate_users ∅ _) eqn:Eus; [done|].
    apply validate_users_None in Eus as (Hus & Hnd & _). apply validate_rules_None in E.
    apply andb_true_iff in Eb as [?%Z.leb_le ?%Z.leb_le].
    split; [| | | |done..].
    + exists host, port, n. auto.
    + intros Hne. apply andb_false_iff in Ehost as [Ehost|Ehost].
      * apply negb_false_iff, bool_decide_eq_true in Ehost. done.
      * apply orb_false_iff in Ehost as [?%negb_false_iff ?%Z.ltb_ge]. done.
    + apply negb_false_iff, eqb_prop in Epair.
      rewrite <-(bool_decide_eq_true (Snap_TLSCertificatePath s = "")), Epair, bool_decide_eq_true. done.
    + apply negb_false_iff in Epaths. apply Forall_forall. intros x Hx.
      eapply forallb_forall in Epaths; [exact Epaths|]. by apply list_elem_of_In.
  - intros [(host & port & n & -> & Hh & En & Hn) Hhost Hpair Hpaths Hus Hnd Hrs].
    rewrite (bool_decide_eq_false_2 (host = "")), En by done.
    rewrite (proj2 (Z.leb_le 1 n)), (proj2 (Z.leb_le n 65535)) by lia. cbn [andb negb].
    assert (negb (bool_decide (Snap_Hostname s = ""))
            && (negb (hostnameRE (Snap_Hostname s)) || (253 <? len (Snap_Hostname s))) = false) as ->.
    { case_bool_decide as Hne; [done|]. destruct (Hhost Hne) as [-> ?]. cbn [negb orb andb].
      apply Z.ltb_ge. done. }
    rewrite (bool_decide_ext _ _ Hpair), eqb_reflx. cbn [negb].
    assert (forallb tls_path_ok [Snap_TLSCertificatePath s; Snap_TLSPrivateKeyPath s] = true) as ->.
    { apply forallb_forall. intros x Hx%list_elem_of_In. rewrite Forall_forall in Hpaths. auto. }
    cbn [negb].
    assert (validate_users ∅ (Snap_Users s) = None) as ->.
    { apply validate_users_None. split; [done|]. split; [done|]. apply Forall_forall. set_solver. }
    by apply validate_rules_None.
Qed.

(** C13. [Validate] returns nil exactly on the snapshots that satisfy the
    declarative conditions: a listen address with a host and a port in range,
    an absent or well-formed hostname, a complete or absent TLS pair of
    accepted paths, valid users with pairwise distinct names, valid rules. *)
Theorem Validate_spec s : Validate s = None ↔ valid_snapshot s.
Proof.
  rewrite <-Validate_None. destruct (Validate s); split; intros E; by inversion E.
Qed.

(** ** Rendering *)

(** Two snapshots that differ in the order of their users and rules only. *)
Record same_content (s1 s2 : Snapshot) : Prop := {
  sc_hostname : Snap_Hostname s1 = Snap_Hostname s2;
  sc_listen : Snap_ListenAddress s1 = Snap_ListenAddress s2;
  sc_cert : Snap_TLSCertificatePath s1 = Snap_TLSCertificatePath s2;
  sc_key : Snap_TLSPrivateKeyPath s1 = Snap_TLSPrivateKeyPath s2;
  sc_users : Snap_Users s1 ≡ₚ Snap_Users s2;
  sc_rules : Snap_Rules s1 ≡ₚ Snap_Rules s2
}.

Lemma valid_snapshot_same s1 s2 : same_content s1 s2 → valid_snapshot s1 → valid_snapshot s2.
Proof.
  intros [Hh Hl Hc Hk Hu Hr] [V1 V2 V3 V4 V5 V6 V7].
  split; rewrite <-?Hh, <-?Hl, <-?Hc, <-?Hk, <-?Hu, <-?Hr; done.
Qed.

(** Rendering is deterministic: the four files depend on the set of users
    and rules, not on the order the snapshot lists them in (rule names
    distinct, as the [rules] table enforces). *)
Theorem Render_order_independent s1 s2 fs :
  same_content s1 s2 → NoDup (Rule_Name <$> Snap_Rules s1) →
  Render s1 = Ok fs → Render s2 = Ok fs.
Proof.
  intros Hs Hnd. unfold Render.
  destruct (Validate s1) eqn:E1; [done|]. apply Validate_None in E1.
  assert (E2 := valid_snapshot_same _ _ Hs E1). apply Validate_None in E2 as ->.
  rewrite <-(sort_by_permutation User_Username (Snap_Users s1) (Snap_Users s2)) by (apply E1 || apply Hs).
  rewrite <-(sort_by_permutation Rule_Name (Snap_Rules s1) (Snap_Rules s2)) by (done || apply Hs).
  unfold render_vpn, render_hosts. destruct Hs as [-> -> -> -> _ _]. done.
Qed.

(** *** A reader of credentials.toml *)

(** [lit p l] drops the text [p] from the front of [l]. *)
Fixpoint lit (p l : list ascii) : option (list ascii) :=
  match p, l with
  | [], _ => Some l
  | a :: p', b :: l' => if bool_decide (a = b) then lit p' l' else None
  | _, [] => None
  end.

(** One [[[client]]] table. *)
Definition read_client (l : list ascii) : option ((string * string) * list ascii) :=
  l ← lit (chars ("[[client]]" +:+ nl +:+ "username = ")) l;
  '(name, l) ← unquote l;
  l ← lit (chars (nl +:+ "password = ")) l;
  '(pass, l) ← unquote l;
  l ← lit (chars nl) l;
  Some ((of_chars name, of_chars pass), l).

(** The tables of the file; a table takes more than one byte, so the length is
    enough fuel. *)
Fixpoint read_clients (fuel : nat) (l : list ascii) : option (list (string * string)) :=
  match l, fuel with
  | [], _ => Some []
  | _, O => None
  | _, S f => '(c, l') ← read_client l; cs ← read_clients f l'; Some (c :: cs)
  end.
Definition read_credentials (s : string) : option (list (string * string)) :=
  read_clients (String.length s) (chars s).

Lemma lit_app p l : lit p (p ++ l) = Some l.
Proof. induction p as [|a p IH]; simpl; [done|]. by rewrite bool_decide_eq_true_2. Qed.

Lemma read_client_render u l :
  read_client (chars (render_client u) ++ l) = Some ((User_Username u, User_Credential u), l).
Proof.
  unfold read_client, render_client.
  replace (chars _ ++ l) with
    (chars ("[[client]]" +:+ nl +:+ "username = ") ++ chars (quote (User_Username u))
     ++ chars (nl +:+ "password = ") ++ chars (quote (User_Credential u)) ++ chars nl ++ l)
    by (rewrite !chars_app, <-!(assoc_L (++)); done).
  rewrite lit_app. cbn [mbind option_bind]. rewrite unquote_quote. cbn [mbind option_bind].
  rewrite lit_app. cbn [mbind option_bind]. rewrite unquote_quote. cbn [mbind option_bind].
  rewrite lit_app. cbn [mbind option_bind]. by rewrite !of_chars_chars.
Qed.

Definition exported (us : list VPNUser) : list (string * string) :=
  (λ u, (User_Username u, User_Credential u)) <$> filter (λ u, User_Status u = UserActive) us.

Lemma read_clients_mono f f' l cs :
  read_clients f l = Some cs → (f <= f')%nat → read_clients f' l = Some cs.
Proof.
  revert f' l cs; induction f as [|f IH]; intros f' l cs E Hle.
  - destruct l; [by destruct f'|done].
  - destruct f' as [|f']; [lia|]. destruct l as [|c l]; [done|]. cbn [read_clients] in *.
    destruct (read_client _) as [[d l']|]; [|done]. cbn [mbind option_bind] in *.
    destruct (read_clients f l') as [ds|] eqn:E'; [|done]. by rewrite (IH f' _ _ E') by lia.
Qed.

Lemma read_clients_render us :
  ∃ f, (f <= String.length (render_credentials us))%nat ∧
       read_clients f (chars (render_credentials us)) = Some (exported us).
Proof.
  induction us as [|u us (f & Hf & IH)]; [by exists O|].
  unfold exported in *. cbn [render_credentials]. rewrite filter_cons.
  case_bool_decide as Ha; cbn [negb]; [|rewrite decide_False by done; eauto].
  rewrite decide_True by done. exists (S f).
  rewrite <-!chars_length, chars_app, length_app in *.
  split; [unfold render_client; rewrite chars_app, length_app; simpl; lia|].
  pose proof (read_client_render u (chars (render_credentials us))) as Hr.
  destruct (_ ++ _) as [|c l] eqn:El; [done|]. cbn [read_clients]. rewrite Hr.
  cbn [mbind option_bind]. by rewrite IH.
Qed.

(** C14. Reading the rendered credentials.toml back yields exactly the active
    users, in name order, with the credentials the snapshot holds: nobody who
    is disabled or revoked is exported, no active user is lost, and no
    username or credential, whatever its bytes, can add or alter an entry. *)
Theorem Render_credentials_roundtrip s fs :
  Render s = Ok fs →
  ∃ text, fs !! "credentials.toml" = Some text ∧
          read_credentials text = Some (exported (sort_by User_Username (Snap_Users s))).
Proof.
  unfold Render. destruct (Validate s); [done|]. intros [= <-].
  eexists. split; [by simplify_map_eq|].
  destruct (read_clients_render (sort_by User_Username (Snap_Users s))) as (f & Hf & E).
  by eapply read_clients_mono.
Qed.
End ConfigFacts.
