(* ===== verification/FileSys.v ===== *)
(** The file system under one store directory, as the program uses it through
    [os] and [path/filepath], with a stream of injected failures.

    A store ([config.Materializer], [certificate.TLSStore]) works below a root
    directory of its own; a path is the list of its components below that
    root.  Every system call first takes one element of the fault stream: a
    [Some e] makes the call return [e] and change nothing, a [None] (or the end
    of the stream) lets it run.  So a statement for all streams covers every
    pattern of failing calls. *)
From stdpp Require Import pretty.
From S2P Require Import Prelude GoStrings GoPath Quote.

Inductive node : Type :=
| File (data : string) (mode : Z)
| Link (target : string)
| Dir (mode : Z) (entries : gmap string node).

Abbreviation path := (list string).

Record fs := mkFs {
  fs_tree : node;
  fs_faults : list (option gerror);
  fs_clock : Z   (** [time.Now().UnixNano()], one tick per reading *)
}.

(** The order in which Go's [range] visits a map is not specified: any
    permutation of its entries. *)
Class MapOrder := {
  map_range : gmap string string → list (string * string);
  map_range_perm : ∀ m, map_range m ≡ₚ map_to_list m
}.

(** ** Trees *)

Fixpoint tree_get (p : path) (n : node) : option node :=
  match p with
  | [] => Some n
  | c :: p' =>
    match n with
    | Dir _ es => match es !! c with Some n' => tree_get p' n' | None => None end
    | _ => None
    end
  end.

(** Sets ([Some]) or removes ([None]) the entry at [p]; nothing happens when
    its parent is not a directory. *)
Fixpoint tree_put (p : path) (v : option node) (n : node) : node :=
  match p with
  | [] => n
  | c :: p' =>
    match n with
    | Dir m es =>
      match p' with
      | [] => Dir m (partial_alter (λ _, v) c es)
      | _ => match es !! c with
             | Some n' => Dir m (<[c := tree_put p' v n']> es)
             | None => n
             end
      end
    | _ => n
    end
  end.

Definition is_dir (o : option node) : bool :=
  match o with Some (Dir _ _) => true | _ => false end.
Definition entries_of (o : option node) : gmap string node :=
  match o with Some (Dir _ es) => es | _ => ∅ end.
Definition parent (p : path) : path := removelast p.

(** ** System calls *)

(** Takes one fault; [run] is the call when it is not made to fail. *)
Definition sys {A} (run : node → result A * node) : M fs (result A) := λ w,
  match fs_faults w with
  | Some e :: q => (Err e, mkFs (fs_tree w) q (fs_clock w))
  | q => let '(r, t) := run (fs_tree w) in (r, mkFs t (tail q) (fs_clock w))
  end.
Definition sys_err (run : node → option gerror * node) : M fs (option gerror) :=
  let* r := sys (λ t, let '(e, t') := run t in
                      (match e with Some e => Err e | None => Ok tt end, t')) in
  ret (match r with Err e => Some e | Ok _ => None end).

(** [time.Now().UnixNano()] *)
Definition now_unix_nano : M fs Z :=
  λ w, (fs_clock w, mkFs (fs_tree w) (fs_faults w) (fs_clock w + 1)).

(** [os.Stat] and [os.Lstat] on a path whose last element is no link. *)
Definition os_stat (p : path) : M fs (option gerror) :=
  sys_err (λ t, (if bool_decide (is_Some (tree_get p t)) then None else Some ErrNotExist, t)).

(** [os.MkdirAll] of a directory of the root. *)
Definition os_mkdir_all (c : string) (mode : Z) : M fs (option gerror) :=
  sys_err (λ t, match tree_get [c] t with
                | None => if is_dir (Some t) then (None, tree_put [c] (Some (Dir mode ∅)) t)
                          else (Some (SysErr "not a directory"), t)
                | Some (Dir _ _) => (None, t)
                | Some _ => (Some (SysErr "not a directory"), t)
                end).

(** A digit string longer than every name of the directory. *)
Definition max_name_length (es : gmap string node) : nat :=
  foldr (λ kv acc, max (String.length kv.1) acc) O (map_to_list es).
Definition fresh_suffix (es : gmap string node) : string :=
  of_chars (replicate (S (max_name_length es)) "0"%char).

(** [os.MkdirTemp(dir, prefix)]: a new directory whose name is the prefix and a
    random suffix no entry of [dir] has yet; the suffix chosen here is one. *)
Definition os_mkdir_temp (dir : path) (prefix : string) : M fs (result string) :=
  sys (λ t,
    if is_dir (tree_get dir t) then
      let name := prefix +:+ fresh_suffix (entries_of (tree_get dir t)) in
      (Ok name, tree_put (dir ++ [name]) (Some (Dir 448 ∅)) t)
    else (Err ErrNotExist, t)).

(** [os.Chmod] *)
Definition os_chmod (p : path) (mode : Z) : M fs (option gerror) :=
  sys_err (λ t, match tree_get p t with
                | Some (Dir _ es) => (None, match p with [] => Dir mode es
                                            | _ => tree_put p (Some (Dir mode es)) t end)
                | Some (File d _) => (None, tree_put p (Some (File d mode)) t)
                | Some (Link _) => (None, t)
                | None => (Some ErrNotExist, t)
                end).

(** [os.OpenFile(p, O_WRONLY|O_CREATE|O_EXCL, mode)]; a last element [.] or
    [..] names a directory that exists. *)
Definition is_dot (c : option string) : bool :=
  bool_decide (c = Some ".") || bool_decide (c = Some "..").
Definition os_create_excl (p : path) (mode : Z) : M fs (option gerror) :=
  sys_err (λ t, if is_dot (last p) || bool_decide (is_Some (tree_get p t)) then (Some ErrExist, t)
                else if is_dir (tree_get (parent p) t)
                then (None, tree_put p (Some (File "" mode)) t)
                else (Some ErrNotExist, t)).

(** [f.Write(data)] on the file open at [p]. *)
Definition file_write (p : path) (data : string) : M fs (option gerror) :=
  sys_err (λ t, match tree_get p t with
                | Some (File d m) => (None, tree_put p (Some (File (d +:+ data) m)) t)
                | _ => (Some (SysErr "bad file descriptor"), t)
                end).

(** [f.Sync()] and [f.Close()]: no effect on the tree. *)
Definition file_sync : M fs (option gerror) := sys_err (λ t, (None, t)).
Definition file_close : M fs (option gerror) := sys_err (λ t, (None, t)).

(** [os.Open] of a directory. *)
Definition os_open_dir (p : path) : M fs (option gerror) :=
  sys_err (λ t, (if bool_decide (is_Some (tree_get p t)) then None else Some ErrNotExist, t)).

(** [os.Rename]: a directory may only replace an empty directory. *)
Definition os_rename (p q : path) : M fs (option gerror) :=
  sys_err (λ t,
    match tree_get p t with
    | None => (Some ErrNotExist, t)
    | Some n =>
      if is_dir (tree_get (parent q) t) then
        match n, tree_get q t with
        | Dir _ _, Some (Dir _ es) =>
          if bool_decide (es = ∅) then (None, tree_put q (Some n) (tree_put p None t))
          else (Some ErrExist, t)
        | Dir _ _, Some _ => (Some (SysErr "not a directory"), t)
        | _, Some (Dir _ _) => (Some ErrExist, t)
        | _, _ => (None, tree_put q (Some n) (tree_put p None t))
        end
      else (Some ErrNotExist, t)
    end).

(** [os.Symlink(target, p)] *)
Definition os_symlink (target : string) (p : path) : M fs (option gerror) :=
  sys_err (λ t, if bool_decide (is_Some (tree_get p t)) then (Some ErrExist, t)
                else if is_dir (tree_get (parent p) t) then (None, tree_put p (Some (Link target)) t)
                else (Some ErrNotExist, t)).

(** [os.Readlink] *)
Definition os_readlink (p : path) : M fs (result string) :=
  sys (λ t, match tree_get p t with
            | Some (Link l) => (Ok l, t)
            | Some _ => (Err (SysErr "invalid argument"), t)
            | None => (Err ErrNotExist, t)
            end).

(** [os.Remove]: files, links and empty directories. *)
Definition os_remove (p : path) : M fs (option gerror) :=
  sys_err (λ t, match tree_get p t with
                | None => (Some ErrNotExist, t)
                | Some (Dir _ es) =>
                  if bool_decide (es = ∅) then (None, tree_put p None t) else (Some ErrExist, t)
                | Some _ => (None, tree_put p None t)
                end).

(** [os.RemoveAll]: no error when there is nothing to remove. *)
Definition os_remove_all (p : path) : M fs (option gerror) :=
  sys_err (λ t, (None, tree_put p None t)).

(** ** Trees: what a put changes *)

Section TreeFacts.

Lemma tree_get_app p q n :
  tree_get (p ++ q) n = match tree_get p n with Some m => tree_get q m | None => None end.
Proof.
  revert n; induction p as [|c p IH]; intros n; [done|]. simpl.
  destruct n as [| |m es]; try done. destruct (es !! c); [apply IH|done].
Qed.

(** A directory stays a directory. *)
Lemma tree_put_is_dir_root p v n : is_dir (Some (tree_put p v n)) = is_dir (Some n).
Proof. destruct p, n; simpl; try done; repeat case_match; done. Qed.

Lemma tree_get_put_eq p v n :
  p ≠ [] → is_dir (tree_get (parent p) n) = true → tree_get p (tree_put p v n) = v.
Proof.
  unfold parent. revert n; induction p as [|c p IH]; intros n Hp Hd; [done|].
  destruct p as [|c' p]; simpl in *.
  - destruct n as [| |m es]; try done. simpl. rewrite lookup_partial_alter_eq. by destruct v.
  - destruct n as [| |m es]; try done. destruct (es !! c) as [n'|] eqn:E; [|done].
    simpl. rewrite lookup_insert_eq. apply IH; done.
Qed.

(** A path that is not below [p] and that [p] is not below reads the same. *)
Lemma tree_get_put_ne p q v n :
  ¬ (p `prefix_of` q) → ¬ (q `prefix_of` p) → tree_get q (tree_put p v n) = tree_get q n.
Proof.
  revert q n; induction p as [|c p IH]; intros q n Hpq Hqp; [done|].
  destruct q as [|d q]; [by destruct Hqp; apply prefix_nil|].
  destruct n as [| |m es]; [done..|]. simpl.
  destruct p as [|c' p].
  - simpl. rewrite lookup_partial_alter_ne; [done|].
    intros <-. apply Hpq. apply prefix_cons, prefix_nil.
  - destruct (es !! c) as [n'|] eqn:E; [|done]. simpl.
    destruct (decide (c = d)) as [<-|Hne].
    + rewrite lookup_insert_eq, E. apply IH; intros Hx; [apply Hpq|apply Hqp]; by apply prefix_cons.
    + by rewrite lookup_insert_ne.
Qed.

(** A proper prefix of [p] that is a directory stays one. *)
Lemma tree_get_put_dir p q v n :
  is_dir (tree_get q n) = true → p ≠ q → ¬ (p `prefix_of` q) →
  is_dir (tree_get q (tree_put p v n)) = true.
Proof.
  revert q n; induction p as [|c p IH]; intros q n Hd Hne Hpq; [done|].
  destruct q as [|d q].
  - change (tree_get [] ?x) with (Some x) in *. by rewrite tree_put_is_dir_root.
  - destruct n as [| |m es]; [done..|]. simpl in *.
    destruct p as [|c' p].
    + simpl. rewrite lookup_partial_alter_ne; [done|].
      intros <-. apply Hpq. apply prefix_cons, prefix_nil.
    + destruct (es !! c) as [n'|] eqn:E; [|done]. simpl.
      destruct (decide (c = d)) as [<-|Hcd].
      * rewrite lookup_insert_eq. rewrite E in Hd. apply IH; [done|congruence|].
        intros Hx; apply Hpq; by apply prefix_cons.
      * by rewrite lookup_insert_ne.
Qed.

(** Putting an entry into a directory. *)
Lemma tree_get_put_child d c v n m es :
  tree_get d n = Some (Dir m es) →
  tree_get d (tree_put (d ++ [c]) v n) = Some (Dir m (partial_alter (λ _, v) c es)).
Proof.
  revert n; induction d as [|x d IH]; intros n Hd; simpl in *; [by simplify_eq|].
  destruct n as [| |m' es']; try done. destruct (es' !! x) as [n'|] eqn:E; [|done].
  destruct (d ++ [c]) eqn:El; [by destruct d|]. rewrite <-El in *. simpl.
  rewrite lookup_insert_eq. by apply IH.
Qed.

(** Entries of the root. *)
Lemma root_put_eq c v n : is_dir (Some n) = true → tree_get [c] (tree_put [c] v n) = v.
Proof. intros Hd. by apply tree_get_put_eq. Qed.
Lemma root_put_ne c d q v n : c ≠ d → tree_get (d :: q) (tree_put [c] v n) = tree_get (d :: q) n.
Proof.
  intros Hne. destruct n as [| |m es]; [done..|]. simpl.
  by rewrite lookup_partial_alter_ne.
Qed.

Lemma max_name_length_le es c n : es !! c = Some n → (String.length c <= max_name_length es)%nat.
Proof.
  intros E. unfold max_name_length. apply elem_of_map_to_list in E.
  induction (map_to_list es) as [|[k v] l IH]; [by apply not_elem_of_nil in E|].
  simpl. apply elem_of_cons in E as [[= <- <-]|E]; [lia|]. apply IH in E. lia.
Qed.
Lemma fresh_suffix_fresh es p : es !! (p +:+ fresh_suffix es) = None.
Proof.
  destruct (es !! _) as [n|] eqn:E; [|done]. apply max_name_length_le in E.
  rewrite string_length_app in E. unfold fresh_suffix in E at 1.
  rewrite <-(chars_length (of_chars _)), chars_of_chars, length_replicate in E. lia.
Qed.
End TreeFacts.

(** ** What a call may change

    [below p t t']: the trees agree outside the subtree at [p], and the
    directories above [p] stay directories. *)
Definition below (p : path) (t t' : node) : Prop :=
  (∀ q, ¬ (p `prefix_of` q) → ¬ (q `prefix_of` p) → tree_get q t' = tree_get q t) ∧
  (∀ q, q `prefix_of` p → q ≠ p → is_dir (tree_get q t) = true → is_dir (tree_get q t') = true).

#[export] Instance below_refl p : Reflexive (below p).
Proof. by split. Qed.
#[export] Instance below_trans p : Transitive (below p).
Proof.
  intros t1 t2 t3 [H1 D1] [H2 D2]. split; intros; [rewrite H2, H1; done|].
  apply D2; [done..|]. by apply D1.
Qed.

Lemma below_put p r v t : below p t (tree_put (p ++ r) v t).
Proof.
  split.
  - intros q Hp Hq. apply tree_get_put_ne; intros Hx.
    + apply Hp. etrans; [|exact Hx]. by apply prefix_app_r.
    + destruct (prefix_weak_total p q (p ++ r)); [by apply prefix_app_r|done|done|done].
  - intros q Hq Hne Hd. apply tree_get_put_dir; [done| |].
    + intros <-. apply Hne. apply (anti_symm prefix); [done|by apply prefix_app_r].
    + intros Hx. apply Hne. apply (anti_symm prefix); [done|].
      etrans; [by apply prefix_app_r|exact Hx].
Qed.
Lemma below_put_eq p v t : below p t (tree_put p v t).
Proof. rewrite <-(app_nil_r p) at 2. apply below_put. Qed.

(** A system call either fails by injection and changes nothing, or runs. *)
Lemma sys_inv {A} (run : node → result A * node) w r w' :
  sys run w = (r, w') →
  (is_ok r = false ∧ fs_tree w' = fs_tree w) ∨ run (fs_tree w) = (r, fs_tree w').
Proof.
  unfold sys. destruct (fs_faults w) as [|[e|] q]; [| |];
    try (destruct (run (fs_tree w)) as [r0 t0] eqn:E); intros [= <- <-]; simpl; auto.
Qed.
Lemma sys_err_inv (run : node → option gerror * node) w e w' :
  sys_err run w = (e, w') →
  (e ≠ None ∧ fs_tree w' = fs_tree w) ∨ run (fs_tree w) = (e, fs_tree w').
Proof.
  unfold sys_err. intros H. run_bind H. run_ret H.
  apply sys_inv in E as [[Hf Ht]|E]; [left; by destruct a|].
  destruct (run (fs_tree w)) as [e0 t0]. destruct e0; simplify_eq; auto.
Qed.
Lemma sys_err_None (run : node → option gerror * node) w w' :
  sys_err run w = (None, w') → run (fs_tree w) = (None, fs_tree w').
Proof. intros [[? ?]|?]%sys_err_inv; done. Qed.

(** Without faults every call runs. *)
Lemma sys_quiet {A} (run : node → result A * node) w r w' :
  fs_faults w = [] → sys run w = (r, w') → run (fs_tree w) = (r, fs_tree w') ∧ fs_faults w' = [].
Proof.
  unfold sys. intros ->. destruct (run (fs_tree w)) as [r0 t0]. by intros [= <- <-].
Qed.
Lemma sys_err_quiet (run : node → option gerror * node) w e w' :
  fs_faults w = [] → sys_err run w = (e, w') → run (fs_tree w) = (e, fs_tree w') ∧ fs_faults w' = [].
Proof.
  unfold sys_err. intros Hq H. run_bind H. run_ret H. apply sys_quiet in E as [E ?]; [|done].
  destruct (run (fs_tree w)) as [e0 t0]. by destruct e0; simplify_eq.
Qed.

(** Calls that leave the tree alone. *)
Definition keeps_tree {A} (m : M fs A) : Prop := ∀ w r w', m w = (r, w') → fs_tree w' = fs_tree w.

Lemma keeps_tree_ret {A} (a : A) : keeps_tree (ret a).
Proof. intros w r w' [= <- <-]. done. Qed.
Lemma keeps_tree_bind {A B} (m : M fs A) (k : A → M fs B) :
  keeps_tree m → (∀ a, keeps_tree (k a)) → keeps_tree (bind m k).
Proof. intros Hm Hk w r w' H. run_bind H. rewrite (Hk _ _ _ _ H). eauto. Qed.
Lemma keeps_tree_sys_err run : (∀ t, (run t).2 = t) → keeps_tree (sys_err run).
Proof.
  intros Hr w e w' [[_ ?]|E]%sys_err_inv; [done|]. specialize (Hr (fs_tree w)).
  rewrite E in Hr. done.
Qed.
Lemma keeps_tree_try_err (m k : M fs (option gerror)) :
  keeps_tree m → keeps_tree k → keeps_tree (try_err m k).
Proof.
  intros Hm Hk. apply keeps_tree_bind; [exact Hm|]. intros [e|]; [apply keeps_tree_ret|exact Hk].
Qed.
Lemma file_sync_keeps : keeps_tree file_sync.
Proof. by apply keeps_tree_sys_err. Qed.
Lemma file_close_keeps : keeps_tree file_close.
Proof. by apply keeps_tree_sys_err. Qed.
Lemma os_stat_keeps p : keeps_tree (os_stat p).
Proof. by apply keeps_tree_sys_err. Qed.
Lemma os_open_dir_keeps p : keeps_tree (os_open_dir p).
Proof. by apply keeps_tree_sys_err. Qed.
Lemma os_readlink_keeps p : keeps_tree (os_readlink p).
Proof.
  intros w r w' [[_ ?]|E]%sys_inv; [done|]. repeat case_match; by simplify_eq.
Qed.

Create HintDb fsdb.
#[export] Hint Resolve keeps_tree_ret keeps_tree_bind keeps_tree_try_err file_sync_keeps
  file_close_keeps os_stat_keeps os_open_dir_keeps os_readlink_keeps : fsdb.

(** Calls that write below [p] only. *)
Definition writes_below {A} (p : path) (m : M fs A) : Prop :=
  ∀ w r w', m w = (r, w') → below p (fs_tree w) (fs_tree w').

Lemma writes_below_keeps {A} p (m : M fs A) : keeps_tree m → writes_below p m.
Proof. intros Hm w r w' H. by rewrite (Hm _ _ _ H). Qed.
Lemma writes_below_bind {A B} p (m : M fs A) (k : A → M fs B) :
  writes_below p m → (∀ a, writes_below p (k a)) → writes_below p (bind m k).
Proof. intros Hm Hk w r w' H. run_bind H. etrans; [by eapply Hm|by eapply Hk]. Qed.
Lemma writes_below_try_err p (m k : M fs (option gerror)) :
  writes_below p m → writes_below p k → writes_below p (try_err m k).
Proof.
  intros Hm Hk. apply writes_below_bind; [exact Hm|]. intros [e|]; [|exact Hk].
  apply writes_below_keeps, keeps_tree_ret.
Qed.
Lemma writes_below_sys_err p run :
  (∀ t, below p t (run t).2) → writes_below p (sys_err run).
Proof.
  intros Hr w e w' [[_ ->]|E]%sys_err_inv; [done|]. specialize (Hr (fs_tree w)).
  by rewrite E in Hr.
Qed.

Ltac below_cases :=
  intros t; repeat case_match; subst; cbn [snd]; first [reflexivity | apply below_put | apply below_put_eq | congruence | idtac].
Lemma os_create_excl_below p r mode : writes_below p (os_create_excl (p ++ r) mode).
Proof. apply writes_below_sys_err. below_cases. Qed.
Lemma file_write_below p r d : writes_below p (file_write (p ++ r) d).
Proof. apply writes_below_sys_err. below_cases. Qed.
Lemma os_chmod_below p mode : p ≠ [] → writes_below p (os_chmod p mode).
Proof. intros Hp. apply writes_below_sys_err. below_cases. Qed.
Lemma os_remove_all_below p : writes_below p (os_remove_all p).
Proof. apply writes_below_sys_err. below_cases. Qed.
Lemma os_remove_below p : writes_below p (os_remove p).
Proof. apply writes_below_sys_err. below_cases. Qed.
Lemma os_symlink_below p l : writes_below p (os_symlink l p).
Proof. apply writes_below_sys_err. below_cases. Qed.
#[export] Hint Resolve writes_below_keeps writes_below_bind writes_below_try_err os_create_excl_below
  file_write_below os_chmod_below os_remove_all_below os_remove_below os_symlink_below : fsdb.

(** ** Outcomes of the calls that write *)

Lemma os_stat_inv p w w' : os_stat p w = (None, w') → is_Some (tree_get p (fs_tree w)).
Proof. intros E%sys_err_None. by case_bool_decide. Qed.
Lemma os_symlink_inv l p w e w' :
  os_symlink l p w = (e, w') →
  (e ≠ None ∧ fs_tree w' = fs_tree w) ∨
  (e = None ∧ tree_get p (fs_tree w) = None ∧ is_dir (tree_get (parent p) (fs_tree w)) = true
   ∧ fs_tree w' = tree_put p (Some (Link l)) (fs_tree w)).
Proof.
  intros [?|E]%sys_err_inv; [by left|].
  case_bool_decide as Hs; [left; by simplify_eq|].
  destruct (is_dir _) eqn:Hd; [right|left; by simplify_eq].
  apply eq_None_not_Some in Hs. by simplify_eq.
Qed.
Lemma os_rename_inv p q w e w' :
  os_rename p q w = (e, w') →
  (e ≠ None ∧ fs_tree w' = fs_tree w) ∨
  (e = None ∧ ∃ n, tree_get p (fs_tree w) = Some n ∧ is_dir (tree_get (parent q) (fs_tree w)) = true ∧
   (is_dir (Some n) = false → is_dir (tree_get q (fs_tree w)) = false) ∧
   fs_tree w' = tree_put q (Some n) (tree_put p None (fs_tree w))).
Proof.
  intros [?|E]%sys_err_inv; [by left|].
  destruct (tree_get p _) as [n|] eqn:Hp; [|left; by simplify_eq].
  destruct (is_dir (tree_get (parent q) _)) eqn:Hd; [|left; by simplify_eq].
  destruct n as [d m|l|m es], (tree_get q _) as [[d' m'|l'|m' es']|] eqn:Hq;
    try case_bool_decide; simplify_eq;
    solve [left; done | right; split; [done|]; eexists; repeat split; by rewrite ?Hq].
Qed.
Lemma os_rename_dir_inv p q w w' m es :
  tree_get p (fs_tree w) = Some (Dir m es) → os_rename p q w = (None, w') →
  tree_get q (fs_tree w) = None ∨ ∃ m', tree_get q (fs_tree w) = Some (Dir m' ∅).
Proof.
  intros Hp E%sys_err_None. rewrite Hp in E. destruct (is_dir _); [|done].
  destruct (tree_get q _) as [[| |m' es']|]; try done; [|by left].
  case_bool_decide; [|done]. subst. eauto.
Qed.
Lemma os_remove_inv p w e w' :
  os_remove p w = (e, w') →
  (e ≠ None ∧ fs_tree w' = fs_tree w) ∨ (e = None ∧ fs_tree w' = tree_put p None (fs_tree w)).
Proof.
  intros [?|E]%sys_err_inv; [by left|].
  repeat case_match; simplify_eq; solve [by left|by right].
Qed.
Lemma os_remove_all_inv p w e w' :
  os_remove_all p w = (e, w') → fs_tree w' = fs_tree w ∨ fs_tree w' = tree_put p None (fs_tree w).
Proof. intros [[_ ?]|[= _ ?]]%sys_err_inv; auto. Qed.
Lemma os_mkdir_temp_inv d p w r w' :
  os_mkdir_temp d p w = (r, w') →
  (is_ok r = false ∧ fs_tree w' = fs_tree w) ∨
  ∃ s, r = Ok (p +:+ s) ∧ is_dir (tree_get d (fs_tree w)) = true
       ∧ tree_get (d ++ [p +:+ s]) (fs_tree w) = None
       ∧ fs_tree w' = tree_put (d ++ [p +:+ s]) (Some (Dir 448 ∅)) (fs_tree w).
Proof.
  intros [?|E]%sys_inv; [by left|].
  destruct (is_dir _) eqn:Hd; [|left; by simplify_eq]. right. injection E as <- <-.
  eexists. split; [done|]. split; [done|]. split; [|done]. rewrite tree_get_app.
  destruct (tree_get d _) as [[| |m es]|]; try done. simpl. by rewrite fresh_suffix_fresh.
Qed.
Lemma os_readlink_inv p w r w' :
  os_readlink p w = (r, w') →
  fs_tree w' = fs_tree w ∧ (∀ l, r = Ok l → tree_get p (fs_tree w) = Some (Link l)).
Proof.
  intros [[Hr ?]|E]%sys_inv; [split; [done|]; by intros l ->|].
  repeat case_match; simplify_eq; split; congruence.
Qed.
Lemma os_create_excl_inv p mode w w' :
  os_create_excl p mode w = (None, w') →
  tree_get p (fs_tree w) = None ∧ fs_tree w' = tree_put p (Some (File "" mode)) (fs_tree w).
Proof.
  intros E%sys_err_None. destruct (is_dot _); [done|]. simpl in E. case_bool_decide as Hs; [done|].
  apply eq_None_not_Some in Hs. destruct (is_dir _); by simplify_eq.
Qed.
Lemma file_write_inv p data d m w w' :
  tree_get p (fs_tree w) = Some (File d m) → file_write p data w = (None, w') →
  fs_tree w' = tree_put p (Some (File (d +:+ data) m)) (fs_tree w).
Proof. intros Hp E%sys_err_None. rewrite Hp in E. by simplify_eq. Qed.
Lemma os_chmod_inv p mode m es w w' :
  p ≠ [] → tree_get p (fs_tree w) = Some (Dir m es) → os_chmod p mode w = (None, w') →
  fs_tree w' = tree_put p (Some (Dir mode es)) (fs_tree w).
Proof. intros Hp Hg E%sys_err_None. rewrite Hg in E. by destruct p; simplify_eq. Qed.
