(* ===== verification/Revisions.v ===== *)
(** The directory layout shared by the two revision stores of the program,
    [config.Materializer] and [certificate.TLSStore]: content-addressed
    directories below [revisions/], published by renaming a staged directory,
    and the links [current] and [previous] switched by renaming a temporary
    link.  The two Go files carry the same helpers ([writeSynced] and
    [writeTLSSynced], [syncDir] and [syncTLSDir], [atomicSymlink] and
    [atomicTLSSymlink]) and the same [Restore]; this file holds them once, with
    the invariant of the layout. *)
From stdpp Require Import pretty.
From S2P Require Import Prelude GoStrings GoPath Quote Sha256 FileSys.

(** The components of a slash-separated path below the root. *)
Definition rel_path (p : string) : path := clean_elems true [] (split p slash).

(** ** File helpers *)

Definition writeSynced (p : path) (data : string) (mode : Z) : M fs (option gerror) :=
  err? os_create_excl p mode in
  let* err := (let* e := file_write p data in
               match e with None => file_sync | Some _ => ret e end) in
  let* closeErr := file_close in
  ret (match err with Some e => Some e | None => closeErr end).

Definition atomicSymlink (p : path) (target : string) : M fs (option gerror) :=
  let* now := now_unix_nano in
  let tmp := parent p ++ [default "" (last p) +:+ ".tmp-" +:+ pretty now] in
  err? os_symlink target tmp in
  let* e := os_rename tmp p in
  match e with
  | Some e => let* _ := os_remove tmp in ret (Some e)
  | None => ret None
  end.

Definition syncDir (p : path) : M fs (option gerror) :=
  err? os_open_dir p in
  let* e := file_sync in
  let* _ := file_close in
  ret e.

(** ** Operations of both stores *)

(** The branch of [Apply] and [Publish] where the destination does not exist:
    [fill] prepares the staged directory up to its rename, and the deferred
    [RemoveAll] runs unless the stage was renamed. *)
Definition stage_with (id : string) (fill : path → M fs (option gerror)) : M fs (option gerror) :=
  let* r := os_mkdir_temp ["revisions"] ".stage-" in
  match r with
  | Err e => ret (Some e)
  | Ok stage =>
    let* r := (err? fill ["revisions"; stage] in os_rename ["revisions"; stage] ["revisions"; id]) in
    match r with
    | Some e => let* _ := os_remove_all ["revisions"; stage] in ret (Some e)
    | None => syncDir ["revisions"]
    end
  end.

(** [Apply], from the reading of [current] to the end. *)
Definition switch_current (id : string) : M fs (result string) :=
  let* r := os_readlink ["current"] in
  let old := match r with Ok t => t | Err _ => "" end in
  let target := join_path ["revisions"; id] in
  if bool_decide (old = target) then ret (Ok id)
  else
    nil? (if bool_decide (old = "") then ret None else atomicSymlink ["previous"] old) in
    nil? atomicSymlink ["current"] target in
    nil? syncDir [] in
    ret (Ok id).

(** [Rollback] of both stores, after the reading of [previous]. *)
Definition exchange_links (previous : string) : M fs (option gerror) :=
  let* c := os_readlink ["current"] in
  match c with
  | Err e => ret (Some e)
  | Ok current =>
    err? atomicSymlink ["current"] previous in
    err? atomicSymlink ["previous"] current in
    syncDir []
  end.

(** [os.Remove] whose "not exist" is no error. *)
Definition remove_if_present (p : path) : M fs (option gerror) :=
  let* e := os_remove p in
  ret (match e with
       | Some e => if errors_is e ErrNotExist then None else Some e
       | None => None
       end).

Definition restore_revision (invalid : string) (revision : string) : M fs (option gerror) :=
  if bool_decide (revision = "") then
    err? remove_if_present ["current"] in
    err? remove_if_present ["previous"] in
    syncDir []
  else if negb (bool_decide (base_name revision = revision))
          || bool_decide (revision = ".") || bool_decide (revision = "..")
  then ret (Some (Errorf invalid))
  else
    err? os_stat (rel_path (join_path ["revisions"; revision])) in
    err? atomicSymlink ["current"] (join_path ["revisions"; revision]) in
    syncDir [].

(** ** The layout invariant *)

Definition stage_name (n : string) : Prop := has_prefix n ".stage-" = true.
Definition target_of (id : string) : string := "revisions/" +:+ id.
(** The revision a link selects. *)
Definition link_at (t : node) (name : string) : option string :=
  match tree_get [name] t with Some (Link l) => Some l | _ => None end.

Lemma take_bytes_chars n s : chars (take_bytes n s) = take n (chars s).
Proof. revert s; induction n as [|n IH]; intros [|c s]; [done..|]. simpl. f_equal. apply IH. Qed.

(** Sixteen lower-case hexadecimal digits. *)
Definition revision_name (id : string) : Prop :=
  String.length id = 16%nat ∧ Forall is_hex_digit (chars id).

Section Digest.
Context {SHA : Sha256}.
Lemma digest_name s : revision_name (take_bytes 16 (sha256_hex s)).
Proof.
  destruct (sha256_hex_shape s) as [Hl Hf].
  split.
  - rewrite <-chars_length, take_bytes_chars, length_take, chars_length, Hl. done.
  - rewrite take_bytes_chars. by apply Forall_take.
Qed.
End Digest.

Lemma revision_name_plain id : revision_name id → plain id.
Proof.
  intros [Hl Hf]. split; [|repeat split; by intros ->].
  intros Hin. rewrite Forall_forall in Hf. destruct (Hf _ Hin) as [Hd|Hd]; [done|].
  change (code slash) with 47 in Hd. lia.
Qed.
Lemma revision_name_not_stage id : revision_name id → ¬ stage_name id.
Proof.
  intros [Hl Hf] Hs. unfold stage_name in Hs. destruct id as [|c id]; [done|].
  simpl in Hs. apply andb_true_iff in Hs as [<-%bool_decide_eq_true _].
  apply Forall_cons in Hf as [[Hd|Hd] _]; [done|]. change (code ".") with 46 in Hd. lia.
Qed.
Lemma target_of_eq id : revision_name id → join_path ["revisions"; id] = target_of id.
Proof. intros Hid. apply join_path_two; [by apply (bool_decide_unpack _)|by apply revision_name_plain]. Qed.
Lemma target_of_inj a b : target_of a = target_of b → a = b.
Proof. by intros ?%(inj (String.app _)). Qed.
Lemma rel_path_target id : revision_name id → rel_path (target_of id) = ["revisions"; id].
Proof.
  intros Hid%revision_name_plain. unfold rel_path, target_of.
  change ("revisions/" +:+ id) with ("revisions" +:+ "/" +:+ id).
  assert (plain "revisions") by by apply (bool_decide_unpack _).
  by rewrite split_two, clean_elems_two.
Qed.

(** ** The links *)

Lemma syncDir_keeps p : keeps_tree (syncDir p).
Proof. unfold syncDir. eauto 10 with fsdb. Qed.
#[export] Hint Resolve syncDir_keeps : fsdb.

Lemma atomicSymlink_spec name target w e w' :
  is_dir (Some (fs_tree w)) = true → atomicSymlink [name] target w = (e, w') →
  ∃ s, let tmp := name +:+ ".tmp-" +:+ s in
    is_dir (Some (fs_tree w')) = true ∧
    (∀ c q, c ≠ name → c ≠ tmp → tree_get (c :: q) (fs_tree w') = tree_get (c :: q) (fs_tree w)) ∧
    (e = None → tree_get [name] (fs_tree w') = Some (Link target)) ∧
    (e ≠ None → tree_get [name] (fs_tree w') = tree_get [name] (fs_tree w)).
Proof.
  intros Hd H. unfold atomicSymlink in H. run_bind H. injection E as <- <-.
  exists (pretty (fs_clock w)). change (parent [name]) with (@nil string) in H.
  change (default "" (last [name])) with name in H. cbn [app] in H. set (tmp := name +:+ _) in *. cbv zeta.
  assert (Hne : tmp ≠ name).
  { intros E%(f_equal String.length). unfold tmp in E. rewrite !string_length_app in E. simpl in E. lia. }
  run_bind H. apply os_symlink_inv in E as [[Ha Ht]|(-> & Hn & _ & Ht)]; cbn [fs_tree] in *.
  { destruct a; [|done]. run_ret H. by rewrite Ht. }
  assert (Hl : tree_get [tmp] (fs_tree w1) = Some (Link target)) by (rewrite Ht; by apply root_put_eq).
  assert (Hd1 : is_dir (Some (fs_tree w1)) = true) by by rewrite Ht, tree_put_is_dir_root.
  assert (Hother : ∀ c q, c ≠ tmp → tree_get (c :: q) (fs_tree w1) = tree_get (c :: q) (fs_tree w)).
  { intros c q Hc. rewrite Ht. by apply root_put_ne. }
  run_bind H. apply os_rename_inv in E as [[Ha Ht2]|(-> & n & Hn2 & _ & _ & Ht2)].
  - destruct a; [|done]. run_bind H. run_ret H.
    assert (Hw : fs_tree w' = fs_tree w1 ∨ fs_tree w' = tree_put [tmp] None (fs_tree w1)).
    { apply os_remove_inv in E. rewrite Ht2 in E. naive_solver. }
    destruct Hw as [->| ->]; rewrite ?tree_put_is_dir_root; repeat split; try done; intros;
      rewrite ?root_put_ne by done; by apply Hother.
  - run_ret H. rewrite Hl in Hn2. injection Hn2 as <-. rewrite Ht2, !tree_put_is_dir_root.
    repeat split; [done|..].
    + intros c q Hc1 Hc2. rewrite !root_put_ne by done. by apply Hother.
    + intros _. apply root_put_eq. by rewrite tree_put_is_dir_root.
    + done.
Qed.
Lemma writeSynced_below sp name data mode : writes_below sp (writeSynced (sp ++ [name]) data mode).
Proof.
  unfold writeSynced. apply writes_below_try_err; [auto with fsdb|].
  apply writes_below_bind; [|intros; apply writes_below_bind; auto with fsdb].
  apply writes_below_bind; [auto with fsdb|]. intros [e|]; auto with fsdb.
Qed.

Lemma writeSynced_done sp name data mode m es w w' :
  tree_get sp (fs_tree w) = Some (Dir m es) → writeSynced (sp ++ [name]) data mode w = (None, w') →
  es !! name = None ∧ tree_get sp (fs_tree w') = Some (Dir m (<[name := File data mode]> es)).
Proof.
  intros Hd H. unfold writeSynced in H. run_bind H. destruct a; [run_absurd H|].
  apply os_create_excl_inv in E as [Hn Ht].
  rewrite tree_get_app, Hd in Hn. simpl in Hn. destruct (es !! name) eqn:Hes; [done|].
  assert (Hd1 := tree_get_put_child _ name (Some (File "" mode)) _ _ _ Hd). rewrite <-Ht in Hd1.
  run_bind H. destruct a; [run_bind H; run_absurd H|].
  run_bind E. destruct a; [run_absurd E|].
  apply (file_write_inv _ _ "" mode) in E0; cycle 1.
  { rewrite tree_get_app, Hd1. simpl. by rewrite lookup_partial_alter_eq. }
  apply file_sync_keeps in E. run_bind H. apply file_close_keeps in E1. run_ret H.
  rewrite E1, E, E0. split; [done|].
  rewrite (tree_get_put_child _ _ _ _ _ _ Hd1). do 2 f_equal.
  apply map_eq. intros k. rewrite lookup_partial_alter, lookup_insert.
  case_decide; [done|]. by rewrite lookup_partial_alter_ne.
Qed.

(** What a store promises of its revisions: which trees are complete under
    which name.  A name has the shape of a digest, so it is neither a stage nor
    a path, and a complete revision is not empty. *)
Class Layout := {
  complete : string → node → Prop;
  complete_name : ∀ id n, complete id n → revision_name id;
  complete_entries : ∀ id m, complete id (Dir m ∅) → False
}.

Section Layout.
Context {L : Layout}.

(** The revision [id] is there and complete. *)
Definition published (t : node) (id : string) : Prop :=
  ∃ n, complete id n ∧ tree_get ["revisions"; id] t = Some n.
(** A link that is absent or points to a complete revision. *)
Definition link_ok (t : node) (name : string) : Prop :=
  ∀ n, tree_get [name] t = Some n → ∃ id, n = Link (target_of id) ∧ published t id.
Record store_ok (t : node) : Prop := {
  so_root : is_dir (Some t) = true;
  so_revisions : is_dir (tree_get ["revisions"] t) = true;
  so_published : ∀ id n, tree_get ["revisions"; id] t = Some n → ¬ stage_name id → published t id;
  so_current : link_ok t "current";
  so_previous : link_ok t "previous"
}.
(** The two link names. *)
Definition link_pair (name other : string) : Prop :=
  (name = "current" ∧ other = "previous") ∨ (name = "previous" ∧ other = "current").

(** What one link switch does to the store. *)
Record switched (name other target : string) (e : option gerror) (t t' : node) : Prop := {
  sw_ok : store_ok t';
  sw_revisions : ∀ q, tree_get ("revisions" :: q) t' = tree_get ("revisions" :: q) t;
  sw_other : tree_get [other] t' = tree_get [other] t;
  sw_done : e = None → tree_get [name] t' = Some (Link target);
  sw_failed : e ≠ None → tree_get [name] t' = tree_get [name] t
}.

Lemma published_same t t' id :
  tree_get ["revisions"; id] t' = tree_get ["revisions"; id] t → published t id → published t' id.
Proof. intros E (n & ? & ?). exists n. by rewrite E. Qed.
Lemma link_ok_same t t' name :
  (∀ q, tree_get ("revisions" :: q) t' = tree_get ("revisions" :: q) t) →
  tree_get [name] t' = tree_get [name] t → link_ok t name → link_ok t' name.
Proof.
  intros Hr Hn Hl n. rewrite Hn. intros (id & -> & Hp)%Hl.
  exists id. split; [done|]. eapply published_same; [apply Hr|done].
Qed.

Lemma atomicSymlink_store name other id w e w' :
  link_pair name other → store_ok (fs_tree w) → published (fs_tree w) id →
  atomicSymlink [name] (target_of id) w = (e, w') →
  switched name other (target_of id) e (fs_tree w) (fs_tree w').
Proof.
  intros Hnm [Hd Hr Hp Hc Hv] Hid H.
  destruct (atomicSymlink_spec _ _ _ _ _ Hd H) as (s & Hd' & Hoth & Hok & Hfail). cbv zeta in *.
  assert (Hne : "revisions" ≠ name ∧ "revisions" ≠ name +:+ ".tmp-" +:+ s
          ∧ other ≠ name ∧ other ≠ name +:+ ".tmp-" +:+ s).
  { by destruct Hnm as [[-> ->]|[-> ->]]. }
  destruct Hne as (N1 & N2 & N3 & N4).
  assert (Hrev : ∀ q, tree_get ("revisions" :: q) (fs_tree w') = tree_get ("revisions" :: q) (fs_tree w)).
  { intros q. by apply Hoth. }
  assert (Hother : tree_get [other] (fs_tree w') = tree_get [other] (fs_tree w)) by by apply Hoth.
  assert (Hname : link_ok (fs_tree w') name).
  { destruct e as [err|].
    - eapply link_ok_same; [done|by apply Hfail|]. by destruct Hnm as [[-> ->]|[-> ->]].
    - intros n. rewrite Hok by done. intros [= <-]. exists id. split; [done|].
      eapply published_same; [apply Hrev|done]. }
  assert (Hlo : link_ok (fs_tree w') other).
  { eapply link_ok_same; [done..|]. by destruct Hnm as [[-> ->]|[-> ->]]. }
  split; try done. split; [done|by rewrite Hrev| |by destruct Hnm as [[-> ->]|[-> ->]]..].
  intros x n. rewrite Hrev. intros. eapply published_same; [apply Hrev|]. eauto.
Qed.

(** A store read through [os_readlink]. *)
Lemma readlink_published name other w l w' :
  link_pair name other → store_ok (fs_tree w) → os_readlink [name] w = (Ok l, w') →
  fs_tree w' = fs_tree w ∧ ∃ id, l = target_of id ∧ published (fs_tree w) id
  ∧ tree_get [name] (fs_tree w) = Some (Link l).
Proof.
  intros Hnm Hs [Ht Hl]%os_readlink_inv. split; [done|].
  specialize (Hl _ eq_refl).
  assert (Hk : link_ok (fs_tree w) name) by (destruct Hnm as [[-> _]|[-> _]]; apply Hs).
  destruct (Hk _ Hl) as (id & [= ->] & Hp). eauto.
Qed.


(** ** Staging *)

(** A call that changes the staged directory only keeps the store. *)
Lemma below_get sp t t' q :
  below sp t t' → ¬ (sp `prefix_of` q) → ¬ (q `prefix_of` sp) → tree_get q t' = tree_get q t.
Proof. intros [H _]. apply H. Qed.
Lemma stage_not_prefix stage id q :
  ¬ (stage = id) → ¬ (["revisions"; stage] `prefix_of` "revisions" :: id :: q) ∧ ¬ ("revisions" :: id :: q `prefix_of` ["revisions"; stage]).
Proof.
  intros Hne. split; intros [k Hk]; simplify_eq/=; try done.
Qed.

(** Other entries of the root are left alone. *)
Definition root_kept (t t' : node) : Prop :=
  ∀ c q, c ≠ "revisions" → tree_get (c :: q) t' = tree_get (c :: q) t.
(** Complete revisions are left alone. *)
Definition revisions_kept (t t' : node) : Prop :=
  ∀ x n, ¬ stage_name x → tree_get ["revisions"; x] t = Some n → tree_get ["revisions"; x] t' = Some n.
(** What staging may do to the store. *)
Definition staged (t t' : node) : Prop := store_ok t' ∧ root_kept t t' ∧ revisions_kept t t'.
#[export] Instance root_kept_trans : Transitive root_kept.
Proof. intros a b c H1 H2 x q Hx. by rewrite H2, H1. Qed.
#[export] Instance revisions_kept_trans : Transitive revisions_kept.
Proof. intros a b c H1 H2 x n Hx Hn. eauto. Qed.
Lemma staged_trans t1 t2 t3 : staged t1 t2 → staged t2 t3 → staged t1 t3.
Proof. intros (?&?&?) (?&?&?). split; [done|]. split; by etrans. Qed.
Lemma staged_refl t : store_ok t → staged t t.
Proof. intros Hs. split; [done|]. split; [intros ???|intros ????]; done. Qed.

Lemma published_kept t t' id : revisions_kept t t' → published t id → published t' id.
Proof.
  intros Hk (n & Hc & Hg). exists n. split; [done|].
  apply Hk; [|done]. by eapply revision_name_not_stage, complete_name.
Qed.
Lemma link_ok_kept t t' name :
  tree_get [name] t' = tree_get [name] t → revisions_kept t t' → link_ok t name → link_ok t' name.
Proof.
  intros E Hk Hl n. rewrite E. intros (id & -> & Hp)%Hl. eauto using published_kept.
Qed.

Lemma staged_below stage t t' :
  stage_name stage → store_ok t → below ["revisions"; stage] t t' → staged t t'.
Proof.
  intros Hst [Hd Hr Hp Hc Hv] Hb.
  assert (Hroot : root_kept t t').
  { intros c q Hc'. apply Hb; intros [k Hk]; simplify_eq/=; try done. }
  assert (Hrev : ∀ x, ¬ stage_name x → tree_get ["revisions"; x] t' = tree_get ["revisions"; x] t).
  { intros x Hx. destruct (stage_not_prefix stage x []); [by intros ->|]. by apply Hb. }
  assert (Hk : revisions_kept t t') by (intros x n Hx Hn; by rewrite Hrev).
  split; [|done]. destruct Hb as [_ Hb]. split.
  - apply (Hb []); [apply prefix_nil|done|done].
  - apply Hb; [by exists [stage]|done|done].
  - intros id n Hn Hid. rewrite Hrev in Hn by done. eauto using published_kept.
  - apply (link_ok_kept t); auto.
  - apply (link_ok_kept t); auto.
Qed.

(** Publishing a complete revision under its name keeps the store. *)
Lemma staged_publish id n t :
  complete id n → store_ok t →
  (tree_get ["revisions"; id] t = None ∨ ∃ m, tree_get ["revisions"; id] t = Some (Dir m ∅)) →
  let t' := tree_put ["revisions"; id] (Some n) t in
  staged t t' ∧ published t' id.
Proof.
  intros Hcn Hs Hdest t'.
  assert (Hget : tree_get ["revisions"; id] t' = Some n).
  { apply tree_get_put_eq; [done|]. apply Hs. }
  assert (Hoth : ∀ x, x ≠ id → tree_get ["revisions"; x] t' = tree_get ["revisions"; x] t).
  { intros x Hx. apply tree_get_put_ne; intros [k Hk]; simplify_eq/=. }
  assert (Hroot : root_kept t t').
  { intros c q Hc. apply tree_get_put_ne; intros [k Hk]; simplify_eq/=. }
  assert (Hpub : published t' id) by (by exists n).
  assert (Hk : revisions_kept t t').
  { intros x n' Hx Hn. destruct (decide (x = id)) as [->|Hxi]; [|by rewrite Hoth].
    destruct (so_published _ Hs _ _ Hn Hx) as (n2 & Hc2 & Hg).
    destruct Hdest as [Hd|[m Hd]]; rewrite Hd in Hg; simplify_eq.
    by apply complete_entries in Hc2. }
  split; [|done]. split; [|done]. destruct Hs as [Hd Hr Hp Hc Hv]. split.
  - by rewrite <-(tree_put_is_dir_root ["revisions"; id] (Some n)) in Hd.
  - apply tree_get_put_dir; [done|done|]. intros [k Hk']. done.
  - intros x n' Hn Hx. destruct (decide (x = id)) as [->|Hxi]; [done|]. rewrite Hoth in Hn by done.
    eauto using published_kept.
  - apply (link_ok_kept t); auto.
  - apply (link_ok_kept t); auto.
Qed.

(** What the preparation of a stage must do: write below the stage only, and on
    success leave there a complete revision named [id]. *)
Record fills (id : string) (Q : Prop) (fill : path → M fs (option gerror)) : Prop := {
  fills_below : ∀ stage, writes_below ["revisions"; stage] (fill ["revisions"; stage]);
  fills_done : ∀ stage w w',
    is_dir (tree_get ["revisions"] (fs_tree w)) = true →
    tree_get ["revisions"; stage] (fs_tree w) = Some (Dir 448 ∅) →
    fill ["revisions"; stage] w = (None, w') →
    ∃ m es, tree_get ["revisions"; stage] (fs_tree w') = Some (Dir m es) ∧ complete id (Dir m es) ∧ Q
}.

Lemma fill_rename_spec id Q fill stage w e w' :
  fills id Q fill → revision_name id → stage_name stage → store_ok (fs_tree w) →
  tree_get ["revisions"; stage] (fs_tree w) = Some (Dir 448 ∅) →
  (err? fill ["revisions"; stage] in os_rename ["revisions"; stage] ["revisions"; id]) w = (e, w') →
  staged (fs_tree w) (fs_tree w') ∧ (e = None → published (fs_tree w') id ∧ Q).
Proof.
  intros [Hbel Hdone] Hid Hst Hs Hd H. set (sp := ["revisions"; stage]) in *.
  run_bind H. assert (S1 : staged (fs_tree w) (fs_tree w1)) by (by eapply staged_below, Hbel).
  destruct a as [x|]; [run_ret H; done|].
  destruct (Hdone _ _ _ (so_revisions _ Hs) Hd E) as (m & es & Hn & Hc & HQ). fold sp in Hn.
  assert (H' := H). apply os_rename_inv in H as [[He ->]|(-> & n & Hn2 & _ & _ & Ht)]; [done|].
  rewrite Hn in Hn2. injection Hn2 as <-. apply (os_rename_dir_inv _ _ _ _ _ _ Hn) in H'.
  set (t1 := tree_put sp None (fs_tree w1)) in *.
  assert (S2 : staged (fs_tree w1) t1) by (apply (staged_below stage); [done|apply S1|apply below_put_eq]).
  destruct (stage_not_prefix stage id []) as [P1 P2].
  { intros ->. by apply revision_name_not_stage in Hst. }
  destruct (staged_publish id (Dir m es) t1) as [S3 P3]; [done|apply S2| |].
  { unfold t1. by rewrite (tree_get_put_ne _ _ _ _ P1 P2). }
  rewrite Ht. split; [|done]. do 2 (eapply staged_trans; [done|]). done.
Qed.

Lemma stage_with_spec id Q fill w e w' :
  fills id Q fill → revision_name id → store_ok (fs_tree w) → stage_with id fill w = (e, w') →
  staged (fs_tree w) (fs_tree w') ∧ (e = None → published (fs_tree w') id ∧ Q).
Proof.
  intros Hf Hid Hs H. unfold stage_with in H. run_bind H.
  apply os_mkdir_temp_inv in E as [[Ha Ht]|(s & -> & _ & Hn & Ht)].
  { destruct a; [done|]. run_ret H. rewrite Ht. split; [by apply staged_refl|done]. }
  set (stage := ".stage-" +:+ s) in *. assert (Hst : stage_name stage) by (by destruct s).
  assert (S1 : staged (fs_tree w) (fs_tree w1)).
  { rewrite Ht. apply (staged_below stage); [done..|]. apply below_put_eq. }
  run_bind H. apply (fill_rename_spec _ Q) in E as [S2 P2]; [|done..|apply S1|].
  2: { rewrite Ht. apply tree_get_put_eq; [done|]. apply Hs. }
  destruct a as [x|].
  - run_bind H. run_ret H. split; [|done].
    apply (os_remove_all_below ["revisions"; stage]) in E.
    do 2 (eapply staged_trans; [done|]). eapply staged_below; [done|apply S2|done].
  - apply syncDir_keeps in H. rewrite H. split; [by eapply staged_trans|by auto].
Qed.

(** ** The switch *)

Lemma published_name t id : published t id → revision_name id.
Proof. intros (n & Hc & _). by eapply complete_name. Qed.

Definition same_revisions (t t' : node) : Prop :=
  ∀ q, tree_get ("revisions" :: q) t' = tree_get ("revisions" :: q) t.

Lemma link_at_same t t' name : tree_get [name] t' = tree_get [name] t → link_at t' name = link_at t name.
Proof. unfold link_at. by intros ->. Qed.

Lemma switch_to_spec id w r w' :
  store_ok (fs_tree w) → published (fs_tree w) id →
  (nil? atomicSymlink ["current"] (target_of id) in nil? syncDir [] in ret (Ok id)) w = (r, w') →
  store_ok (fs_tree w') ∧ same_revisions (fs_tree w) (fs_tree w')
  ∧ link_at (fs_tree w') "previous" = link_at (fs_tree w) "previous"
  ∧ (link_at (fs_tree w') "current" = link_at (fs_tree w) "current" ∧ r ≠ Ok id
     ∨ link_at (fs_tree w') "current" = Some (target_of id))
  ∧ (∀ x, r = Ok x → x = id).
Proof.
  intros Hs Hp H. run_bind H. apply (atomicSymlink_store _ "previous") in E as [S1 R1 O1 D1 F1]; [|by left|done|done].
  destruct a as [e|].
  - run_ret H. split; [done|]. split; [done|]. split; [by apply link_at_same|].
    split; [left; split; [|done]; by apply link_at_same, F1|done].
  - run_bind H. apply syncDir_keeps in E. destruct a; run_ret H; rewrite E;
      (split; [done|]; split; [done|]; split; [by apply link_at_same|]);
      (split; [right; by unfold link_at; rewrite D1|by intros ? [= ->]]).
Qed.

Lemma switch_current_spec id w r w' :
  store_ok (fs_tree w) → published (fs_tree w) id → switch_current id w = (r, w') →
  store_ok (fs_tree w') ∧ same_revisions (fs_tree w) (fs_tree w')
  ∧ (link_at (fs_tree w') "previous" = link_at (fs_tree w) "previous"
     ∨ link_at (fs_tree w') "previous" = link_at (fs_tree w) "current")
  ∧ (link_at (fs_tree w') "current" = link_at (fs_tree w) "current" ∧ is_ok r = false
     ∨ link_at (fs_tree w') "current" = Some (target_of id))
  ∧ (∀ x, r = Ok x → x = id).
Proof.
  intros Hs Hp H. unfold switch_current in H. rewrite target_of_eq in H by (by eapply published_name).
  run_bind H. destruct (os_readlink_inv _ _ _ _ E) as [Ht Hl].
  rewrite bool_decide_decide in H. destruct (decide _) as [Ho|Ho].
  { run_ret H. rewrite Ht. split; [done|]. split; [done|]. split; [by left|].
    split; [right|by intros ? [= ->]]. destruct a as [l|]; [|done]. unfold link_at.
    by rewrite (Hl l), Ho. }
  rewrite bool_decide_decide in H. destruct (decide _) as [Hemp|Hemp].
  { run_bind H. run_ret E0. apply switch_to_spec in H; rewrite ?Ht in *; [|done..].
    destruct H as (?&?&?&Hc&Hr). split; [done|]. split; [done|]. split; [by left|]. split; [|done].
    destruct Hc as [[? ?]|?]; [left|by right]. split; [done|]. destruct r; [|done]. specialize (Hr _ eq_refl). congruence. }
  destruct a as [l|]; [|done]. destruct (readlink_published "current" "previous" _ _ _ ltac:(by left) Hs E) as (_ & io & -> & Hpo & Hlo).
  run_bind H. apply (atomicSymlink_store _ "current") in E0 as [S1 R1 O1 D1 F1]; [|by right|by rewrite Ht|by rewrite Ht].
  rewrite Ht in R1, O1, F1. destruct a as [e|].
  { run_ret H. split; [done|]. split; [done|]. split; [left; by apply link_at_same, F1|].
    split; [left; split; [|done]; by apply link_at_same|done]. }
  apply switch_to_spec in H; [|done|by eapply published_same; [apply R1|]].
  destruct H as (Hs' & HR & HP & Hc & Hr). split; [done|]. split; [intros q; by rewrite HR, R1|].
  split. { right. rewrite HP. unfold link_at. by rewrite D1, Hlo. }
  split; [|done]. destruct Hc as [[Hc Hn]|?]; [left|by right].
  split; [rewrite Hc; by apply link_at_same|]. destruct r; [|done]. specialize (Hr _ eq_refl). congruence.
Qed.

(** ** Rollback *)

Lemma exchange_links_spec prev w w1 e w' :
  store_ok (fs_tree w) → os_readlink ["previous"] w = (Ok prev, w1) → exchange_links prev w1 = (e, w') →
  store_ok (fs_tree w') ∧ same_revisions (fs_tree w) (fs_tree w') ∧
  (e = None → link_at (fs_tree w') "current" = link_at (fs_tree w) "previous" ∧
              link_at (fs_tree w') "previous" = link_at (fs_tree w) "current" ∧
              is_Some (link_at (fs_tree w) "previous") ∧ is_Some (link_at (fs_tree w) "current")).
Proof.
  intros Hs E H. unfold exchange_links in H.
  apply (readlink_published _ "current") in E as (Ht1 & ip & -> & Hpp & Hlp); [|by right|done].
  run_bind H. destruct a as [cur|err]; cycle 1.
  { run_ret H. apply os_readlink_inv in E as [-> _]. by rewrite Ht1. }
  apply (readlink_published _ "previous") in E as (Ht2 & ic & -> & Hpc & Hlc);
    [|by left|by rewrite Ht1].
  rewrite Ht1 in Ht2, Hpc, Hlc.
  run_bind H. apply (atomicSymlink_store _ "previous") in E as [S1 R1 O1 D1 F1];
    [|by left|by rewrite Ht2|by rewrite Ht2]. rewrite Ht2 in R1, O1, F1.
  destruct a as [err|]; [run_ret H; done|].
  run_bind H. apply (atomicSymlink_store _ "current") in E as [S2 R2 O2 D2 F2];
    [|by right|done|eapply published_same; [apply R1|done]].
  assert (R : same_revisions (fs_tree w) (fs_tree w3)) by (intros q; by rewrite R2, R1).
  destruct a as [err|]; [run_ret H; done|].
  apply syncDir_keeps in H as ->. split; [done|]. split; [done|]. intros _.
  unfold link_at. rewrite O2, D1, D2, Hlp, Hlc by done. eauto.
Qed.

(** ** Restore *)

Lemma remove_if_present_root name w e w' :
  name ≠ "revisions" → is_dir (Some (fs_tree w)) = true → remove_if_present [name] w = (e, w') →
  is_dir (Some (fs_tree w')) = true ∧
  (∀ c q, c ≠ name → tree_get (c :: q) (fs_tree w') = tree_get (c :: q) (fs_tree w)) ∧
  (tree_get [name] (fs_tree w') = tree_get [name] (fs_tree w) ∨ tree_get [name] (fs_tree w') = None).
Proof.
  intros Hne Hd H. unfold remove_if_present in H. run_bind H. run_ret H.
  apply os_remove_inv in E as [[_ ->]|[_ ->]]; [by eauto|].
  rewrite tree_put_is_dir_root. split; [done|]. split; [intros; by apply root_put_ne|].
  right. by apply root_put_eq.
Qed.

Lemma remove_if_present_quiet name w e w' :
  is_dir (Some (fs_tree w)) = true → fs_faults w = [] → remove_if_present [name] w = (e, w') →
  e = None → link_at (fs_tree w') name = None.
Proof.
  intros Hd Hq H. unfold remove_if_present in H. run_bind H. run_ret H.
  apply sys_err_quiet in E as [E _]; [|done]. unfold link_at.
  assert (Hput : tree_get [name] (tree_put [name] None (fs_tree w)) = None) by by apply root_put_eq.
  destruct (tree_get [name] (fs_tree w)) as [[| |m es]|] eqn:Hg; [| |case_bool_decide|];
    apply pair_eq in E as [E1 E2]; rewrite <-E2; intros He;
    [by rewrite Hput|by rewrite Hput|by rewrite Hput|by subst|by rewrite Hg].
Qed.

Lemma remove_if_present_store name other w e w' :
  link_pair name other → store_ok (fs_tree w) → remove_if_present [name] w = (e, w') →
  store_ok (fs_tree w') ∧ same_revisions (fs_tree w) (fs_tree w')
  ∧ tree_get [other] (fs_tree w') = tree_get [other] (fs_tree w).
Proof.
  intros Hnm [Hd Hr Hp Hc Hv] H.
  assert (N : "revisions" ≠ name ∧ other ≠ name) by (by destruct Hnm as [[-> ->]|[-> ->]]).
  destruct N as [N1 N2]. apply remove_if_present_root in H as (Hd' & Ho & Hn); [|done..].
  assert (HR : same_revisions (fs_tree w) (fs_tree w')) by (intros q; by apply Ho).
  assert (Hoth : tree_get [other] (fs_tree w') = tree_get [other] (fs_tree w)) by by apply Ho.
  assert (L1 : link_ok (fs_tree w') other).
  { eapply link_ok_same; [done..|]. by destruct Hnm as [[-> ->]|[-> ->]]. }
  assert (L2 : link_ok (fs_tree w') name).
  { destruct Hn as [Hn|Hn]; [|intros n; by rewrite Hn].
    eapply link_ok_same; [done..|]. by destruct Hnm as [[-> ->]|[-> ->]]. }
  split; [|done]. split; [done|by rewrite HR| |by destruct Hnm as [[-> ->]|[-> ->]]..].
  intros x n. rewrite HR. intros. eapply published_same; [apply HR|]. eauto.
Qed.

(** [Restore] of the empty name or of a revision name. *)
Lemma restore_revision_spec invalid revision w e w' :
  store_ok (fs_tree w) → revision = "" ∨ revision_name revision →
  restore_revision invalid revision w = (e, w') →
  store_ok (fs_tree w') ∧ same_revisions (fs_tree w) (fs_tree w')
  ∧ (e = None → revision ≠ "" →
     published (fs_tree w') revision ∧ link_at (fs_tree w') "current" = Some (target_of revision)
     ∧ link_at (fs_tree w') "previous" = link_at (fs_tree w) "previous").
Proof.
  intros Hs Hrev H. unfold restore_revision in H. case_bool_decide as Hr.
  { run_bind H. apply (remove_if_present_store _ "previous") in E as (S1 & R1 & O1); [|by left|done].
    destruct a; [run_ret H; done|].
    run_bind H. apply (remove_if_present_store _ "current") in E as (S2 & R2 & O2); [|by right|done].
    assert (R : same_revisions (fs_tree w) (fs_tree w0)) by (intros q; by rewrite R2, R1).
    destruct a; [run_ret H; done|]. apply syncDir_keeps in H. by rewrite H. }
  destruct Hrev as [?|Hname]; [done|]. assert (Hpl := revision_name_plain _ Hname).
  case_match; [run_ret H; done|]. rewrite target_of_eq, rel_path_target in H by done.
  run_bind H. assert (Ht := os_stat_keeps _ _ _ _ E). destruct a; [run_ret H; by rewrite Ht|].
  apply os_stat_inv in E as [n Hn].
  assert (Hpub : published (fs_tree w) revision).
  { eapply so_published; [done..|]. by apply revision_name_not_stage. }
  run_bind H. apply (atomicSymlink_store _ "previous") in E as [S1 R1 O1 D1 F1]; [|by left|by rewrite Ht..].
  rewrite Ht in R1, O1. destruct a; [run_ret H; done|]. apply syncDir_keeps in H. rewrite H.
  split; [done|]. split; [done|]. intros _ _. split; [eapply published_same; [apply R1|done]|].
  split; [unfold link_at; by rewrite D1|by apply link_at_same].
Qed.

(** ** Runs without faults

    When no call is made to fail and the root holds nothing but the three names
    of the layout, the switches succeed. *)

Record quiet (w : fs) : Prop := {
  quiet_ok : store_ok (fs_tree w);
  quiet_faults : fs_faults w = [];
  quiet_root : ∀ c, is_Some (tree_get [c] (fs_tree w)) → c = "revisions" ∨ c = "current" ∨ c = "previous"
}.

(** A call that only moves within the fault stream keeps it empty. *)
Definition stays_quiet {A} (m : M fs A) : Prop :=
  ∀ w r w', fs_faults w = [] → m w = (r, w') → fs_faults w' = [].
Lemma stays_quiet_ret {A} (a : A) : stays_quiet (ret a).
Proof. intros w r w' Hq [= <- <-]. done. Qed.
Lemma stays_quiet_bind {A B} (m : M fs A) (k : A → M fs B) :
  stays_quiet m → (∀ a, stays_quiet (k a)) → stays_quiet (bind m k).
Proof. intros Hm Hk w r w' Hq H. run_bind H. eapply Hk; [|done]. by eapply Hm. Qed.
Lemma stays_quiet_try_err (m k : M fs (option gerror)) :
  stays_quiet m → stays_quiet k → stays_quiet (try_err m k).
Proof. intros Hm Hk. apply stays_quiet_bind; [done|]. intros [e|]; [apply stays_quiet_ret|done]. Qed.
Lemma stays_quiet_try_nil {B} (m : M fs (option gerror)) (k : M fs (result B)) :
  stays_quiet m → stays_quiet k → stays_quiet (try_nil m k).
Proof. intros Hm Hk. apply stays_quiet_bind; [done|]. intros [e|]; [apply stays_quiet_ret|done]. Qed.
Lemma stays_quiet_sys {A} (run : node → result A * node) : stays_quiet (sys run).
Proof. intros w r w' Hq H. by eapply sys_quiet. Qed.
Lemma stays_quiet_sys_err run : stays_quiet (sys_err run).
Proof. intros w r w' Hq H. by eapply sys_err_quiet. Qed.

Lemma syncDir_quiet p w e w' :
  fs_faults w = [] → is_Some (tree_get p (fs_tree w)) → syncDir p w = (e, w') → e = None ∧ fs_faults w' = [].
Proof.
  intros Hq Hp H. unfold syncDir in H. run_bind H. apply sys_err_quiet in E as [E Hq1]; [|done].
  rewrite bool_decide_eq_true_2 in E by done. injection E as <- _.
  run_bind H. apply sys_err_quiet in E as [[= <- _] Hq2]; [|done].
  run_bind H. apply sys_err_quiet in E as [_ Hq3]; [|done]. by run_ret H.
Qed.

Lemma atomicSymlink_quiet name other id w e w' :
  link_pair name other → quiet w → published (fs_tree w) id →
  atomicSymlink [name] (target_of id) w = (e, w') → e = None ∧ quiet w'.
Proof.
  intros Hnm [Hs Hq Hroot] Hid H.
  assert (Hs' := atomicSymlink_store _ _ _ _ _ _ Hnm Hs Hid H).
  assert (Hd : is_dir (Some (fs_tree w)) = true) by apply Hs.
  destruct (atomicSymlink_spec _ _ _ _ _ Hd H) as (s & _ & Hoth & _). cbv zeta in Hoth.
  unfold atomicSymlink in H. run_bind H. injection E as <- <-.
  change (parent [name]) with (@nil string) in H. change (default "" (last [name])) with name in H. cbn [app] in H.
  set (tmp := name +:+ _) in *.
  assert (Htmp : tree_get [tmp] (fs_tree w) = None).
  { apply eq_None_not_Some. intros Hx%Hroot. destruct Hnm as [[-> _]|[-> _]]; naive_solver. }
  assert (Hne : tmp ≠ name).
  { intros E%(f_equal String.length). unfold tmp in E. rewrite !string_length_app in E. simpl in E. lia. }
  run_bind H. assert (E' := E). apply sys_err_quiet in E as [E Hq1]; [|done]. cbn [fs_tree] in E.
  rewrite Htmp in E. rewrite bool_decide_eq_false_2 in E by (by intros [? ?]).
  change (tree_get (parent [tmp]) (fs_tree w)) with (Some (fs_tree w)) in E. rewrite Hd in E.
  apply pair_eq in E as [<- Ht1].
  run_bind H. apply sys_err_quiet in E as [E Hq2]; [|done].
  assert (Hl : tree_get [tmp] (fs_tree w1) = Some (Link (target_of id))) by (rewrite <-Ht1; by apply root_put_eq).
  assert (Hn1 : tree_get [name] (fs_tree w1) = tree_get [name] (fs_tree w)).
  { rewrite <-Ht1. by apply root_put_ne. }
  rewrite Hl in E. change (tree_get (parent [name]) (fs_tree w1)) with (Some (fs_tree w1)) in E.
  assert (Hd1 : is_dir (Some (fs_tree w1)) = true) by by rewrite <-Ht1, tree_put_is_dir_root.
  rewrite Hd1, Hn1 in E.
  assert (Hnode : ∀ n, tree_get [name] (fs_tree w) = Some n → is_dir (Some n) = false).
  { intros n Hn. destruct Hnm as [[-> _]|[-> _]].
    - by destruct (so_current _ Hs _ Hn) as (? & -> & _).
    - by destruct (so_previous _ Hs _ Hn) as (? & -> & _). }
  assert (Ha : a = None ∧ fs_tree w0 = tree_put [name] (Some (Link (target_of id))) (tree_put [tmp] None (fs_tree w1))).
  { destruct (tree_get [name] (fs_tree w)) as [[| |m es]|]; try (by injection E). by specialize (Hnode _ eq_refl). }
  destruct Ha as [-> Ht2]. clear E. run_ret H. split; [done|]. split; [apply Hs'|done|].
  intros c [n Hc]. destruct (decide (c = name)) as [->|Hcn].
  { destruct Hnm as [[-> _]|[-> _]]; auto. }
  rewrite Ht2, root_put_ne in Hc by done. destruct (decide (c = tmp)) as [->|Hct].
  { by rewrite root_put_eq in Hc. }
  rewrite root_put_ne in Hc by done. apply Hroot. exists n. by rewrite <-Ht1, root_put_ne in Hc.
Qed.

Lemma syncDir_root_quiet w e w' : quiet w → syncDir [] w = (e, w') → e = None ∧ quiet w'.
Proof.
  intros [Hs Hq Hr] H. destruct (syncDir_quiet [] _ _ _ Hq ltac:(by eexists) H) as [-> Hq'].
  apply syncDir_keeps in H. split; [done|]. split; rewrite ?H; done.
Qed.
Lemma readlink_quiet name w r w' :
  quiet w → os_readlink [name] w = (r, w') →
  quiet w' ∧ fs_tree w' = fs_tree w ∧
  match link_at (fs_tree w) name with Some l => r = Ok l | None => is_ok r = false end.
Proof.
  intros [Hs Hq Hr] H. assert (Ht := os_readlink_keeps _ _ _ _ H).
  apply sys_quiet in H as [H Hq']; [|done].
  split; [split; rewrite ?Ht; done|]. split; [done|]. unfold link_at.
  by repeat case_match; simplify_eq.
Qed.
(** A link of a well-formed store names a complete revision. *)
Lemma link_at_published name other t l :
  link_pair name other → store_ok t → link_at t name = Some l → ∃ id, l = target_of id ∧ published t id.
Proof.
  intros Hnm Hs. unfold link_at. destruct (tree_get [name] t) as [n|] eqn:Hg; [|done].
  assert (Hl : link_ok t name) by (destruct Hnm as [[-> _]|[-> _]]; apply Hs).
  destruct (Hl _ Hg) as (id & -> & Hp). intros [= <-]. eauto.
Qed.
Lemma target_of_nonempty id : target_of id ≠ "".
Proof. done. Qed.

(** The previous revision after a switch to [target]. *)
Definition previous_after (target : string) (current previous : option string) : option string :=
  if decide (current = Some target) then previous
  else match current with Some c => Some c | None => previous end.

Lemma switch_current_quiet id w r w' :
  quiet w → published (fs_tree w) id → switch_current id w = (r, w') →
  r = Ok id ∧ quiet w' ∧ link_at (fs_tree w') "current" = Some (target_of id) ∧
  link_at (fs_tree w') "previous"
  = previous_after (target_of id) (link_at (fs_tree w) "current") (link_at (fs_tree w) "previous").
Proof.
  intros Hqw Hp H. assert (Hspec := switch_current_spec _ _ _ _ (quiet_ok _ Hqw) Hp H).
  assert (Hpub := published_same).
  unfold switch_current in H. rewrite target_of_eq in H by (by eapply published_name).
  run_bind H. destruct (readlink_quiet _ _ _ _ Hqw E) as (Hq1 & Ht & Hl). unfold previous_after.
  destruct (link_at (fs_tree w) "current") as [c|] eqn:Hc.
  - subst a. destruct (decide (c = target_of id)) as [->|Hne].
    { rewrite bool_decide_eq_true_2 in H by done. run_ret H. rewrite decide_True by done. by rewrite !Ht. }
    rewrite decide_False by congruence. rewrite (bool_decide_eq_false_2 (c = target_of id)) in H by done.
    destruct (link_at_published "current" "previous" _ _ ltac:(by left) (quiet_ok _ Hqw) Hc) as (ic & -> & Hpc).
    rewrite (bool_decide_eq_false_2 (target_of ic = "")) in H by done.
    run_bind H. assert (S1 := E0).
    apply (atomicSymlink_quiet _ "current") in E0 as [-> Hq2]; [|by right|done|by rewrite Ht].
    apply (atomicSymlink_store _ "current") in S1 as [S1 R1 O1 D1 _]; [|by right|apply Hq1|by rewrite Ht].
    run_bind H. assert (S2 := E0).
    apply (atomicSymlink_quiet _ "previous") in E0 as [-> Hq3];
      [|by left|done|eapply Hpub; [apply R1|by rewrite Ht]].
    apply (atomicSymlink_store _ "previous") in S2 as [S2 R2 O2 D2 _];
      [|by left|done|eapply Hpub; [apply R1|by rewrite Ht]].
    run_bind H. assert (K := syncDir_keeps _ _ _ _ E0). apply syncDir_root_quiet in E0 as [-> Hq4]; [|done].
    run_ret H. split; [done|]. split; [done|]. unfold link_at. rewrite K, O2, D1, D2 by done. done.
  - rewrite decide_False by done. rewrite bool_decide_eq_false_2 in H by (by destruct a).
    rewrite bool_decide_eq_true_2 in H by (by destruct a). run_bind H. run_ret E0.
    run_bind H. assert (S2 := E0).
    apply (atomicSymlink_quiet _ "previous") in E0 as [-> Hq3]; [|by left|done|by rewrite Ht].
    apply (atomicSymlink_store _ "previous") in S2 as [S2 R2 O2 D2 _]; [|by left|apply Hq1|by rewrite Ht].
    run_bind H. assert (K := syncDir_keeps _ _ _ _ E0). apply syncDir_root_quiet in E0 as [-> Hq4]; [|done].
    run_ret H. split; [done|]. split; [done|]. unfold link_at. rewrite K, O2, D2, Ht by done. done.
Qed.

Lemma exchange_links_quiet prev w w1 e w' :
  quiet w → os_readlink ["previous"] w = (Ok prev, w1) → is_Some (link_at (fs_tree w) "current") →
  exchange_links prev w1 = (e, w') → e = None ∧ quiet w'.
Proof.
  intros Hqw E [c Hc] H. destruct (readlink_quiet _ _ _ _ Hqw E) as (Hq1 & Ht1 & Hl1).
  destruct (link_at (fs_tree w) "previous") as [p|] eqn:Hp; [|done]. injection Hl1 as ->.
  destruct (link_at_published "previous" "current" _ _ ltac:(by right) (quiet_ok _ Hqw) Hp) as (ip & -> & Hpp).
  destruct (link_at_published "current" "previous" _ _ ltac:(by left) (quiet_ok _ Hqw) Hc) as (ic & -> & Hpc).
  unfold exchange_links in H. run_bind H. destruct (readlink_quiet _ _ _ _ Hq1 E0) as (Hq2 & Ht2 & Hl2).
  rewrite Ht1, Hc in Hl2. subst a. rewrite Ht1 in Ht2.
  run_bind H. assert (S1 := E1).
  apply (atomicSymlink_quiet _ "previous") in E1 as [-> Hq3]; [|by left|done|by rewrite Ht2].
  apply (atomicSymlink_store _ "previous") in S1 as [S1 R1 _ _ _]; [|by left|apply Hq2|by rewrite Ht2].
  run_bind H. apply (atomicSymlink_quiet _ "current") in E1 as [-> Hq4];
    [|by right|done|eapply published_same; [apply R1|by rewrite Ht2]].
  by apply syncDir_root_quiet in H.
Qed.

Lemma stage_with_quiet id Q fill w e w' :
  (∀ sp, stays_quiet (fill sp)) → fills id Q fill → revision_name id → quiet w →
  stage_with id fill w = (e, w') → quiet w'.
Proof.
  intros Hf Hfill Hid [Hs Hq Hr] H. assert (Hsp := H).
  apply (stage_with_spec _ Q) in Hsp as [(Hs' & Hroot & _) _]; [|done..].
  split; [done| |].
  - revert Hq H. unfold stage_with. apply stays_quiet_bind; [apply stays_quiet_sys|].
    intros [s|]; [|apply stays_quiet_ret]. apply stays_quiet_bind.
    + apply stays_quiet_try_err; [apply Hf|apply stays_quiet_sys_err].
    + intros [?|]; [|by apply stays_quiet_try_err; [apply stays_quiet_sys_err|apply stays_quiet_bind;
        [apply stays_quiet_sys_err|intros; apply stays_quiet_bind; [apply stays_quiet_sys_err|intros; apply stays_quiet_ret]]]].
      apply stays_quiet_bind; [apply stays_quiet_sys_err|intros; apply stays_quiet_ret].
  - intros c Hc. destruct (decide (c = "revisions")) as [->|Hne]; [by left|].
    apply Hr. by rewrite <-(Hroot c []).
Qed.
Lemma remove_if_present_calm name other w e w' :
  link_pair name other → quiet w → remove_if_present [name] w = (e, w') →
  e = None ∧ quiet w' ∧ link_at (fs_tree w') name = None.
Proof.
  intros Hnm [Hs Hq Hr] H. assert (Hd : is_dir (Some (fs_tree w)) = true) by apply Hs.
  assert (Hne : name ≠ "revisions") by (by destruct Hnm as [[-> _]|[-> _]]).
  destruct (remove_if_present_store _ _ _ _ _ Hnm Hs H) as (Hs' & _ & _).
  destruct (remove_if_present_root _ _ _ _ Hne Hd H) as (_ & Ho & Hn).
  assert (He : e = None ∧ fs_faults w' = []).
  { unfold remove_if_present in H. run_bind H. run_ret H. apply sys_err_quiet in E as [E Hq']; [|done].
    split; [|done]. destruct (tree_get [name] (fs_tree w)) as [n|] eqn:Hg; [|by injection E as <- _].
    assert (Hl : ∃ l, n = Link l).
    { destruct Hnm as [[-> _]|[-> _]]; [destruct (so_current _ Hs _ Hg) as (x & -> & _)|
        destruct (so_previous _ Hs _ Hg) as (x & -> & _)]; eauto. }
    destruct Hl as [l ->]. by injection E as <- _. }
  destruct He as [-> Hq']. split; [done|]. split; [split; [done|done|]|by eapply remove_if_present_quiet].
  intros c Hc. destruct (decide (c = name)) as [->|Hcn]; [destruct Hnm as [[-> _]|[-> _]]; auto|].
  apply Hr. by rewrite <-(Ho c []).
Qed.

(** [Restore] of the empty name or of a revision the store has. *)
Lemma restore_revision_quiet invalid revision w e w' :
  quiet w → revision = "" ∨ published (fs_tree w) revision → restore_revision invalid revision w = (e, w') →
  e = None ∧ quiet w' ∧ same_revisions (fs_tree w) (fs_tree w')
  ∧ link_at (fs_tree w') "current" = if decide (revision = "") then None else Some (target_of revision).
Proof.
  intros Hqw Hrev H.
  assert (Hn : revision = "" ∨ revision_name revision).
  { destruct Hrev as [|Hp]; [by left|right]. by eapply published_name. }
  destruct (restore_revision_spec _ _ _ _ _ (quiet_ok _ Hqw) Hn H) as (_ & Hsame & Hsel).
  unfold restore_revision in H. case_bool_decide as Hr.
  - rewrite decide_True by done.
    run_bind H. assert (H0 := E). apply (remove_if_present_calm _ "previous") in E as (-> & Hq1 & Hc); [|by left|done].
    run_bind H. assert (H1 := E). apply (remove_if_present_calm _ "current") in E as (-> & Hq2 & _); [|by right|done].
    apply (remove_if_present_store _ "current") in H1 as (_ & _ & Ho); [|by right|apply Hq1].
    assert (Hk := syncDir_keeps _ _ _ _ H). apply syncDir_root_quiet in H as [-> Hq3]; [|done].
    split_and!; [done|done|done|]. unfold link_at in *. by rewrite Hk, Ho.
  - destruct Hrev as [|Hp]; [done|]. assert (Hname := published_name _ _ Hp). rewrite decide_False by done.
    assert (Hpl := revision_name_plain _ Hname). assert (Hb := base_name_plain _ Hpl).
    destruct Hpl as (_ & _ & Hd1 & Hd2). rewrite Hb in H.
    rewrite (bool_decide_eq_true_2 (revision = revision)), (bool_decide_eq_false_2 (revision = ".")),
      (bool_decide_eq_false_2 (revision = "..")) in H by done.
    cbn [negb orb] in H. rewrite target_of_eq, rel_path_target in H by done.
    run_bind H. assert (Ht := os_stat_keeps _ _ _ _ E). apply sys_err_quiet in E as [E Hf1]; [|apply Hqw].
    destruct Hp as (n & Hcomp & Hg). rewrite bool_decide_eq_true_2 in E by (by eexists). injection E as <- _.
    assert (Hq1 : quiet w1) by (destruct Hqw; split; rewrite ?Ht; done).
    run_bind H. apply (atomicSymlink_quiet _ "previous") in E as [-> Hq2];
      [|by left|done|exists n; by rewrite Ht].
    apply syncDir_root_quiet in H as [-> Hq3]; [|done]. split_and!; [done..|]. by apply Hsel.
Qed.
End Layout.

#[export] Hint Resolve stays_quiet_ret stays_quiet_bind stays_quiet_try_err : fsdb.
#[export] Hint Extern 1 (stays_quiet _) => apply stays_quiet_sys_err : fsdb.
