(* ===== verification/Materializer.v ===== *)
(** [internal/config/materializer.go]: the store of rendered configurations,
    a [Layout] whose complete revisions hold the files their name is the digest
    of. *)
From S2P Require Import Prelude GoStrings GoPath Quote Sha256 Config FileSys Revisions.

Section Materializer.
Context {UT : UnicodeTables} {SHA : Sha256} {MO : MapOrder}.

(** The two hooks of the struct: [validate] reads the staged tree,
    [beforeRename] is nil outside the tests. *)
Record Materializer := mkMaterializer {
  m_validate : path → node → option gerror;
  m_beforeRename : option gerror
}.

(** [validateFn] is nil in a Go call that passes no validation. *)
Definition NewMaterializer (root : string) (validateFn : option (path → node → option gerror)) :
    M fs (result Materializer) :=
  if negb (is_abs root) then ret (Err (Errorf "materializer root must be absolute"))
  else
    nil? os_mkdir_all "revisions" 448 in
    ret (Ok (mkMaterializer (default (λ _ _, None) validateFn) None)).

(** ** Operations *)

(** The first sixteen digits of the digest of the sorted names and contents. *)
Definition revision_input (files : Files) : string :=
  foldr (λ n acc, n +:+ byte_str 0 +:+ default "" (files !! n) +:+ byte_str 0 +:+ acc) ""
    (sort_strings (elements (dom files))).
Definition revisionID (files : Files) : string :=
  take_bytes 16 (sha256_hex (revision_input files)).
#[global] Arguments revisionID : simpl never.

Definition file_mode (name : string) : Z :=
  if bool_decide (name = "credentials.toml") then 384 else 416.

(** The loop over the files of the staged revision. *)
Fixpoint write_files (sp : path) (l : list (string * string)) : M fs (option gerror) :=
  match l with
  | [] => ret None
  | (name, data) :: l' =>
    if negb (bool_decide (base_name name = name)) then ret (Some (Errorf ("invalid config filename " +:+ quote name)))
    else err? writeSynced (sp ++ [name]) data (file_mode name) in write_files sp l'
  end.

(** [Apply], from [os.Chmod] of the stage to its rename. *)
Definition fill_stage (m : Materializer) (files : Files) (sp : path) : M fs (option gerror) :=
  err? os_chmod sp 448 in
  err? write_files sp (map_range files) in
  err? syncDir sp in
  err? (let* e := sys_err (λ t, (m_validate m sp t, t)) in
        ret (Wrapf "validate staged revision" <$> e)) in
  ret (Wrapf "before publish" <$> m_beforeRename m).

Definition stage_revision (m : Materializer) (id : string) (files : Files) : M fs (option gerror) :=
  stage_with id (fill_stage m files).

Definition Materializer_Apply (m : Materializer) (files : Files) : M fs (result string) :=
  if bool_decide (files = ∅) then ret (Err (Errorf "empty configuration set"))
  else
    let id := revisionID files in
    let* st := os_stat ["revisions"; id] in
    nil? match st with
         | Some e => if errors_is e ErrNotExist then stage_revision m id files else ret (Some e)
         | None => ret None
         end in
    switch_current id.

Definition Materializer_Rollback : M fs (option gerror) :=
  let* p := os_readlink ["previous"] in
  match p with
  | Err e => ret (Some (Wrapf "no previous revision" e))
  | Ok previous => exchange_links previous
  end.

Definition Materializer_Restore (revision : string) : M fs (option gerror) :=
  restore_revision "invalid config revision" revision.

(** The directory of the active revision, relative to the root. *)
Definition Materializer_ActiveDir : M fs (result string) :=
  let? target := os_readlink ["current"] in
  ret (Ok (join_path [target])).

(** ** The layout *)

(** The tree of a revision that holds [files]. *)
Definition file_nodes (files : Files) : gmap string node :=
  map_imap (λ n d, Some (File d (file_mode n))) files.
Definition revision_node (files : Files) : node := Dir 448 (file_nodes files).
Lemma revisionID_name files : revision_name (revisionID files).
Proof. apply digest_name. Qed.
(** A complete revision holds a non-empty set of files under its digest. *)
Definition config_complete (id : string) (n : node) : Prop :=
  ∃ files, files ≠ ∅ ∧ revisionID files = id ∧ n = revision_node files.
#[export] Program Instance config_layout : Layout := {| complete := config_complete |}.
Next Obligation. intros id n (files & _ & <- & _). apply revisionID_name. Qed.
Next Obligation.
  intros id m (files & Hne & _ & E). destruct Hne. apply map_eq. intros k.
  injection E as _ E. apply (f_equal (lookup k)) in E. unfold file_nodes in E.
  rewrite map_lookup_imap, !lookup_empty in *. by destruct (files !! k).
Qed.

(** ** Rollback *)

(** [Rollback] exchanges the two links or fails; whatever calls fail the
    store stays well formed and no revision changes. *)
Lemma Rollback_exchanges w e w' :
  store_ok (fs_tree w) → Materializer_Rollback w = (e, w') →
  store_ok (fs_tree w') ∧ same_revisions (fs_tree w) (fs_tree w') ∧
  (e = None → link_at (fs_tree w') "current" = link_at (fs_tree w) "previous" ∧
              link_at (fs_tree w') "previous" = link_at (fs_tree w) "current" ∧
              is_Some (link_at (fs_tree w) "previous") ∧ is_Some (link_at (fs_tree w) "current")).
Proof.
  intros Hs H. unfold Materializer_Rollback in H. run_bind H. destruct a as [prev|err].
  - by apply (exchange_links_spec prev _ _ _ _ Hs E) in H.
  - run_ret H. by apply os_readlink_inv in E as [-> _].
Qed.
(** ** Staging *)

Lemma write_files_below sp l : writes_below sp (write_files sp l).
Proof.
  induction l as [|[name data] l IH]; simpl; [auto with fsdb|].
  case_match; [auto with fsdb|]. apply writes_below_try_err; [apply writeSynced_below|done].
Qed.

(** The entries of the stage after the loop. *)
Definition add_files (l : list (string * string)) (es : gmap string node) : gmap string node :=
  foldl (λ es nd, <[nd.1 := File nd.2 (file_mode nd.1)]> es) es l.

Lemma write_files_done sp l m es w w' :
  tree_get sp (fs_tree w) = Some (Dir m es) → write_files sp l w = (None, w') →
  tree_get sp (fs_tree w') = Some (Dir m (add_files l es)).
Proof.
  revert es w. induction l as [|[name data] l IH]; simpl; intros es w Hd H; [by injection H as <-|].
  case_match; [run_absurd H|]. run_bind H. destruct a; [run_absurd H|].
  destruct (writeSynced_done _ _ _ _ _ _ _ _ Hd E) as [_ Hd1]. by eapply IH.
Qed.

Lemma add_files_lookup l es k :
  NoDup l.*1 →
  add_files l es !! k
  = match (list_to_map l : gmap string string) !! k with
    | Some d => Some (File d (file_mode k))
    | None => es !! k
    end.
Proof.
  unfold add_files. revert es. induction l as [|[n d] l IH]; simpl; intros es Hn; [by rewrite lookup_empty|].
  apply NoDup_cons in Hn as [Hin Hn]. rewrite IH by done. rewrite !lookup_insert.
  case_decide as Hk; [subst k|done]. simpl.
  by rewrite not_elem_of_list_to_map_1.
Qed.
Lemma add_files_range files : add_files (map_range files) ∅ = file_nodes files.
Proof.
  assert (Hp := map_range_perm files).
  assert (Hn : NoDup (map_range files).*1) by (rewrite Hp; apply NoDup_fst_map_to_list).
  apply map_eq. intros k. rewrite add_files_lookup by done.
  rewrite (list_to_map_proper _ (map_to_list files)) by done.
  rewrite list_to_map_to_list. unfold file_nodes. rewrite map_lookup_imap.
  by destruct (files !! k).
Qed.

(** The hook accepted a tree that holds exactly the files at the staged path. *)
Definition validated (m : Materializer) (files : Files) : Prop :=
  ∃ sp t, m_validate m sp t = None ∧ tree_get sp t = Some (revision_node files).

Lemma run_validate_keeps m sp :
  keeps_tree (let* e := sys_err (λ t, (m_validate m sp t, t)) in
              ret (Wrapf "validate staged revision" <$> e)).
Proof. apply keeps_tree_bind; [by apply keeps_tree_sys_err|auto with fsdb]. Qed.
Lemma run_validate_accepts m sp w w' :
  (let* e := sys_err (λ t, (m_validate m sp t, t)) in
   ret (Wrapf "validate staged revision" <$> e)) w = (None, w') → m_validate m sp (fs_tree w) = None.
Proof.
  intros H. run_bind H. destruct a; [run_absurd H|]. by apply sys_err_None in E as [= ? _].
Qed.

Lemma fill_stage_fills m files :
  files ≠ ∅ → fills (revisionID files) (validated m files) (fill_stage m files).
Proof.
  intros Hne. split.
  - intros stage. unfold fill_stage. repeat apply writes_below_try_err; auto using os_chmod_below, write_files_below with fsdb.
    apply writes_below_keeps, run_validate_keeps.
  - intros stage w w' Hr Hd H. unfold fill_stage in H. set (sp := ["revisions"; stage]) in *.
    run_bind H. destruct a; [run_absurd H|]. apply (os_chmod_inv sp 448 448 ∅) in E; [|done..].
    assert (D1 : tree_get sp (fs_tree w1) = Some (Dir 448 ∅)).
    { rewrite E. by apply tree_get_put_eq. }
    run_bind H. destruct a; [run_absurd H|].
    apply (write_files_done _ _ _ _ _ _ D1) in E0. rewrite add_files_range in E0.
    run_bind H. destruct a; [run_absurd H|]. apply syncDir_keeps in E1. rewrite <-E1 in E0.
    run_bind H. destruct a; [run_absurd H|]. assert (V := E2).
    apply run_validate_keeps in E2. apply run_validate_accepts in V.
    unfold ret in H. injection H as _ <-. rewrite E2. exists 448, (file_nodes files).
    split; [done|]. split; [by exists files|]. by eexists _, _.
Qed.

Lemma stage_revision_spec m files w e w' :
  files ≠ ∅ → store_ok (fs_tree w) → stage_revision m (revisionID files) files w = (e, w') →
  staged (fs_tree w) (fs_tree w') ∧ (e = None → published (fs_tree w') (revisionID files) ∧ validated m files).
Proof. intros Hne. apply stage_with_spec; [by apply fill_stage_fills|apply revisionID_name]. Qed.

(** ** Apply *)

Lemma Materializer_Apply_spec m files w r w' :
  store_ok (fs_tree w) → Materializer_Apply m files w = (r, w') →
  store_ok (fs_tree w') ∧ revisions_kept (fs_tree w) (fs_tree w') ∧
  ((link_at (fs_tree w') "current" = link_at (fs_tree w) "current"
    ∧ link_at (fs_tree w') "previous" = link_at (fs_tree w) "previous" ∧ is_ok r = false)
   ∨ ∃ w1, staged (fs_tree w) (fs_tree w1) ∧ files ≠ ∅ ∧ published (fs_tree w1) (revisionID files)
       ∧ (tree_get ["revisions"; revisionID files] (fs_tree w) = None → validated m files)
       ∧ switch_current (revisionID files) w1 = (r, w')).
Proof.
  intros Hs H. unfold Materializer_Apply in H. rewrite bool_decide_decide in H.
  destruct (decide _) as [Hne|Hne]; [run_ret H; split; [done|]; split; [by intros ??|by left]|].
  run_bind H. assert (Ht := os_stat_keeps _ _ _ _ E). run_bind H.
  assert (Hw : a0 ≠ None ∧ fs_tree w0 = fs_tree w1 ∨ staged (fs_tree w1) (fs_tree w0) ∧
    (a0 = None → published (fs_tree w0) (revisionID files) ∧
     (tree_get ["revisions"; revisionID files] (fs_tree w) = None → validated m files))).
  { destruct a as [e|].
    - destruct (errors_is e ErrNotExist).
      + apply stage_revision_spec in E0 as [S P]; [|done|by rewrite Ht]. right. split; [done|]. naive_solver.
      + run_ret E0. left. done.
    - run_ret E0. right. split; [by apply staged_refl; rewrite Ht|]. intros _.
      apply os_stat_inv in E as [n Hn].
      rewrite Ht. split; [|by rewrite Hn]. eapply so_published; [done..|].
      apply revision_name_not_stage, revisionID_name. }
  rewrite Ht in Hw. destruct a0 as [e|].
  - run_ret H. destruct Hw as [[_ ->]|[(Hs' & Hr & Hk) _]].
    + split; [done|]. split; [by intros ??|by left].
    + split; [done|]. split; [done|]. left. by rewrite (link_at_same _ _ _ (Hr "current" [] ltac:(done))), (link_at_same _ _ _ (Hr "previous" [] ltac:(done))).
  - destruct Hw as [[? _]|[S P]]; [done|]. destruct (P eq_refl) as [Hp Hv].
    destruct (switch_current_spec _ _ _ _ (proj1 S) Hp H) as (Hs' & HR & _).
    split; [done|]. split; [|right; eauto 10].
    intros x n Hx Hn. rewrite HR. by apply S.
Qed.

(** C1. Whatever system calls fail, [Apply] leaves a well-formed store: the
    links designate complete revisions, complete revisions are never altered,
    [current] is the old revision or the new one, [previous] is what it was or
    the old current; a nil error means the new revision is complete and
    current. *)
Theorem Apply_publishes_atomically m files w r w' :
  store_ok (fs_tree w) → Materializer_Apply m files w = (r, w') →
  store_ok (fs_tree w') ∧ revisions_kept (fs_tree w) (fs_tree w')
  ∧ (link_at (fs_tree w') "current" = link_at (fs_tree w) "current"
     ∨ link_at (fs_tree w') "current" = Some (target_of (revisionID files)))
  ∧ (link_at (fs_tree w') "previous" = link_at (fs_tree w) "previous"
     ∨ link_at (fs_tree w') "previous" = link_at (fs_tree w) "current")
  ∧ (∀ id, r = Ok id → files ≠ ∅ ∧ id = revisionID files ∧ published (fs_tree w') id
       ∧ link_at (fs_tree w') "current" = Some (target_of id)).
Proof.
  intros Hs H. destruct (Materializer_Apply_spec _ _ _ _ _ Hs H) as (Hs' & Hk & [(Hc & Hp & Hr)|HA]).
  { split; [done|]. split; [done|]. split; [by left|]. split; [by left|]. by intros id ->. }
  destruct HA as (w1 & (Hs1 & Hr1 & _) & Hne & Hpub & _ & Hsw).
  destruct (switch_current_spec _ _ _ _ Hs1 Hpub Hsw) as (_ & HR & Hpr & Hcu & Hid).
  rewrite (link_at_same _ _ _ (Hr1 "current" [] ltac:(done))) in Hpr, Hcu.
  rewrite (link_at_same _ _ _ (Hr1 "previous" [] ltac:(done))) in Hpr.
  split; [done|]. split; [done|]. split; [naive_solver|]. split; [done|].
  intros id ->. rewrite (Hid id eq_refl). destruct Hcu as [[_ ?]|Hcu]; [done|].
  repeat split; try done. eapply published_same; [apply HR|done].
Qed.

(** Only a validated set becomes current: when the revision was not in the
    store before and [current] selects it afterwards, the hook accepted a
    staged directory holding exactly these files. *)
Lemma Apply_validates m files w r w' :
  store_ok (fs_tree w) → Materializer_Apply m files w = (r, w') →
  tree_get ["revisions"; revisionID files] (fs_tree w) = None →
  link_at (fs_tree w') "current" = Some (target_of (revisionID files)) →
  validated m files.
Proof.
  intros Hs H Hn Hc. destruct (Materializer_Apply_spec _ _ _ _ _ Hs H) as (Hs' & Hk & [(Hc' & _ & Hr)|HA]).
  - rewrite Hc' in Hc. unfold link_at in Hc. destruct (tree_get ["current"] _) as [n|] eqn:Hg; [|done].
    destruct (so_current _ Hs _ Hg) as (id & -> & (n' & (fs & _ & Hf & _) & Hp)).
    assert (Ht : target_of id = target_of (revisionID files)) by congruence. apply target_of_inj in Ht as ->. congruence.
  - destruct HA as (w1 & _ & _ & _ & Hv & _). auto.
Qed.

(** ** Restore *)

(** [Restore] of the empty name or of a revision name, which is all the
    callers pass, keeps the store well formed whatever calls fail, and a nil
    error means that [current] selects the named revision, and it is complete. *)
Lemma Restore_selects revision w e w' :
  store_ok (fs_tree w) → revision = "" ∨ revision_name revision →
  Materializer_Restore revision w = (e, w') →
  store_ok (fs_tree w') ∧ same_revisions (fs_tree w) (fs_tree w')
  ∧ (e = None → revision ≠ "" →
     published (fs_tree w') revision ∧ link_at (fs_tree w') "current" = Some (target_of revision)
     ∧ link_at (fs_tree w') "previous" = link_at (fs_tree w) "previous").
Proof.
  intros Hs Hrev. apply restore_revision_spec; [done|].
  destruct Hrev; [by left|by right].
Qed.
(** ** Runs without faults *)

Lemma writeSynced_stays_quiet p data mode : stays_quiet (writeSynced p data mode).
Proof.
  unfold writeSynced. apply stays_quiet_try_err; [auto with fsdb|].
  apply stays_quiet_bind; [|intros ?; apply stays_quiet_bind; [|intros ?]; auto with fsdb].
  apply stays_quiet_bind; [auto with fsdb|]. intros [e|]; auto with fsdb.
Qed.
Lemma syncDir_stays_quiet p : stays_quiet (syncDir p).
Proof.
  unfold syncDir. apply stays_quiet_try_err; [auto with fsdb|].
  apply stays_quiet_bind; [auto with fsdb|]. intros ?. apply stays_quiet_bind; auto with fsdb.
Qed.
Lemma fill_stage_stays_quiet m files sp : stays_quiet (fill_stage m files sp).
Proof.
  unfold fill_stage. apply stays_quiet_try_err; [auto with fsdb|].
  apply stays_quiet_try_err.
  { induction (map_range files) as [|[n d] l IH]; simpl; [auto with fsdb|].
    case_match; [auto with fsdb|]. apply stays_quiet_try_err; [apply writeSynced_stays_quiet|done]. }
  apply stays_quiet_try_err; [apply syncDir_stays_quiet|].
  apply stays_quiet_try_err; [apply stays_quiet_bind|]; auto with fsdb.
Qed.

(** Without faults an error of [Apply] leaves both links as they were, and
    success moves the old current revision to [previous]. *)
Lemma Materializer_Apply_quiet m files w r w' :
  quiet w → Materializer_Apply m files w = (r, w') →
  quiet w' ∧
  match r with
  | Ok id => id = revisionID files ∧ link_at (fs_tree w') "current" = Some (target_of id)
      ∧ link_at (fs_tree w') "previous"
        = previous_after (target_of id) (link_at (fs_tree w) "current") (link_at (fs_tree w) "previous")
  | Err _ => link_at (fs_tree w') "current" = link_at (fs_tree w) "current"
      ∧ link_at (fs_tree w') "previous" = link_at (fs_tree w) "previous"
  end.
Proof.
  intros Hqw H. unfold Materializer_Apply in H. destruct (bool_decide (files = ∅)) eqn:Hf; [by run_ret H|].
  apply bool_decide_eq_false in Hf.
  run_bind H. assert (Ht := os_stat_keeps _ _ _ _ E).
  assert (Hq1 : quiet w1).
  { destruct Hqw as [Hs Hq Hr]. split; rewrite ?Ht; [done| |done]. by eapply stays_quiet_sys_err in E. }
  run_bind H.
  assert (Hw : quiet w0 ∧ root_kept (fs_tree w) (fs_tree w0) ∧
               (a0 = None → published (fs_tree w0) (revisionID files))).
  { destruct a as [e|].
    - destruct (errors_is e ErrNotExist).
      + assert (S := E0). apply stage_revision_spec in S as [(_ & S & _) P]; [|done|apply Hq1]. rewrite Ht in S.
        split; [|split; [done|by intros Ha; apply P]].
        eapply (stage_with_quiet _ (validated m files)); [..|exact Hq1|exact E0];
          [intros; apply fill_stage_stays_quiet|by apply fill_stage_fills|apply revisionID_name].
      + run_ret E0. by rewrite Ht.
    - run_ret E0. split; [done|]. split; [by rewrite Ht|]. intros _. apply os_stat_inv in E as [n Hn].
      rewrite Ht. eapply so_published; [apply Hqw|done|]. apply revision_name_not_stage, revisionID_name. }
  destruct Hw as (Hq2 & Hr & Hp).
  rewrite <-(link_at_same _ _ _ (Hr "current" [] ltac:(done))).
  rewrite <-(link_at_same _ _ _ (Hr "previous" [] ltac:(done))).
  destruct a0 as [e|]; [by run_ret H|].
  apply switch_current_quiet in H as (-> & ? & ? & ?); auto.
Qed.

Lemma Materializer_Rollback_quiet w e w' :
  quiet w → Materializer_Rollback w = (e, w') →
  is_Some (link_at (fs_tree w) "current") → is_Some (link_at (fs_tree w) "previous") → e = None ∧ quiet w'.
Proof.
  intros Hqw H Hc [p Hp]. unfold Materializer_Rollback in H. run_bind H.
  assert (Hr := readlink_quiet _ _ _ _ Hqw E). rewrite Hp in Hr. destruct Hr as (_ & _ & ->).
  by eapply exchange_links_quiet.
Qed.

Lemma Materializer_Rollback_outcome w e w' :
  quiet w → Materializer_Rollback w = (e, w') →
  quiet w' ∧
  if decide (is_Some (link_at (fs_tree w) "current") ∧ is_Some (link_at (fs_tree w) "previous"))
  then e = None ∧ link_at (fs_tree w') "current" = link_at (fs_tree w) "previous"
       ∧ link_at (fs_tree w') "previous" = link_at (fs_tree w) "current"
  else e ≠ None ∧ fs_tree w' = fs_tree w.
Proof.
  intros Hqw H. destruct (decide _) as [[Hc Hp]|Hn].
  - destruct (Rollback_exchanges _ _ _ (quiet_ok _ Hqw) H) as (_ & _ & Hx).
    apply Materializer_Rollback_quiet in H as [-> Hq]; [|done..]. destruct (Hx eq_refl) as (? & ? & _). done.
  - unfold Materializer_Rollback in H. run_bind H. destruct (readlink_quiet _ _ _ _ Hqw E) as (Hq1 & Ht1 & Hl1).
    destruct (link_at (fs_tree w) "previous") as [p|] eqn:Hp.
    + subst a. unfold exchange_links in H. run_bind H.
      destruct (readlink_quiet _ _ _ _ Hq1 E0) as (Hq2 & Ht2 & Hl2). rewrite Ht1 in Ht2, Hl2.
      destruct (link_at (fs_tree w) "current") as [c|] eqn:Hc; [destruct Hn; by split|].
      destruct a; [done|]. by run_ret H.
    + destruct a; [done|]. by run_ret H.
Qed.

(** [Apply] is undone by [Rollback]: when no system call fails, publishing a
    set other than the current one and rolling back succeed together and give
    back the links that were there. *)
Theorem Apply_then_Rollback m files w id w1 e w2 old :
  quiet w → link_at (fs_tree w) "current" = Some old → old ≠ target_of (revisionID files) →
  Materializer_Apply m files w = (Ok id, w1) → Materializer_Rollback w1 = (e, w2) →
  e = None ∧ quiet w2 ∧ link_at (fs_tree w2) "current" = Some old
  ∧ link_at (fs_tree w2) "previous" = Some (target_of id).
Proof.
  intros Hq Hold Hne H1 H2. apply Materializer_Apply_quiet in H1 as (Hq1 & -> & Hc & Hp); [|done].
  unfold previous_after in Hp. rewrite Hold in Hp. rewrite decide_False in Hp by congruence.
  destruct (Rollback_exchanges _ _ _ (quiet_ok _ Hq1) H2) as (_ & _ & Hx).
  apply Materializer_Rollback_quiet in H2 as [-> Hq2]; [|done|by rewrite Hc|by rewrite Hp].
  destruct (Hx eq_refl) as (Hc2 & Hp2 & _). by rewrite Hc2, Hp2, Hc, Hp.
Qed.
End Materializer.
