(* ===== verification/X509.v ===== *)
(** Key pairs and certificate chains: [parseCertificates], [parsePrivateKey],
    [fingerprint] and [ValidateBundle] of [internal/certificate/issue.go],
    [validateKeyPair] of [tls_store.go].  The decoders of [encoding/pem] and
    [crypto/x509] are an interface: the code walks a chain of PEM blocks and
    compares fields, it does not look inside a certificate itself. *)
From S2P Require Import Prelude GoStrings Quote Sha256 Domain.

(** [encoding/pem], [crypto/x509].  The only behaviour relied on is that
    [pem.Decode] leaves a shorter rest when it finds a block. *)
Class X509 := {
  Certificate : Type;
  PublicKey : Type;
  pem_decode : string → option (string * string * string);  (** type, bytes, rest *)
  pem_decode_rest : ∀ d ty bs rest, pem_decode d = Some (ty, bs, rest) → len rest < len d;
  ParseCertificate : string → result Certificate;
  cert_Raw : Certificate → string;
  cert_PublicKey : Certificate → PublicKey;
  cert_NotBefore : Certificate → Time;
  cert_NotAfter : Certificate → Time;
  cert_SerialNumber : Certificate → string;
  cert_Issuer : Certificate → string;
  cert_DNSNames : Certificate → list string;
  VerifyHostname : Certificate → string → option gerror;
  CheckSignatureFrom : Certificate → Certificate → option gerror;
  ParsePKCS8PrivateKey : string → option PublicKey;   (** of a key with [Public] *)
  ParseECPrivateKey : string → option PublicKey;
  ParsePKCS1PrivateKey : string → option PublicKey;
  MarshalPKIXPublicKey : PublicKey → result string
}.

(** [type Bundle] of [acme.go]. *)
Record Bundle := mkBundle {
  Bundle_Certificate : string;
  Bundle_IssuerCertificate : string;
  Bundle_PrivateKey : string
}.
#[export] Instance Bundle_eq_dec : EqDecision Bundle.
Proof. solve_decision. Defined.

(** [append(bytes.Clone(bundle.Certificate), bundle.IssuerCertificate...)] *)
Definition bundle_chain (b : Bundle) : string := Bundle_Certificate b +:+ Bundle_IssuerCertificate b.

(** [type Mode string] of [state.go]. *)
Definition Mode : Type := string.
Definition Production : Mode := "production".
Definition Staging : Mode := "staging".
Definition ManualMode : Mode := "manual".

Section X509.
Context {UT : UnicodeTables} {SHA : Sha256} {X : X509}.

(** The loop of [parseCertificates]; [seen] holds the digests of the
    certificates already kept. *)
Fixpoint parse_chain (fuel : nat) (data : string) (seen : gset string) (certs : list Certificate) :
    result (list Certificate) :=
  match fuel with
  | O => Err (Errorf "out of fuel")
  | S fuel' =>
    if bool_decide (trim_space data = "") then Ok certs
    else match pem_decode data with
    | Some (ty, bs, rest) =>
      if negb (bool_decide (ty = "CERTIFICATE")) then Err (Errorf "invalid certificate PEM")
      else match ParseCertificate bs with
      | Err e => Err e
      | Ok cert =>
        let sum := sha256_hex (cert_Raw cert) in
        if bool_decide (sum ∈ seen) then parse_chain fuel' rest seen certs
        else parse_chain fuel' rest ({[sum]} ∪ seen) (certs ++ [cert])
      end
    | None => Err (Errorf "invalid certificate PEM")
    end
  end.
Definition parseCertificates (data : string) : result (list Certificate) :=
  parse_chain (S (String.length data)) data ∅ [].

Definition parsePrivateKey (der : string) : result PublicKey :=
  match ParsePKCS8PrivateKey der with
  | Some k => Ok k
  | None =>
    match ParseECPrivateKey der with
    | Some k => Ok k
    | None =>
      match ParsePKCS1PrivateKey der with
      | Some k => Ok k
      | None => Err (Errorf "unsupported private key")
      end
    end
  end.

Definition fingerprint (cert : Certificate) : string := sha256_hex (cert_Raw cert).

(** The key block of both validations: one PEM block and white space. *)
Definition private_key_block (key : string) : result string :=
  match pem_decode key with
  | Some (_, bs, rest) =>
    if bool_decide (trim_space rest = "") then Ok bs else Err (Errorf "invalid private key PEM")
  | None => Err (Errorf "invalid private key PEM")
  end.

(** From [parsePrivateKey] to the comparison of the two public keys. *)
Definition check_pair (leaf : Certificate) (der : string) : option gerror :=
  match parsePrivateKey der with
  | Err e => Some e
  | Ok key =>
    match MarshalPKIXPublicKey (cert_PublicKey leaf) with
    | Err e => Some e
    | Ok certPublic =>
      match MarshalPKIXPublicKey key with
      | Err e => Some e
      | Ok keyPublic =>
        if bool_decide (certPublic = keyPublic) then None
        else Some (Errorf "certificate and private key do not match")
      end
    end
  end.

Definition validateKeyPair (bundle : Bundle) : result Certificate :=
  match parseCertificates (bundle_chain bundle) with
  | Err e => Err e
  | Ok [] => Err (Errorf "certificate chain is empty")
  | Ok (leaf :: _) =>
    match private_key_block (Bundle_PrivateKey bundle) with
    | Err e => Err e
    | Ok der => match check_pair leaf der with Some e => Err e | None => Ok leaf end
    end
  end.

(** [certs[i].CheckSignatureFrom(certs[i+1])] for every [i+1 < len(certs)]. *)
Fixpoint check_chain (certs : list Certificate) : option gerror :=
  match certs with
  | c :: ((c' :: _) as rest) =>
    match CheckSignatureFrom c c' with
    | Some e => Some (Wrapf "certificate chain" e)
    | None => check_chain rest
    end
  | _ => None
  end.

Definition ValidateBundle (bundle : Bundle) (hostname : string) (mode : Mode) (now : Time) :
    result Certificate :=
  match parseCertificates (bundle_chain bundle) with
  | Err e => Err e
  | Ok [] => Err (Errorf "certificate chain is empty")
  | Ok ((leaf :: _) as certs) =>
    match VerifyHostname leaf hostname with
    | Some e => Err (Wrapf "certificate SAN" e)
    | None =>
      if (now <? cert_NotBefore leaf) || negb (now <? cert_NotAfter leaf)
      then Err (Errorf "certificate is outside its validity window")
      else match check_chain certs with
      | Some e => Err e
      | None =>
        match private_key_block (Bundle_PrivateKey bundle) with
        | Err e => Err e
        | Ok der =>
          match check_pair leaf der with
          | Some e => Err e
          | None =>
            let issuer := to_lower (cert_Issuer leaf) in
            if bool_decide (mode = Production) && (contains issuer "staging" || contains issuer "fake le")
            then Err (Errorf "staging certificate rejected in production mode")
            else Ok leaf
          end
        end
      end
    end
  end.

(** ** The fuel of [parseCertificates] is enough *)

(** Every certificate of the result is new: their digests are distinct. *)
Definition distinct_digests (certs : list Certificate) (seen : gset string) : Prop :=
  NoDup (fingerprint <$> certs) ∧ ∀ c, c ∈ certs → fingerprint c ∈ seen.

Lemma parse_chain_fuel fuel data seen certs :
  (String.length data < fuel)%nat → parse_chain fuel data seen certs ≠ Err (Errorf "out of fuel") ∨
  ∃ bs, ParseCertificate bs = Err (Errorf "out of fuel").
Proof.
  revert data seen certs. induction fuel as [|fuel IH]; [lia|]. intros data seen certs Hl. simpl.
  case_bool_decide; [by left|]. destruct (pem_decode data) as [[[ty bs] rest]|] eqn:E; [|by left].
  apply pem_decode_rest in E. unfold len in E. case_match; [by left|].
  destruct (ParseCertificate bs) eqn:Hp.
  - case_match; apply IH; lia.
  - destruct (decide (e = Errorf "out of fuel")) as [->|]; [right; eauto|left; congruence].
Qed.

Lemma parse_chain_distinct fuel data seen certs r :
  distinct_digests certs seen → parse_chain fuel data seen certs = Ok r → NoDup (fingerprint <$> r).
Proof.
  revert data seen certs. induction fuel as [|fuel IH]; intros data seen certs Hd H; [done|]. simpl in H.
  case_bool_decide; [injection H as <-; apply Hd|].
  destruct (pem_decode data) as [[[ty bs] rest]|]; [|done]. case_match; [done|].
  destruct (ParseCertificate bs) as [cert|]; [|done].
  case_bool_decide as Hin; [by eapply IH|]. eapply IH; [|done]. destruct Hd as [Hn Hs]. split.
  - rewrite fmap_app. apply NoDup_app. split; [done|]. split; [|apply NoDup_singleton].
    intros x Hx Hx'. apply list_elem_of_singleton in Hx'. subst x.
    apply list_elem_of_fmap in Hx as (c & Hc & Hcin). apply Hin. fold (fingerprint cert).
    rewrite Hc. by apply Hs.
  - intros c [Hc|Hc]%elem_of_app; [apply Hs in Hc; set_solver|].
    apply list_elem_of_singleton in Hc as ->. unfold fingerprint. set_solver.
Qed.

(** [parseCertificates] terminates on every input (the fuel is never what
    stops it) and a chain it accepts holds no certificate twice. *)
Lemma parseCertificates_total data :
  (∀ bs, ParseCertificate bs ≠ Err (Errorf "out of fuel")) →
  match parseCertificates data with
  | Ok certs => NoDup (fingerprint <$> certs)
  | Err e => e ≠ Errorf "out of fuel"
  end.
Proof.
  intros Hp. unfold parseCertificates.
  destruct (parse_chain _ data ∅ []) as [certs|e] eqn:E.
  - eapply parse_chain_distinct; [|done]. split; [constructor|by intros ? ?%not_elem_of_nil].
  - destruct (parse_chain_fuel (S (String.length data)) data ∅ []) as [H|[bs H]]; [lia|congruence|by apply Hp in H].
Qed.

(** What [ValidateBundle] accepts. *)
Record bundle_valid (b : Bundle) (hostname : string) (mode : Mode) (now : Time) (leaf : Certificate) : Prop := {
  bv_chain : ∃ rest, parseCertificates (bundle_chain b) = Ok (leaf :: rest);
  bv_host : VerifyHostname leaf hostname = None;
  bv_window : cert_NotBefore leaf <= now < cert_NotAfter leaf;
  bv_signed : ∀ certs i c c', parseCertificates (bundle_chain b) = Ok certs →
    certs !! i = Some c → certs !! S i = Some c' → CheckSignatureFrom c c' = None;
  bv_pair : validateKeyPair b = Ok leaf;
  bv_production : mode = Production → contains (to_lower (cert_Issuer leaf)) "staging" = false
    ∧ contains (to_lower (cert_Issuer leaf)) "fake le" = false
}.

Lemma check_chain_signed certs i c c' :
  check_chain certs = None → certs !! i = Some c → certs !! S i = Some c' → CheckSignatureFrom c c' = None.
Proof.
  revert i. induction certs as [|x [|y l] IH]; intros i H Hi Hi'; [done|by destruct i|].
  simpl in H. destruct (CheckSignatureFrom x y) eqn:E; [done|].
  destruct i as [|i]; [by simplify_eq/=|]. by apply (IH i).
Qed.
Lemma signed_check_chain certs :
  (∀ i c c', certs !! i = Some c → certs !! S i = Some c' → CheckSignatureFrom c c' = None) →
  check_chain certs = None.
Proof.
  induction certs as [|x [|y l] IH]; intros H; [done..|]. simpl.
  rewrite (H 0%nat x y) by done. apply IH. intros i. apply (H (S i)).
Qed.

End X509.
