(* ===== verification/CertState.v ===== *)
(** [internal/certificate/state.go] and [source.go], with [ValidateIdentity]
    and [DirectoryURL] of [acme.go]: the metadata of the TLS certificate, its
    state machine, and the validation of the settings it is built from. *)
From S2P Require Import Prelude GoStrings GoPath Quote Domain X509.

(** [type State string] *)
Definition State : Type := string.
Definition Unconfigured : State := "unconfigured".
Definition Issuing : State := "issuing".
Definition Active : State := "active".
Definition Renewing : State := "renewing".
Definition Degraded : State := "degraded".
Definition Manual : State := "manual".

(** [type Source string] *)
Definition Source : Type := string.
Definition LetsEncrypt : Source := "letsencrypt".
Definition SelfSigned : Source := "self-signed".
Definition Provided : Source := "provided".

Record Metadata := mkMetadata {
  M_State : State;
  M_Source : Source;
  M_Mode : Mode;
  M_Hostname : string;
  M_Email : string;
  M_DirectoryURL : string;
  M_RegistrationURI : string;
  M_ProvidedCertificatePath : string;
  M_ProvidedKeyPath : string;
  M_Serial : string;
  M_Issuer : string;
  M_SANs : list string;
  M_NotBefore : Time;
  M_NotAfter : Time;
  M_Fingerprint : string;
  M_ActiveRevision : string;
  M_PreviousRevision : string;
  M_CertificatePath : string;
  M_PrivateKeyPath : string;
  M_LastError : string;
  M_UpdatedAt : Time
}.
#[export] Instance Metadata_eq_dec : EqDecision Metadata.
Proof. solve_decision. Defined.

(** [Metadata{}] *)
Definition zero_metadata : Metadata :=
  mkMetadata "" "" "" "" "" "" "" "" "" "" "" [] 0 0 "" "" "" "" "" "" 0.

(** ** Field updates *)

Definition meta_set_state (st : State) (m : Metadata) : Metadata :=
  mkMetadata st (M_Source m) (M_Mode m) (M_Hostname m) (M_Email m) (M_DirectoryURL m)
    (M_RegistrationURI m) (M_ProvidedCertificatePath m) (M_ProvidedKeyPath m) (M_Serial m)
    (M_Issuer m) (M_SANs m) (M_NotBefore m) (M_NotAfter m) (M_Fingerprint m) (M_ActiveRevision m)
    (M_PreviousRevision m) (M_CertificatePath m) (M_PrivateKeyPath m) (M_LastError m) (M_UpdatedAt m).
Definition meta_set_updated (now : Time) (m : Metadata) : Metadata :=
  mkMetadata (M_State m) (M_Source m) (M_Mode m) (M_Hostname m) (M_Email m) (M_DirectoryURL m)
    (M_RegistrationURI m) (M_ProvidedCertificatePath m) (M_ProvidedKeyPath m) (M_Serial m)
    (M_Issuer m) (M_SANs m) (M_NotBefore m) (M_NotAfter m) (M_Fingerprint m) (M_ActiveRevision m)
    (M_PreviousRevision m) (M_CertificatePath m) (M_PrivateKeyPath m) (M_LastError m) now.
Definition meta_set_error (e : string) (m : Metadata) : Metadata :=
  mkMetadata (M_State m) (M_Source m) (M_Mode m) (M_Hostname m) (M_Email m) (M_DirectoryURL m)
    (M_RegistrationURI m) (M_ProvidedCertificatePath m) (M_ProvidedKeyPath m) (M_Serial m)
    (M_Issuer m) (M_SANs m) (M_NotBefore m) (M_NotAfter m) (M_Fingerprint m) (M_ActiveRevision m)
    (M_PreviousRevision m) (M_CertificatePath m) (M_PrivateKeyPath m) e (M_UpdatedAt m).
Definition meta_set_registration (uri : string) (m : Metadata) : Metadata :=
  mkMetadata (M_State m) (M_Source m) (M_Mode m) (M_Hostname m) (M_Email m) (M_DirectoryURL m)
    uri (M_ProvidedCertificatePath m) (M_ProvidedKeyPath m) (M_Serial m)
    (M_Issuer m) (M_SANs m) (M_NotBefore m) (M_NotAfter m) (M_Fingerprint m) (M_ActiveRevision m)
    (M_PreviousRevision m) (M_CertificatePath m) (M_PrivateKeyPath m) (M_LastError m) (M_UpdatedAt m).
Definition meta_set_identity (src : Source) (mode : Mode) (hostname email directory : string) (m : Metadata) :
    Metadata :=
  mkMetadata (M_State m) src mode hostname email directory
    (M_RegistrationURI m) (M_ProvidedCertificatePath m) (M_ProvidedKeyPath m) (M_Serial m)
    (M_Issuer m) (M_SANs m) (M_NotBefore m) (M_NotAfter m) (M_Fingerprint m) (M_ActiveRevision m)
    (M_PreviousRevision m) (M_CertificatePath m) (M_PrivateKeyPath m) (M_LastError m) (M_UpdatedAt m).
Definition meta_set_provided (certificate key : string) (m : Metadata) : Metadata :=
  mkMetadata (M_State m) (M_Source m) (M_Mode m) (M_Hostname m) (M_Email m) (M_DirectoryURL m)
    (M_RegistrationURI m) certificate key (M_Serial m)
    (M_Issuer m) (M_SANs m) (M_NotBefore m) (M_NotAfter m) (M_Fingerprint m) (M_ActiveRevision m)
    (M_PreviousRevision m) (M_CertificatePath m) (M_PrivateKeyPath m) (M_LastError m) (M_UpdatedAt m).

(** ** The state machine *)

Definition EffectiveSource (m : Metadata) : Source :=
  if negb (bool_decide (M_Source m = "")) then M_Source m
  else if bool_decide (M_Mode m = ManualMode) || bool_decide (M_State m = Manual) then Provided
  else LetsEncrypt.

(** The map [allowed]: for each state the states it may move to. *)
Definition allowed (from : State) : list State :=
  if bool_decide (from = Unconfigured) then [Issuing; Manual]
  else if bool_decide (from = Issuing) then [Active; Degraded]
  else if bool_decide (from = Active) then [Renewing; Manual]
  else if bool_decide (from = Renewing) then [Active; Degraded]
  else if bool_decide (from = Degraded) then [Issuing; Renewing; Active; Manual]
  else if bool_decide (from = Manual) then [Issuing; Manual]
  else [].
Definition CanTransition (from to : State) : bool :=
  bool_decide (from = to) || bool_decide (to ∈ allowed from).

(** [now] is the [time.Now().UTC()] of the call. *)
Definition Transition (now : Time) (m : Metadata) (to : State) : result Metadata :=
  if negb (CanTransition (M_State m) to)
  then Err (Errorf ("invalid TLS transition " +:+ M_State m +:+ " -> " +:+ to))
  else Ok (meta_set_updated now (meta_set_state to m)).

(** ** The stored form

    The [CHECK] constraints of the table [tls_certificate], and what
    [SaveTLSMetadata] followed by [LoadTLSMetadata] gives: the names are one
    column, the source is the effective one, the time is that of the
    statement. *)
Definition meta_ok (m : Metadata) : bool :=
  bool_decide (M_State m ∈ [Unconfigured; Issuing; Active; Renewing; Degraded; Manual])
  && bool_decide (M_Mode m ∈ [Production; Staging; ManualMode])
  && bool_decide (EffectiveSource m ∈ [LetsEncrypt; SelfSigned; Provided]).

Definition meta_set_source_sans (src : Source) (sans : list string) (m : Metadata) : Metadata :=
  mkMetadata (M_State m) src (M_Mode m) (M_Hostname m) (M_Email m) (M_DirectoryURL m)
    (M_RegistrationURI m) (M_ProvidedCertificatePath m) (M_ProvidedKeyPath m) (M_Serial m)
    (M_Issuer m) sans (M_NotBefore m) (M_NotAfter m) (M_Fingerprint m) (M_ActiveRevision m)
    (M_PreviousRevision m) (M_CertificatePath m) (M_PrivateKeyPath m) (M_LastError m) (M_UpdatedAt m).

Definition newline : ascii := "010"%char.
Definition join_sans (sans : list string) : string := join_strings (String newline "") sans.
Definition split_sans (column : string) : list string :=
  if bool_decide (column = "") then [] else split column newline.
Definition stored_form (now : Time) (m : Metadata) : Metadata :=
  meta_set_updated now (meta_set_source_sans (EffectiveSource m) (split_sans (join_sans (M_SANs m))) m).

(** [lego.DirectoryURLLetsEncrypt] and its staging counterpart. *)
Class ACMEDirectories := {
  directory_production : string;
  directory_staging : string
}.
Section Settings.
Context {UT : UnicodeTables} {DIR : ACMEDirectories}.

Definition DirectoryURL (mode : Mode) : result string :=
  if bool_decide (mode = Production) then Ok directory_production
  else if bool_decide (mode = Staging) then Ok directory_staging
  else Err (Errorf ("ACME unavailable in mode " +:+ quote mode)).

(** ** Settings *)

(** [net/mail.ParseAddress]: the address of a message header, when it parses. *)
Variable ParseAddress : string → option string.

Definition reserved_suffixes : list string :=
  [".local"; ".localhost"; ".internal"; ".invalid"; ".test"; ".example"].
Definition has_suffix (s p : string) : bool :=
  bool_decide (drop (String.length s - String.length p) (chars s) = chars p)
  && (len p <=? len s).
Definition trim_suffix (s p : string) : string :=
  if has_suffix s p then take_bytes (String.length s - String.length p) s else s.

Definition label_char (c : ascii) : bool :=
  is_lower_ascii c || is_digit_ascii c || bool_decide (c = "-"%char).
(** A label of [ValidateIdentity] and of [validateCertificateHostname]. *)
Definition hostname_label (l : string) : bool :=
  negb (len l =? 0) && negb (63 <? len l) && negb (has_prefix l "-") && negb (has_suffix l "-")
  && forallb label_char (chars l).

Definition ValidateIdentity (email hostname : string) : option gerror :=
  if negb (bool_decide (ParseAddress email = Some email)) || negb (contains email "@")
  then Some (Errorf "invalid ACME email")
  else
    let name := trim_suffix (to_lower (trim_space hostname)) "." in
    if bool_decide (is_Some (parse_ip name)) || negb (contains name ".")
    then Some (Errorf "ACME hostname must be a public DNS name")
    else if existsb (has_suffix name) reserved_suffixes
    then Some (Errorf "ACME hostname uses a reserved suffix")
    else if negb (forallb hostname_label (split name "."%char))
    then Some (Errorf "invalid ACME hostname")
    else None.

Definition validateCertificateHostname (hostname : string) : option gerror :=
  let name := to_lower (trim_space hostname) in
  if bool_decide (name = "") || (253 <? len name) || bool_decide (is_Some (parse_ip name))
  then Some (Errorf "TLS hostname must be a DNS name")
  else if negb (forallb hostname_label (split name "."%char))
  then Some (Errorf "invalid TLS hostname label")
  else None.

Definition ValidateSourceSettings (source : Source) (hostname email certificatePath keyPath : string) :
    option gerror :=
  match validateCertificateHostname hostname with
  | Some e => Some e
  | None =>
    let nonempty s := negb (bool_decide (s = "")) in
    if bool_decide (source = LetsEncrypt) then
      if nonempty certificatePath || nonempty keyPath
      then Some (Errorf "provided PEM paths conflict with letsencrypt source")
      else ValidateIdentity email hostname
    else if bool_decide (source = SelfSigned) then
      if nonempty email || nonempty certificatePath || nonempty keyPath
      then Some (Errorf "ACME email and provided PEM paths conflict with self-signed source")
      else None
    else if bool_decide (source = Provided) then
      if nonempty email then Some (Errorf "ACME email conflicts with provided source")
      else if negb (nonempty certificatePath) || negb (nonempty keyPath)
      then Some (Errorf "provided source requires both PEM paths")
      else if existsb (λ p, negb (is_abs p) || negb (bool_decide (clean p = p))) [certificatePath; keyPath]
      then Some (Errorf "provided PEM paths must be absolute and clean")
      else None
    else Some (Errorf ("unknown TLS source " +:+ quote source))
  end.

(** ** What the settings guarantee *)

(** The settings of one source never carry those of another. *)
Inductive settings_of : Source → string → string → string → Prop :=
| letsencrypt_settings email : settings_of LetsEncrypt email "" ""
| selfsigned_settings : settings_of SelfSigned "" "" ""
| provided_settings certificate key :
    is_abs certificate = true → clean certificate = certificate →
    is_abs key = true → clean key = key →
    settings_of Provided "" certificate key.

(** C31. Accepted settings are those of exactly one source: an ACME email only
    for Let's Encrypt, PEM paths only for a provided pair, both present, and
    both absolute and clean; and the host name is a DNS name of at most 253
    bytes whose labels are host name labels. *)
Theorem ValidateSourceSettings_sound source hostname email certificatePath keyPath :
  ValidateSourceSettings source hostname email certificatePath keyPath = None →
  settings_of source email certificatePath keyPath
  ∧ (let name := to_lower (trim_space hostname) in
     len name <= 253 ∧ parse_ip name = None ∧ Forall (λ l, hostname_label l = true) (split name "."%char))
  ∧ (source = LetsEncrypt → ValidateIdentity email hostname = None).
Proof.
  unfold ValidateSourceSettings. intros H.
  destruct (validateCertificateHostname hostname) eqn:Hh; [done|].
  assert (Hn : len (to_lower (trim_space hostname)) <= 253 ∧ parse_ip (to_lower (trim_space hostname)) = None
    ∧ Forall (λ l, hostname_label l = true) (split (to_lower (trim_space hostname)) "."%char)).
  { unfold validateCertificateHostname in Hh. destruct (_ || _) eqn:E; [done|].
    apply orb_false_iff in E as [[_ E1]%orb_false_iff E2]. rewrite bool_decide_eq_false in E2.
    destruct (forallb _ _) eqn:F; [|done]. split; [lia|]. split; [by apply eq_None_not_Some|].
    apply Forall_forall. intros l Hl. rewrite forallb_forall in F. apply F. by apply list_elem_of_In. }
  repeat case_bool_decide; subst; simpl in H; try done; cases;
    repeat match goal with
    | E : (_ || _) = false |- _ => apply orb_false_iff in E as [? ?]
    | E : negb _ = false |- _ => apply negb_false_iff in E
    | E : bool_decide _ = true |- _ => apply bool_decide_eq_true in E
    end; subst;
    (split; [|by split]); first [apply letsencrypt_settings|apply selfsigned_settings|by apply provided_settings].
Qed.
End Settings.
