(* ===== verification/TLSStore.v ===== *)
(** [internal/certificate/tls_store.go]: the store of key pairs, a [Layout]
    whose complete revisions hold a matching chain and key. *)
From S2P Require Import Prelude GoStrings GoPath Quote Sha256 FileSys Revisions X509.

(** [type Published] of [issue.go]. *)
Record Published := mkPublished {
  Pub_Revision : string;
  Pub_CertificatePath : string;
  Pub_PrivateKeyPath : string
}.
#[export] Instance Published_eq_dec : EqDecision Published.
Proof. solve_decision. Defined.

Section TLSStore.
Context {UT : UnicodeTables} {SHA : Sha256} {X : X509}.

(** The root, for the paths of the result; [writeFile] is [writeTLSSynced] and
    [beforeRename] nil outside the tests. *)
Record TLSStore := mkTLSStore {
  s_root : string;
  s_beforeRename : option gerror
}.

(** ** Operations *)

Definition NewTLSStore (root : string) : M fs (result TLSStore) :=
  if negb (is_abs root) then ret (Err (Errorf "TLS root must be absolute"))
  else
    nil? os_mkdir_all "revisions" 448 in
    ret (Ok (mkTLSStore root None)).

Definition writeTLSSynced := writeSynced.
Definition syncTLSDir := syncDir.
Definition atomicTLSSymlink := atomicSymlink.

(** The digest of the chain and the key. *)
Definition tls_revision (b : Bundle) : string :=
  take_bytes 16 (sha256_hex (Bundle_Certificate b +:+ Bundle_IssuerCertificate b +:+ Bundle_PrivateKey b)).
#[global] Arguments tls_revision : simpl never.

(** [Publish], from [os.Chmod] of the stage to its rename. *)
Definition fill_pair (s : TLSStore) (b : Bundle) (stage : path) : M fs (option gerror) :=
  err? os_chmod stage 448 in
  err? writeTLSSynced (stage ++ ["cert.pem"]) (bundle_chain b) 420 in
  err? writeTLSSynced (stage ++ ["key.pem"]) (Bundle_PrivateKey b) 384 in
  err? syncTLSDir stage in
  ret (Wrapf "before TLS publish" <$> s_beforeRename s).

(** [Publish], from the reading of [current] to the end. *)
Definition switch_tls (target : string) : M fs (option gerror) :=
  let* r := os_readlink ["current"] in
  let old := match r with Ok t => t | Err _ => "" end in
  err? (if negb (bool_decide (old = target)) && negb (bool_decide (old = ""))
        then atomicTLSSymlink ["previous"] old else ret None) in
  if negb (bool_decide (old = target)) then
    err? atomicTLSSymlink ["current"] target in
    syncTLSDir []
  else ret None.

Definition published_at (s : TLSStore) (revision : string) : Published :=
  let destination := join_path [join_path [s_root s; "revisions"]; revision] in
  mkPublished revision (join_path [destination; "cert.pem"]) (join_path [destination; "key.pem"]).

(** [ctx] is [ctx.Err()] when the context is done at the call, else [None]. *)
Definition TLSStore_Publish (s : TLSStore) (ctx : option gerror) (b : Bundle) : M fs (result Published) :=
  match ctx with
  | Some e => ret (Err e)
  | None =>
    match validateKeyPair b with
    | Err e => ret (Err e)
    | Ok _ =>
      let revision := tls_revision b in
      let* st := os_stat ["revisions"; revision] in
      nil? match st with
           | Some e => if errors_is e ErrNotExist then stage_with revision (fill_pair s b) else ret (Some e)
           | None => ret None
           end in
      nil? switch_tls (join_path ["revisions"; revision]) in
      ret (Ok (published_at s revision))
    end
  end.

Definition TLSStore_Rollback (ctx : option gerror) : M fs (option gerror) :=
  match ctx with
  | Some e => ret (Some e)
  | None =>
    let* p := os_readlink ["previous"] in
    match p with
    | Err e =>
      if errors_is e ErrNotExist then
        err? remove_if_present ["current"] in
        syncTLSDir []
      else ret (Some (Wrapf "no previous TLS revision" e))
    | Ok previous => exchange_links previous
    end
  end.

Definition TLSStore_Restore (revision : string) : M fs (option gerror) :=
  restore_revision "invalid TLS revision" revision.

Definition TLSStore_Active (s : TLSStore) : M fs (result Published) :=
  let? target := os_readlink ["current"] in
  let dir := join_path [s_root s; target] in
  ret (Ok (mkPublished (base_name target) (join_path [dir; "cert.pem"]) (join_path [dir; "key.pem"]))).

(** ** The layout *)

Definition pair_node (b : Bundle) : node :=
  Dir 448 {[ "cert.pem" := File (bundle_chain b) 420; "key.pem" := File (Bundle_PrivateKey b) 384 ]}.
(** A complete revision: a key pair that [validateKeyPair] accepts, under the
    digest of the pair. *)
Definition tls_complete (id : string) (n : node) : Prop :=
  ∃ b, is_ok (validateKeyPair b) = true ∧ tls_revision b = id ∧ n = pair_node b.
#[export] Program Instance tls_layout : Layout := {| complete := tls_complete |}.
Next Obligation. intros id n (b & _ & <- & _). apply digest_name. Qed.
Next Obligation.
  intros id m (b & _ & _ & E). apply (f_equal (λ n, entries_of (Some n) !! "cert.pem")) in E.
  unfold pair_node in E. simpl in E. by rewrite lookup_insert_eq in E.
Qed.

Lemma fill_pair_fills s b :
  is_ok (validateKeyPair b) = true → fills (tls_revision b) True (fill_pair s b).
Proof.
  intros Hv. split.
  - intros stage. unfold fill_pair, writeTLSSynced, syncTLSDir.
    apply writes_below_try_err; [by apply os_chmod_below|].
    do 2 (apply writes_below_try_err; [apply writeSynced_below|]). auto with fsdb.
  - intros stage w w' Hr Hd H. unfold fill_pair in H. set (sp := ["revisions"; stage]) in *.
    run_bind H. destruct a; [run_absurd H|]. apply (os_chmod_inv sp 448 448 ∅) in E; [|done..].
    assert (D1 : tree_get sp (fs_tree w1) = Some (Dir 448 ∅)) by (rewrite E; by apply tree_get_put_eq).
    run_bind H. destruct a; [run_absurd H|].
    destruct (writeSynced_done _ _ _ _ _ _ _ _ D1 E0) as [_ D2].
    run_bind H. destruct a; [run_absurd H|].
    destruct (writeSynced_done _ _ _ _ _ _ _ _ D2 E1) as [_ D3].
    run_bind H. destruct a; [run_absurd H|]. apply syncDir_keeps in E2.
    unfold ret in H. injection H as _ <-. rewrite E2, D3.
    eexists _, _. split; [done|]. split; [|done]. exists b. split; [done|]. split; [done|].
    unfold pair_node. by rewrite insert_insert_ne.
Qed.

(** [switch_tls] and the switch of the configuration store do the same. *)
Lemma switch_tls_eq id w :
  switch_tls (join_path ["revisions"; id]) w
  = (match (switch_current id w).1 with Ok _ => None | Err e => Some e end, (switch_current id w).2).
Proof.
  unfold switch_tls, switch_current, try_err, try_nil, try_ok, bind, ret.
  destruct (os_readlink ["current"] w) as [r w1].
  set (old := match r with Ok t => t | Err _ => "" end).
  destruct (decide (old = join_path ["revisions"; id])) as [Ho|Ho].
  { by rewrite !(bool_decide_eq_true_2 _ Ho). }
  rewrite (bool_decide_eq_false_2 _ Ho). simpl.
  destruct (decide (old = "")) as [He|He].
  - rewrite (bool_decide_eq_true_2 _ He). simpl.
    unfold atomicTLSSymlink, syncTLSDir. destruct (atomicSymlink ["current"] _ w1) as [[e|] w2]; [done|].
    by destruct (syncDir [] w2) as [[e|] w3].
  - rewrite (bool_decide_eq_false_2 _ He). simpl.
    unfold atomicTLSSymlink, syncTLSDir. destruct (atomicSymlink ["previous"] old w1) as [[e|] w2]; [done|].
    destruct (atomicSymlink ["current"] _ w2) as [[e|] w3]; [done|].
    by destruct (syncDir [] w3) as [[e|] w4].
Qed.

(** ** Publish *)

Lemma TLSStore_Publish_spec s ctx b w r w' :
  store_ok (fs_tree w) → TLSStore_Publish s ctx b w = (r, w') →
  store_ok (fs_tree w') ∧ revisions_kept (fs_tree w) (fs_tree w') ∧
  ((link_at (fs_tree w') "current" = link_at (fs_tree w) "current"
    ∧ link_at (fs_tree w') "previous" = link_at (fs_tree w) "previous" ∧ is_ok r = false)
   ∨ ∃ w1 sr, staged (fs_tree w) (fs_tree w1) ∧ published (fs_tree w1) (tls_revision b)
       ∧ switch_current (tls_revision b) w1 = (sr, w')
       ∧ r = match sr with Ok _ => Ok (published_at s (tls_revision b)) | Err e => Err e end).
Proof.
  intros Hs H. unfold TLSStore_Publish in H.
  destruct ctx as [e|]; [run_ret H; split; [done|]; split; [by intros ??|by left]|].
  destruct (validateKeyPair b) as [c|e] eqn:Hv; [|run_ret H; split; [done|]; split; [by intros ??|by left]].
  assert (Hid : revision_name (tls_revision b)) by apply digest_name.
  run_bind H. assert (Ht := os_stat_keeps _ _ _ _ E). run_bind H.
  assert (Hw : staged (fs_tree w) (fs_tree w0) ∧ (a0 = None → published (fs_tree w0) (tls_revision b))).
  { destruct a as [e|].
    - destruct (errors_is e ErrNotExist); [|run_ret E0; split; [rewrite Ht; by apply staged_refl|done]].
      apply (stage_with_spec _ True) in E0 as [S P]; [|by apply fill_pair_fills; rewrite Hv|done|by rewrite Ht].
      rewrite Ht in S. split; [done|]. intros Ha. by apply P.
    - run_ret E0. rewrite Ht. split; [by apply staged_refl|]. intros _. apply os_stat_inv in E as [n Hn].
      eapply so_published; [done..|]. by apply revision_name_not_stage. }
  destruct Hw as [S Hp]. destruct a0 as [e|].
  { run_ret H. destruct S as (Hs0 & Hr0 & Hk0). split; [done|]. split; [done|]. left.
    by rewrite (link_at_same _ _ _ (Hr0 "current" [] ltac:(done))), (link_at_same _ _ _ (Hr0 "previous" [] ltac:(done))). }
  run_bind H. rewrite switch_tls_eq in E1.
  destruct (switch_current (tls_revision b) w0) as [sr w3] eqn:Hsw. simpl in E1. injection E1 as <- <-.
  destruct (switch_current_spec _ _ _ _ (proj1 S) (Hp eq_refl) Hsw) as (Hs' & HR & _).
  assert (Hend : w' = w3 ∧ r = match sr with Ok _ => Ok (published_at s (tls_revision b)) | Err e => Err e end)
    by (destruct sr; by run_ret H).
  destruct Hend as [-> ->]. split; [done|]. split; [|right; eauto 10].
  intros x n Hx Hn. rewrite HR. by apply S.
Qed.

(** Whatever system calls fail, [Publish] leaves a well-formed store in
    which no complete pair is altered and [current] is the old pair or the new
    one; it never touches the store for a pair whose key does not match; a nil
    error means the returned revision is complete and current, and the returned
    paths are its files. *)
Theorem Publish_publishes_atomically s ctx b w r w' :
  store_ok (fs_tree w) → TLSStore_Publish s ctx b w = (r, w') →
  store_ok (fs_tree w') ∧ revisions_kept (fs_tree w) (fs_tree w')
  ∧ (link_at (fs_tree w') "current" = link_at (fs_tree w) "current"
     ∨ link_at (fs_tree w') "current" = Some (target_of (tls_revision b)))
  ∧ (link_at (fs_tree w') "previous" = link_at (fs_tree w) "previous"
     ∨ link_at (fs_tree w') "previous" = link_at (fs_tree w) "current")
  ∧ (is_ok (validateKeyPair b) = false → is_ok r = false ∧ w' = w)
  ∧ (∀ p, r = Ok p → p = published_at s (tls_revision b) ∧ published (fs_tree w') (tls_revision b)
       ∧ link_at (fs_tree w') "current" = Some (target_of (tls_revision b))).
Proof.
  intros Hs H. assert (Hbad : is_ok (validateKeyPair b) = false → is_ok r = false ∧ w' = w).
  { intros Hv. unfold TLSStore_Publish in H. destruct ctx; [by run_ret H|]. destruct (validateKeyPair b); [done|]. by run_ret H. }
  destruct (TLSStore_Publish_spec _ _ _ _ _ _ Hs H) as (Hs' & Hk & [(Hc & Hp & Hr)|HA]).
  { split_and!; [done|done|by left|by left|done|]. by intros p ->. }
  destruct HA as (w1 & sr & (Hs1 & Hr1 & _) & Hpub & Hsw & Hres).
  destruct (switch_current_spec _ _ _ _ Hs1 Hpub Hsw) as (_ & HR & Hpr & Hcu & _).
  rewrite (link_at_same _ _ _ (Hr1 "current" [] ltac:(done))) in Hpr, Hcu.
  rewrite (link_at_same _ _ _ (Hr1 "previous" [] ltac:(done))) in Hpr.
  split; [done|]. split; [done|]. split; [naive_solver|]. split; [done|]. split; [done|].
  intros p Hp. rewrite Hp in Hres. destruct sr as [x|]; [|done]. injection Hres as ->.
  destruct Hcu as [[_ ?]|Hcu]; [done|]. split; [done|]. split; [|done].
  eapply published_same; [apply HR|done].
Qed.

(** [Rollback] of the key-pair store exchanges the links when there is a
    previous pair and clears [current] when there is none; whatever calls fail
    the store stays well formed and no pair changes. *)
Lemma TLSRollback_restores ctx w e w' :
  store_ok (fs_tree w) → TLSStore_Rollback ctx w = (e, w') →
  store_ok (fs_tree w') ∧ same_revisions (fs_tree w) (fs_tree w') ∧
  (e = None → fs_faults w = [] →
   match link_at (fs_tree w) "previous" with
   | Some p => link_at (fs_tree w') "current" = Some p ∧
               link_at (fs_tree w') "previous" = link_at (fs_tree w) "current"
   | None => link_at (fs_tree w') "current" = None
   end).
Proof.
  intros Hs H. unfold TLSStore_Rollback in H. destruct ctx as [e0|]; [by run_ret H|].
  run_bind H. destruct a as [prev|err].
  - assert (Hl := E). apply os_readlink_inv in Hl as [Ht Hl]. specialize (Hl _ eq_refl).
    destruct (exchange_links_spec _ _ _ _ _ Hs E H) as (Hs' & HR & Hx).
    split; [done|]. split; [done|]. intros He _. destruct (Hx He) as (Hc & Hp & _).
    rewrite Hc, Hp. unfold link_at at 1 2. by rewrite Hl.
  - destruct (os_readlink_inv _ _ _ _ E) as [Ht _].
    destruct (errors_is err ErrNotExist) eqn:Hne; [|run_ret H; by rewrite Ht].
    run_bind H. assert (E' := E0).
    apply (remove_if_present_store _ "previous") in E0 as (S1 & R1 & O1); [|by left|by rewrite Ht].
    rewrite Ht in R1, O1. destruct a as [e1|]; [by run_ret H|].
    apply syncDir_keeps in H. rewrite H. split; [done|]. split; [done|]. intros _ Hq.
    apply sys_quiet in E as [E Hq1]; [|done]. unfold link_at at 1.
    destruct (tree_get ["previous"] (fs_tree w)) as [n|] eqn:Hg.
    + destruct (so_previous _ Hs _ Hg) as (id & -> & _). by injection E.
    + refine (remove_if_present_quiet _ _ _ _ _ Hq1 E' eq_refl). rewrite Ht. apply Hs.
Qed.

(** ** Runs without faults *)

Lemma fill_pair_stays_quiet s b stage : stays_quiet (fill_pair s b stage).
Proof.
  unfold fill_pair, writeTLSSynced, syncTLSDir, writeSynced, syncDir.
  repeat first [apply stays_quiet_ret|apply stays_quiet_sys_err|apply stays_quiet_try_err|apply stays_quiet_bind; [|intros ?]
               |case_match].
Qed.
Lemma TLSStore_Publish_quiet s ctx b w r w' :
  quiet w → TLSStore_Publish s ctx b w = (r, w') →
  quiet w' ∧ match r with
             | Ok _ => True
             | Err _ => link_at (fs_tree w') "current" = link_at (fs_tree w) "current"
             end.
Proof.
  intros Hqw H. unfold TLSStore_Publish in H. destruct ctx as [e|]; [by run_ret H|].
  destruct (validateKeyPair b) as [c|e] eqn:Hv; [|by run_ret H].
  assert (Hid : revision_name (tls_revision b)) by apply digest_name.
  run_bind H. assert (Ht := os_stat_keeps _ _ _ _ E).
  assert (Hq1 : quiet w1).
  { destruct Hqw as [Hs Hq Hr]. split; rewrite ?Ht; [done| |done]. by eapply stays_quiet_sys_err in E. }
  run_bind H.
  assert (Hw : quiet w0 ∧ root_kept (fs_tree w) (fs_tree w0) ∧ (a0 = None → published (fs_tree w0) (tls_revision b))).
  { assert (Hfill : fills (tls_revision b) True (fill_pair s b)) by (apply fill_pair_fills; by rewrite Hv).
    destruct a as [e|].
    - destruct (errors_is e ErrNotExist).
      + assert (S := E0). apply (stage_with_spec _ True) in S as [(_ & S & _) P]; [|done|done|apply Hq1].
        rewrite Ht in S. split; [|split; [done|intros Ha; by apply P]].
        eapply (stage_with_quiet _ True); [..|exact Hq1|exact E0]; [apply fill_pair_stays_quiet|done..].
      + run_ret E0. by rewrite Ht.
    - run_ret E0. split; [done|]. split; [by rewrite Ht|]. intros _. apply os_stat_inv in E as [n Hn].
      rewrite Ht. eapply so_published; [apply Hqw|done|]. by apply revision_name_not_stage. }
  destruct Hw as (Hq2 & Hr & Hp). rewrite <-(link_at_same _ _ _ (Hr "current" [] ltac:(done))).
  destruct a0 as [e|]; [by run_ret H|]. run_bind H. rewrite switch_tls_eq in E1.
  destruct (switch_current (tls_revision b) w0) as [sr w3] eqn:Hsw. simpl in E1. injection E1 as <- <-.
  apply switch_current_quiet in Hsw as (-> & ? & _); [|done|by apply Hp]. by run_ret H.
Qed.
End TLSStore.
