(* ===== verification/ShelfSpec.v ===== *)
(** What the two revision stores promise, as an abstract machine, and that they
    keep it whatever system calls fail.

    A shelf holds the names of the complete revisions, the current one and the
    previous one.  An operation is a plan, a list of atomic changes; when it
    succeeds the whole plan was carried out, and when it fails the first changes
    of the plan were.  The stores of [Materializer.v] and [TLSStore.v] implement
    this machine ([config_store_refines], [tls_store_refines]). *)
From S2P Require Import Prelude GoStrings GoPath Quote Sha256 Domain Config FileSys Revisions Materializer X509 TLSStore.

(** ** The machine *)

Record shelf := mkShelf { sh_ids : gset string; sh_current : option string; sh_previous : option string }.

(** An atomic change. *)
Inductive change := Add (id : string) | SetCurrent (o : option string) | SetPrevious (o : option string).
Definition make_change (s : shelf) (c : change) : shelf :=
  match c with
  | Add id => mkShelf ({[id]} ∪ sh_ids s) (sh_current s) (sh_previous s)
  | SetCurrent o => mkShelf (sh_ids s) o (sh_previous s)
  | SetPrevious o => mkShelf (sh_ids s) (sh_current s) o
  end.
Definition make_changes : list change → shelf → shelf := λ cs s, foldl make_change s cs.

(** The operations of the machine.  [clears] tells whether a rollback without a
    previous revision clears the current one. *)
Inductive request := Put (id : string) | Exchange (clears : bool) | Select (id : string) | Clear.
(** The old current revision becomes the previous one. *)
Definition put_plan (id : string) (s : shelf) : list change :=
  Add id :: match sh_current s with
            | None => [SetCurrent (Some id)]
            | Some c => if bool_decide (c = id) then [] else [SetPrevious (Some c); SetCurrent (Some id)]
            end.
(** The plans of an operation; none when it cannot succeed.  The stores ignore a
    failure to read the current link, so that a publication may also forget to
    record the previous revision. *)
Definition plans (r : request) (s : shelf) : list (list change) :=
  match r with
  | Put id => [put_plan id s; [Add id; SetCurrent (Some id)]]
  | Exchange clears =>
    match sh_previous s with
    | None => if clears then [[SetCurrent None]] else []
    | Some p => match sh_current s with Some c => [[SetCurrent (Some p); SetPrevious (Some c)]] | None => [] end
    end
  | Select id => if bool_decide (id ∈ sh_ids s) then [[SetCurrent (Some id)]] else []
  | Clear => [[SetCurrent None; SetPrevious None]]
  end.
(** A step: nothing, and an error; or the changes of a plan up to some point, all of
    them on success. *)
Definition shelf_step (r : request) (ok : bool) (s s' : shelf) : Prop :=
  ok = false ∧ s' = s
  ∨ ∃ plan k, plan ∈ plans r s ∧ s' = make_changes (take k plan) s ∧ (ok = true → length plan <= k)%nat.
Inductive shelf_run : shelf → list (request * bool) → shelf → Prop :=
| run_none s : shelf_run s [] s
| run_step s r ok s1 l s2 : shelf_step r ok s s1 → shelf_run s1 l s2 → shelf_run s ((r, ok) :: l) s2.

Lemma step_prefix r s plan done rest : plan ∈ plans r s → plan = done ++ rest →
  shelf_step r false s (make_changes done s).
Proof. intros Hp ->. right. exists (done ++ rest), (length done). by rewrite take_app_length. Qed.
Lemma step_done r ok s plan : plan ∈ plans r s → shelf_step r ok s (make_changes plan s).
Proof. intros Hp. right. exists plan, (length plan). by rewrite firstn_all. Qed.

(** No operation takes a revision off the shelf. *)
Lemma changes_keep_ids cs s : sh_ids s ⊆ sh_ids (make_changes cs s).
Proof.
  revert s. induction cs as [|c cs IH]; intros s; [done|]. etrans; [|apply IH]. destruct c; cbn [make_change sh_ids]; set_solver.
Qed.
Lemma run_keeps_ids s l s' : shelf_run s l s' → sh_ids s ⊆ sh_ids s'.
Proof.
  induction 1 as [|s r ok s1 l s2 [[_ ->]|(plan & k & _ & -> & _)] _ IH]; [done..|]. etrans; [apply changes_keep_ids|done].
Qed.

(** What holds of a machine: the current and the previous revision are on the shelf. *)
Definition shelf_ok (s : shelf) : Prop :=
  (∀ id, sh_current s = Some id → id ∈ sh_ids s) ∧ (∀ id, sh_previous s = Some id → id ∈ sh_ids s).

(** ** The shelf of a tree *)

Section Shelf.
Context {L : Layout}.

#[export] Instance stage_name_dec n : Decision (stage_name n).
Proof. unfold stage_name. apply _. Defined.
(** The name a link points to. *)
Definition link_id (l : string) : string := drop_bytes 10 l.
Definition shelf_of (t : node) : shelf :=
  mkShelf (filter (λ x, ¬ stage_name x) (dom (entries_of (tree_get ["revisions"] t))))
    (link_id <$> link_at t "current") (link_id <$> link_at t "previous").

Lemma link_id_target id : link_id (target_of id) = id.
Proof. done. Qed.
Lemma revision_entry t x : tree_get ["revisions"; x] t = entries_of (tree_get ["revisions"] t) !! x.
Proof.
  change ["revisions"; x] with (["revisions"] ++ [x]). rewrite tree_get_app.
  destruct (tree_get ["revisions"] t) as [[| |m es]|]; cbn; try by rewrite lookup_empty. by destruct (es !! x).
Qed.
Lemma elem_ids t x : x ∈ sh_ids (shelf_of t) ↔ ¬ stage_name x ∧ is_Some (tree_get ["revisions"; x] t).
Proof. unfold shelf_of. cbn [sh_ids]. by rewrite elem_of_filter, elem_of_dom, revision_entry. Qed.
Lemma ids_published t x : store_ok t → x ∈ sh_ids (shelf_of t) ↔ published t x.
Proof.
  intros Hs. rewrite elem_ids. split.
  - intros [Hx [n Hn]]. by eapply so_published.
  - intros (n & Hc & Hn). split; [by eapply revision_name_not_stage, complete_name|by eexists].
Qed.

(** Two trees with the same revisions. *)
Lemma same_ids t t' : same_revisions t t' → sh_ids (shelf_of t') = sh_ids (shelf_of t).
Proof. intros H. apply set_eq. intros x. rewrite !elem_ids. by rewrite (H [x]). Qed.
Lemma shelf_eq t s :
  sh_ids (shelf_of t) = sh_ids s → link_id <$> link_at t "current" = sh_current s →
  link_id <$> link_at t "previous" = sh_previous s → shelf_of t = s.
Proof. destruct s as [i c p]. unfold shelf_of. cbn [sh_ids sh_current sh_previous]. by intros -> -> ->. Qed.

Lemma shelf_of_ok t : store_ok t → shelf_ok (shelf_of t).
Proof.
  intros Hs. split; intros id H; cbn in H; apply fmap_Some in H as (l & Hl & ->).
  - destruct (link_at_published "current" "previous" _ _ ltac:(by left) Hs Hl) as (i & -> & Hp).
    rewrite link_id_target. by apply ids_published.
  - destruct (link_at_published "previous" "current" _ _ ltac:(by right) Hs Hl) as (i & -> & Hp).
    rewrite link_id_target. by apply ids_published.
Qed.
End Shelf.

(** ** The switches *)

Section Switches.
Context {L : Layout}.

(** One link switch is one change, or none when it fails. *)
Lemma current_switched id w e w' : store_ok (fs_tree w) → published (fs_tree w) id →
  atomicSymlink ["current"] (target_of id) w = (e, w') →
  store_ok (fs_tree w') ∧ same_revisions (fs_tree w) (fs_tree w')
  ∧ shelf_of (fs_tree w') = match e with
                            | None => make_change (shelf_of (fs_tree w)) (SetCurrent (Some id))
                            | Some _ => shelf_of (fs_tree w)
                            end.
Proof.
  intros Hs Hp H. apply (atomicSymlink_store _ "previous") in H as [S R O D F]; [|by left|done|done].
  split; [done|]. split; [done|]. destruct e as [e|].
  - apply shelf_eq; [by apply same_ids|by rewrite (link_at_same _ _ _ (F ltac:(done)))|by rewrite (link_at_same _ _ _ O)].
  - apply shelf_eq; [by apply same_ids| |by rewrite (link_at_same _ _ _ O)]. unfold link_at. by rewrite (D eq_refl).
Qed.
Lemma previous_switched id w e w' : store_ok (fs_tree w) → published (fs_tree w) id →
  atomicSymlink ["previous"] (target_of id) w = (e, w') →
  store_ok (fs_tree w') ∧ same_revisions (fs_tree w) (fs_tree w')
  ∧ shelf_of (fs_tree w') = match e with
                            | None => make_change (shelf_of (fs_tree w)) (SetPrevious (Some id))
                            | Some _ => shelf_of (fs_tree w)
                            end.
Proof.
  intros Hs Hp H. apply (atomicSymlink_store _ "current") in H as [S R O D F]; [|by right|done|done].
  split; [done|]. split; [done|]. destruct e as [e|].
  - apply shelf_eq; [by apply same_ids|by rewrite (link_at_same _ _ _ O)|by rewrite (link_at_same _ _ _ (F ltac:(done)))].
  - apply shelf_eq; [by apply same_ids|by rewrite (link_at_same _ _ _ O)|]. unfold link_at. by rewrite (D eq_refl).
Qed.
Lemma published_same_revisions t t' id : same_revisions t t' → published t id → published t' id.
Proof. intros H. apply published_same, (H [id]). Qed.
Lemma syncDir_shelf p w e w' : syncDir p w = (e, w') → fs_tree w' = fs_tree w.
Proof. apply syncDir_keeps. Qed.
(** A link that was read names its revision on the shelf. *)
Lemma read_current w c w' : store_ok (fs_tree w) → os_readlink ["current"] w = (Ok c, w') →
  fs_tree w' = fs_tree w ∧ ∃ id, c = target_of id ∧ published (fs_tree w) id ∧ sh_current (shelf_of (fs_tree w)) = Some id.
Proof.
  intros Hs H. destruct (readlink_published "current" "previous" _ _ _ ltac:(by left) Hs H) as (Ht & id & -> & Hp & Hl).
  split; [done|]. exists id. split; [done|]. split; [done|]. cbn. unfold link_at. by rewrite Hl.
Qed.
Lemma read_previous w c w' : store_ok (fs_tree w) → os_readlink ["previous"] w = (Ok c, w') →
  fs_tree w' = fs_tree w ∧ ∃ id, c = target_of id ∧ published (fs_tree w) id ∧ sh_previous (shelf_of (fs_tree w)) = Some id.
Proof.
  intros Hs H. destruct (readlink_published "previous" "current" _ _ _ ltac:(by right) Hs H) as (Ht & id & -> & Hp & Hl).
  split; [done|]. exists id. split; [done|]. split; [done|]. cbn. unfold link_at. by rewrite Hl.
Qed.

(** The changes of the links by [switch_current]: a part of one of the plans. *)
Definition switch_plan (id : string) (s : shelf) : list change := tail (put_plan id s).
Lemma switch_current_refines id w r w' :
  store_ok (fs_tree w) → published (fs_tree w) id → switch_current id w = (r, w') →
  store_ok (fs_tree w') ∧ ∃ plan k,
    (plan = switch_plan id (shelf_of (fs_tree w)) ∨ plan = [SetCurrent (Some id)])
    ∧ shelf_of (fs_tree w') = make_changes (take k plan) (shelf_of (fs_tree w)) ∧ (is_ok r = true → length plan <= k)%nat.
Proof.
  intros Hs Hp H. unfold switch_current in H. rewrite target_of_eq in H by (by eapply published_name).
  run_bind H. destruct a as [c|err].
  - apply read_current in E as (Ht & i & -> & Hpi & Hc); [|done].
    destruct (decide (i = id)) as [->|Hne].
    { rewrite bool_decide_eq_true_2 in H by done. run_ret H. rewrite Ht. split; [done|]. exists [], 0%nat.
      unfold switch_plan, put_plan. rewrite Hc, bool_decide_eq_true_2 by done. split; [by left|]. split; [done|]. cbn. lia. }
    assert (Hplan : switch_plan id (shelf_of (fs_tree w)) = [SetPrevious (Some i); SetCurrent (Some id)])
      by (unfold switch_plan, put_plan; by rewrite Hc, bool_decide_eq_false_2).
    rewrite bool_decide_eq_false_2 in H by (by intros ?%target_of_inj). rewrite bool_decide_eq_false_2 in H by done.
    run_bind H. apply previous_switched in E as (S1 & R1 & A1); [|by rewrite Ht..]. rewrite Ht in R1, A1.
    destruct a as [e|]; [run_ret H; split; [done|]; exists [SetPrevious (Some i); SetCurrent (Some id)], 0%nat; split; [by auto|done]|].
    run_bind H. apply current_switched in E as (S2 & R2 & A2); [|done|by eapply published_same_revisions].
    rewrite A1 in A2. destruct a as [e|].
    { run_ret H. split; [done|]. exists [SetPrevious (Some i); SetCurrent (Some id)], 1%nat. split; [by auto|done]. }
    run_bind H. apply syncDir_shelf in E. rewrite <-E in S2, A2.
    split; [destruct a; run_ret H; done|]. exists [SetPrevious (Some i); SetCurrent (Some id)], 2%nat.
    split; [by left|]. split; [|cbn; lia]. by destruct a; run_ret H.
  - apply os_readlink_inv in E as [Ht _]. rewrite bool_decide_eq_false_2 in H by done.
    rewrite bool_decide_eq_true_2 in H by done. run_bind H. run_ret E.
    run_bind H. apply current_switched in E as (S2 & R2 & A2); [|by rewrite Ht..]. rewrite Ht in A2.
    destruct a as [e|]; [run_ret H; split; [done|]; exists [SetCurrent (Some id)], 0%nat; split; [by auto|done]|].
    run_bind H. apply syncDir_shelf in E. rewrite <-E in S2, A2.
    split; [destruct a; run_ret H; done|]. exists [SetCurrent (Some id)], 1%nat.
    split; [by right|]. split; [|cbn; lia]. by destruct a; run_ret H.
Qed.
End Switches.

(** ** Faults

    The operations take outcomes from the stream of faults; "does not exist" is
    no fault of the system, it is the answer when nothing is there. *)
Definition honest (w : fs) : Prop :=
  Forall (λ f, ∀ e, f = Some e → errors_is e ErrNotExist = false) (fs_faults w).
Definition fewer_faults (w w' : fs) : Prop := fs_faults w' `suffix_of` fs_faults w.
#[export] Instance fewer_faults_preorder : PreOrder fewer_faults.
Proof. unfold fewer_faults. split; [by intros w; reflexivity|]. intros a b c Hab Hbc. by etrans; [exact Hbc|]. Qed.
Lemma honest_later w w' : fewer_faults w w' → honest w → honest w'.
Proof. unfold honest. intros [l ->] H. by apply Forall_app in H as [_ H]. Qed.

Lemma sys_fewer {A} (run : node → result A * node) : preserves fewer_faults (sys run).
Proof.
  intros w r w' H. unfold sys in H. unfold fewer_faults. destruct (fs_faults w) as [|[e|] q] eqn:Hf;
    try (destruct (run (fs_tree w)) as [r0 t]); injection H as <- <-; cbn; [done|by exists [Some e]|by exists [None]].
Qed.
Lemma sys_err_fewer run : preserves fewer_faults (sys_err run).
Proof. apply preserves_bind; [apply _|apply sys_fewer|intros a; apply preserves_ret; apply _]. Qed.
Lemma clock_fewer : preserves fewer_faults now_unix_nano.
Proof. intros w r w' [= _ <-]. by unfold fewer_faults. Qed.
Ltac fewer_walk := repeat first [progress walk | apply sys_fewer | apply sys_err_fewer | apply clock_fewer | case_match].
Lemma atomicSymlink_fewer p l : preserves fewer_faults (atomicSymlink p l).
Proof. unfold atomicSymlink. fewer_walk. Qed.
Lemma syncDir_fewer p : preserves fewer_faults (syncDir p).
Proof. unfold syncDir. fewer_walk. Qed.
Lemma writeSynced_fewer p d mode : preserves fewer_faults (writeSynced p d mode).
Proof. unfold writeSynced. fewer_walk. Qed.
Lemma stage_with_fewer id fill : (∀ p, preserves fewer_faults (fill p)) → preserves fewer_faults (stage_with id fill).
Proof. intros Hf. unfold stage_with. fewer_walk; first [apply Hf | apply syncDir_fewer]. Qed.
Lemma switch_current_fewer id : preserves fewer_faults (switch_current id).
Proof. unfold switch_current. fewer_walk; first [apply atomicSymlink_fewer | apply syncDir_fewer]. Qed.
Lemma exchange_links_fewer p : preserves fewer_faults (exchange_links p).
Proof. unfold exchange_links. fewer_walk; first [apply atomicSymlink_fewer | apply syncDir_fewer]. Qed.
Lemma remove_if_present_fewer p : preserves fewer_faults (remove_if_present p).
Proof. unfold remove_if_present. fewer_walk. Qed.
Lemma restore_revision_fewer m id : preserves fewer_faults (restore_revision m id).
Proof. unfold restore_revision. fewer_walk; first [apply remove_if_present_fewer | apply atomicSymlink_fewer | apply syncDir_fewer]. Qed.

(** An honest call that reports "does not exist" has looked. *)
Lemma sys_honest {A} (run : node → result A * node) w e w' :
  honest w → sys run w = (Err e, w') → errors_is e ErrNotExist = true → run (fs_tree w) = (Err e, fs_tree w').
Proof.
  unfold honest, sys. intros Hw H He. destruct (fs_faults w) as [|[f|] q] eqn:Hf.
  - destruct (run (fs_tree w)) as [r t]. by injection H as -> <-.
  - injection H as -> <-. apply Forall_cons in Hw as [Hw _]. by rewrite (Hw e eq_refl) in He.
  - destruct (run (fs_tree w)) as [r t]. by injection H as -> <-.
Qed.
Lemma readlink_honest name w e w' :
  honest w → os_readlink [name] w = (Err e, w') → errors_is e ErrNotExist = true → link_at (fs_tree w) name = None.
Proof.
  intros Hw H He. apply sys_honest in H; [|done..]. unfold link_at. by repeat case_match; simplify_eq.
Qed.
Lemma remove_honest name w w' : honest w → is_dir (Some (fs_tree w)) = true →
  remove_if_present [name] w = (None, w') → link_at (fs_tree w') name = None.
Proof.
  intros Hw Hd H. unfold remove_if_present, os_remove, sys_err in H. run_bind H. run_bind E.
  destruct a0 as [[]|e]; run_ret E.
  - apply sys_inv in E0 as [[? _]|E0]; [done|].
    assert (Hput : tree_get [name] (tree_put [name] None (fs_tree w)) = None) by by apply root_put_eq.
    run_ret H. assert (Ht : fs_tree w' = tree_put [name] None (fs_tree w) ∨ tree_get [name] (fs_tree w') = None)
      by (repeat case_match; simplify_eq; first [by left|by right; congruence]).
    unfold link_at. destruct Ht as [Ht|Ht]; [by rewrite Ht, Hput|by rewrite Ht].
  - run_ret H. destruct (errors_is e ErrNotExist) eqn:He; [|done]. apply sys_honest in E0; [|done..].
    destruct (tree_get [name] (fs_tree w)) as [n|] eqn:Hg.
    + exfalso. destruct n as [| |m es]; [done|done|]. destruct (bool_decide (es = ∅)); [done|].
      injection E0 as <- _. done.
    + injection E0 as _ Ht. unfold link_at. by rewrite <- Ht, Hg.
Qed.

(** ** The operations both stores share *)

Section Operations.
Context {L : Layout}.

Definition succeeded (e : option gerror) : bool := match e with None => true | Some _ => false end.
(** What an operation of a store must do on a shelf. *)
Definition refines (r : request) (ok : bool) (w w' : fs) : Prop :=
  store_ok (fs_tree w') ∧ fewer_faults w w' ∧ shelf_step r ok (shelf_of (fs_tree w)) (shelf_of (fs_tree w')).
Lemma refines_nothing r w w' : store_ok (fs_tree w) → fewer_faults w w' → fs_tree w' = fs_tree w → refines r false w w'.
Proof. intros Hs Hf Ht. unfold refines. rewrite Ht. split; [done|]. split; [done|]. by left. Qed.

Lemma exchange_refines clears p w w1 e w' :
  store_ok (fs_tree w) → os_readlink ["previous"] w = (Ok p, w1) → exchange_links p w1 = (e, w') →
  refines (Exchange clears) (succeeded e) w w'.
Proof.
  intros Hs E H. assert (Hf : fewer_faults w w').
  { etrans; [by eapply sys_fewer|by eapply exchange_links_fewer]. }
  apply read_previous in E as (Ht1 & ip & -> & Hpp & Hp); [|done]. unfold exchange_links in H.
  run_bind H. destruct a as [c|err].
  2: { run_ret H. apply os_readlink_inv in E as [Ht _]. apply refines_nothing; [done|done|congruence]. }
  apply read_current in E as (Ht2 & ic & -> & Hpc & Hc); [|by rewrite Ht1]. rewrite Ht1 in Ht2, Hpc, Hc.
  assert (Hplan : [SetCurrent (Some ip); SetPrevious (Some ic)] ∈ plans (Exchange clears) (shelf_of (fs_tree w)))
    by (unfold plans; rewrite Hp, Hc; left).
  run_bind H. apply current_switched in E as (S1 & R1 & A1); [|by rewrite Ht2..]. rewrite Ht2 in R1, A1.
  destruct a as [err|]; [run_ret H; split; [done|]; split; [done|]; left; done|].
  run_bind H. apply previous_switched in E as (S2 & R2 & A2); [|done|by eapply published_same_revisions]. rewrite A1 in A2.
  destruct a as [err|].
  { run_ret H. split; [done|]. split; [done|]. rewrite A2. exact (step_prefix _ _ _ [_] [_] Hplan eq_refl). }
  apply syncDir_shelf in H. unfold refines. rewrite H. split; [done|]. split; [done|]. rewrite A2. exact (step_done _ _ _ _ Hplan).
Qed.

Lemma select_refines invalid id w e w' :
  store_ok (fs_tree w) → revision_name id → restore_revision invalid id w = (e, w') →
  refines (Select id) (succeeded e) w w'.
Proof.
  intros Hs Hname H. assert (Hf : fewer_faults w w') by by eapply restore_revision_fewer.
  unfold restore_revision in H. assert (Hpl := revision_name_plain _ Hname).
  rewrite (bool_decide_eq_false_2 (id = "")) in H by apply Hpl.
  case_match; [run_ret H; by apply refines_nothing|]. rewrite target_of_eq, rel_path_target in H by done.
  run_bind H. assert (Ht := os_stat_keeps _ _ _ _ E). destruct a; [run_ret H; by apply refines_nothing|].
  apply os_stat_inv in E as [n Hn].
  assert (Hpub : published (fs_tree w) id) by (eapply so_published; [done..|by apply revision_name_not_stage]).
  assert (Hplan : [SetCurrent (Some id)] ∈ plans (Select id) (shelf_of (fs_tree w))).
  { unfold plans. rewrite bool_decide_eq_true_2; [left|]. by apply ids_published. }
  run_bind H. apply current_switched in E as (S1 & R1 & A1); [|by rewrite Ht..]. rewrite Ht in A1.
  destruct a as [err|]; [run_ret H; split; [done|]; split; [done|]; left; done|].
  apply syncDir_shelf in H. unfold refines. rewrite H. split; [done|]. split; [done|]. rewrite A1. exact (step_done _ _ _ _ Hplan).
Qed.

Lemma link_removed name other w e w' : link_pair name other → honest w → store_ok (fs_tree w) →
  remove_if_present [name] w = (e, w') →
  store_ok (fs_tree w') ∧ same_revisions (fs_tree w) (fs_tree w') ∧ link_at (fs_tree w') other = link_at (fs_tree w) other
  ∧ match e with None => link_at (fs_tree w') name = None | Some _ => link_at (fs_tree w') name = link_at (fs_tree w) name end.
Proof.
  intros Hnm Hh Hs H. destruct (remove_if_present_store _ _ _ _ _ Hnm Hs H) as (S & R & O).
  split; [done|]. split; [done|]. split; [by apply link_at_same|]. destruct e as [e|].
  - unfold remove_if_present in H. run_bind H. run_ret H.
    apply os_remove_inv in E as [[_ Ht]|[-> _]]; [by rewrite Ht|done].
  - eapply remove_honest; [done|apply Hs|done].
Qed.
Lemma clear_refines invalid w e w' :
  honest w → store_ok (fs_tree w) → restore_revision invalid "" w = (e, w') → refines Clear (succeeded e) w w'.
Proof.
  intros Hh Hs H. assert (Hf : fewer_faults w w') by by eapply restore_revision_fewer.
  unfold restore_revision in H. rewrite bool_decide_eq_true_2 in H by done.
  assert (Hplan : [SetCurrent None; SetPrevious None] ∈ plans Clear (shelf_of (fs_tree w))) by left.
  run_bind H. assert (Hf1 : fewer_faults w w1) by by eapply remove_if_present_fewer.
  apply (link_removed _ "previous") in E as (S1 & R1 & O1 & C1); [|by left|done|done].
  destruct a as [err|].
  { run_ret H. split; [done|]. split; [done|]. left. split; [done|].
    apply shelf_eq; [by apply same_ids|by rewrite C1|by rewrite O1]. }
  assert (A1 : shelf_of (fs_tree w1) = make_change (shelf_of (fs_tree w)) (SetCurrent None))
    by (apply shelf_eq; [by apply same_ids|by rewrite C1|by rewrite O1]).
  run_bind H. apply (link_removed _ "current") in E as (S2 & R2 & O2 & C2); [|by right|by eapply honest_later|done].
  destruct a as [err|].
  { run_ret H. split; [done|]. split; [done|]. assert (Hstep := step_prefix _ _ _ [_] [_] Hplan eq_refl).
    change (make_changes [SetCurrent None] ?s) with (make_change s (SetCurrent None)) in Hstep. rewrite <- A1 in Hstep. replace (shelf_of (fs_tree w')) with (shelf_of (fs_tree w1)); [done|].
    symmetry. apply shelf_eq; [by apply same_ids|by rewrite O2|by rewrite C2]. }
  apply syncDir_shelf in H. unfold refines. rewrite H. split; [done|]. split; [done|].
  replace (shelf_of (fs_tree w0)) with (make_changes [SetCurrent None; SetPrevious None] (shelf_of (fs_tree w))); [by apply step_done|].
  symmetry. change (make_changes _ (shelf_of (fs_tree w))) with (make_change (make_change (shelf_of (fs_tree w)) (SetCurrent None)) (SetPrevious None)).
  rewrite <- A1. apply shelf_eq; [by apply same_ids|by rewrite O2|by rewrite C2].
Qed.
End Operations.

(** ** Publications *)

Section Put.
Context {L : Layout}.

(** What the staging of [id] may do: the other revisions stay as they are. *)
Definition staged_only (id : string) (t t' : node) : Prop :=
  staged t t' ∧ ∀ x, ¬ stage_name x → x ≠ id → tree_get ["revisions"; x] t' = tree_get ["revisions"; x] t.
Lemma staged_only_refl id t : store_ok t → staged_only id t t.
Proof. intros Hs. split; [by apply staged_refl|done]. Qed.
Lemma staged_only_trans id t1 t2 t3 : staged_only id t1 t2 → staged_only id t2 t3 → staged_only id t1 t3.
Proof. intros [S1 O1] [S2 O2]. split; [by eapply staged_trans|]. intros x Hx Hne. by rewrite O2, O1. Qed.
Lemma staged_only_below id stage t t' :
  stage_name stage → store_ok t → below ["revisions"; stage] t t' → staged_only id t t'.
Proof.
  intros Hst Hs Hb. split; [by eapply staged_below|]. intros x Hx _.
  destruct (stage_not_prefix stage x []); [by intros ->|]. by apply Hb.
Qed.

Lemma stage_with_only id Q fill w e w' :
  fills id Q fill → revision_name id → store_ok (fs_tree w) → stage_with id fill w = (e, w') →
  staged_only id (fs_tree w) (fs_tree w').
Proof.
  intros Hf Hid Hs H. split; [by eapply stage_with_spec|]. intros x Hx Hne. unfold stage_with in H. run_bind H.
  apply os_mkdir_temp_inv in E as [[Ha Ht]|(s & -> & _ & Hn & Ht)].
  { destruct a; [done|]. run_ret H. by rewrite Ht. }
  set (stage := ".stage-" +:+ s) in *. assert (Hst : stage_name stage) by (by destruct s).
  destruct (stage_not_prefix stage x []) as [P1 P2]; [by intros E; rewrite E in Hst|].
  assert (B : ∀ t t', below ["revisions"; stage] t t' → tree_get ["revisions"; x] t' = tree_get ["revisions"; x] t)
    by (intros t t' Hb; by apply Hb).
  rewrite <- (B (fs_tree w) (fs_tree w1)) by (rewrite Ht; apply below_put_eq).
  run_bind H. assert (Hfr : tree_get ["revisions"; x] (fs_tree w0) = tree_get ["revisions"; x] (fs_tree w1)).
  { run_bind E. assert (E1 := E0). apply (fills_below _ _ _ Hf) in E1.
    destruct a0 as [y|]; [run_ret E; by apply B|]. apply B in E1. rewrite <- E1.
    apply os_rename_inv in E as [[_ ->]|(_ & n & _ & _ & _ & E)]; [done|]. rewrite E.
    rewrite tree_get_put_ne by (intros [k Hk]; simplify_eq/=; done). rewrite tree_get_put_ne by done. done. }
  rewrite <- Hfr. destruct a as [y|].
  - run_bind H. run_ret H. apply os_remove_all_below in E0. by apply B.
  - apply syncDir_keeps in H. by rewrite H.
Qed.

Lemma staged_links id t t' : staged_only id t t' →
  link_at t' "current" = link_at t "current" ∧ link_at t' "previous" = link_at t "previous".
Proof. intros [(_ & Hr & _) _]. split; apply link_at_same, Hr; done. Qed.
Lemma staged_kept_ids id t t' x : staged_only id t t' → x ∈ sh_ids (shelf_of t) → x ∈ sh_ids (shelf_of t').
Proof. intros [(_ & _ & Hk) _]. rewrite !elem_ids. intros [Hx [n Hn]]. split; [done|]. exists n. by apply Hk. Qed.
(** The shelf gained the revision, or nothing. *)
Lemma staged_shelf id t t' : staged_only id t t' → id ∈ sh_ids (shelf_of t') → shelf_of t' = make_change (shelf_of t) (Add id).
Proof.
  intros Hst Hid. destruct (staged_links _ _ _ Hst) as [H1 H2]. apply shelf_eq; [|cbn; by rewrite H1|cbn; by rewrite H2].
  cbn [sh_ids make_change]. apply set_eq. intros x. rewrite elem_of_union, elem_of_singleton. split.
  - destruct (decide (x = id)) as [->|Hne]; [by left|]. intros Hx. right. destruct Hst as [_ Ho].
    rewrite !elem_ids in *. destruct Hx as [Hx Hn]. by rewrite Ho in Hn.
  - intros [->|Hx]; [done|by eapply staged_kept_ids].
Qed.
Lemma staged_same id t t' : staged_only id t t' → id ∉ sh_ids (shelf_of t') → shelf_of t' = shelf_of t.
Proof.
  intros Hst Hid. destruct (staged_links _ _ _ Hst) as [H1 H2]. apply shelf_eq; [|by rewrite H1|by rewrite H2].
  apply set_eq. intros x. split; [|by eapply staged_kept_ids]. intros Hx. destruct Hst as [_ Ho].
  destruct (decide (x = id)) as [->|Hne]; [done|]. rewrite !elem_ids in *. destruct Hx as [Hx Hn]. by rewrite Ho in Hn.
Qed.

Lemma put_failed id w w' : staged_only id (fs_tree w) (fs_tree w') → fewer_faults w w' → refines (Put id) false w w'.
Proof.
  intros Hst Hf. split; [apply Hst|]. split; [done|].
  destruct (decide (id ∈ sh_ids (shelf_of (fs_tree w')))) as [Hid|Hid].
  - rewrite (staged_shelf _ _ _ Hst Hid). right. exists [Add id; SetCurrent (Some id)], 1%nat.
    split; [right; left|]. done.
  - left. by rewrite (staged_same _ _ _ Hst Hid).
Qed.
Lemma put_refines id w w1 r w' : staged_only id (fs_tree w) (fs_tree w1) → published (fs_tree w1) id →
  switch_current id w1 = (r, w') → fewer_faults w w' → refines (Put id) (is_ok r) w w'.
Proof.
  intros Hst Hp H Hf. assert (Hs1 : store_ok (fs_tree w1)) by apply Hst.
  apply switch_current_refines in H as (Hs' & plan & k & Hplan & Hs & Hk); [|done|done].
  split; [done|]. split; [done|]. right. exists (Add id :: plan), (S k).
  rewrite (staged_shelf id (fs_tree w) (fs_tree w1)) in Hplan, Hs by (try done; by apply ids_published).
  split; [|split; [exact Hs|intros Hr%Hk; cbn; lia]]. cbn [plans]. destruct Hplan as [->| ->]; [left|right; left].
Qed.
End Put.

(** ** The two stores *)

(** A sequence of operations of a store, from one tree to the next. *)
Section Runs.
Context {L : Layout} {Op : Type} (run : Op → M fs bool) (allowed : Op → Prop) (spec : Op → request).
Inductive store_run : fs → list (request * bool) → fs → Prop :=
| store_none w : store_run w [] w
| store_next w o ok w1 l w2 :
    allowed o → run o w = (ok, w1) → store_run w1 l w2 → store_run w ((spec o, ok) :: l) w2.

Hypothesis Hone : ∀ o w ok w1, allowed o → honest w → store_ok (fs_tree w) → run o w = (ok, w1) → refines (spec o) ok w w1.
Lemma runs_refine w l w' : honest w → store_ok (fs_tree w) → store_run w l w' →
  store_ok (fs_tree w') ∧ shelf_run (shelf_of (fs_tree w)) l (shelf_of (fs_tree w')).
Proof.
  intros Hh Hs H. induction H as [w|w o ok w1 l w2 Ha Ho H IH]; [split; [done|constructor]|].
  destruct (Hone _ _ _ _ Ha Hh Hs Ho) as (Hs1 & Hf & Hst). destruct IH as [Hs2 Hr]; [by eapply honest_later|done|].
  split; [done|]. by econstructor.
Qed.
End Runs.

Section Publication.
Context {L : Layout}.

(** The first half of a publication: the revision is there, or it is staged. *)
Lemma ensured id Q fill w st w1 e w2 :
  fills id Q fill → (∀ p, preserves fewer_faults (fill p)) → revision_name id → store_ok (fs_tree w) →
  os_stat ["revisions"; id] w = (st, w1) →
  match st with
  | Some e => if errors_is e ErrNotExist then stage_with id fill else ret (Some e)
  | None => ret None
  end w1 = (e, w2) →
  staged_only id (fs_tree w) (fs_tree w2) ∧ fewer_faults w w2 ∧ (e = None → published (fs_tree w2) id).
Proof.
  intros Hf Hff Hid Hs E H. assert (Ht := os_stat_keeps _ _ _ _ E). assert (F1 : fewer_faults w w1) by by eapply sys_err_fewer.
  assert (Hkept : staged_only id (fs_tree w) (fs_tree w1)) by (rewrite Ht; by apply staged_only_refl).
  destruct st as [err|].
  - destruct (errors_is err ErrNotExist); [|by run_ret H]. rewrite <- Ht.
    assert (F2 : fewer_faults w1 w2) by by eapply stage_with_fewer.
    split; [eapply stage_with_only; [done..|by rewrite Ht|done]|]. split; [by etrans|].
    intros He. eapply stage_with_spec in H as [_ P]; [by apply P|done..|by rewrite Ht].
  - run_ret H. split; [done|]. split; [done|]. intros _. apply os_stat_inv in E as [n Hn]. rewrite Ht.
    eapply so_published; [done..|by apply revision_name_not_stage].
Qed.
(** [Restore] selects a revision, or clears the links. *)
Definition restore_request (id : string) : request := if bool_decide (id = "") then Clear else Select id.
Lemma restore_refines invalid id w e w' :
  id = "" ∨ revision_name id → honest w → store_ok (fs_tree w) → restore_revision invalid id w = (e, w') →
  refines (restore_request id) (succeeded e) w w'.
Proof.
  intros Hid Hh Hs H. unfold restore_request. case_bool_decide as He.
  - subst id. by eapply clear_refines.
  - destruct Hid as [?|Hid]; [done|]. by eapply select_refines.
Qed.
End Publication.

Section Stores.
Context {UT : UnicodeTables} {SHA : Sha256}.

(** [config.Materializer]. *)
Section Config.
Context {MO : MapOrder} (m : Materializer).
Inductive config_op := ConfigApply (files : Files) | ConfigRollback | ConfigRestore (id : string).
(** The callers restore no revision or one that a publication named. *)
Definition config_op_ok (o : config_op) : Prop :=
  match o with ConfigRestore id => id = "" ∨ revision_name id | _ => True end.
Definition run_config (o : config_op) : M fs bool :=
  match o with
  | ConfigApply files => let* r := Materializer_Apply m files in ret (is_ok r)
  | ConfigRollback => let* e := Materializer_Rollback in ret (succeeded e)
  | ConfigRestore id => let* e := Materializer_Restore id in ret (succeeded e)
  end.
Definition config_request (o : config_op) : request :=
  match o with
  | ConfigApply files => Put (revisionID files)
  | ConfigRollback => Exchange false
  | ConfigRestore id => restore_request id
  end.

Lemma write_files_fewer sp l : preserves fewer_faults (write_files sp l).
Proof. induction l as [|[n d] l IH]; cbn [write_files]; fewer_walk; first [apply writeSynced_fewer|done]. Qed.
Lemma fill_stage_fewer files sp : preserves fewer_faults (fill_stage m files sp).
Proof. unfold fill_stage. fewer_walk; first [apply write_files_fewer|apply syncDir_fewer]. Qed.

Lemma Apply_refines files w r w' :
  store_ok (fs_tree w) → Materializer_Apply m files w = (r, w') → refines (Put (revisionID files)) (is_ok r) w w'.
Proof.
  intros Hs H. unfold Materializer_Apply in H. case_bool_decide as Hne.
  { run_ret H. by apply refines_nothing. }
  run_bind H. run_bind H.
  destruct (ensured _ _ _ _ _ _ _ _ (fill_stage_fills m files Hne) (fill_stage_fewer files) (revisionID_name files) Hs E E0)
    as (S & F & P).
  destruct a0 as [e|]; [run_ret H; by apply put_failed|].
  eapply put_refines; [done|by apply P|done|]. etrans; [done|by eapply switch_current_fewer].
Qed.
Lemma Rollback_refines w e w' :
  store_ok (fs_tree w) → Materializer_Rollback w = (e, w') → refines (Exchange false) (succeeded e) w w'.
Proof.
  intros Hs H. unfold Materializer_Rollback in H. run_bind H. destruct a as [p|err].
  - by eapply exchange_refines.
  - run_ret H. apply refines_nothing; [done|by eapply sys_fewer|by apply os_readlink_inv in E as [? _]].
Qed.
Lemma config_op_refines o w ok w1 : config_op_ok o → honest w → store_ok (fs_tree w) →
  run_config o w = (ok, w1) → refines (config_request o) ok w w1.
Proof.
  intros Ho Hh Hs H. destruct o; cbn [run_config config_request] in *; run_bind H; run_ret H;
    [by apply Apply_refines|by apply Rollback_refines|by eapply restore_refines].
Qed.

(** C2. Whatever system calls fail, any sequence of [Apply], [Rollback] and
    [Restore] is a run of the abstract machine on the names of the revisions: each
    operation carries out its plan when it succeeds and the first changes of it
    when it fails; no revision is lost, and the current and the previous one are
    complete at every end. *)
Theorem config_store_refines w l w' :
  honest w → store_ok (fs_tree w) → store_run run_config config_op_ok config_request w l w' →
  store_ok (fs_tree w') ∧ shelf_ok (shelf_of (fs_tree w'))
  ∧ shelf_run (shelf_of (fs_tree w)) l (shelf_of (fs_tree w')) ∧ sh_ids (shelf_of (fs_tree w)) ⊆ sh_ids (shelf_of (fs_tree w')).
Proof.
  intros Hh Hs H. destruct (runs_refine _ _ _ config_op_refines _ _ _ Hh Hs H) as [Hs' Hr].
  split; [done|]. split; [by apply shelf_of_ok|]. split; [done|by eapply run_keeps_ids].
Qed.
End Config.

(** [certificate.TLSStore]. *)
Section Pairs.
Context {X : X509} (s : TLSStore).
#[local] Existing Instance tls_layout | 0.
Inductive pair_op := PairPublish (ctx : option gerror) (b : Bundle) | PairRollback (ctx : option gerror) | PairRestore (id : string).
Definition pair_op_ok (o : pair_op) : Prop :=
  match o with PairRestore id => id = "" ∨ revision_name id | _ => True end.
Definition run_pairs (o : pair_op) : M fs bool :=
  match o with
  | PairPublish ctx b => let* r := TLSStore_Publish s ctx b in ret (is_ok r)
  | PairRollback ctx => let* e := TLSStore_Rollback ctx in ret (succeeded e)
  | PairRestore id => let* e := TLSStore_Restore id in ret (succeeded e)
  end.
(** The key-pair store clears [current] when there is nothing to roll back to. *)
Definition pair_request (o : pair_op) : request :=
  match o with
  | PairPublish _ b => Put (tls_revision b)
  | PairRollback _ => Exchange true
  | PairRestore id => restore_request id
  end.

Lemma fill_pair_fewer b sp : preserves fewer_faults (fill_pair s b sp).
Proof.
  unfold fill_pair, writeTLSSynced, syncTLSDir. fewer_walk; first [apply writeSynced_fewer|apply syncDir_fewer].
Qed.
Lemma Publish_refines ctx b w r w' :
  store_ok (fs_tree w) → TLSStore_Publish s ctx b w = (r, w') → refines (Put (tls_revision b)) (is_ok r) w w'.
Proof.
  intros Hs H. unfold TLSStore_Publish in H. destruct ctx as [e|]; [run_ret H; by apply refines_nothing|].
  destruct (validateKeyPair b) as [c|e] eqn:Hv; [|run_ret H; by apply refines_nothing].
  assert (Hv' : is_ok (validateKeyPair b) = true) by by rewrite Hv.
  run_bind H. run_bind H.
  destruct (ensured _ _ _ _ _ _ _ _ (fill_pair_fills s b Hv') (fill_pair_fewer b) (digest_name _) Hs E E0) as (S & F & P).
  destruct a0 as [e|]; [run_ret H; by apply put_failed|].
  run_bind H. rewrite switch_tls_eq in E1. destruct (switch_current (tls_revision b) w0) as [sr w3] eqn:Hsw.
  injection E1 as <- <-. cbn [fst snd] in H.
  replace (is_ok r) with (is_ok sr) by (destruct sr; by run_ret H). replace w' with w3 by (destruct sr; by run_ret H).
  eapply put_refines; [done|by apply P|done|]. etrans; [done|by eapply switch_current_fewer].
Qed.
Lemma TLSRollback_refines ctx w e w' :
  honest w → store_ok (fs_tree w) → TLSStore_Rollback ctx w = (e, w') → refines (Exchange true) (succeeded e) w w'.
Proof.
  intros Hh Hs H. unfold TLSStore_Rollback in H. destruct ctx as [e0|]; [run_ret H; by apply refines_nothing|].
  run_bind H. assert (F1 : fewer_faults w w1) by by eapply sys_fewer. destruct a as [p|err]; [by eapply exchange_refines|].
  destruct (os_readlink_inv _ _ _ _ E) as [Ht _].
  destruct (errors_is err ErrNotExist) eqn:He; [|run_ret H; by apply refines_nothing].
  apply readlink_honest in E; [|done..].
  assert (Hplan : [SetCurrent None] ∈ plans (Exchange true) (shelf_of (fs_tree w)))
    by (unfold plans; cbn [sh_previous shelf_of]; rewrite E; left).
  run_bind H.
  assert (F2 : fewer_faults w1 w0) by by eapply remove_if_present_fewer.
  apply (link_removed _ "previous") in E0 as (S1 & R1 & O1 & C1); [|by left|by eapply honest_later|by rewrite Ht].
  rewrite Ht in R1, O1, C1. destruct a as [err'|].
  - run_ret H. split; [done|]. split; [by etrans|]. left. split; [done|].
    apply shelf_eq; [by apply same_ids|by rewrite C1|by rewrite O1].
  - assert (F3 : fewer_faults w0 w') by by eapply syncDir_fewer. apply syncDir_shelf in H. unfold refines. rewrite H.
    split; [done|]. split; [by do 2 (etrans; [done|])|].
    replace (shelf_of (fs_tree w0)) with (make_changes [SetCurrent None] (shelf_of (fs_tree w))); [by apply step_done|].
    symmetry. apply shelf_eq; [by apply same_ids|by rewrite C1|by rewrite O1].
Qed.
Lemma pair_op_refines o w ok w1 : pair_op_ok o → honest w → store_ok (fs_tree w) →
  run_pairs o w = (ok, w1) → refines (pair_request o) ok w w1.
Proof.
  intros Ho Hh Hs H. destruct o; cbn [run_pairs pair_request] in *; run_bind H; run_ret H;
    [by eapply Publish_refines|by eapply TLSRollback_refines|by eapply restore_refines].
Qed.

(** So does the store of key pairs, with a rollback that clears [current] when
    there is no previous pair. *)
Theorem tls_store_refines w l w' :
  honest w → store_ok (fs_tree w) → store_run run_pairs pair_op_ok pair_request w l w' →
  store_ok (fs_tree w') ∧ shelf_ok (shelf_of (fs_tree w'))
  ∧ shelf_run (shelf_of (fs_tree w)) l (shelf_of (fs_tree w')) ∧ sh_ids (shelf_of (fs_tree w)) ⊆ sh_ids (shelf_of (fs_tree w')).
Proof.
  intros Hh Hs H. destruct (runs_refine _ _ _ pair_op_refines _ _ _ Hh Hs H) as [Hs' Hr].
  split; [done|]. split; [by apply shelf_of_ok|]. split; [done|by eapply run_keeps_ids].
Qed.
End Pairs.
End Stores.
