(* ===== verification/Store.v ===== *)
(** [internal/persistence/sqlite.go]: the tables of the database and the
    statements of [Store].

    A row is a record; a time stamp column holds the [Time] whose RFC 3339 text
    the code writes and parses back, and the comparisons of such columns are
    those of the texts.  Every statement first takes one element of a fault
    stream: [Some e] makes it fail with [e] (a busy or cancelled database) and
    change nothing.  A statement that breaks a [UNIQUE], [CHECK] or foreign key
    constraint of the schema fails and changes nothing. *)
From S2P Require Import Prelude GoStrings GoTime Domain X509 CertState.

(** ** The tables *)

Record SettingsRow := mkSettingsRow {
  set_hostname : string;
  set_listen_address : string;
  set_active_revision : string;
  set_updated_at : Time
}.
Record AdminRow := mkAdminRow {
  adm_username : string;
  adm_password_hash : string;
  adm_created_at : Time;
  adm_updated_at : Time
}.
Record SessionRow := mkSessionRow {
  ses_admin_id : Z;
  ses_expires_at : Time;
  ses_created_at : Time
}.
Record AccountRow := mkAccountRow {
  acc_directory_url : string;
  acc_email : string;
  acc_registration_uri : string;
  acc_status : string;
  acc_last_error : string;
  acc_created_at : Time;
  acc_updated_at : Time
}.
(** The metadata of the certificate with its names joined by new lines. *)
Record TLSRow := mkTLSRow { tls_meta : Metadata; tls_sans : string }.

(** Tables with [CHECK (id = 1)] hold at most one row; [vpn_users] and
    [apply_events] are keyed by their [AUTOINCREMENT] ids, whose last value
    [sqlite_sequence] keeps, [rules] by its unique name. *)
Record tables := mkTables {
  t_settings : option SettingsRow;
  t_users : gmap Z VPNUser;
  t_users_seq : Z;
  t_rules : gmap string Rule;
  t_events : list ApplyEvent;      (** newest first *)
  t_events_seq : Z;
  t_admin : option AdminRow;
  t_sessions : gmap string SessionRow;
  t_account : option AccountRow;
  t_tls : option TLSRow;
  t_profile : option string
}.

Record store := mkStore {
  db_tables : tables;
  db_faults : list (option gerror);
  db_clock : Z
}.

(** [type Admin] of [internal/auth/session.go]. *)
Record Admin := mkAdmin {
  Admin_ID : Z;
  Admin_Username : string;
  Admin_PasswordHash : string
}.
#[export] Instance Admin_eq_dec : EqDecision Admin.
Proof. solve_decision. Defined.

(** ** Statements *)

(** One statement: [run] on the tables when it is not made to fail. *)
Definition stmt {A} (run : tables → result A * tables) : M store (result A) := λ w,
  match db_faults w with
  | Some e :: q => (Err e, mkStore (db_tables w) q (db_clock w))
  | q => let '(r, t) := run (db_tables w) in (r, mkStore t (tail q) (db_clock w))
  end.
(** [ExecContext], the result dropped. *)
Definition exec (run : tables → option gerror * tables) : M store (option gerror) :=
  let* r := stmt (λ t, let '(e, t') := run t in
                       (match e with Some e => Err e | None => Ok tt end, t')) in
  ret (match r with Err e => Some e | Ok _ => None end).
(** [QueryRowContext(...).Scan] and [QueryContext]. *)
Definition query {A} (f : tables → result A) : M store (result A) := stmt (λ t, (f t, t)).

(** [time.Now().UTC()] *)
Definition db_now : M store Time := λ w, (db_clock w, mkStore (db_tables w) (db_faults w) (db_clock w + 1)).

Definition constraint_failed : gerror := SysErr "constraint failed".
Definition of_row {A} (o : option A) : result A :=
  match o with Some a => Ok a | None => Err ErrNoRows end.

(** [BeginTx], statements, [Commit]; [tx.Rollback] is deferred. *)
Definition transaction (body : M store (option gerror)) : M store (option gerror) :=
  err? exec (λ t, (None, t)) in
  let* before := gets db_tables in
  let* r := (err? body in exec (λ t, (None, t))) in
  match r with
  | Some e => let* _ := modify (λ w, mkStore before (db_faults w) (db_clock w)) in ret (Some e)
  | None => ret None
  end.

(** ** Table updates *)

Definition put_settings (f : SettingsRow → SettingsRow) (t : tables) : tables :=
  mkTables (f <$> t_settings t) (t_users t) (t_users_seq t) (t_rules t) (t_events t) (t_events_seq t)
    (t_admin t) (t_sessions t) (t_account t) (t_tls t) (t_profile t).
Definition put_users (us : gmap Z VPNUser) (seq : Z) (t : tables) : tables :=
  mkTables (t_settings t) us seq (t_rules t) (t_events t) (t_events_seq t)
    (t_admin t) (t_sessions t) (t_account t) (t_tls t) (t_profile t).
Definition put_rules (rs : gmap string Rule) (t : tables) : tables :=
  mkTables (t_settings t) (t_users t) (t_users_seq t) rs (t_events t) (t_events_seq t)
    (t_admin t) (t_sessions t) (t_account t) (t_tls t) (t_profile t).
Definition put_events (es : list ApplyEvent) (seq : Z) (t : tables) : tables :=
  mkTables (t_settings t) (t_users t) (t_users_seq t) (t_rules t) es seq
    (t_admin t) (t_sessions t) (t_account t) (t_tls t) (t_profile t).
Definition put_admin (a : option AdminRow) (ss : gmap string SessionRow) (t : tables) : tables :=
  mkTables (t_settings t) (t_users t) (t_users_seq t) (t_rules t) (t_events t) (t_events_seq t)
    a ss (t_account t) (t_tls t) (t_profile t).
Definition put_account (a : AccountRow) (t : tables) : tables :=
  mkTables (t_settings t) (t_users t) (t_users_seq t) (t_rules t) (t_events t) (t_events_seq t)
    (t_admin t) (t_sessions t) (Some a) (t_tls t) (t_profile t).
Definition put_tls (r : TLSRow) (t : tables) : tables :=
  mkTables (t_settings t) (t_users t) (t_users_seq t) (t_rules t) (t_events t) (t_events_seq t)
    (t_admin t) (t_sessions t) (t_account t) (Some r) (t_profile t).
Definition put_profile (p : string) (t : tables) : tables :=
  mkTables (t_settings t) (t_users t) (t_users_seq t) (t_rules t) (t_events t) (t_events_seq t)
    (t_admin t) (t_sessions t) (t_account t) (t_tls t) (Some p).

(** ** Settings *)

(** [Store.bootstrap] *)
Definition Store_bootstrap : M store (option gerror) :=
  let* now := db_now in
  exec (λ t, (None, match t_settings t with
                    | Some _ => t
                    | None => mkTables (Some (mkSettingsRow "" "0.0.0.0:8443" "" now)) (t_users t)
                        (t_users_seq t) (t_rules t) (t_events t) (t_events_seq t) (t_admin t)
                        (t_sessions t) (t_account t) (t_tls t) (t_profile t)
                    end)).

Definition Store_ActiveRevision : M store (result string) :=
  query (λ t, of_row (set_active_revision <$> t_settings t)).
Definition Store_SetActiveRevision (revision : string) : M store (option gerror) :=
  let* now := db_now in
  exec (λ t, (None, put_settings (λ s, mkSettingsRow (set_hostname s) (set_listen_address s) revision now) t)).
Definition Store_SetHostname (hostname : string) : M store (option gerror) :=
  let* now := db_now in
  exec (λ t, (None, put_settings (λ s, mkSettingsRow hostname (set_listen_address s) (set_active_revision s) now) t)).
Definition Store_SetListenAddress (address : string) : M store (option gerror) :=
  let* now := db_now in
  exec (λ t, (None, put_settings (λ s, mkSettingsRow (set_hostname s) address (set_active_revision s) now) t)).

(** ** Users and rules *)

Definition status_ok (s : UserStatus) : bool :=
  bool_decide (s = UserActive) || bool_decide (s = UserDisabled) || bool_decide (s = UserRevoked).
Definition users_by_name (t : tables) : list VPNUser :=
  sort_by User_Username (snd <$> map_to_list (t_users t)).
Definition rules_by_name (t : tables) : list Rule :=
  sort_by Rule_Name (snd <$> map_to_list (t_rules t)).
(** Another user than [id] has the name: the [UNIQUE] constraint. *)
Definition name_taken (t : tables) (id : Z) (name : string) : bool :=
  existsb (λ kv, negb (kv.1 =? id) && bool_decide (User_Username kv.2 = name)) (map_to_list (t_users t)).

(** The three queries of [Snapshot]; what was read before an error is returned
    with it. *)
Definition Store_Snapshot : M store (Snapshot * option gerror) :=
  let* r := query (λ t, match t_settings t with
    | Some s => Ok (set_active_revision s, set_hostname s, set_listen_address s,
                    match t_tls t with Some r => M_CertificatePath (tls_meta r) | None => "" end,
                    match t_tls t with Some r => M_PrivateKeyPath (tls_meta r) | None => "" end)
    | None => Err ErrNoRows
    end) in
  match r with
  | Err e => ret (mkSnapshot "" "" "" [] [] "" "", Some e)
  | Ok (revision, hostname, address, cert, key) =>
    let* us := query (λ t, Ok (users_by_name t)) in
    match us with
    | Err e => ret (mkSnapshot revision hostname address [] [] cert key, Some e)
    | Ok users =>
      let* rs := query (λ t, Ok (rules_by_name t)) in
      match rs with
      | Err e => ret (mkSnapshot revision hostname address users [] cert key, Some e)
      | Ok rules => ret (mkSnapshot revision hostname address users rules cert key, None)
      end
    end
  end.

Definition Store_ListUsers : M store (list VPNUser * option gerror) :=
  let* r := Store_Snapshot in ret (Snap_Users r.1, r.2).

Definition Store_UserByID (id : Z) : M store (result VPNUser) :=
  query (λ t, of_row (t_users t !! id)).

Section WithQuote.
Context {UT : UnicodeTables}.
Definition Store_UpsertUser (u : VPNUser) : M store (option gerror) :=
  if negb (status_ok (User_Status u)) then ret (Some (Errorf ("invalid user status " +:+ quote (User_Status u))))
  else
    let* now := db_now in
    exec (λ t,
      match List.find (λ kv, bool_decide (User_Username kv.2 = User_Username u)) (map_to_list (t_users t)) with
      | Some (id, old) =>
        (None, put_users (<[id := mkVPNUser id (User_Username old) (User_Credential u) (User_Status u)
                                    (User_CreatedAt old) now]> (t_users t)) (t_users_seq t) t)
      | None =>
        let id := t_users_seq t + 1 in
        (None, put_users (<[id := mkVPNUser id (User_Username u) (User_Credential u) (User_Status u) now now]>
                            (t_users t)) id t)
      end).
End WithQuote.

Definition Store_InsertUser (u : VPNUser) : M store (result Z) :=
  if negb (bool_decide (User_Status u = UserActive)) then ret (Err (Errorf "new user must be active"))
  else
    let* now := db_now in
    stmt (λ t,
      let id := t_users_seq t + 1 in
      if name_taken t id (User_Username u) then (Err constraint_failed, t)
      else (Ok id, put_users (<[id := mkVPNUser id (User_Username u) (User_Credential u) (User_Status u) now now]>
                                (t_users t)) id t)).

Definition Store_UpdateUser (u : VPNUser) : M store (option gerror) :=
  if negb (status_ok (User_Status u)) then ret (Some (Errorf "invalid user status"))
  else
    let* now := db_now in
    exec (λ t,
      match t_users t !! User_ID u with
      | None => (Some ErrNoRows, t)
      | Some old =>
        if name_taken t (User_ID u) (User_Username u) then (Some constraint_failed, t)
        else (None, put_users (<[User_ID u := mkVPNUser (User_ID u) (User_Username u) (User_Credential u)
                                                (User_Status u) (User_CreatedAt old) now]> (t_users t))
                      (t_users_seq t) t)
      end).

Definition Store_DeleteUser (id : Z) : M store (option gerror) :=
  exec (λ t, (None, put_users (delete id (t_users t)) (t_users_seq t) t)).

Definition Store_UpsertRule (r : Rule) : M store (option gerror) :=
  let* _ := db_now in
  exec (λ t, if bool_decide (Rule_Action r = "allow") || bool_decide (Rule_Action r = "deny")
             then (None, put_rules (<[Rule_Name r := r]> (t_rules t)) t)
             else (Some constraint_failed, t)).

(** ** Events *)

Definition event_ok (e : ApplyEvent) : bool :=
  bool_decide (Event_Action e ∈ ["restart"; "sighup"; "none"])
  && bool_decide (Event_Result e ∈ ["pending"; "success"; "failure"; "rollback"]).

Definition Store_RecordEvent (e : ApplyEvent) : M store (option gerror) :=
  let error := if 2048 <? len (Event_Error e) then take_bytes 2048 (Event_Error e) else Event_Error e in
  let* now := db_now in
  exec (λ t,
    if event_ok e then
      let id := t_events_seq t + 1 in
      (None, put_events (mkApplyEvent id (Event_Revision e) (Event_Kind e) (Event_Action e)
                           (Event_Result e) error now :: t_events t) id t)
    else (Some constraint_failed, t)).

Definition Store_ListApplyEvents (before limit : Z) : M store (result (list ApplyEvent)) :=
  if (limit <? 1) || (100 <? limit) then ret (Err (Errorf "event limit must be between 1 and 100"))
  else query (λ t, Ok (take (Z.to_nat limit)
    (if 0 <? before then List.filter (λ e, Event_ID e <? before) (t_events t) else t_events t))).

(** ** The administrator and the sessions *)

Definition Store_HasAdmin : M store (result bool) :=
  query (λ t, Ok (bool_decide (is_Some (t_admin t)))).

Definition Store_CreateFirstAdmin (username passwordHash : string) : M store (option gerror) :=
  transaction (
    let* n := query (λ t, Ok (bool_decide (is_Some (t_admin t)))) in
    match n with
    | Err e => ret (Some e)
    | Ok true => ret (Some ErrAlreadyBootstrapped)
    | Ok false =>
      let* now := db_now in
      exec (λ t, match t_admin t with
                 | Some _ => (Some constraint_failed, t)
                 | None => (None, put_admin (Some (mkAdminRow username passwordHash now now)) (t_sessions t) t)
                 end)
    end).

Definition admin_of (a : AdminRow) : Admin := mkAdmin 1 (adm_username a) (adm_password_hash a).

Definition Store_AdminByUsername (username : string) : M store (result Admin) :=
  query (λ t, match t_admin t with
              | Some a => if bool_decide (adm_username a = username) then Ok (admin_of a) else Err ErrNoRows
              | None => Err ErrNoRows
              end).
Definition admin_by_id (t : tables) (id : Z) : option Admin :=
  if id =? 1 then admin_of <$> t_admin t else None.
Definition Store_AdminByID (id : Z) : M store (result Admin) :=
  query (λ t, of_row (admin_by_id t id)).

Definition Store_CreateSession (hash : string) (adminID : Z) (expires : Time) : M store (option gerror) :=
  let* now := db_now in
  exec (λ t,
    if bool_decide (is_Some (t_sessions t !! hash)) || bool_decide (admin_by_id t adminID = None)
    then (Some constraint_failed, t)
    else (None, put_admin (t_admin t) (<[hash := mkSessionRow adminID expires now]> (t_sessions t)) t)).

(** The deletion of the expired sessions, its error dropped, then the join. *)
Definition session_expired (now : Time) (s : SessionRow) : bool :=
  text_le (format_time (ses_expires_at s)) (format_time now).
Definition Store_SessionAdmin (hash : string) (now : Time) : M store (result Admin) :=
  let* _ := exec (λ t, (None, put_admin (t_admin t)
                         (filter (λ kv, session_expired now kv.2 = false) (t_sessions t)) t)) in
  query (λ t, of_row (match t_sessions t !! hash with
                      | Some s => if session_expired now s then None else admin_by_id t (ses_admin_id s)
                      | None => None
                      end)).

Definition Store_DeleteSession (hash : string) : M store (option gerror) :=
  exec (λ t, (None, put_admin (t_admin t) (delete hash (t_sessions t)) t)).

Definition sessions_of_others (adminID : Z) (ss : gmap string SessionRow) : gmap string SessionRow :=
  filter (λ kv, ses_admin_id kv.2 ≠ adminID) ss.

Definition Store_UpdateAdminPassword (adminID : Z) (passwordHash : string) : M store (option gerror) :=
  transaction (
    let* now := db_now in
    err? exec (λ t, (None, if adminID =? 1
                           then put_admin ((λ a, mkAdminRow (adm_username a) passwordHash (adm_created_at a) now)
                                             <$> t_admin t) (t_sessions t) t
                           else t)) in
    exec (λ t, (None, put_admin (t_admin t) (sessions_of_others adminID (t_sessions t)) t))).

(** [ON DELETE CASCADE] removes the sessions. *)
Definition Store_DeleteAdmin (adminID : Z) : M store (option gerror) :=
  exec (λ t, (None, if adminID =? 1 then put_admin None (sessions_of_others 1 (t_sessions t)) t else t)).

(** ** Certificates *)

Definition Store_SaveACMEAccount (directoryURL email registrationURI status lastError : string) :
    M store (option gerror) :=
  let* now := db_now in
  exec (λ t, (None, put_account
    (mkAccountRow directoryURL email registrationURI status lastError
       (match t_account t with Some a => acc_created_at a | None => now end) now) t)).

(** [updated_at] is the time of the statement, not the field of [m]. *)
Definition Store_SaveTLSMetadata (m : Metadata) : M store (option gerror) :=
  let* now := db_now in
  exec (λ t,
    if meta_ok m
    then (None, put_tls (mkTLSRow (meta_set_updated now (meta_set_source_sans (EffectiveSource m) [] m))
                           (join_sans (M_SANs m))) t)
    else (Some constraint_failed, t)).

Definition Store_LoadTLSMetadata : M store (result Metadata) :=
  query (λ t, match t_tls t with
              | Some r => Ok (meta_set_source_sans (M_Source (tls_meta r)) (split_sans (tls_sans r)) (tls_meta r))
              | None => Err ErrNoRows
              end).
