(* ===== verification/StoreSpec.v ===== *)
(** What the statements of the store guarantee: the invariant of the tables, the
    round trip of the metadata, and the life of the administrator and of the
    sessions. *)
From S2P Require Import Prelude GoStrings Quote GoPath GoTime Domain X509 CertState Config Store.

(** ** Outcomes of a statement *)

Lemma stmt_inv {A} (run : tables → result A * tables) w r w' :
  stmt run w = (r, w') →
  (is_ok r = false ∧ db_tables w' = db_tables w ∧ db_faults w ≠ []) ∨ run (db_tables w) = (r, db_tables w').
Proof.
  unfold stmt. destruct (db_faults w) as [|[e|] q];
    try (destruct (run (db_tables w)) as [r0 t0] eqn:E); intros [= <- <-]; simpl; auto.
Qed.
Lemma exec_inv run w e w' :
  exec run w = (e, w') →
  (e ≠ None ∧ db_tables w' = db_tables w ∧ db_faults w ≠ []) ∨ run (db_tables w) = (e, db_tables w').
Proof.
  unfold exec. intros H. run_bind H. run_ret H.
  apply stmt_inv in E as [(Hf & Ht & Hq)|E]; [left; by destruct a|].
  destruct (run (db_tables w)) as [e0 t0]. destruct e0; simplify_eq; auto.
Qed.
Lemma query_inv {A} (f : tables → result A) w r w' :
  query f w = (r, w') →
  db_tables w' = db_tables w ∧ ((is_ok r = false ∧ db_faults w ≠ []) ∨ r = f (db_tables w)).
Proof. unfold query. intros [(? & ? & ?)|[= <- <-]]%stmt_inv; auto. Qed.
Lemma stmt_calm {A} (run : tables → result A * tables) w r w' :
  stmt run w = (r, w') → db_faults w = [] → db_faults w' = [].
Proof.
  unfold stmt. intros H Hq. rewrite Hq in H. destruct (run (db_tables w)). by injection H as <- <-.
Qed.
Lemma exec_calm run w e w' : exec run w = (e, w') → db_faults w = [] → db_faults w' = [].
Proof. unfold exec. intros H. run_bind H. run_ret H. by eapply stmt_calm. Qed.
Lemma db_now_inv w t w' :
  db_now w = (t, w') → db_tables w' = db_tables w ∧ db_faults w' = db_faults w.
Proof. by intros [= <- <-]. Qed.

(** ** Relations on the tables

    A statement relates the tables before and after as its body does; a statement
    that fails leaves them. *)
Section Over.
Variable R : tables → tables → Prop.
Context `{!PreOrder R}.
Definition over (w w' : store) : Prop := R (db_tables w) (db_tables w').
#[export] Instance over_preorder : PreOrder over.
Proof. unfold over. split; [by intros w|]. intros a b c ? ?. by etrans. Qed.

Lemma stmt_over {A} (run : tables → result A * tables) : (∀ t, R t (run t).2) → preserves over (stmt run).
Proof.
  intros Hr w e w' H. apply stmt_inv in H as [(_ & Ht & _)|H]; unfold over; [by rewrite Ht|].
  specialize (Hr (db_tables w)). by rewrite H in Hr.
Qed.
Lemma exec_over run : (∀ t, R t (run t).2) → preserves over (exec run).
Proof.
  intros Hr w e w' H. apply exec_inv in H as [(_ & Ht & _)|H]; unfold over; [by rewrite Ht|].
  specialize (Hr (db_tables w)). by rewrite H in Hr.
Qed.
Lemma query_over {A} (f : tables → result A) : preserves over (query f).
Proof. apply stmt_over. by intros t. Qed.
Lemma db_now_over : preserves over db_now.
Proof. intros w t w' [= <- <-]. by unfold over. Qed.
Lemma transaction_over body : preserves over body → preserves over (transaction body).
Proof.
  intros Hb w r w' H. unfold transaction in H. run_bind H.
  assert (H1 : over w w1) by (eapply exec_over; [|exact E]; done).
  destruct a; [by run_ret H|]. run_bind H. injection E0 as <- <-.
  run_bind H. assert (H2 : over w w0).
  { etrans; [exact H1|]. eapply (preserves_try_err over); [exact Hb| |exact E0]. by apply exec_over. }
  destruct a as [e|]; [|by run_ret H]. run_bind H. injection E1 as <- <-. by run_ret H.
Qed.
End Over.

(** ** The invariant of the tables *)

Record tables_ok (t : tables) : Prop := {
  ok_users : ∀ id u, t_users t !! id = Some u →
    User_ID u = id ∧ valid_status (User_Status u) = true ∧ id <= t_users_seq t;
  ok_names : ∀ i j u v, t_users t !! i = Some u → t_users t !! j = Some v →
    User_Username u = User_Username v → i = j;
  ok_rules : ∀ n r, t_rules t !! n = Some r → Rule_Name r = n ∧ (Rule_Action r = "allow" ∨ Rule_Action r = "deny");
  ok_events : StronglySorted (λ e e', Event_ID e > Event_ID e') (t_events t)
    ∧ ∀ e, e ∈ t_events t → Event_ID e <= t_events_seq t ∧ event_ok e = true ∧ len (Event_Error e) <= 2048;
  ok_sessions : ∀ h s, t_sessions t !! h = Some s → ses_admin_id s = 1 ∧ is_Some (t_admin t);
  ok_tls : ∀ r, t_tls t = Some r → meta_ok (tls_meta r) = true ∧ M_Source (tls_meta r) = EffectiveSource (tls_meta r)
}.

(** Operations as data, and one run of any of them. *)
Inductive store_op : Type :=
| SBootstrap
| SSetActiveRevision (r : string) | SSetHostname (h : string) | SSetListenAddress (a : string)
| SUpsertUser (u : VPNUser) | SInsertUser (u : VPNUser) | SUpdateUser (u : VPNUser) | SDeleteUser (id : Z)
| SUpsertRule (r : Rule) | SRecordEvent (e : ApplyEvent)
| SCreateFirstAdmin (u h : string) | SCreateSession (h : string) (a : Z) (x : Time)
| SSessionAdmin (h : string) (now : Time) | SDeleteSession (h : string)
| SUpdateAdminPassword (a : Z) (h : string) | SDeleteAdmin (a : Z)
| SSaveACMEAccount (a b c d e : string) | SSaveTLSMetadata (m : Metadata).

Section Invariant.
Context {UT : UnicodeTables}.

Definition void {A} (m : M store A) : M store unit := let* _ := m in ret tt.
Definition run_store_op (op : store_op) : M store unit :=
  match op with
  | SBootstrap => void Store_bootstrap
  | SSetActiveRevision r => void (Store_SetActiveRevision r)
  | SSetHostname h => void (Store_SetHostname h)
  | SSetListenAddress a => void (Store_SetListenAddress a)
  | SUpsertUser u => void (Store_UpsertUser u)
  | SInsertUser u => void (Store_InsertUser u)
  | SUpdateUser u => void (Store_UpdateUser u)
  | SDeleteUser id => void (Store_DeleteUser id)
  | SUpsertRule r => void (Store_UpsertRule r)
  | SRecordEvent e => void (Store_RecordEvent e)
  | SCreateFirstAdmin u h => void (Store_CreateFirstAdmin u h)
  | SCreateSession h a x => void (Store_CreateSession h a x)
  | SSessionAdmin h now => void (Store_SessionAdmin h now)
  | SDeleteSession h => void (Store_DeleteSession h)
  | SUpdateAdminPassword a h => void (Store_UpdateAdminPassword a h)
  | SDeleteAdmin a => void (Store_DeleteAdmin a)
  | SSaveACMEAccount a b c d e => void (Store_SaveACMEAccount a b c d e)
  | SSaveTLSMetadata m => void (Store_SaveTLSMetadata m)
  end.

(** The relation of a statement that keeps the invariant. *)
Definition inv_kept : store → store → Prop := over (λ t t', tables_ok t → tables_ok t').
#[local] Instance ok_kept_preorder : PreOrder (λ t t', tables_ok t → tables_ok t').
Proof. split; [intros w H; exact H|]. intros a b c H1 H2 H. apply H2, H1, H. Qed.
#[export] Instance inv_kept_preorder : PreOrder inv_kept := over_preorder _.

Lemma exec_keeps run : (∀ t, tables_ok t → tables_ok (run t).2) → preserves inv_kept (exec run).
Proof. exact (exec_over _ run). Qed.
Lemma stmt_keeps {A} (run : tables → result A * tables) :
  (∀ t, tables_ok t → tables_ok (run t).2) → preserves inv_kept (stmt run).
Proof. exact (stmt_over _ run). Qed.
Lemma query_keeps {A} (f : tables → result A) : preserves inv_kept (query f).
Proof. exact (query_over _ f). Qed.
Lemma db_now_keeps : preserves inv_kept db_now.
Proof. exact (db_now_over _). Qed.
Lemma transaction_keeps body : preserves inv_kept body → preserves inv_kept (transaction body).
Proof. exact (transaction_over _ body). Qed.
(** ** The table updates *)

Lemma put_users_ok us seq t :
  tables_ok t → t_users_seq t <= seq →
  (∀ id u, us !! id = Some u → User_ID u = id ∧ valid_status (User_Status u) = true ∧ id <= seq) →
  (∀ i j u v, us !! i = Some u → us !! j = Some v → User_Username u = User_Username v → i = j) →
  tables_ok (put_users us seq t).
Proof. intros [] Hseq Hu Hn. split; done. Qed.

(** Writing one row whose name no other row has. *)
Lemma name_taken_false t id name :
  name_taken t id name = false → ∀ i u, t_users t !! i = Some u → User_Username u = name → i = id.
Proof.
  intros H i u Hi Hn. unfold name_taken in H.
  destruct (decide (i = id)) as [|Hne]; [done|]. exfalso.
  assert (existsb (λ kv, negb (kv.1 =? id) && bool_decide (User_Username kv.2 = name)) (map_to_list (t_users t)) = true).
  { apply existsb_exists. exists (i, u). split; [by apply list_elem_of_In, elem_of_map_to_list|].
    simpl. apply andb_true_iff. split; [lia|by apply bool_decide_eq_true]. }
  congruence.
Qed.
Lemma put_user_ok id u seq t :
  tables_ok t → t_users_seq t <= seq → id <= seq → User_ID u = id → valid_status (User_Status u) = true →
  (∀ i x, t_users t !! i = Some x → User_Username x = User_Username u → i = id) →
  tables_ok (put_users (<[id := u]> (t_users t)) seq t).
Proof.
  intros Ht Hs Hid Hu Hst Hn. apply put_users_ok; [done|done|..].
  - intros i x Hi. apply lookup_insert_Some in Hi as [[<- <-]|[_ Hi]]; [done|].
    destruct (ok_users _ Ht _ _ Hi) as (? & ? & ?). split_and!; [done|done|lia].
  - intros i j x y Hi Hj E.
    apply lookup_insert_Some in Hi as [[<- <-]|[Hni Hi]]; apply lookup_insert_Some in Hj as [[<- <-]|[Hnj Hj]];
      [done|symmetry; by eapply Hn|by eapply Hn|by eapply ok_names].
Qed.

Lemma put_settings_ok f t : tables_ok t → tables_ok (put_settings f t).
Proof. intros []. by split. Qed.
Lemma put_account_ok a t : tables_ok t → tables_ok (put_account a t).
Proof. intros []. by split. Qed.
Lemma put_admin_ok a ss t :
  tables_ok t → (∀ h s, ss !! h = Some s → ses_admin_id s = 1 ∧ is_Some a) → tables_ok (put_admin a ss t).
Proof. intros [] Hs. by split. Qed.
(** Fewer sessions, and the administrator still there. *)
Lemma put_admin_fewer a (P : string * SessionRow → Prop) `{∀ x, Decision (P x)} t :
  tables_ok t → (is_Some (t_admin t) → is_Some a) → tables_ok (put_admin a (filter P (t_sessions t)) t).
Proof.
  intros Ht Ha. apply put_admin_ok; [done|]. intros h s Hs.
  apply map_lookup_filter_Some in Hs as [Hs _]. destruct (ok_sessions _ Ht _ _ Hs). auto.
Qed.
#[local] Hint Resolve put_settings_ok put_account_ok : core.

Lemma record_event_ok e id now error t :
  tables_ok t → event_ok e = true → len error <= 2048 → id = t_events_seq t + 1 →
  tables_ok (put_events (mkApplyEvent id (Event_Revision e) (Event_Kind e) (Event_Action e) (Event_Result e)
                           error now :: t_events t) id t).
Proof.
  intros Ht He Hl ->. destruct (ok_events _ Ht) as [Hsort Hev]. destruct Ht. split; try done. split.
  - constructor; [done|]. apply Forall_forall. intros e' Hin. destruct (Hev _ Hin). simpl. lia.
  - intros e' [->|Hin]%elem_of_cons; [split_and!; [simpl; lia|done|done]|].
    destruct (Hev _ Hin) as (? & ? & ?). split_and!; [simpl; lia|done|done].
Qed.

Lemma status_ok_valid st : status_ok st = valid_status st.
Proof. done. Qed.

Lemma SaveTLS_ok m now t :
  tables_ok t → meta_ok m = true →
  tables_ok (put_tls (mkTLSRow (meta_set_updated now (meta_set_source_sans (EffectiveSource m) [] m))
                        (join_sans (M_SANs m))) t).
Proof.
  intros [] Hm. split; try done. intros r [= <-].
  assert (Hs : EffectiveSource (meta_set_updated now (meta_set_source_sans (EffectiveSource m) [] m)) = EffectiveSource m).
  { unfold EffectiveSource at 1. simpl. destruct (negb (bool_decide (EffectiveSource m = ""))) eqn:E; [done|].
    apply negb_false_iff, bool_decide_eq_true in E. unfold meta_ok in Hm. rewrite E in Hm.
    rewrite andb_comm in Hm. done. }
  unfold tls_meta. split; [|by rewrite Hs]. unfold meta_ok in *. by rewrite Hs.
Qed.

Lemma new_user_ok u t (now : Time) :
  tables_ok t → valid_status (User_Status u) = true →
  (∀ i x, t_users t !! i = Some x → User_Username x ≠ User_Username u) →
  tables_ok (put_users (<[t_users_seq t + 1 := mkVPNUser (t_users_seq t + 1) (User_Username u) (User_Credential u)
    (User_Status u) now now]> (t_users t)) (t_users_seq t + 1) t).
Proof.
  intros Ht Hst Hn. apply put_user_ok; simpl; try done; try lia.
  intros i x Hi E. by destruct (Hn i x Hi).
Qed.

Lemma UpsertUser_keeps u : preserves inv_kept (Store_UpsertUser u).
Proof.
  unfold Store_UpsertUser. walk; [by apply db_now_keeps|]. apply exec_keeps. intros t Ht.
  rewrite status_ok_valid in H. apply negb_false_iff in H.
  destruct (List.find _ _) as [[id old]|] eqn:Ef.
  - apply List.find_some in Ef as [Hin He]. simpl in He. apply bool_decide_eq_true in He.
    apply list_elem_of_In, elem_of_map_to_list in Hin. destruct (ok_users _ Ht _ _ Hin) as (_ & _ & Hseq).
    apply put_user_ok; simpl; try done; try lia. intros i x Hi E. eapply ok_names; [done..|]. congruence.
  - apply new_user_ok; [done..|]. intros i x Hi E.
    assert (Hx : bool_decide (User_Username x = User_Username u) = false).
    { apply (List.find_none _ _ Ef (i, x)). by apply list_elem_of_In, elem_of_map_to_list. }
    by apply bool_decide_eq_false in Hx.
Qed.
Lemma InsertUser_keeps u : preserves inv_kept (Store_InsertUser u).
Proof.
  unfold Store_InsertUser. walk; [by apply db_now_keeps|]. apply stmt_keeps. intros t Ht.
  apply negb_false_iff, bool_decide_eq_true in H.
  destruct (name_taken _ _ _) eqn:En; [done|]. apply new_user_ok; [done|by rewrite H|].
  intros i x Hi E. assert (i = t_users_seq t + 1) by by eapply name_taken_false.
  destruct (ok_users _ Ht _ _ Hi) as (_ & _ & ?). lia.
Qed.
Lemma UpdateUser_keeps u : preserves inv_kept (Store_UpdateUser u).
Proof.
  unfold Store_UpdateUser. walk; [by apply db_now_keeps|]. apply exec_keeps. intros t Ht.
  rewrite status_ok_valid in H. apply negb_false_iff in H.
  destruct (t_users t !! User_ID u) as [old|] eqn:Ho; [|done].
  destruct (name_taken _ _ _) eqn:En; [done|]. destruct (ok_users _ Ht _ _ Ho) as (_ & _ & ?).
  apply put_user_ok; simpl; try done. intros i x Hi E. by eapply name_taken_false.
Qed.
Lemma DeleteUser_keeps id : preserves inv_kept (Store_DeleteUser id).
Proof.
  apply exec_keeps. intros t Ht. apply put_users_ok; [done|done|..].
  - intros i u [_ Hi]%lookup_delete_Some. by eapply ok_users.
  - intros i j u v [_ Hi]%lookup_delete_Some [_ Hj]%lookup_delete_Some. by eapply ok_names.
Qed.
Lemma RecordEvent_keeps e : preserves inv_kept (Store_RecordEvent e).
Proof.
  unfold Store_RecordEvent. walk; [by apply db_now_keeps|]. apply exec_keeps. intros t Ht.
  destruct (event_ok e) eqn:He; [|done]. apply record_event_ok; [done|done| |done].
  destruct (2048 <? len (Event_Error e)) eqn:El; [|lia].
  assert (H : ∀ k t, (String.length (take_bytes k t) <= k)%nat).
  { intros k. induction k as [|k IH]; intros [|c t']; simpl; try lia. specialize (IH t'). lia. }
  specialize (H 2048%nat (Event_Error e)). unfold len. lia.
Qed.
Lemma UpsertRule_keeps r : preserves inv_kept (Store_UpsertRule r).
Proof.
  unfold Store_UpsertRule. walk; [by apply db_now_keeps|]. apply exec_keeps. intros t Ht.
  destruct (_ || _) eqn:Ea; [|done]. apply orb_true_iff in Ea. rewrite !bool_decide_eq_true in Ea.
  destruct Ht. split; try done. intros n x Hx. simpl in Hx.
  apply lookup_insert_Some in Hx as [[<- <-]|[_ Hx]]; [done|]. by apply ok_rules0.
Qed.
Lemma CreateFirstAdmin_keeps u h : preserves inv_kept (Store_CreateFirstAdmin u h).
Proof.
  apply transaction_keeps. walk; [apply query_keeps|by apply db_now_keeps|].
  apply exec_keeps. intros t Ht. destruct (t_admin t) eqn:Ea; [done|]. apply put_admin_ok; [done|].
  intros h' s Hs. destruct (ok_sessions _ Ht _ _ Hs) as [_ Hx]. rewrite Ea in Hx. by destruct Hx.
Qed.
Lemma CreateSession_keeps h a x : preserves inv_kept (Store_CreateSession h a x).
Proof.
  unfold Store_CreateSession. walk; [by apply db_now_keeps|]. apply exec_keeps. intros t Ht.
  destruct (_ || _) eqn:Ea; [done|]. apply orb_false_iff in Ea as [_ Ea]. apply bool_decide_eq_false in Ea.
  apply put_admin_ok; [done|]. intros h' s Hs. unfold admin_by_id in Ea.
  destruct (a =? 1) eqn:E1; [|done]. destruct (t_admin t) eqn:Eadm; [|done].
  apply lookup_insert_Some in Hs as [[<- <-]|[_ Hs]]; [simpl; split; [lia|done]|].
  split; [by apply (ok_sessions _ Ht h' s)|done].
Qed.
Lemma UpdateAdminPassword_keeps a h : preserves inv_kept (Store_UpdateAdminPassword a h).
Proof.
  apply transaction_keeps. walk; [by apply db_now_keeps|..]; apply exec_keeps; intros t Ht; simpl.
  - case_match; [|done]. apply put_admin_ok; [done|]. intros h' s Hs.
    destruct (ok_sessions _ Ht _ _ Hs) as [? Hx]. split; [done|]. by apply fmap_is_Some.
  - by apply put_admin_fewer.
Qed.
Lemma DeleteAdmin_keeps a : preserves inv_kept (Store_DeleteAdmin a).
Proof.
  apply exec_keeps. intros t Ht. simpl. case_match; [|done]. apply put_admin_ok; [done|].
  intros h s Hs. apply map_lookup_filter_Some in Hs as [Hs Hne]. by destruct (ok_sessions _ Ht _ _ Hs).
Qed.
Lemma SessionAdmin_keeps h now : preserves inv_kept (Store_SessionAdmin h now).
Proof.
  unfold Store_SessionAdmin. walk; [|apply query_keeps]. apply exec_keeps. intros t Ht. by apply put_admin_fewer.
Qed.
Lemma DeleteSession_keeps h : preserves inv_kept (Store_DeleteSession h).
Proof.
  apply exec_keeps. intros t Ht. apply put_admin_ok; [done|].
  intros h' s [_ Hs]%lookup_delete_Some. by eapply ok_sessions.
Qed.

Lemma store_op_keeps op : preserves inv_kept (run_store_op op).
Proof.
  destruct op; simpl; unfold void; apply (preserves_bind inv_kept); intros;
    try apply (preserves_ret inv_kept);
    auto using UpsertUser_keeps, InsertUser_keeps, UpdateUser_keeps, DeleteUser_keeps, RecordEvent_keeps,
      UpsertRule_keeps, CreateFirstAdmin_keeps, CreateSession_keeps, UpdateAdminPassword_keeps,
      DeleteAdmin_keeps, SessionAdmin_keeps, DeleteSession_keeps;
    apply (preserves_bind inv_kept); try apply db_now_keeps; intros now; apply exec_keeps; intros t Ht; simpl; auto.
  - destruct (t_settings t); [done|]. destruct Ht. by split.
  - destruct (meta_ok m) eqn:Hm; [by apply SaveTLS_ok|done].
Qed.
Lemma void_keeps {A} R (m : M store A) : preserves R (void m) → preserves R m.
Proof. intros Hm w r w' H. eapply (Hm w tt). unfold void, bind. by rewrite H. Qed.

(** C7. Every statement keeps the tables well formed, whatever fails: user names
    are unique, rows have their own ids and a known status, event ids grow,
    events and rules have the allowed values, every session belongs to the one
    administrator who exists, and the certificate row satisfies its checks. *)
Theorem store_invariant op w r w' :
  tables_ok (db_tables w) → run_store_op op w = (r, w') → tables_ok (db_tables w').
Proof. intros Ht H. by eapply (store_op_keeps op). Qed.
End Invariant.
