(* ===== verification/Manager.v ===== *)
(** The certificate manager: [internal/certificate/issue.go], [automatic.go],
    [self_signed.go] and [provided.go].  [Issue] and [Renew] order from the ACME
    client, [ImportManual] takes a pair, [Ensure] is the background worker's
    step for the three sources.

    A method holds the manager's lock from its first to its last statement, so
    it is one computation over the world; the deadline of an operation is one of
    the ways its calls fail. *)
From S2P Require Import Prelude GoStrings GoPath Quote Sha256 Sanitize Domain X509 CertState TLSStore.

(** ** What the manager calls *)

(** [Repository] of [issue.go]. *)
Class CertRepository (W : Type) := {
  SaveACMEAccount : string → string → string → string → string → M W (option gerror);
  SaveTLSMetadata : Metadata → M W (option gerror);
  LoadTLSMetadata : M W (result Metadata);
  cert_RecordEvent : ApplyEvent → M W (option gerror)
}.
(** [Publisher], with the two methods the manager looks for on it. *)
Class Publisher (W : Type) := {
  pub_Publish : Bundle → M W (result Published);
  pub_RevertLast : option (M W (option gerror));   (** [None]: no such method *)
  pub_CompletePublished : option (M W unit)
}.
(** [ACMEConfig] without the provider, the data directory and the time limit,
    which are those of the manager. *)
Record ACMEConfig := mkACMEConfig { ac_Mode : Mode; ac_Email : string; ac_RegistrationURI : string }.
(** [ClientFactory] and [ACMEClient]. *)
Class ACMEClientFactory (W : Type) := {
  ACMEClient : Type;
  new_client : ACMEConfig → M W (result ACMEClient);
  EnsureAccount : ACMEClient → M W (result string);
  Obtain : ACMEClient → string → M W (result Bundle)
}.
(** The clock, the files of certificates (read whole; with whether they are
    regular files), the key generator and the certificate encoder. *)
Record Template := mkTemplate {
  tpl_Serial : Z;
  tpl_CommonName : string;
  tpl_DNSNames : list string;
  tpl_NotBefore : Time;
  tpl_NotAfter : Time
}.
Class CertEnvironment (W : Type) := {
  now_ : M W Time;
  ReadFile : string → M W (result string);
  OpenRegular : string → M W (result (bool * string));
  ECKey : Type;
  GenerateKey : M W (result ECKey);
  rand_Int : Z → M W (result Z);
  CreateCertificate : Template → ECKey → M W (result string);
  MarshalPKCS8PrivateKey : ECKey → result string;
  pem_encode : string → string → string
}.

(** The manager's settings: its data directory, the time limit of an operation and
    the factory of ACME clients, lego's when none is given. *)
Record Manager (F : Type) := mkManager { mgr_dataDir : string; mgr_timeout : Duration; mgr_factory : F }.
Arguments mkManager {F} _ _ _.
Arguments mgr_dataDir {F} _.
Arguments mgr_timeout {F} _.
Arguments mgr_factory {F} _.
Definition NewManager {F : Type} (NewLegoClient : F) (dataDir : string) (timeout : Duration) (factory : option F) : Manager F :=
  mkManager dataDir (if timeout <=? 0 then 2 * minute else timeout)
    (match factory with None => NewLegoClient | Some f => f end).

(** ** Pure parts *)

(** The assignments to [next] after a publication. *)
Definition activate {X : X509} {SHA : Sha256} (leaf : Certificate) (pub : Published) (previous : string)
    (now : Time) (m : Metadata) : Metadata :=
  mkMetadata Active (M_Source m) (M_Mode m) (M_Hostname m) (M_Email m) (M_DirectoryURL m)
    (M_RegistrationURI m) (M_ProvidedCertificatePath m) (M_ProvidedKeyPath m) (cert_SerialNumber leaf)
    (cert_Issuer leaf) (cert_DNSNames leaf) (cert_NotBefore leaf) (cert_NotAfter leaf) (fingerprint leaf)
    (Pub_Revision pub) previous (Pub_CertificatePath pub) (Pub_PrivateKeyPath pub) "" now.

Definition tls_event (revision kind res error : string) : ApplyEvent :=
  apply_event revision kind "none" res error.

Definition selfSignedLifetime : Duration := 365 * 24 * hour.
Definition maxProvidedPEMBytes : Z := 1048576.
Definition default_lead : Duration := 30 * 24 * hour.

(** [(Metadata, error)] *)
Abbreviation outcome := (Metadata * option gerror)%type.

Section Manager.
Context {UT : UnicodeTables} {SHA : Sha256} {X : X509} {DIR : ACMEDirectories}.
Context {W : Type} {CR : CertRepository W} {PB : Publisher W} {CF : ACMEClientFactory W} {CE : CertEnvironment W}.
Variable ParseAddress : string → option string.

Definition revertPublication : M W (option gerror) :=
  match pub_RevertLast with Some revert => revert | None => ret None end.
Definition completePublication : M W unit :=
  match pub_CompletePublished with Some complete => complete | None => ret tt end.

(** [if err := repo.SaveTLSMetadata(m); err != nil { return current, err }] *)
Definition save_or (current m : Metadata) (k : M W outcome) : M W outcome :=
  let* e := SaveTLSMetadata m in
  match e with Some e => ret (current, Some e) | None => k end.

(** ** Failure paths *)

Definition fail (state : Metadata) (stage : string) (cause : gerror) : M W outcome :=
  let* now := now_ in
  let state := meta_set_updated now (meta_set_error (sanitizeCertificateError (Some cause))
                                       (meta_set_state Degraded state)) in
  let* _ := SaveTLSMetadata state in
  let* _ := SaveACMEAccount (M_DirectoryURL state) (M_Email state) (M_RegistrationURI state) "error"
              (M_LastError state) in
  let* _ := cert_RecordEvent (tls_event (M_ActiveRevision state) ("tls-" +:+ stage) "failure" (M_LastError state)) in
  ret (state, Some (Wrapf ("certificate " +:+ stage) cause)).

Definition failUnmanaged (previous : Metadata) (stage : string) (cause : gerror) : M W outcome :=
  let* now := now_ in
  let previous := meta_set_updated now (meta_set_error (sanitizeCertificateError (Some cause))
                                          (meta_set_state Degraded previous)) in
  let* _ := SaveTLSMetadata previous in
  let* _ := cert_RecordEvent (tls_event (M_ActiveRevision previous) stage "failure" (M_LastError previous)) in
  ret (previous, Some (Wrapf ("certificate " +:+ stage) cause)).

(** ** Publication of a validated bundle

    The end of [issue], [renew], [ImportManual] and [publishUnmanaged]: publish
    under the apply lock, save the metadata, and revert the publication when
    the metadata cannot be saved. *)
Definition publish_active (bundle : Bundle) (leaf : Certificate) (previous : string) (next : Metadata)
    (kind : string) (publish_failed metadata_failed : gerror → M W outcome) : M W outcome :=
  let* p := pub_Publish bundle in
  match p with
  | Err e => publish_failed e
  | Ok published =>
    let* now := now_ in
    let next := activate leaf published previous now next in
    let* e := SaveTLSMetadata next in
    match e with
    | Some e =>
      let* rollbackErr := revertPublication in
      metadata_failed (match rollbackErr with Some r => Joined e r | None => e end)
    | None =>
      let* _ := completePublication in
      let* _ := cert_RecordEvent (tls_event (Pub_Revision published) kind "success" "") in
      ret (next, None)
    end
  end.

(** ** Issue and renewal *)

(** From the client to the validated bundle, which both operations do alike:
    [tag] prefixes the stages of the failures. *)
Definition order_certificate (next : Metadata) (cfg : ACMEConfig) (hostname : string)
    (stages : string * string * string * string) (save_account : string → M W unit)
    (k : Metadata → Bundle → Certificate → M W outcome) : M W outcome :=
  let '(s_client, s_account, s_obtain, s_validate) := stages in
  let* c := new_client cfg in
  match c with
  | Err e => fail next s_client e
  | Ok client =>
    let* r := EnsureAccount client in
    match r with
    | Err e => fail next s_account e
    | Ok registrationURI =>
      let next := meta_set_registration registrationURI next in
      let* _ := save_account registrationURI in
      let* b := Obtain client hostname in
      match b with
      | Err e => fail next s_obtain e
      | Ok bundle =>
        let* now := now_ in
        match ValidateBundle bundle hostname (ac_Mode cfg) now with
        | Err e => fail next s_validate e
        | Ok validated => k next bundle validated
        end
      end
    end
  end.

Definition issue (mode : Mode) (email hostname : string) : M W outcome :=
  match ValidateIdentity ParseAddress email hostname with
  | Some e => ret (zero_metadata, Some e)
  | None =>
    let* r := LoadTLSMetadata in
    match (match r with
           | Ok m => Ok m
           | Err e => if errors_is e ErrNoRows
                      then Ok (meta_set_identity LetsEncrypt "" "" "" "" (meta_set_state Unconfigured zero_metadata))
                      else Err e
           end) with
    | Err e => ret (zero_metadata, Some e)
    | Ok current =>
      if negb (bool_decide (EffectiveSource current = LetsEncrypt))
      then ret (current, Some (Errorf "ACME issue is disabled for the selected TLS source"))
      else
        let* now := now_ in
        match Transition now current Issuing with
        | Err e => ret (current, Some e)
        | Ok next =>
          match DirectoryURL mode with
          | Err e => ret (current, Some e)
          | Ok directory =>
            let next := meta_set_identity (M_Source next) mode hostname email directory next in
            save_or current next (
              order_certificate next (mkACMEConfig mode email (M_RegistrationURI current)) hostname
                ("create-client", "account", "issue", "validate")
                (λ uri, let* _ := SaveACMEAccount directory email uri "active" "" in ret tt)
                (λ next bundle validated,
                  publish_active bundle validated (M_ActiveRevision current) next "tls-issue"
                    (fail next "publish") (fail current "metadata")))
          end
        end
    end
  end.

Definition renew : M W outcome :=
  let* r := LoadTLSMetadata in
  match r with
  | Err e => ret (zero_metadata, Some e)
  | Ok current =>
    if negb (bool_decide (EffectiveSource current = LetsEncrypt))
    then ret (current, Some (Errorf "ACME renewal is disabled for the selected TLS source"))
    else match ValidateIdentity ParseAddress (M_Email current) (M_Hostname current) with
    | Some e => ret (current, Some e)
    | None =>
      let* now := now_ in
      match Transition now current Renewing with
      | Err e => ret (current, Some e)
      | Ok next =>
        save_or current next (
          order_certificate next (mkACMEConfig (M_Mode current) (M_Email current) (M_RegistrationURI current))
            (M_Hostname current) ("renew-client", "renew-account", "renew", "renew-validate") (λ _, ret tt)
            (λ next bundle validated,
              if negb (bool_decide (M_Fingerprint current = ""))
                 && bool_decide (fingerprint validated = M_Fingerprint current)
              then fail next "renew-unchanged"
                     (Errorf "ACME returned the active certificate without a later expiry")
              else publish_active bundle validated (M_ActiveRevision current) next "tls-renew"
                     (fail next "renew-publish") (fail current "renew-metadata")))
      end
    end
  end.

(** ** Manual import *)

Definition ImportManual (hostname chain privateKey : string) : M W outcome :=
  let* r := LoadTLSMetadata in
  match (match r with
         | Ok m => Ok m
         | Err e => if errors_is e ErrNoRows then Ok (meta_set_state Unconfigured zero_metadata) else Err e
         end) with
  | Err e => ret (zero_metadata, Some e)
  | Ok current =>
    let bundle := mkBundle chain "" privateKey in
    let* now := now_ in
    match ValidateBundle bundle hostname ManualMode now with
    | Err e => ret (current, Some e)
    | Ok validated =>
      let next := meta_set_identity Provided ManualMode hostname (M_Email current) (M_DirectoryURL current) current in
      publish_active bundle validated (M_ActiveRevision current) next "tls-manual"
        (λ e, ret (current, Some e)) (λ e, ret (current, Some e))
    end
  end.

(** ** Self-signed and provided pairs *)

Definition publishUnmanaged (previous next : Metadata) (bundle : Bundle) (kind : string) : M W outcome :=
  let* now := now_ in
  match ValidateBundle bundle (M_Hostname next) ManualMode now with
  | Err e => failUnmanaged next (kind +:+ "-validate") e
  | Ok leaf =>
    publish_active bundle leaf (M_ActiveRevision previous) next kind
      (failUnmanaged next (kind +:+ "-publish")) (failUnmanaged previous (kind +:+ "-metadata"))
  end.

Definition GenerateSelfSigned (hostname : string) (now : Time) : M W (result Bundle) :=
  match ValidateSourceSettings ParseAddress SelfSigned hostname "" "" "" with
  | Some e => ret (Err e)
  | None =>
    let? key := GenerateKey in
    let? serial := rand_Int (Z.shiftl 1 128) in
    let? der := CreateCertificate
      (mkTemplate serial hostname [hostname] (now - minute) (now + selfSignedLifetime)) key in
    match MarshalPKCS8PrivateKey key with
    | Err e => ret (Err e)
    | Ok privateDER =>
      ret (Ok (mkBundle (pem_encode "CERTIFICATE" der) "" (pem_encode "PRIVATE KEY" privateDER)))
    end
  end.

(** The state an unmanaged publication is announced with. *)
Definition announce (current : Metadata) : Metadata :=
  if bool_decide (M_ActiveRevision current = "") || bool_decide (M_State current = Unconfigured)
  then meta_set_state Issuing current else meta_set_state Renewing current.

(** An interrupted operation of a previous process is degraded first. *)
Definition recover_interrupted (current : Metadata) (k : Metadata → M W outcome) : M W outcome :=
  if bool_decide (M_State current = Issuing) || bool_decide (M_State current = Renewing) then
    let current := meta_set_state Degraded current in
    save_or current current (k current)
  else k current.

(** A pair found valid becomes active again; [stale] is the guard. *)
Definition confirm_active (stale : bool) (current : Metadata) : M W outcome :=
  if stale then
    let current := meta_set_error "" (meta_set_state Active current) in
    save_or current current (ret (current, None))
  else ret (current, None).

Definition self_signed_lead (lead : Duration) : Duration :=
  if (lead <=? 0) || (selfSignedLifetime / 3 <? lead) then default_lead else lead.

(** The published pair of [current], when both files can be read and it is valid
    until [lead] before its end. *)
Definition still_valid (current : Metadata) (mode : Mode) (lead : Certificate → Duration) : M W bool :=
  let* c := ReadFile (M_CertificatePath current) in
  let* k := ReadFile (M_PrivateKeyPath current) in
  match c, k with
  | Ok chain, Ok key =>
    if negb (bool_decide (M_ActiveRevision current = "")) && negb (bool_decide (M_State current = Unconfigured))
    then
      let* now := now_ in
      match ValidateBundle (mkBundle chain "" key) (M_Hostname current) mode now with
      | Ok leaf => let* now := now_ in ret (now <? cert_NotAfter leaf - lead leaf)
      | Err _ => ret false
      end
    else ret false
  | _, _ => ret false
  end.

Definition ensureSelfSigned (current : Metadata) (lead : Duration) : M W outcome :=
  match ValidateSourceSettings ParseAddress SelfSigned (M_Hostname current) "" "" "" with
  | Some e => ret (current, Some e)
  | None =>
    recover_interrupted current (λ current,
      let* valid :=
        (if negb (bool_decide (M_ActiveRevision current = "")) && negb (bool_decide (M_State current = Unconfigured))
         then still_valid current ManualMode (λ _, self_signed_lead lead) else ret false) in
      if valid then confirm_active (negb (bool_decide (M_State current = Active))) current
      else
        let next := announce current in
        save_or current next (
          let* now := now_ in
          let* b := GenerateSelfSigned (M_Hostname current) now in
          match b with
          | Err e => failUnmanaged next "self-signed-generate" e
          | Ok bundle => publishUnmanaged current next bundle "tls-self-signed"
          end))
  end.

Definition readPEMLimited (p : string) : M W (result string) :=
  let? f := OpenRegular p in
  if negb f.1 then ret (Err (Errorf "provided PEM source must be a regular file"))
  else if maxProvidedPEMBytes <? len (take_bytes (Z.to_nat (maxProvidedPEMBytes + 1)) f.2)
  then ret (Err (Errorf "provided PEM exceeds 1048576 bytes"))
  else ret (Ok f.2).

Definition readPublishedBundle (m : Metadata) : M W (result Bundle) :=
  let? chain := readPEMLimited (M_CertificatePath m) in
  let? key := readPEMLimited (M_PrivateKeyPath m) in
  ret (Ok (mkBundle chain "" key)).

Definition confirm_provided (current : Metadata) : M W outcome :=
  confirm_active (negb (bool_decide (M_State current = Active)) || negb (bool_decide (M_LastError current = "")))
    current.

Definition ensureProvided (current : Metadata) : M W outcome :=
  if bool_decide (M_ProvidedCertificatePath current = "") && bool_decide (M_ProvidedKeyPath current = "")
     && negb (bool_decide (M_ActiveRevision current = "")) then
    let* b := readPublishedBundle current in
    match b with
    | Err e => failUnmanaged current "provided-read" e
    | Ok bundle =>
      let* now := now_ in
      match ValidateBundle bundle (M_Hostname current) ManualMode now with
      | Err e => failUnmanaged current "provided-validate" e
      | Ok _ => confirm_provided current
      end
    end
  else
    match ValidateSourceSettings ParseAddress Provided (M_Hostname current) ""
            (M_ProvidedCertificatePath current) (M_ProvidedKeyPath current) with
    | Some e => failUnmanaged current "provided-settings" e
    | None =>
      let* c := readPEMLimited (M_ProvidedCertificatePath current) in
      match c with
      | Err e => failUnmanaged current "provided-read" e
      | Ok chain =>
        let* k := readPEMLimited (M_ProvidedKeyPath current) in
        match k with
        | Err e => failUnmanaged current "provided-read" e
        | Ok key =>
          let bundle := mkBundle chain "" key in
          let* now := now_ in
          match ValidateBundle bundle (M_Hostname current) ManualMode now with
          | Err e => failUnmanaged current "provided-validate" e
          | Ok _ =>
            let* same :=
              (if negb (bool_decide (M_ActiveRevision current = "")) && negb (bool_decide (M_State current = Unconfigured))
               then let* old := readPublishedBundle current in
                    ret (match old with
                         | Ok old => bool_decide (Bundle_Certificate old = chain) && bool_decide (Bundle_PrivateKey old = key)
                         | Err _ => false
                         end)
               else ret false) in
            if same then confirm_provided current
            else
              let next := announce current in
              save_or current next (publishUnmanaged current next bundle "tls-provided")
          end
        end
      end
    end.

(** ** Ensure *)

(** The renewal lead of an ACME certificate: at most a third of its lifetime. *)
Definition acme_lead (lead : Duration) (leaf : Certificate) : Duration :=
  let lead := if lead <=? 0 then default_lead else lead in
  let third := Z.quot (cert_NotAfter leaf - cert_NotBefore leaf) 3 in
  if third <? lead then third else lead.

Definition Ensure (lead : Duration) : M W outcome :=
  let* r := LoadTLSMetadata in
  match r with
  | Err e => if errors_is e ErrNoRows then ret (zero_metadata, None) else ret (zero_metadata, Some e)
  | Ok current =>
    if bool_decide (EffectiveSource current = SelfSigned) then ensureSelfSigned current lead
    else if bool_decide (EffectiveSource current = Provided) then ensureProvided current
    else if negb (bool_decide (EffectiveSource current = LetsEncrypt)) || bool_decide (M_Hostname current = "")
            || bool_decide (M_Email current = "") then ret (current, None)
    else match ValidateIdentity ParseAddress (M_Email current) (M_Hostname current) with
    | Some e => ret (current, Some e)
    | None =>
      recover_interrupted current (λ current,
        let* valid := still_valid current (M_Mode current) (acme_lead lead) in
        if valid then confirm_active (negb (bool_decide (M_State current = Active))) current
        else if bool_decide (M_State current = Unconfigured) || bool_decide (M_ActiveRevision current = "") then
          if negb (bool_decide (M_State current = Unconfigured)) && negb (bool_decide (M_State current = Degraded))
          then
            let current := meta_set_state Degraded current in
            save_or current current (issue (M_Mode current) (M_Email current) (M_Hostname current))
          else issue (M_Mode current) (M_Email current) (M_Hostname current)
        else renew)
    end
  end.
End Manager.
