(* ===== verification/ManagerSpec.v ===== *)
(** What the certificate manager guarantees: the metadata it stores and the key
    pair that is published never disagree, an operation that returns leaves no
    operation pending, and a failure costs nothing of what was active. *)
From S2P Require Import Prelude GoStrings GoPath Quote Sha256 Sanitize Domain X509 CertState TLSStore Manager.

Definition all_states : list State := [Unconfigured; Issuing; Active; Renewing; Degraded; Manual].
(** The source and the mode satisfy the constraints of the table. *)
Definition meta_wf (m : Metadata) : Prop :=
  M_Source m ∈ [LetsEncrypt; SelfSigned; Provided] ∧ M_Mode m ∈ [Production; Staging; ManualMode].
Lemma meta_ok_wf m : meta_wf m → M_State m ∈ all_states → meta_ok m = true.
Proof.
  intros [Hs Hm] Hst. unfold meta_ok, EffectiveSource.
  rewrite !bool_decide_eq_true_2 by done. simpl.
  assert (Hne : M_Source m ≠ "") by (intros E; rewrite E in Hs; set_solver).
  rewrite (bool_decide_eq_false_2 _ Hne). simpl. by rewrite bool_decide_eq_true_2.
Qed.

(** What the manager is promised by its collaborators, in the states [cert_ok]
    where the database is well formed and the publisher reliable: [stored] is
    the row of the metadata, [live] the published revision ([""] for none),
    [pending] the revision a revert would restore.  [cert_calm] says that the
    database is not made to fail. *)
Class CertWorld (W : Type) {CR : CertRepository W} {PB : Publisher W} {CF : ACMEClientFactory W}
    {CE : CertEnvironment W} := {
  cert_ok : W → Prop;
  cert_calm : W → Prop;
  stored : W → option Metadata;
  live : W → string;
  pending : W → option string;
  (** Calls that change none of these. *)
  unseen w w' := cert_ok w' ∧ (cert_calm w → cert_calm w') ∧ stored w' = stored w ∧ live w' = live w
                 ∧ pending w' = pending w;
  SaveACMEAccount_law a b c d x w e w' : cert_ok w → SaveACMEAccount a b c d x w = (e, w') → unseen w w';
  cert_RecordEvent_law ev w e w' : cert_ok w → cert_RecordEvent ev w = (e, w') → unseen w w';
  new_client_law cfg w r w' : cert_ok w → new_client cfg w = (r, w') → unseen w w';
  EnsureAccount_law c w r w' : cert_ok w → EnsureAccount c w = (r, w') → unseen w w';
  Obtain_law c h w r w' : cert_ok w → Obtain c h w = (r, w') → unseen w w';
  now_law w t w' : cert_ok w → now_ w = (t, w') → unseen w w';
  ReadFile_law p w r w' : cert_ok w → ReadFile p w = (r, w') → unseen w w';
  OpenRegular_law p w r w' : cert_ok w → OpenRegular p w = (r, w') → unseen w w';
  GenerateKey_law w r w' : cert_ok w → GenerateKey w = (r, w') → unseen w w';
  rand_Int_law n w r w' : cert_ok w → rand_Int n w = (r, w') → unseen w w';
  CreateCertificate_law t k w r w' : cert_ok w → CreateCertificate t k w = (r, w') → unseen w w';
  LoadTLSMetadata_law w r w' : cert_ok w → LoadTLSMetadata w = (r, w') →
    unseen w w' ∧ match r with
                  | Ok m => stored w = Some m ∧ meta_wf m ∧ M_State m ∈ all_states
                  | Err e => (cert_calm w → errors_is e ErrNoRows = true)
                             ∧ (errors_is e ErrNoRows = true → stored w = None)
                  end;
  SaveTLSMetadata_law m w e w' : cert_ok w → SaveTLSMetadata m w = (e, w') →
    cert_ok w' ∧ (cert_calm w → cert_calm w' ∧ (meta_ok m = true → e = None))
    ∧ live w' = live w ∧ pending w' = pending w
    ∧ match e with None => ∃ t, stored w' = Some (stored_form t m) | Some _ => stored w' = stored w end;
  pub_Publish_law b w r w' : cert_ok w → pub_Publish b w = (r, w') →
    cert_ok w' ∧ (cert_calm w → cert_calm w') ∧ stored w' = stored w
    ∧ match r with
      | Ok p => live w' = Pub_Revision p ∧ pending w' = Some (live w)
      | Err _ => live w' = live w
      end;
  pub_RevertLast_law w e w' : cert_ok w → revertPublication w = (e, w') →
    cert_ok w' ∧ (cert_calm w → cert_calm w') ∧ stored w' = stored w
    ∧ (e = None → pending w = Some (live w'));
  pub_CompletePublished_law w r w' : cert_ok w → completePublication w = (r, w') →
    cert_ok w' ∧ (cert_calm w → cert_calm w') ∧ stored w' = stored w ∧ live w' = live w
}.

Section ManagerSpec.
Context {UT : UnicodeTables} {SHA : Sha256} {X : X509} {DIR : ACMEDirectories}.
Context {W : Type} {CR : CertRepository W} {PB : Publisher W} {CF : ACMEClientFactory W} {CE : CertEnvironment W}.
Context {CW : CertWorld W}.
Variable ParseAddress : string → option string.

Abbreviation outcome := (Metadata * option gerror)%type.

(** The stored row and the published pair are those of revision [A]; without a
    row nothing is published. *)
Definition agree (A : string) (w : W) : Prop :=
  cert_ok w ∧ live w = A ∧ match stored w with Some m => M_ActiveRevision m = A | None => A = "" end.
(** No operation is recorded as running. *)
Definition settled (w : W) : Prop :=
  ∀ m, stored w = Some m → M_State m ≠ Issuing ∧ M_State m ≠ Renewing.
(** The metadata could not be saved and the publication could not be reverted. *)
Definition double_failure (e : option gerror) : Prop :=
  ∃ a b, e = Some (Joined a b) ∨ ∃ stage, e = Some (Wrapf stage (Joined a b)).

(** What is recorded as running at the end: nothing, or, for an operation that
    need not have started anything, what was recorded before. *)
Definition leaves (strict : bool) (w w' : W) : Prop :=
  settled w' ∨ (strict = false ∧ stored w' = stored w).
(** How a computation ends that started when [A] was active: [A] still is, or it
    succeeded and the active revision of its result is, or it failed twice; and
    when the database did not fail nothing is recorded as running. *)
Definition ends (strict : bool) (A : string) (w : W) (o : outcome) (w' : W) : Prop :=
  cert_ok w'
  ∧ (agree A w' ∨ (o.2 = None ∧ M_State o.1 = Active ∧ agree (M_ActiveRevision o.1) w') ∨ double_failure o.2)
  ∧ (cert_calm w → leaves strict w w').
Definition runs (strict : bool) (A : string) (k : M W outcome) : Prop :=
  ∀ w o w', agree A w → k w = (o, w') → ends strict A w o w'.

(** A step that changes nothing the manager reports. *)
Lemma agree_unseen A w w' : agree A w → unseen w w' → agree A w' ∧ (cert_calm w → cert_calm w').
Proof.
  intros (Ho & Hl & Hs) (Ho' & Hc & Hst & Hl' & _). split; [|done].
  split; [done|]. rewrite Hl', Hst. done.
Qed.
Lemma agree_save A m w e w' :
  M_ActiveRevision m = A → agree A w → SaveTLSMetadata m w = (e, w') →
  agree A w' ∧ (cert_calm w → cert_calm w' ∧ (meta_ok m = true →
    e = None ∧ ∃ t, stored w' = Some (stored_form t m))).
Proof.
  intros Hm (Ho & Hl & Hs) H. apply SaveTLSMetadata_law in H as (Ho' & Hc & Hl' & _ & Hst); [|done].
  split.
  - split; [done|]. rewrite Hl'. split; [done|]. destruct e; [by rewrite Hst|].
    by destruct Hst as [t ->].
  - intros Hcw. destruct (Hc Hcw) as [Hcw' Hok]. split; [done|]. intros He%Hok. subst e. done.
Qed.

Lemma settled_form t m w :
  stored w = Some (stored_form t m) → M_State m ≠ Issuing → M_State m ≠ Renewing → settled w.
Proof. intros Hs H1 H2 m' Hm'. rewrite Hs in Hm'. by injection Hm' as <-. Qed.
Lemma runs_loose A k : runs true A k → runs false A k.
Proof.
  intros H w o w' Ha E. destruct (H _ _ _ Ha E) as (? & ? & Hl). split; [done|]. split; [done|].
  intros Hc. destruct (Hl Hc) as [?|[? _]]; [by left|done].
Qed.
(** Running on after a step that changes nothing. *)
Lemma ends_unseen strict A w w1 o w' : unseen w w1 → ends strict A w1 o w' → ends strict A w o w'.
Proof.
  intros (_ & Hc & Hs & _) (? & ? & Hl). split; [done|]. split; [done|]. intros Hcw.
  destruct (Hl (Hc Hcw)) as [?|[-> Hst]]; [by left|right]. split; [done|]. by rewrite Hst.
Qed.
Lemma runs_unseen {B} strict A (m : M W B) k :
  (∀ w b w', cert_ok w → m w = (b, w') → unseen w w') → (∀ b, runs strict A (k b)) → runs strict A (bind m k).
Proof.
  intros Hm Hk w o w' Ha H. run_bind H. assert (U := Hm _ _ _ (proj1 Ha) E).
  eapply ends_unseen; [exact U|]. eapply Hk; [|done]. by eapply agree_unseen.
Qed.
Lemma runs_ret A m e : runs false A (ret (m, e)).
Proof.
  intros w o w' Ha H. run_ret H. split; [apply Ha|]. split; [by left|]. intros _. by right.
Qed.

(** ** The failure paths *)

Lemma agree_chain A w w1 w2 :
  agree A w ∧ (cert_calm w1 → cert_calm w) → unseen w w2 → agree A w2 ∧ (cert_calm w1 → cert_calm w2).
Proof. intros [Ha Hc] Hu. destruct (agree_unseen _ _ _ Ha Hu). auto. Qed.

Lemma fail_runs A st stage cause : M_ActiveRevision st = A → meta_wf st → runs true A (fail st stage cause).
Proof.
  intros HA Hwf w o w' Ha H. unfold fail in H.
  run_bind H. apply now_law in E as U1; [|apply Ha]. destruct (agree_unseen _ _ _ Ha U1) as [A1 C1].
  run_bind H. apply (agree_save A) in E0 as [A2 C2]; [|done|done].
  set (st' := meta_set_updated _ _) in *.
  run_bind H. apply SaveACMEAccount_law in E0 as U3; [|apply A2].
  run_bind H. apply cert_RecordEvent_law in E1 as U4; [|apply U3]. run_ret H.
  destruct (agree_unseen _ _ _ A2 U3) as [A3 C3]. destruct (agree_unseen _ _ _ A3 U4) as [A4 C4].
  split; [apply A4|]. split; [by left|]. intros Hc. left.
  destruct (C2 (C1 Hc)) as [_ Hst]. destruct Hst as [_ [t Hst]].
  { apply meta_ok_wf; [done|]. change (Degraded ∈ all_states). by apply (bool_decide_unpack _). }
  eapply (settled_form t st'); [|done..]. by rewrite (proj1 (proj2 (proj2 U4))), (proj1 (proj2 (proj2 U3))).
Qed.
Lemma failUnmanaged_runs A st stage cause :
  M_ActiveRevision st = A → meta_wf st → runs true A (failUnmanaged st stage cause).
Proof.
  intros HA Hwf w o w' Ha H. unfold failUnmanaged in H.
  run_bind H. apply now_law in E as U1; [|apply Ha]. destruct (agree_unseen _ _ _ Ha U1) as [A1 C1].
  run_bind H. apply (agree_save A) in E0 as [A2 C2]; [|done|done].
  set (st' := meta_set_updated _ _) in *.
  run_bind H. apply cert_RecordEvent_law in E0 as U4; [|apply A2]. run_ret H.
  destruct (agree_unseen _ _ _ A2 U4) as [A4 C4].
  split; [apply A4|]. split; [by left|]. intros Hc. left.
  destruct (C2 (C1 Hc)) as [_ Hst]. destruct Hst as [_ [t Hst]].
  { apply meta_ok_wf; [done|]. change (Degraded ∈ all_states). by apply (bool_decide_unpack _). }
  eapply (settled_form t st'); [|done..]. by rewrite (proj1 (proj2 (proj2 U4))).
Qed.
(** The failure paths never change the active revision. *)
Definition keeps (A : string) (k : M W outcome) : Prop := ∀ w o w', agree A w → k w = (o, w') → agree A w'.
Lemma fail_keeps A st stage cause : M_ActiveRevision st = A → keeps A (fail st stage cause).
Proof.
  intros HA w o w' Ha H. unfold fail in H.
  run_bind H. apply now_law in E as U1; [|apply Ha]. destruct (agree_unseen _ _ _ Ha U1) as [A1 _].
  run_bind H. apply (agree_save A) in E0 as [A2 _]; [|done|done].
  run_bind H. apply SaveACMEAccount_law in E0 as U3; [|apply A2]. destruct (agree_unseen _ _ _ A2 U3) as [A3 _].
  run_bind H. apply cert_RecordEvent_law in E1 as U4; [|apply U3]. run_ret H.
  exact (proj1 (agree_unseen _ _ _ A3 U4)).
Qed.
Lemma failUnmanaged_keeps A st stage cause : M_ActiveRevision st = A → keeps A (failUnmanaged st stage cause).
Proof.
  intros HA w o w' Ha H. unfold failUnmanaged in H.
  run_bind H. apply now_law in E as U1; [|apply Ha]. destruct (agree_unseen _ _ _ Ha U1) as [A1 _].
  run_bind H. apply (agree_save A) in E0 as [A2 _]; [|done|done].
  run_bind H. apply cert_RecordEvent_law in E0 as U4; [|apply A2]. run_ret H.
  exact (proj1 (agree_unseen _ _ _ A2 U4)).
Qed.
(** In any state the failure paths return the cause and keep the world well formed. *)
Definition gives_up (k : gerror → M W outcome) : Prop :=
  ∀ a b w o w', cert_ok w → k (Joined a b) w = (o, w') → cert_ok w' ∧ double_failure o.2.
Lemma fail_gives_up st stage : gives_up (fail st stage).
Proof.
  intros a b w o w' Ho H. unfold fail in H.
  run_bind H. apply now_law in E as U1; [|done].
  run_bind H. apply SaveTLSMetadata_law in E0 as (O2 & _); [|apply U1].
  run_bind H. apply SaveACMEAccount_law in E0 as U3; [|done].
  run_bind H. apply cert_RecordEvent_law in E1 as U4; [|apply U3]. run_ret H.
  split; [apply U4|]. eexists _, _. right. eexists. done.
Qed.
Lemma failUnmanaged_gives_up st stage : gives_up (failUnmanaged st stage).
Proof.
  intros a b w o w' Ho H. unfold failUnmanaged in H.
  run_bind H. apply now_law in E as U1; [|done].
  run_bind H. apply SaveTLSMetadata_law in E0 as (O2 & _); [|apply U1].
  run_bind H. apply cert_RecordEvent_law in E0 as U4; [|done]. run_ret H.
  split; [apply U4|]. eexists _, _. right. eexists. done.
Qed.
Lemma unmanaged_ret_gives_up m : gives_up (λ e, ret (m, Some e)).
Proof. intros a b w o w' Ho H. run_ret H. split; [done|]. eexists _, _. by left. Qed.

(** ** Saving, publishing, ordering *)

(** After a successful save nothing of the state before matters: what follows
    must settle, or the saved state is settled itself. *)
Lemma save_or_runs A current m k :
  M_ActiveRevision m = A → meta_wf m → M_State m ∈ all_states → runs true A k →
  runs false A (save_or current m k).
Proof.
  intros HA Hwf Hst Hk w o w' Ha H. unfold save_or in H. run_bind H.
  apply (agree_save A) in E as [A1 C1]; [|done|done]. destruct a as [e|].
  - run_ret H. split; [apply A1|]. split; [by left|]. intros Hc.
    destruct (C1 Hc) as [_ He]. by destruct He as [He _]; [apply meta_ok_wf|].
  - destruct (Hk _ _ _ A1 H) as (O & D & L). split; [done|]. split; [done|]. intros Hc.
    destruct (L (proj1 (C1 Hc))) as [?|[? _]]; [by left|done].
Qed.
Lemma save_or_settled A current m k :
  M_ActiveRevision m = A → meta_wf m → M_State m ∈ all_states → M_State m ≠ Issuing → M_State m ≠ Renewing →
  runs false A k → runs true A (save_or current m k).
Proof.
  intros HA Hwf Hst H1 H2 Hk w o w' Ha H. unfold save_or in H. run_bind H.
  apply (agree_save A) in E as [A1 C1]; [|done|done]. destruct a as [e|].
  - run_ret H. split; [apply A1|]. split; [by left|]. intros Hc.
    destruct (C1 Hc) as [_ He]. by destruct He as [He _]; [apply meta_ok_wf|].
  - destruct (Hk _ _ _ A1 H) as (O & D & L). split; [done|]. split; [done|]. intros Hc.
    destruct (C1 Hc) as [Hc1 He]. destruct He as [_ [t Hs]]; [by apply meta_ok_wf|].
    destruct (L Hc1) as [?|[_ Heq]]; left; [done|]. eapply (settled_form t m); [|done..]. by rewrite Heq.
Qed.

Lemma publish_active_runs strict A bundle leaf previous next kind pf mf :
  M_ActiveRevision next = A → meta_wf next →
  (∀ e, runs strict A (pf e)) → (∀ e, keeps A (mf e)) → gives_up mf →
  runs strict A (publish_active bundle leaf previous next kind pf mf).
Proof.
  intros HA Hwf Hpf Hmf Hg w o w' Ha H. unfold publish_active in H.
  run_bind H. assert (Ha' := Ha). destruct Ha' as (Ho & Hl & Hs).
  apply pub_Publish_law in E as (O1 & C1 & S1 & P1); [|done].
  destruct a as [p|e]; cycle 1.
  { assert (A1 : agree A w1) by (split; [done|]; by rewrite S1, P1).
    destruct (Hpf e _ _ _ A1 H) as (O & D & L). split; [done|]. split; [done|]. intros Hc.
    destruct (L (C1 Hc)) as [?|[? Heq]]; [by left|right]. by rewrite Heq, S1. }
  destruct P1 as [P1 Q1].
  run_bind H. apply now_law in E as (O2 & C2 & S2 & L2 & Q2); [|done].
  set (m := activate _ _ _ _ _) in *.
  assert (Hok : meta_ok m = true).
  { apply meta_ok_wf; [exact Hwf|]. change (Active ∈ all_states). by apply (bool_decide_unpack _). }
  run_bind H. apply SaveTLSMetadata_law in E as (O3 & C3 & L3 & Q3 & S3); [|done].
  destruct a0 as [e|].
  - run_bind H. apply pub_RevertLast_law in E as (O4 & C4 & S4 & L4); [|done].
    destruct a0 as [r|].
    { destruct (Hg _ _ _ _ _ O4 H) as [O5 D5]. split; [done|]. split; [by right; right|].
      intros Hc. by destruct (C3 (C2 (C1 Hc))) as [_ He]; specialize (He Hok). }
    assert (A4 : agree A w3).
    { split; [done|]. rewrite S4, S3, S2, S1. split; [|done].
      specialize (L4 eq_refl). rewrite Q3, Q2, Q1 in L4. congruence. }
    assert (A5 := Hmf e _ _ _ A4 H). split; [apply A5|]. split; [by left|].
    intros Hc. by destruct (C3 (C2 (C1 Hc))) as [_ He]; specialize (He Hok).
  - destruct S3 as [t S3].
    run_bind H. apply pub_CompletePublished_law in E as (O4 & C4 & S4 & L4); [|done].
    run_bind H. apply cert_RecordEvent_law in E as (O5 & C5 & S5 & L5 & _); [|done]. run_ret H.
    assert (Hst : stored w' = Some (stored_form t m)) by by rewrite S5, S4.
    split; [done|]. split.
    + right; left. split; [done|]. split; [done|]. split; [done|].
      split; [by rewrite L5, L4, L3, L2, P1|]. by rewrite Hst.
    + intros _. left. by eapply (settled_form t m).
Qed.

Lemma order_certificate_runs A next cfg hostname stages save_account k :
  M_ActiveRevision next = A → meta_wf next →
  (∀ uri w r w', cert_ok w → save_account uri w = (r, w') → unseen w w') →
  (∀ uri b l, runs true A (k (meta_set_registration uri next) b l)) →
  runs true A (order_certificate next cfg hostname stages save_account k).
Proof.
  intros HA Hwf Hsave Hk. unfold order_certificate. destruct stages as [[[s1 s2] s3] s4].
  apply runs_unseen; [apply new_client_law|]. intros [c|e]; [|by apply fail_runs].
  apply runs_unseen; [apply EnsureAccount_law|]. intros [uri|e]; [|by apply fail_runs].
  apply runs_unseen; [intros; by eapply Hsave|]. intros _.
  apply runs_unseen; [apply Obtain_law|]. intros [b|e]; [|by apply fail_runs].
  apply runs_unseen; [apply now_law|]. intros now.
  destruct (ValidateBundle b hostname (ac_Mode cfg) now) as [l|e]; [apply Hk|by apply fail_runs].
Qed.
(** ** Issue and renew *)

Lemma directory_mode mode d : DirectoryURL mode = Ok d → mode ∈ [Production; Staging; ManualMode].
Proof.
  unfold DirectoryURL. repeat case_bool_decide; subst; [|..|done]; intros _; by apply (bool_decide_unpack _).
Qed.
Lemma transition_meta now m to m' :
  Transition now m to = Ok m' → m' = meta_set_updated now (meta_set_state to m).
Proof. unfold Transition. by case_match; intros [= <-]. Qed.

(** Starting from the metadata [current] loaded or assumed. *)
Definition loaded (A : string) (current : Metadata) : Prop :=
  M_ActiveRevision current = A ∧ M_Source current ∈ [LetsEncrypt; SelfSigned; Provided].
Lemma loaded_source A current s :
  loaded A current → EffectiveSource current = s → M_Source current = s.
Proof.
  intros [_ Hs] <-. unfold EffectiveSource. rewrite bool_decide_eq_false_2; [done|].
  intros E. rewrite E in Hs. by apply (bool_decide_pack _) in Hs.
Qed.

Lemma save_order_runs A current next cfg hostname stages save_account k :
  M_ActiveRevision next = A → meta_wf next → M_State next ∈ all_states →
  (∀ uri w r w', cert_ok w → save_account uri w = (r, w') → unseen w w') →
  (∀ uri b l, runs true A (k (meta_set_registration uri next) b l)) →
  runs false A (save_or current next (order_certificate next cfg hostname stages save_account k)).
Proof. intros. apply save_or_runs; [done..|]. by apply order_certificate_runs. Qed.

Lemma runs_load A (k : result Metadata → M W outcome) :
  (∀ r, match r with
        | Ok m => loaded A m ∧ meta_wf m ∧ M_State m ∈ all_states
        | Err e => errors_is e ErrNoRows = true → A = ""
        end → runs false A (k r)) →
  runs false A (let* r := LoadTLSMetadata in k r).
Proof.
  intros Hk w o w' Ha H. run_bind H. apply LoadTLSMetadata_law in E as [U L]; [|apply Ha].
  destruct (agree_unseen _ _ _ Ha U) as [A1 _]. eapply ends_unseen; [exact U|].
  eapply Hk; [|exact A1|exact H]. destruct Ha as (_ & _ & Hs). destruct a as [m|e].
  - destruct L as (Hm & Hwf & Hst). rewrite Hm in Hs. split; [|done]. by split; [|apply Hwf].
  - intros He. by rewrite (proj2 L He) in Hs.
Qed.

Lemma issue_runs A mode email hostname : runs false A (issue ParseAddress mode email hostname).
Proof.
  unfold issue. destruct (ValidateIdentity _ _ _); [apply runs_ret|]. apply runs_load. intros r Hr.
  set (cur := match r with Ok m => Ok m | Err e => _ end).
  assert (Hcur : match cur with Ok current => loaded A current | Err _ => True end).
  { unfold cur. destruct r as [m|e]; [apply Hr|]. destruct (errors_is e ErrNoRows); [|done].
    rewrite Hr by done. split; [done|]. by apply (bool_decide_unpack _). }
  destruct cur as [current|e]; [|apply runs_ret].
  destruct (negb (bool_decide (EffectiveSource current = LetsEncrypt))) eqn:Hs; [apply runs_ret|].
  apply negb_false_iff, bool_decide_eq_true in Hs. apply (loaded_source A) in Hs; [|done].
  apply runs_unseen; [apply now_law|]. intros now.
  destruct (Transition now current Issuing) as [next|e] eqn:Ht; [|apply runs_ret].
  apply transition_meta in Ht as ->. destruct (DirectoryURL mode) as [dir|e] eqn:Hd; [|apply runs_ret].
  apply directory_mode in Hd. set (next := meta_set_identity _ _ _ _ _ _).
  assert (HA : M_ActiveRevision next = A) by apply Hcur.
  assert (Hwf : meta_wf next).
  { split; [|done]. simpl. rewrite Hs. by apply (bool_decide_unpack _). }
  apply save_order_runs; [done|done|change (Issuing ∈ all_states); by apply (bool_decide_unpack _)|..].
  - intros uri w r' w2 Ho H. run_bind H. run_ret H. by apply SaveACMEAccount_law in E.
  - intros uri b l. apply publish_active_runs; [done|done|intros; by apply fail_runs| |apply fail_gives_up].
    intros e. by apply fail_keeps, Hcur.
Qed.

Lemma renew_runs A : runs false A (renew ParseAddress).
Proof.
  unfold renew. apply runs_load. intros [current|e] Hr; [|apply runs_ret].
  destruct Hr as (Hld & Hwf & _).
  destruct (negb (bool_decide (EffectiveSource current = LetsEncrypt))); [apply runs_ret|].
  destruct (ValidateIdentity _ _ _); [apply runs_ret|].
  apply runs_unseen; [apply now_law|]. intros now.
  destruct (Transition now current Renewing) as [next|e] eqn:Ht; [|apply runs_ret].
  apply transition_meta in Ht as ->. set (next := meta_set_updated _ _).
  assert (HA : M_ActiveRevision next = A) by apply Hld. assert (Hwn : meta_wf next) by done.
  apply save_order_runs; [done|done|change (Renewing ∈ all_states); by apply (bool_decide_unpack _)|by intros ???? ? [= <- <-]|].
  intros uri b l. destruct (_ && _); [by apply fail_runs|].
  apply publish_active_runs; [done|done|intros; by apply fail_runs| |apply fail_gives_up].
  intros e. by apply fail_keeps, Hld.
Qed.
(** ** Computations that only look *)

Definition looks {B} (m : M W B) : Prop := ∀ w b w', cert_ok w → m w = (b, w') → unseen w w'.
Lemma looks_ret {B} (b : B) : looks (ret b).
Proof. intros w b' w' Ho [= <- <-]. done. Qed.
Lemma looks_bind {B C} (m : M W B) (k : B → M W C) : looks m → (∀ b, looks (k b)) → looks (bind m k).
Proof.
  intros Hm Hk w c w' Ho H. run_bind H. destruct (Hm _ _ _ Ho E) as (O1 & C1 & S1 & L1 & P1).
  destruct (Hk _ _ _ _ O1 H) as (O2 & C2 & S2 & L2 & P2).
  split; [done|]. split; [auto|]. by rewrite S2, S1, L2, L1, P2, P1.
Qed.
Lemma looks_try_ok {B C} (m : M W (result B)) (k : B → M W (result C)) :
  looks m → (∀ b, looks (k b)) → looks (try_ok m k).
Proof. intros Hm Hk. apply looks_bind; [done|]. intros [b|e]; [apply Hk|apply looks_ret]. Qed.
Lemma looks_now : looks now_.
Proof. exact now_law. Qed.
Lemma looks_ReadFile p : looks (ReadFile p).
Proof. exact (ReadFile_law p). Qed.
#[local] Hint Resolve looks_ret looks_now looks_ReadFile : core.

Lemma looks_still_valid current mode lead : looks (still_valid current mode lead).
Proof.
  unfold still_valid. apply looks_bind; [done|]. intros c. apply looks_bind; [done|]. intros k.
  destruct c, k; try done. case_match; [|done]. apply looks_bind; [done|]. intros now.
  case_match; [|done]. apply looks_bind; [done|]. intros ?. apply looks_ret.
Qed.
Lemma looks_readPEMLimited p : looks (readPEMLimited p).
Proof.
  unfold readPEMLimited. apply looks_try_ok; [exact (OpenRegular_law p)|]. intros f.
  repeat case_match; apply looks_ret.
Qed.
Lemma looks_readPublishedBundle m : looks (readPublishedBundle m).
Proof.
  unfold readPublishedBundle. do 2 (apply looks_try_ok; [apply looks_readPEMLimited|intros ?]). apply looks_ret.
Qed.
Lemma looks_GenerateSelfSigned hostname now : looks (GenerateSelfSigned ParseAddress hostname now).
Proof.
  unfold GenerateSelfSigned. destruct (ValidateSourceSettings _ _ _ _ _ _); [apply looks_ret|].
  apply looks_try_ok; [exact GenerateKey_law|]. intros key. apply looks_try_ok; [exact (rand_Int_law _)|].
  intros serial. apply looks_try_ok; [exact (CreateCertificate_law _ _)|]. intros der.
  destruct (MarshalPKCS8PrivateKey key); apply looks_ret.
Qed.

(** ** Import and the unmanaged sources *)

Lemma ImportManual_runs A hostname chain key : runs false A (ImportManual hostname chain key).
Proof.
  unfold ImportManual. apply runs_load. intros r Hr.
  set (cur := match r with Ok m => Ok m | Err e => _ end).
  assert (Hcur : match cur with Ok current => M_ActiveRevision current = A | Err _ => True end).
  { unfold cur. destruct r as [m|e]; [apply Hr|]. destruct (errors_is e ErrNoRows); [|done]. by rewrite Hr. }
  destruct cur as [current|e]; [|apply runs_ret].
  apply runs_unseen; [apply now_law|]. intros now.
  destruct (ValidateBundle _ _ _ _) as [leaf|e]; [|apply runs_ret].
  apply publish_active_runs; [done| |intros; apply runs_ret| |apply unmanaged_ret_gives_up].
  - split; by apply (bool_decide_unpack _).
  - intros e w o w' Ha H. by run_ret H.
Qed.

Lemma publishUnmanaged_runs A previous next bundle kind :
  M_ActiveRevision previous = A → M_ActiveRevision next = A → meta_wf next →
  runs true A (publishUnmanaged previous next bundle kind).
Proof.
  intros HA HA' Hwf. unfold publishUnmanaged. apply runs_unseen; [apply now_law|]. intros now.
  destruct (ValidateBundle _ _ _ _) as [leaf|e]; [|by apply failUnmanaged_runs].
  apply publish_active_runs; [done|done|intros; by apply failUnmanaged_runs| |apply failUnmanaged_gives_up].
  intros e. by apply failUnmanaged_keeps.
Qed.

Lemma confirm_active_runs A stale current :
  M_ActiveRevision current = A → meta_wf current → runs false A (confirm_active stale current).
Proof.
  intros HA Hwf. unfold confirm_active. destruct stale; [|apply runs_ret]. apply runs_loose.
  apply save_or_settled; [done|done|change (Active ∈ all_states); by apply (bool_decide_unpack _)|done|done|apply runs_ret].
Qed.
Lemma recover_interrupted_runs A current k :
  M_ActiveRevision current = A → meta_wf current →
  (∀ c, M_ActiveRevision c = A → meta_wf c → runs false A (k c)) → runs false A (recover_interrupted current k).
Proof.
  intros HA Hwf Hk. unfold recover_interrupted. destruct (_ || _); [|by apply Hk]. apply runs_loose.
  apply save_or_settled; [done|done|change (Degraded ∈ all_states); by apply (bool_decide_unpack _)|done|done|by apply Hk].
Qed.
Lemma announce_wf current :
  meta_wf current → M_ActiveRevision (announce current) = M_ActiveRevision current ∧ meta_wf (announce current)
    ∧ M_State (announce current) ∈ all_states.
Proof.
  intros Hwf. unfold announce. destruct (_ || _); (split; [done|]; split; [done|]);
    [change (Issuing ∈ all_states)|change (Renewing ∈ all_states)]; by apply (bool_decide_unpack _).
Qed.

Lemma ensureSelfSigned_runs A current lead :
  M_ActiveRevision current = A → meta_wf current → runs false A (ensureSelfSigned ParseAddress current lead).
Proof.
  intros HA Hwf. unfold ensureSelfSigned. destruct (ValidateSourceSettings _ _ _ _ _ _); [apply runs_ret|].
  apply recover_interrupted_runs; [done..|]. clear current HA Hwf. intros current HA Hwf.
  apply runs_unseen.
  { destruct (_ && _); [apply looks_still_valid|apply looks_ret]. }
  intros [|]; [by apply confirm_active_runs|]. destruct (announce_wf current Hwf) as (Ha & Hw & Hs).
  rewrite HA in Ha. apply save_or_runs; [done..|]. apply runs_unseen; [apply now_law|]. intros now.
  apply runs_unseen; [apply looks_GenerateSelfSigned|]. intros [b|e]; [|by apply failUnmanaged_runs].
  by apply publishUnmanaged_runs.
Qed.

Lemma ensureProvided_runs A current :
  M_ActiveRevision current = A → meta_wf current → runs false A (ensureProvided ParseAddress current).
Proof.
  intros HA Hwf. assert (Hfail : ∀ st e, runs false A (failUnmanaged current st e)).
  { intros. by apply runs_loose, failUnmanaged_runs. }
  unfold ensureProvided. destruct (_ && _ && _).
  - apply runs_unseen; [apply looks_readPublishedBundle|]. intros [b|e]; [|done].
    apply runs_unseen; [apply now_law|]. intros now.
    destruct (ValidateBundle _ _ _ _); [by apply confirm_active_runs|done].
  - destruct (ValidateSourceSettings _ _ _ _ _ _); [done|].
    apply runs_unseen; [apply looks_readPEMLimited|]. intros [chain|e]; [|done].
    apply runs_unseen; [apply looks_readPEMLimited|]. intros [key|e]; [|done].
    apply runs_unseen; [apply now_law|]. intros now.
    destruct (ValidateBundle _ _ _ _); [|done].
    apply runs_unseen.
    { destruct (_ && _); [|apply looks_ret]. apply looks_bind; [apply looks_readPublishedBundle|].
      intros ?. apply looks_ret. }
    intros [|]; [by apply confirm_active_runs|]. destruct (announce_wf current Hwf) as (Ha & Hw & Hs).
    rewrite HA in Ha. apply save_or_runs; [done..|]. by apply publishUnmanaged_runs.
Qed.

Lemma Ensure_runs A lead : runs false A (Ensure ParseAddress lead).
Proof.
  unfold Ensure. apply runs_load. intros [current|e] Hr; [|case_match; apply runs_ret].
  destruct Hr as ([HA _] & Hwf & _).
  case_match; [by apply ensureSelfSigned_runs|]. case_match; [by apply ensureProvided_runs|].
  case_match; [apply runs_ret|]. destruct (ValidateIdentity _ _ _); [apply runs_ret|].
  apply recover_interrupted_runs; [done..|]. clear current HA Hwf H H0 H1. intros current HA Hwf.
  apply runs_unseen; [apply looks_still_valid|]. intros [|]; [by apply confirm_active_runs|].
  case_match; [|apply renew_runs]. case_match; [|apply issue_runs]. apply runs_loose.
  apply save_or_settled; [done|done|change (Degraded ∈ all_states); by apply (bool_decide_unpack _)|done|done|apply issue_runs].
Qed.

(** ** The manager *)

Inductive cert_op : Type :=
| OpIssue (mode : Mode) (email hostname : string)
| OpRenew
| OpImportManual (hostname chain key : string)
| OpEnsure (lead : Duration).
Definition run_cert_op (op : cert_op) : M W outcome :=
  match op with
  | OpIssue mode email hostname => issue ParseAddress mode email hostname
  | OpRenew => renew ParseAddress
  | OpImportManual hostname chain key => ImportManual hostname chain key
  | OpEnsure lead => Ensure ParseAddress lead
  end.

End ManagerSpec.
