(* ===== verification/ManagerCert.v ===== *)
(** What a successful issue, renewal or import returns: the metadata of a pair
    that was validated for the host name, published, and saved. *)
From S2P Require Import Prelude GoStrings Sha256 Domain X509 CertState TLSStore Manager.

Section Certify.
Context {UT : UnicodeTables} {SHA : Sha256} {X : X509} {DIR : ACMEDirectories}.
Context {W : Type} {CR : CertRepository W} {PB : Publisher W} {CF : ACMEClientFactory W} {CE : CertEnvironment W}.
Variable ParseAddress : string → option string.

(** The metadata [m] describes a pair valid for [hostname] in [mode]: a bundle
    that passed [ValidateBundle], was published, and whose metadata was saved. *)
Record certified (hostname : string) (mode : Mode) (m : Metadata) : Prop := {
  ce_active : M_State m = Active;
  ce_hostname : M_Hostname m = hostname;
  ce_mode : M_Mode m = mode;
  ce_clean : M_LastError m = "";
  ce_leaf : ∃ bundle leaf now, ValidateBundle bundle hostname mode now = Ok leaf
    ∧ M_Fingerprint m = fingerprint leaf ∧ M_NotBefore m = cert_NotBefore leaf ∧ M_NotAfter m = cert_NotAfter leaf
    ∧ M_Serial m = cert_SerialNumber leaf ∧ M_SANs m = cert_DNSNames leaf
    ∧ ∃ w p w', pub_Publish bundle w = (Ok p, w') ∧ M_ActiveRevision m = Pub_Revision p
      ∧ M_CertificatePath m = Pub_CertificatePath p ∧ M_PrivateKeyPath m = Pub_PrivateKeyPath p;
  ce_saved : ∃ w w', SaveTLSMetadata m w = (None, w')
}.

(** A computation that never reports success. *)
Definition never_ok (k : M W outcome) : Prop := ∀ w m w', k w ≠ ((m, None), w').

Lemma fail_never m stage e : never_ok (fail m stage e).
Proof. intros w m' w' H. unfold fail in H. do 4 run_bind H. run_absurd H. Qed.

Lemma publish_active_ok bundle leaf previous next kind pf mf w m w' :
  (∀ e, never_ok (pf e)) → (∀ e, never_ok (mf e)) →
  publish_active bundle leaf previous next kind pf mf w = ((m, None), w') →
  ∃ p now w1 wa wb, pub_Publish bundle w = (Ok p, w1) ∧ m = activate leaf p previous now next
    ∧ SaveTLSMetadata m wa = (None, wb).
Proof.
  intros Hpf Hmf H. unfold publish_active in H. run_bind H. destruct a as [p|e]; [|by apply Hpf in H].
  run_bind H. run_bind H. destruct a0 as [e|]; [run_bind H; by apply Hmf in H|].
  do 2 run_bind H. run_ret H. exists p, a, w1. eexists _, _. done.
Qed.

Lemma order_certificate_ok next cfg hostname stages save k w m w' :
  order_certificate next cfg hostname stages save k w = ((m, None), w') →
  ∃ uri bundle now leaf w1, ValidateBundle bundle hostname (ac_Mode cfg) now = Ok leaf
    ∧ k (meta_set_registration uri next) bundle leaf w1 = ((m, None), w').
Proof.
  intros H. unfold order_certificate in H. destruct stages as [[[s1 s2] s3] s4].
  run_bind H. destruct a as [client|e]; [|by apply fail_never in H].
  run_bind H. destruct a as [uri|e]; [|by apply fail_never in H]. run_bind H.
  run_bind H. destruct a0 as [bundle|e]; [|by apply fail_never in H]. run_bind H.
  destruct (ValidateBundle _ _ _ _) as [leaf|e] eqn:Hv; [|by apply fail_never in H]. eauto 10.
Qed.

Lemma certified_active bundle leaf hostname mode previous next p now now' w1 w2 wa wb :
  ValidateBundle bundle hostname mode now' = Ok leaf → pub_Publish bundle w1 = (Ok p, w2) →
  M_Hostname next = hostname → M_Mode next = mode →
  SaveTLSMetadata (activate leaf p previous now next) wa = (None, wb) →
  certified hostname mode (activate leaf p previous now next).
Proof. intros Hv Hp Hh Hm Hs. split; simpl; [done..|eauto 20|eauto]. Qed.

Lemma Transition_fields now m to m' :
  Transition now m to = Ok m' → M_Hostname m' = M_Hostname m ∧ M_Mode m' = M_Mode m ∧ M_Source m' = M_Source m.
Proof. unfold Transition. destruct (negb _); [done|]. by intros [= <-]. Qed.


(** A successful renewal replaces the certificate: it is certified for the
    host name and the mode of the metadata it read, and its fingerprint is not
    the one of the certificate that was active. *)
Theorem renew_certifies w m w' :
  renew ParseAddress w = ((m, None), w') →
  ∃ current w1, LoadTLSMetadata w = (Ok current, w1) ∧ EffectiveSource current = LetsEncrypt
    ∧ certified (M_Hostname current) (M_Mode current) m
    ∧ (M_Fingerprint current ≠ "" → M_Fingerprint m ≠ M_Fingerprint current)
    ∧ M_PreviousRevision m = M_ActiveRevision current.
Proof.
  intros H. unfold renew in H. run_bind H. destruct a as [current|e]; [|run_absurd H].
  destruct (negb _) eqn:Hsrc; [run_absurd H|]. apply negb_false_iff, bool_decide_eq_true in Hsrc.
  destruct (ValidateIdentity _ _ _); [run_absurd H|]. run_bind H.
  destruct (Transition _ _ _) as [next|e] eqn:Ht; [|run_absurd H]. apply Transition_fields in Ht as (Hh & Hm & _).
  unfold save_or in H. run_bind H. destruct a0 as [e|]; [run_absurd H|].
  apply order_certificate_ok in H as (uri & bundle & now & leaf & wx & Hv & H).
  destruct (negb _ && _) eqn:Hf in H; [by apply fail_never in H|].
  apply publish_active_ok in H as (p & now' & wy & wa & wb & Hp & -> & Hs); [|intros; apply fail_never..].
  exists current, w1. split; [done|]. split; [done|]. split; [by eapply certified_active|]. split; [|done].
  intros Hne. simpl. apply andb_false_iff in Hf as [Hf|Hf%bool_decide_eq_false]; [|done].
  by apply negb_false_iff, bool_decide_eq_true in Hf.
Qed.

(** A successful import certifies the given pair as a provided one. *)
Lemma ImportManual_certifies hostname chain key w m w' :
  ImportManual hostname chain key w = ((m, None), w') →
  certified hostname ManualMode m ∧ M_Source m = Provided
  ∧ ∃ now leaf, ValidateBundle (mkBundle chain "" key) hostname ManualMode now = Ok leaf
      ∧ M_Fingerprint m = fingerprint leaf.
Proof.
  intros H. unfold ImportManual in H. run_bind H.
  destruct (match a with Ok _ => _ | Err _ => _ end) as [current|e]; [|run_absurd H]. run_bind H.
  destruct (ValidateBundle _ _ _ _) as [leaf|e] eqn:Hv; [|run_absurd H].
  apply publish_active_ok in H as (p & now' & wy & wa & wb & Hp & -> & Hs); [|by intros e x y z [=]..].
  split; [by eapply certified_active|]. split; [done|]. eauto.
Qed.
End Certify.
