(* ===== verification/Password.v ===== *)
(** [internal/auth/password.go] and [limiter.go]: the rules of an administrator
    password, its argon2id hash, and the limiter of login attempts. *)
From S2P Require Import Prelude GoStrings Quote Base64 Domain.

(** [golang.org/x/crypto/argon2.IDKey]: password, salt, iterations, memory,
    parallelism and key length; a key of the asked length. *)
Class Argon2 := {
  IDKey : string → string → Z → Z → Z → Z → string;
  IDKey_length : ∀ pw salt t m p n, 0 <= n → len (IDKey pw salt t m p n) = n
}.

Definition ArgonMemory : Z := 64 * 1024.
Definition ArgonIterations : Z := 3.
Definition ArgonParallelism : Z := 2.
Definition ArgonSaltLength : Z := 16.
Definition ArgonKeyLength : Z := 32.

Section Password.
Context {UT : UnicodeTables} {ARGON : Argon2}.

(** The class of a rune of the password. *)
Definition is_symbol (r : Z) : bool := negb (is_lower r) && negb (is_upper r) && negb (is_digit r).
(** The [switch]: lower, then upper, then digit, then symbol. *)
Definition has_class (f : Z → bool) (password : string) : bool :=
  existsb (λ rb : Z * list ascii, f rb.1) (runes password).

Definition ValidatePassword (password : string) : option gerror :=
  if (len password <? 14) || (1024 <? len password)
  then Some (Errorf "password must contain 14 to 1024 bytes")
  else if negb (has_class is_lower password) || negb (has_class (λ r, negb (is_lower r) && is_upper r) password)
          || negb (has_class (λ r, negb (is_lower r) && negb (is_upper r) && is_digit r) password)
          || negb (has_class is_symbol password)
  then Some (Errorf "password must include lower-case, upper-case, digit, and symbol characters")
  else None.

(** [fmt.Sprintf] of the encoded hash. *)
Definition encode_hash (salt key : string) : string :=
  "$argon2id$v=19$m=65536,t=3,p=2$" +:+ b64_encode RawStd salt +:+ "$" +:+ b64_encode RawStd key.

Definition hash_with (password salt : string) : string :=
  encode_hash salt (IDKey password salt ArgonIterations ArgonMemory ArgonParallelism ArgonKeyLength).

(** [salt] is the result of [rand.Read]. *)
Definition HashPassword (password : string) (salt : result string) : result string :=
  match ValidatePassword password with
  | Some e => Err e
  | None =>
    match salt with
    | Err e => Err e
    | Ok salt => Ok (hash_with password salt)
    end
  end.

(** [fmt.Sscanf(s, "m=%d,t=%d,p=%d", ...)]: literals, and unsigned numbers with
    leading white space; what follows the last number is ignored. *)
Fixpoint scan_literal (lit s : list ascii) : option (list ascii) :=
  match lit, s with
  | [], _ => Some s
  | a :: lit', b :: s' => if bool_decide (a = b) then scan_literal lit' s' else None
  | _, [] => None
  end.
Fixpoint scan_digits (s : list ascii) (acc : list ascii) : list ascii * list ascii :=
  match s with
  | c :: r => if is_digit_ascii c || bool_decide (c = "_"%char) then scan_digits r (acc ++ [c]) else (acc, s)
  | [] => (acc, [])
  end.
Fixpoint skip_blanks (s : list ascii) : list ascii :=
  match s with
  | c :: r => if (code c =? 32) || (code c =? 9) then skip_blanks r else s
  | [] => []
  end.
Definition scan_uint (bits : Z) (s : list ascii) : option (Z * list ascii) :=
  let '(ds, r) := scan_digits (skip_blanks s) [] in
  match ds with
  | [] => None
  | _ => match decimal_value ds 0 with
         | Some v => if v <? 2 ^ bits then Some (v, r) else None
         | None => None
         end
  end.
Definition scan_params (s : string) : option (Z * Z * Z) :=
  s1 ← scan_literal (chars "m=") (chars s);
  '(m, s2) ← scan_uint 32 s1;
  s3 ← scan_literal (chars ",t=") s2;
  '(t, s4) ← scan_uint 32 s3;
  s5 ← scan_literal (chars ",p=") s4;
  '(p, _) ← scan_uint 8 s5;
  Some (m, t, p).

Definition VerifyPassword (encoded password : string) : bool :=
  match split encoded "$"%char with
  | [_; alg; ver; params; salt64; key64] =>
    if negb (bool_decide (alg = "argon2id")) || negb (bool_decide (ver = "v=19")) then false
    else match scan_params params with
    | Some (memory, iterations, parallelism) =>
      if negb (memory =? ArgonMemory) || negb (iterations =? ArgonIterations)
         || negb (parallelism =? ArgonParallelism) then false
      else match b64_decode RawStd salt64 with
      | Some salt =>
        if negb (len salt =? ArgonSaltLength) then false
        else match b64_decode RawStd key64 with
        | Some want =>
          if negb (len want =? ArgonKeyLength) then false
          else bool_decide (IDKey password salt iterations memory parallelism (len want) = want)
        | None => false
        end
      | None => false
      end
    | None => false
    end
  | _ => false
  end.

(** ** A hash verifies its password, and only what hashes alike *)

Lemma b64_std_no_dollar s : "$"%char ∉ chars (b64_encode RawStd s).
Proof.
  unfold b64_encode. rewrite chars_of_chars. intros Hin. apply list_elem_of_fmap in Hin as (v & Hv & Hin).
  assert (Hs := b64_digits_sextets (chars s)). rewrite Forall_forall in Hs. apply Hs in Hin.
  pose proof (sextet_cases (λ v, negb (bool_decide ("$"%char = b64_char RawStd v)))) as H. simpl in H.
  specialize (H ltac:(vm_compute; reflexivity) v Hin). by rewrite bool_decide_eq_true_2 in H.
Qed.

Lemma split_chars_end sep cur l : sep ∉ l → split_chars sep cur l = [rev cur ++ l].
Proof.
  revert cur; induction l as [|c l IH]; intros cur Hn; simpl; [by rewrite app_nil_r|].
  apply not_elem_of_cons in Hn as [Hc Hn]. rewrite bool_decide_eq_false_2 by done.
  rewrite IH by done. simpl. by rewrite <-app_assoc.
Qed.
Lemma split_chars_cons sep cur l l' :
  sep ∉ l → split_chars sep cur (l ++ sep :: l') = (rev cur ++ l) :: split_chars sep [] l'.
Proof.
  revert cur; induction l as [|c l IH]; intros cur Hn; simpl.
  - rewrite bool_decide_eq_true_2 by done. by rewrite app_nil_r.
  - apply not_elem_of_cons in Hn as [Hc Hn]. rewrite bool_decide_eq_false_2 by done.
    rewrite IH by done. simpl. by rewrite <-app_assoc.
Qed.

Lemma split_encode_hash salt key :
  split (encode_hash salt key) "$"%char
  = [""; "argon2id"; "v=19"; "m=65536,t=3,p=2"; b64_encode RawStd salt; b64_encode RawStd key].
Proof.
  unfold split, encode_hash. rewrite !chars_app.
  change (chars "$argon2id$v=19$m=65536,t=3,p=2$" ++ ?b ++ chars "$" ++ ?c)
    with ([] ++ "$"%char :: (chars "argon2id" ++ "$"%char :: (chars "v=19" ++ "$"%char ::
          (chars "m=65536,t=3,p=2" ++ "$"%char :: (b ++ "$"%char :: c))))).
  rewrite !split_chars_cons, split_chars_end; try (by apply b64_std_no_dollar); try (by apply (bool_decide_unpack _)).
  cbn [rev app fmap list_fmap]. rewrite !of_chars_chars. reflexivity.
Qed.

Lemma verify_hash_with password salt q :
  len salt = ArgonSaltLength →
  VerifyPassword (hash_with password salt) q
  = bool_decide (IDKey q salt ArgonIterations ArgonMemory ArgonParallelism ArgonKeyLength
                 = IDKey password salt ArgonIterations ArgonMemory ArgonParallelism ArgonKeyLength).
Proof.
  intros Hs. unfold VerifyPassword, hash_with. rewrite split_encode_hash.
  change (scan_params "m=65536,t=3,p=2") with (Some (ArgonMemory, ArgonIterations, ArgonParallelism)).
  rewrite !b64_decode_encode, Hs, IDKey_length by done. done.
Qed.

(** A password that may be hashed has 14 to 1024 bytes and a lower-case, an
    upper-case, a digit and another character; its hash verifies with any salt
    of 16 bytes, and verifies exactly the passwords with the same argon2id key
    under that salt. *)
Theorem HashPassword_verifies password salt h :
  len salt = ArgonSaltLength → HashPassword password (Ok salt) = Ok h →
  14 <= len password <= 1024
  ∧ has_class is_lower password = true ∧ has_class is_symbol password = true
  ∧ VerifyPassword h password = true
  ∧ ∀ q, VerifyPassword h q = true ↔
      IDKey q salt ArgonIterations ArgonMemory ArgonParallelism ArgonKeyLength
      = IDKey password salt ArgonIterations ArgonMemory ArgonParallelism ArgonKeyLength.
Proof.
  intros Hs H. unfold HashPassword, ValidatePassword in H.
  destruct ((len password <? 14) || _) eqn:Hl; [done|]. destruct (_ || negb (has_class is_symbol password)) eqn:Hc; [done|].
  injection H as <-. apply orb_false_iff in Hc as [Hc Hsym]. apply orb_false_iff in Hc as [Hc _].
  apply orb_false_iff in Hc as [Hlow _]. rewrite negb_false_iff in Hsym, Hlow.
  split; [lia|]. split; [done|]. split; [done|]. split.
  - rewrite verify_hash_with by done. by apply bool_decide_eq_true.
  - intros q. rewrite verify_hash_with by done. apply bool_decide_eq_true.
Qed.
End Password.
