(* ===== verification/Limiter.v ===== *)
(** [internal/auth/limiter.go]: the limiter of login attempts, keyed by account
    and by account and address. [now] is the clock reading of the call; the
    mutex makes a call one step. *)
From S2P Require Import Prelude GoStrings Domain.

Record attempt := mkAttempt {
  a_failures : Z;
  a_windowStart : Time;
  a_next : Time;
  a_seen : Time
}.

Record LoginLimiter := mkLimiter {
  l_entries : gmap string attempt;
  l_window : Duration;
  l_maxEntries : Z
}.

(** The order in which [range] visits the entries: any permutation. *)
Class AttemptOrder := {
  attempt_range : gmap string attempt → list (string * attempt);
  attempt_range_perm : ∀ m, attempt_range m ≡ₚ map_to_list m
}.

Section Limiter.
Context {UT : UnicodeTables} {AO : AttemptOrder}.

Definition NewLoginLimiter (window : Duration) (maxEntries : Z) : LoginLimiter :=
  mkLimiter ∅ (if window <=? 0 then 15 * minute else window) (if maxEntries <=? 0 then 4096 else maxEntries).

Definition loginKey (ip username : string) : string :=
  to_lower (trim_space username) +:+ byte_str 0 +:+ ip.
Definition accountKey (username : string) : string := byte_str 1 +:+ to_lower (trim_space username).

(** The remaining wait of one key. *)
Definition key_wait (l : LoginLimiter) (now : Time) (key : string) : Duration :=
  match l_entries l !! key with
  | Some a => if (now - a_windowStart a <? l_window l) && (now <? a_next a) then a_next a - now else 0
  | None => 0
  end.
Definition Allow (l : LoginLimiter) (now : Time) (ip username : string) : bool * Duration :=
  let wait := foldl (λ wait key, if wait <? key_wait l now key then key_wait l now key else wait) 0
                [loginKey ip username; accountKey username] in
  (wait =? 0, wait).

(** One failure of a key. *)
Definition fail_key (now : Time) (window : Duration) (a : option attempt) : attempt :=
  let a := match a with
           | Some a => if is_zero_time (a_windowStart a) || (window <=? now - a_windowStart a)
                       then mkAttempt 0 now 0 0 else a
           | None => mkAttempt 0 now 0 0
           end in
  let failures := a_failures a + 1 in
  let shift := if 5 <? failures - 1 then 5 else failures - 1 in
  mkAttempt failures (a_windowStart a) (now + 250 * millisecond * Z.shiftl 1 shift) now.
Definition record_failure (now : Time) (window : Duration) (m : gmap string attempt) (key : string) :
    gmap string attempt :=
  <[key := fail_key now window (m !! key)]> m.

(** The key [evictOldest] deletes. *)
Definition oldest_key (m : gmap string attempt) : string :=
  (foldl (λ acc ka, if bool_decide (acc.1 = "") || (a_seen ka.2 <? acc.2) then (ka.1, a_seen ka.2) else acc)
     ("", 0) (attempt_range m)).1.
Definition evictOldest (m : gmap string attempt) : gmap string attempt := delete (oldest_key m) m.
(** [for len(l.entries) > l.maxEntries]; every round deletes an entry, so the
    number of entries is fuel enough. *)
Fixpoint evict_loop (fuel : nat) (maxEntries : Z) (m : gmap string attempt) : gmap string attempt :=
  match fuel with
  | O => m
  | S fuel' => if maxEntries <? Z.of_nat (size m) then evict_loop fuel' maxEntries (evictOldest m) else m
  end.

Definition Failure (l : LoginLimiter) (now : Time) (ip username : string) : LoginLimiter :=
  let m := foldl (record_failure now (l_window l)) (l_entries l) [loginKey ip username; accountKey username] in
  mkLimiter (evict_loop (size m) (l_maxEntries l) m) (l_window l) (l_maxEntries l).

Definition Success (l : LoginLimiter) (ip username : string) : LoginLimiter :=
  mkLimiter (delete (accountKey username) (delete (loginKey ip username) (l_entries l)))
    (l_window l) (l_maxEntries l).

(** ** Eviction *)

(** No key is empty, so the loop of [evictOldest] returns a key of the map. *)
Definition keys_ok (m : gmap string attempt) : Prop := ∀ k, is_Some (m !! k) → k ≠ "".

Lemma oldest_key_in m : keys_ok m → m ≠ ∅ → is_Some (m !! oldest_key m).
Proof.
  intros Hk Hne. unfold oldest_key.
  assert (Hin : ∀ k a, (k, a) ∈ attempt_range m → m !! k = Some a).
  { intros k a Hin. rewrite attempt_range_perm in Hin. by apply elem_of_map_to_list. }
  assert (Hnil : attempt_range m ≠ []).
  { intros E. apply Hne, map_to_list_empty_iff. pose proof (attempt_range_perm m) as Hp.
    rewrite E in Hp. by apply Permutation_nil_l in Hp. }
  assert (Hloop : ∀ l acc, (∀ k a, (k, a) ∈ l → m !! k = Some a) →
    (l ≠ [] ∨ is_Some (m !! acc.1)) →
    (is_Some (m !! acc.1) ∨ acc.1 = "") →
    is_Some (m !! (foldl (λ acc ka, if bool_decide (acc.1 = "") || (a_seen ka.2 <? acc.2)
                                    then (ka.1, a_seen ka.2) else acc) acc l).1)).
  { induction l as [|[k a] l IH]; intros acc Hl Hor Hacc; simpl; [by destruct Hor|].
    assert (Hka : m !! k = Some a) by (apply Hl; set_solver).
    destruct (bool_decide (acc.1 = "") || _) eqn:E.
    - apply IH; [set_solver|right; simpl; by rewrite Hka|left; simpl; by rewrite Hka].
    - apply orb_false_iff in E as [E _]. apply bool_decide_eq_false in E.
      destruct Hacc as [Hacc|?]; [|done]. apply IH; [set_solver|by right|by left]. }
  apply Hloop; [exact Hin|by left|by right].
Qed.
Lemma evict_size m : keys_ok m → m ≠ ∅ → size m = S (size (evictOldest m)).
Proof.
  intros Hk Hne. unfold evictOldest. destruct (oldest_key_in m Hk Hne) as [a Ha].
  rewrite map_size_delete_Some by done. assert (size m ≠ 0%nat) by by apply map_size_non_empty_iff.
  lia.
Qed.
Lemma evict_keys_ok m : keys_ok m → keys_ok (evictOldest m).
Proof. unfold evictOldest. intros Hk k [a [_ Ha]%lookup_delete_Some]. by apply Hk. Qed.

Lemma evict_loop_bound fuel maxEntries m :
  keys_ok m → 0 <= maxEntries → (size m <= fuel)%nat →
  Z.of_nat (size (evict_loop fuel maxEntries m)) <= maxEntries ∧ keys_ok (evict_loop fuel maxEntries m).
Proof.
  revert m. induction fuel as [|fuel IH]; intros m Hk Hmax Hf; simpl.
  - split; [lia|done].
  - destruct (maxEntries <? _) eqn:E; [apply Z.ltb_lt in E|apply Z.ltb_ge in E]; cycle 1; [by split|].
    assert (Hne : m ≠ ∅) by (intros ->; rewrite map_size_empty in E; simpl in E; lia).
    pose proof (evict_size m Hk Hne). apply IH; [by apply evict_keys_ok|done|lia].
Qed.

(** ** Back-off *)

(** The delay after [n] failures in a window. *)
Definition backoff (n : Z) : Duration := 250 * millisecond * 2 ^ Z.min (n - 1) 5.

Definition attempt_ok (a : attempt) : Prop :=
  1 <= a_failures a ∧ a_next a = a_seen a + backoff (a_failures a).
Definition limiter_ok (l : LoginLimiter) : Prop :=
  keys_ok (l_entries l) ∧ 0 < l_maxEntries l ∧ 0 < l_window l
  ∧ Z.of_nat (size (l_entries l)) <= l_maxEntries l
  ∧ ∀ k a, l_entries l !! k = Some a → attempt_ok a.

Lemma NewLoginLimiter_ok window maxEntries : limiter_ok (NewLoginLimiter window maxEntries).
Proof.
  unfold NewLoginLimiter. repeat split; simpl; try done.
  - by intros k [x Hx].
  - destruct (Z.leb_spec maxEntries 0); lia.
  - destruct (Z.leb_spec window 0); [done|lia].
  - rewrite map_size_empty. destruct (Z.leb_spec maxEntries 0); lia.
Qed.
Lemma backoff_bounds n : 1 <= n → 250 * millisecond <= backoff n <= 8 * second.
Proof.
  intros Hn. unfold backoff. assert (H : 0 <= Z.min (n - 1) 5 <= 5) by lia.
  revert H. generalize (Z.min (n - 1) 5) as k. intros k Hk.
  assert (Hin : In k [0; 1; 2; 3; 4; 5]) by (simpl; lia).
  simpl in Hin. unfold second, millisecond. repeat (destruct Hin as [<-|Hin]; [vm_compute; by split|]). done.
Qed.
Lemma fail_key_ok now window a : (∀ x, a = Some x → attempt_ok x) → attempt_ok (fail_key now window a).
Proof.
  intros Ha. unfold fail_key.
  set (b := match a with Some a => _ | None => _ end).
  assert (Hb : 0 <= a_failures b).
  { unfold b. destruct a as [x|]; [|done]. destruct (_ || _); [done|]. destruct (Ha x eq_refl). lia. }
  split; simpl; [lia|]. unfold backoff. f_equal. rewrite Z.shiftl_1_l.
  destruct (5 <? a_failures b + 1 - 1) eqn:E; f_equal; f_equal; lia.
Qed.

Lemma to_key_nonempty ip username : loginKey ip username ≠ "" ∧ accountKey username ≠ "".
Proof. split; [|done]. unfold loginKey. by destruct (to_lower _). Qed.

Lemma record_failure_ok now window m key :
  keys_ok m → (∀ k a, m !! k = Some a → attempt_ok a) → key ≠ "" →
  keys_ok (record_failure now window m key) ∧ (∀ k a, record_failure now window m key !! k = Some a → attempt_ok a).
Proof.
  intros Hk Ha Hne. unfold record_failure. split.
  - intros k [a [[<- _]|[_ Hx]]%lookup_insert_Some]; [done|]. by apply Hk.
  - intros k a [[<- <-]|[_ Hx]]%lookup_insert_Some; [|by eapply Ha].
    apply fail_key_ok. intros x Hx. by eapply Ha.
Qed.

Lemma evict_loop_sub fuel maxEntries m k a :
  evict_loop fuel maxEntries m !! k = Some a → m !! k = Some a.
Proof.
  revert m. induction fuel as [|fuel IH]; intros m H; simpl in H; [done|]. destruct (_ <? _); [|done].
  apply IH in H. unfold evictOldest in H. by apply lookup_delete_Some in H as [_ H].
Qed.

(** The limiter keeps its bounds whatever is thrown at it: after a failure
    there are at most [maxEntries] entries, the eviction loop ends with the
    fuel it has, and every entry waits [250ms * 2^(min(failures-1, 5))], so
    between 250 milliseconds and 8 seconds. *)
Theorem Failure_bounded l now ip username :
  limiter_ok l →
  limiter_ok (Failure l now ip username)
  ∧ ∀ k a, l_entries (Failure l now ip username) !! k = Some a →
      250 * millisecond <= a_next a - a_seen a <= 8 * second.
Proof.
  intros (Hk & Hmax & Hw & Hs & Ha). destruct (to_key_nonempty ip username) as [N1 N2].
  unfold Failure. simpl foldl. set (m1 := record_failure now (l_window l) (l_entries l) (loginKey ip username)).
  destruct (record_failure_ok now (l_window l) _ _ Hk Ha N1) as [K1 A1]. fold m1 in K1, A1.
  destruct (record_failure_ok now (l_window l) _ _ K1 A1 N2) as [K2 A2].
  set (m2 := record_failure now (l_window l) m1 (accountKey username)) in *.
  destruct (evict_loop_bound (size m2) (l_maxEntries l) m2 K2) as [B3 K3]; [lia|done|].
  assert (Hok : ∀ k a, evict_loop (size m2) (l_maxEntries l) m2 !! k = Some a → attempt_ok a).
  { intros k a Hka. eapply A2. by eapply evict_loop_sub. }
  split; [by split_and!|]. intros k a Hka. destruct (Hok k a Hka) as [Hf ->].
  pose proof (backoff_bounds _ Hf). lia.
Qed.

Lemma evict_loop_idle fuel maxEntries m : Z.of_nat (size m) <= maxEntries → evict_loop fuel maxEntries m = m.
Proof. intros H. destruct fuel; simpl; [done|]. by rewrite (proj2 (Z.ltb_ge _ _) H). Qed.
Lemma record_failure_size now window m key : (size (record_failure now window m key) <= S (size m))%nat.
Proof. unfold record_failure. rewrite map_size_insert. destruct (m !! key); simpl; lia. Qed.

Lemma shifted_text (l : string) a b : l +:+ String a "" = String b l → a = b.
Proof.
  revert b. induction l as [|c l IH]; intros b; simpl; [by intros [= ->]|].
  intros [= -> H]. by apply IH.
Qed.
(** The two keys of an attempt differ, whatever the user name and the address. *)
Lemma keys_differ ip username : loginKey ip username ≠ accountKey username.
Proof.
  unfold loginKey, accountKey. generalize (to_lower (trim_space username)) as l. intros l H.
  assert (Hip : ip = "").
  { apply (f_equal String.length) in H. rewrite !string_length_app in H. simpl in H.
    destruct ip; [done|simpl in H; lia]. }
  subst ip. apply shifted_text in H. done.
Qed.

Lemma key_wait_some l now key a :
  l_entries l !! key = Some a → now - a_windowStart a < l_window l → now < a_next a →
  key_wait l now key = a_next a - now.
Proof. intros Ha Hw Hn. unfold key_wait. rewrite Ha, (proj2 (Z.ltb_lt _ _) Hw), (proj2 (Z.ltb_lt _ _) Hn). done. Qed.
Lemma Allow_waits l now ip username : 0 < key_wait l now (accountKey username) → (Allow l now ip username).1 = false.
Proof. intros H. unfold Allow. simpl. apply Z.eqb_neq. cases; lia. Qed.

(** A failed login blocks the account from every address: with [n] failures
    counted in the current window, no attempt for that user name is allowed
    for the next [backoff n], whatever address it comes from, while the window
    lasts and the table has room; and a success for the user name lifts the
    block for the address it came from. *)
Theorem Failure_blocks_account l now ip username ip' t :
  limiter_ok l → Z.of_nat (size (l_entries l)) + 2 <= l_maxEntries l →
  let a := fail_key now (l_window l) (l_entries l !! accountKey username) in
  now <= t < now + backoff (a_failures a) → t - a_windowStart a < l_window l →
  (Allow (Failure l now ip username) t ip' username).1 = false
  ∧ Allow (Success (Failure l now ip username) ip username) t ip username = (true, 0).
Proof.
  intros (Hk & Hmax & Hw & Hs & Ha) Hroom a Ht Hwin.
  assert (Hfail : l_entries (Failure l now ip username) !! accountKey username = Some a).
  { unfold Failure; simpl. rewrite evict_loop_idle.
    - unfold record_failure at 1. rewrite lookup_insert_eq. unfold record_failure.
      by rewrite lookup_insert_ne by apply keys_differ.
    - pose proof (record_failure_size now (l_window l) (l_entries l) (loginKey ip username)).
      pose proof (record_failure_size now (l_window l)
        (record_failure now (l_window l) (l_entries l) (loginKey ip username)) (accountKey username)). lia. }
  destruct (fail_key_ok now (l_window l) (l_entries l !! accountKey username)) as [Hf Hnext]; [by apply Ha|].
  fold a in Hf, Hnext. assert (Hseen : a_seen a = now) by done. split.
  - apply Allow_waits. rewrite (key_wait_some _ _ _ a); [lia|done|done|lia].
  - unfold Allow, Success, key_wait; simpl. rewrite !lookup_delete_eq.
    rewrite lookup_delete_ne by (symmetry; apply keys_differ). by rewrite lookup_delete_eq.
Qed.
End Limiter.
