(* ===== verification/Services.v ===== *)
(** The interfaces the services of [internal/service] call, as type classes of
    operations over a world [W], and what the implementations promise of them.

    A service is proved against these promises; [World.v] discharges them with
    the stores of [Store.v], [Materializer.v] and [TLSStore.v]. *)
From S2P Require Import Prelude GoStrings Domain Config Revisions.

(** [RevisionStore] of [apply.go], with the [Snapshot] method the manager looks
    for on it. *)
Class RevisionStore (W : Type) := {
  ActiveRevision : M W (result string);
  SetActiveRevision : string → M W (option gerror);
  RecordEvent : ApplyEvent → M W (option gerror);
  Snapshot_ : M W (Snapshot * option gerror)
}.
(** [service.Materializer] of [apply.go], [ConfigRevisionStore] of
    [tls_apply.go] with the [Restore] method it looks for. *)
Class ConfigRevisionStore (W : Type) := {
  configs_Apply : Files → M W (result string);
  configs_Rollback : M W (option gerror);
  configs_Restore : option (string → M W (option gerror))   (** [None]: no such method *)
}.
(** [Process] of [apply.go] and [TLSProcess] of [tls_apply.go]. *)
Class Process (W : Type) := {
  process_Restart : string → M W (option gerror);
  process_Reload : M W (option gerror)
}.
(** [UserRepository] of [users.go]. *)
Class UserRepository (W : Type) := {
  repo_Snapshot : M W (Snapshot * option gerror);
  repo_ListUsers : M W (list VPNUser * option gerror);
  repo_UserByID : Z → M W (result VPNUser);
  repo_InsertUser : VPNUser → M W (result Z);
  repo_UpdateUser : VPNUser → M W (option gerror);
  repo_DeleteUser : Z → M W (option gerror)
}.
(** [crypto/rand.Read] of [n] bytes. *)
Class Random (W : Type) := { rand_Read : Z → M W (result string) }.

(** ** What a publication sees of the world

    The revision the database calls active and the two links of the
    configuration store. *)
Record pub_view := mkView {
  v_active : string;
  v_current : option string;
  v_previous : option string
}.
Definition view_set_active (a : string) (v : pub_view) : pub_view := mkView a (v_current v) (v_previous v).
(** [Apply] of a revision: [current] moves to it, [previous] to the old one. *)
Definition view_apply (id : string) (v : pub_view) : pub_view :=
  mkView (v_active v) (Some (target_of id)) (previous_after (target_of id) (v_current v) (v_previous v)).
Definition view_exchange (v : pub_view) : pub_view := mkView (v_active v) (v_previous v) (v_current v).

(** The promises, in the states where the database and the configuration store
    are well formed and no call of the configuration store is made to fail;
    calls of the database and of the process may fail. *)
Class Publication (W : Type) {RS : RevisionStore W} {CS : ConfigRevisionStore W} {P : Process W} := {
  reliable : W → Prop;
  view : W → pub_view;
  revision_of : Files → string;
  ActiveRevision_law w r w' : reliable w → ActiveRevision w = (r, w') →
    reliable w' ∧ view w' = view w ∧ ∀ a, r = Ok a → a = v_active (view w);
  SetActiveRevision_law a w e w' : reliable w → SetActiveRevision a w = (e, w') →
    reliable w' ∧ view w' = match e with None => view_set_active a (view w) | Some _ => view w end;
  RecordEvent_law ev w e w' : reliable w → RecordEvent ev w = (e, w') → reliable w' ∧ view w' = view w;
  Snapshot_law w r w' : reliable w → Snapshot_ w = (r, w') → reliable w' ∧ view w' = view w;
  configs_Apply_law fs w r w' : reliable w → configs_Apply fs w = (r, w') →
    reliable w' ∧ match r with
                  | Ok id => id = revision_of fs ∧ view w' = view_apply id (view w)
                  | Err _ => view w' = view w
                  end;
  configs_Rollback_law w e w' : reliable w → configs_Rollback w = (e, w') →
    reliable w' ∧ if decide (is_Some (v_current (view w)) ∧ is_Some (v_previous (view w)))
                  then e = None ∧ view w' = view_exchange (view w)
                  else e ≠ None ∧ view w' = view w;
  process_Restart_law r w e w' : reliable w → process_Restart r w = (e, w') → reliable w' ∧ view w' = view w;
  process_Reload_law w e w' : reliable w → process_Reload w = (e, w') → reliable w' ∧ view w' = view w
}.

(** ** What a user change sees of the world

    The rows of the user table.  [users_ok] is the well-formedness of the table;
    [users_calm] says that the database is not made to fail. *)

Definition restamp (created updated : Time) (u : VPNUser) : VPNUser :=
  mkVPNUser (User_ID u) (User_Username u) (User_Credential u) (User_Status u) created updated.

Class UserTable (W : Type) {UR : UserRepository W} := {
  users : W → gmap Z VPNUser;
  users_ok : W → Prop;
  users_calm : W → Prop;
  users_rows w id u : users_ok w → users w !! id = Some u → User_ID u = id ∧ valid_status (User_Status u) = true;
  repo_ListUsers_law w us e w' : users_ok w → repo_ListUsers w = ((us, e), w') → users_ok w' ∧ users w' = users w;
  repo_UserByID_law id w r w' : users_ok w → repo_UserByID id w = (r, w') →
    users_ok w' ∧ users w' = users w ∧ (users_calm w → users_calm w') ∧
    match r with Ok u => users w !! id = Some u | Err e => users_calm w → users w !! id = None end;
  repo_InsertUser_law u w r w' : users_ok w → repo_InsertUser u w = (r, w') →
    users_ok w' ∧ (users_calm w → users_calm w') ∧
    match r with
    | Ok id => users w !! id = None ∧ (∀ i x, users w !! i = Some x → User_Username x ≠ User_Username u)
        ∧ ∃ t, users w' = <[id := restamp t t (user_set_ID id u)]> (users w)
    | Err _ => users w' = users w
    end;
  repo_UpdateUser_law u old w e w' : users_ok w → users w !! User_ID u = Some old →
    User_Username u = User_Username old → valid_status (User_Status u) = true →
    repo_UpdateUser u w = (e, w') →
    users_ok w' ∧ (users_calm w → users_calm w' ∧ e = None) ∧
    match e with
    | None => ∃ t, users w' = <[User_ID u := restamp (User_CreatedAt old) t u]> (users w)
    | Some _ => users w' = users w
    end;
  repo_DeleteUser_law id w e w' : users_ok w → repo_DeleteUser id w = (e, w') →
    users_ok w' ∧ (users_calm w → users_calm w' ∧ e = None) ∧
    users w' = match e with None => delete id (users w) | Some _ => users w end
}.
