(* ===== verification/Apply.v ===== *)
(** [internal/service/apply.go]: [ApplyManager], which renders a snapshot,
    publishes it, records it in the database and restarts or reloads the
    endpoint, and undoes all of it when the endpoint refuses.

    The publication lock makes a call of the manager one step of the world. *)
From S2P Require Import Prelude GoStrings Domain Sanitize Config Revisions Services.

(** [ClassifyChange] *)
Definition ClassifyChange (before after : Snapshot) : string :=
  if bool_decide (before = after) then "none"
  else if bool_decide (snap_set_tls "" "" before = snap_set_tls "" "" after) then "sighup"
  else "restart".

Section ApplyManager.
Context {UT : UnicodeTables} {W : Type} {RS : RevisionStore W} {CS : ConfigRevisionStore W} {P : Process W}.

(** The [switch action] on the way forward. *)
Definition run_action (action revision : string) : M W (option gerror) :=
  if bool_decide (action = "restart") then process_Restart revision
  else if bool_decide (action = "sighup") then process_Reload
  else if bool_decide (action = "none") then ret None
  else ret (Some (Errorf ("unknown apply action " +:+ quote action))).

(** The [if action] of the rollback. *)
Definition undo_action (action old : string) : M W (option gerror) :=
  if bool_decide (action = "restart") then process_Restart old
  else if bool_decide (action = "sighup") then process_Reload
  else ret None.

Definition rollback_failed (fileErr dbErr processErr : option gerror) : string :=
  "; rollback files=" +:+ error_v fileErr +:+ " db=" +:+ error_v dbErr +:+ " process=" +:+ error_v processErr.

Definition ApplyManager_apply (snapshot : Snapshot) (action : string) : M W (result string) :=
  let? old := ActiveRevision in
  match Render snapshot with
  | Err e => ret (Err e)
  | Ok rendered =>
    let? revision := configs_Apply rendered in
    let* dbErr := SetActiveRevision revision in
    match dbErr with
    | Some e => let* _ := configs_Rollback in ret (Err e)
    | None =>
      let* err := run_action action revision in
      match err with
      | Some e =>
        let* fileErr := configs_Rollback in
        let* dbErr := SetActiveRevision old in
        let* processErr := undo_action action old in
        let* _ := RecordEvent (apply_event revision "config" action "rollback" (sanitizeError (Some e))) in
        if bool_decide (fileErr = None) && bool_decide (dbErr = None) && bool_decide (processErr = None)
        then ret (Err e)
        else ret (Err (WrapIn "apply: " e (rollback_failed fileErr dbErr processErr)))
      | None =>
        let* _ := RecordEvent (apply_event revision "config" action "success" "") in
        ret (Ok revision)
      end
    end
  end.

(** [ApplyCurrentLocked]: the snapshot is read under the lock, from the method the
    manager looks for on its store. *)
Definition ApplyManager_ApplyCurrentLocked (method : option (M W (Snapshot * option gerror))) (action : string) :
    M W (result string) :=
  match method with
  | None => ret (Err (Errorf "current snapshot is unavailable"))
  | Some read =>
    let* s := read in
    match s with
    | (_, Some e) => ret (Err e)
    | (snapshot, None) => ApplyManager_apply snapshot action
    end
  end.
(** [ApplyCurrent] over a store with the method, as the database is. *)
Definition ApplyManager_ApplyCurrent : string → M W (result string) :=
  ApplyManager_ApplyCurrentLocked (Some Snapshot_).

(** ** What a publication does to the world *)

Context {PUB : Publication W}.

Lemma run_action_law action revision w e w' :
  reliable w → run_action action revision w = (e, w') →
  reliable w' ∧ view w' = view w ∧ (e = None → action ∈ ["restart"; "sighup"; "none"]).
Proof.
  intros Hr H. unfold run_action in H. repeat case_bool_decide; subst.
  - apply process_Restart_law in H as [? ?]; [|done]. split_and!; [done..|set_solver].
  - apply process_Reload_law in H as [? ?]; [|done]. split_and!; [done..|set_solver].
  - run_ret H. split_and!; [done..|set_solver].
  - run_ret H. done.
Qed.
Lemma undo_action_law action old w e w' :
  reliable w → undo_action action old w = (e, w') → reliable w' ∧ view w' = view w.
Proof.
  intros Hr H. unfold undo_action in H. repeat case_bool_decide; subst.
  - by apply process_Restart_law in H.
  - by apply process_Reload_law in H.
  - by run_ret H.
Qed.


(** Whatever it returns, a publication keeps the stores well formed. *)
Definition reliable_kept (w w' : W) : Prop := reliable w → reliable w'.
#[local] Instance reliable_kept_preorder : PreOrder reliable_kept.
Proof. unfold reliable_kept. split; [by intros ?|intros a b c; auto]. Qed.
Lemma apply_keeps_reliable snapshot action w r w' :
  reliable w → ApplyManager_apply snapshot action w = (r, w') → reliable w'.
Proof.
  intros Hr H. revert Hr. change (reliable_kept w w'). revert H. generalize w, r, w'. clear w r w'.
  change (preserves reliable_kept (ApplyManager_apply snapshot action)). unfold ApplyManager_apply.
  walk; intros ? ? ? Hrun Hrel; first [by eapply ActiveRevision_law|by eapply configs_Apply_law|by eapply SetActiveRevision_law
    |by eapply configs_Rollback_law|by eapply run_action_law|by eapply undo_action_law|by eapply RecordEvent_law].
Qed.

(** The files an error of the publication left behind are those of before. *)
Lemma rollback_restores rev v :
  is_Some (v_current v) → v_current v ≠ Some (target_of rev) →
  v_current (view_exchange (view_apply rev v)) = v_current v.
Proof.
  intros [c Hc] Hne. unfold view_exchange, view_apply, previous_after. simpl.
  rewrite decide_False by done. by rewrite Hc.
Qed.

(** The error of a rollback that did not succeed. *)
Definition rollback_error (e : gerror) : Prop :=
  ∃ c f d p, e = WrapIn "apply: " c (rollback_failed f d p) ∧ (f ≠ None ∨ d ≠ None ∨ p ≠ None).

End ApplyManager.
