(* ===== verification/Users.v ===== *)
(** [internal/service/users.go]: [UserManager], the life cycle of a VPN user.
    Every change is written to the repository, published with a restart of the
    endpoint, and written back when the publication fails.

    The manager's lock and the shared publication lock make a call one step of
    the world. *)
From S2P Require Import Prelude GoStrings Quote Base64 Domain Config Services.

(** [type CreatedUser struct] *)
Record CreatedUser := mkCreatedUser { Created_User : VPNUser; Created_Password : string }.

Definition revoked_credential : string := "revoked-credential-not-exported".

(** [SnapshotApplier], with the two methods the manager looks for on it. *)
Record SnapshotApplier (W : Type) := mkSnapshotApplier {
  sa_Apply : Snapshot → string → M W (result string);
  sa_ApplyCurrent : option (string → M W (result string));   (** [None]: no such method *)
  sa_ApplyCurrentLocked : option (string → M W (result string))
}.
Arguments mkSnapshotApplier {W} _ _ _.
Arguments sa_Apply {W} _ _ _.
Arguments sa_ApplyCurrent {W} _.
Arguments sa_ApplyCurrentLocked {W} _.
(** The manager's settings: whether it was given the lock of the publications, and
    the applier. *)
Record UserManager (W : Type) := mkUserManager { um_applyLock : bool; um_apply : SnapshotApplier W }.
Arguments mkUserManager {W} _ _.
Arguments um_applyLock {W} _.
Arguments um_apply {W} _.
Definition NewUserManager {W} (apply : SnapshotApplier W) : UserManager W := mkUserManager false apply.
Definition UserManager_SetApplyLock {W} (m : UserManager W) : UserManager W := mkUserManager true (um_apply m).

Section UserManager.
Context {W : Type} {UR : UserRepository W} {RND : Random W}.
Variable manager : UserManager W.

(** [userNameRE] is the pattern of [config.go]. *)
Definition userNameRE (s : string) : bool := usernameRE s.

Definition randomCredential : M W (result string) :=
  let? raw := rand_Read 24 in
  ret (Ok (b64_encode RawURL raw)).

(** The publication [applyCurrent] asks for: the snapshot under the shared lock
    when the manager has it, else [ApplyCurrent], else a snapshot of its own. *)
Definition apply_current (action : string) : M W (result string) :=
  match (if um_applyLock manager then sa_ApplyCurrentLocked (um_apply manager) else None) with
  | Some current => current action
  | None =>
    match sa_ApplyCurrent (um_apply manager) with
    | Some current => current action
    | None =>
      let* s := repo_Snapshot in
      match s with
      | (_, Some e) => ret (Err e)
      | (snap, None) => sa_Apply (um_apply manager) snap action
      end
    end
  end.
Definition applyCurrent : M W (option gerror) :=
  let* r := apply_current "restart" in
  ret (match r with Ok _ => None | Err e => Some e end).

(** [List]: the credentials are erased from whatever was read. *)
Definition UserManager_List : M W (list VPNUser * option gerror) :=
  let* r := repo_ListUsers in
  ret (user_set_Credential "" <$> r.1, r.2).

Definition UserManager_Create (username : string) : M W (result CreatedUser) :=
  if negb (userNameRE username) then ret (Err (Errorf "invalid username"))
  else
    let? password := randomCredential in
    let user := mkVPNUser 0 username password UserActive 0 0 in
    let? id := repo_InsertUser user in
    let user := user_set_ID id user in
    let* err := applyCurrent in
    match err with
    | Some e => let* _ := repo_DeleteUser id in ret (Err e)
    | None => ret (Ok (mkCreatedUser (user_set_Credential "" user) password))
    end.

(** [mutate]: [change] is the closure, run on a copy of the row, which may draw
    random bytes.  With the error comes the changed copy, when [change] made
    one: it is what the closures of the callers captured. *)
Definition mutate (id : Z) (change : VPNUser → M W (result VPNUser)) :
    M W (option VPNUser * option gerror) :=
  let* r := repo_UserByID id in
  match r with
  | Err e => ret (None, Some (if errors_is e ErrNoRows then Errorf "user not found" else e))
  | Ok before =>
    let* r := change before in
    match r with
    | Err e => ret (None, Some e)
    | Ok after =>
      let* err := repo_UpdateUser after in
      match err with
      | Some e => ret (Some after, Some e)
      | None =>
        let* err := applyCurrent in
        match err with
        | Some e => let* _ := repo_UpdateUser before in ret (Some after, Some e)
        | None => ret (Some after, None)
        end
      end
    end
  end.

Definition change_status (st : UserStatus) (u : VPNUser) : M W (result VPNUser) :=
  if bool_decide (User_Status u = UserRevoked) then ret (Err ErrRevokedUser)
  else ret (Ok (user_set_Status st u)).
Definition change_revoke (u : VPNUser) : M W (result VPNUser) :=
  if bool_decide (User_Status u = UserRevoked) then ret (Err ErrRevokedUser)
  else ret (Ok (user_set_Credential revoked_credential (user_set_Status UserRevoked u))).
Definition change_credential (u : VPNUser) : M W (result VPNUser) :=
  if negb (bool_decide (User_Status u = UserActive))
  then ret (Err (Errorf "only active users can rotate credentials"))
  else
    let? password := randomCredential in
    ret (Ok (user_set_Credential password u)).

Definition UserManager_Enable (id : Z) : M W (option gerror) :=
  let* r := mutate id (change_status UserActive) in ret r.2.
Definition UserManager_Disable (id : Z) : M W (option gerror) :=
  let* r := mutate id (change_status UserDisabled) in ret r.2.
Definition UserManager_Revoke (id : Z) : M W (option gerror) :=
  let* r := mutate id change_revoke in ret r.2.
Definition UserManager_Rotate (id : Z) : M W (string * option gerror) :=
  let* r := mutate id change_credential in
  ret (match r.1 with Some u => User_Credential u | None => "" end, r.2).

(** ** Properties *)

Context {UT : UserTable W}.
Hypothesis apply_current_law : ∀ action w r w',
  users_ok w → apply_current action w = (r, w') →
  users_ok w' ∧ users w' = users w ∧ (users_calm w → users_calm w').
Hypothesis rand_Read_law : ∀ n w r w',
  0 <= n → users_ok w → rand_Read n w = (r, w') →
  users_ok w' ∧ users w' = users w ∧ (users_calm w → users_calm w') ∧ (∀ s, r = Ok s → len s = n).

(** Rows that differ at most in [UpdatedAt]. *)
Definition unstamped (u : VPNUser) : VPNUser := restamp (User_CreatedAt u) 0 u.
Definition same_users (m m' : gmap Z VPNUser) : Prop := unstamped <$> m' = unstamped <$> m.
#[export] Instance same_users_equiv : Equivalence same_users.
Proof. unfold same_users. split; [by intros ?|by intros ??|intros ???; congruence]. Qed.

Lemma randomCredential_law w r w' :
  users_ok w → randomCredential w = (r, w') →
  users_ok w' ∧ users w' = users w ∧ (users_calm w → users_calm w') ∧ (∀ p, r = Ok p → len p = 32).
Proof.
  intros Ho H. unfold randomCredential in H. run_bind H. apply rand_Read_law in E as (? & ? & ? & Hl); [|done|done].
  destruct a as [raw|]; run_ret H; split_and!; try done.
  intros p [= <-]. rewrite b64_encode_length, (Hl _ eq_refl). done.
Qed.

Lemma applyCurrent_law w e w' :
  users_ok w → applyCurrent w = (e, w') → users_ok w' ∧ users w' = users w ∧ (users_calm w → users_calm w').
Proof. intros Ho H. unfold applyCurrent in H. run_bind H. run_ret H. by eapply apply_current_law. Qed.

(** What a closure given to [mutate] may do. *)
Record changes (change : VPNUser → M W (result VPNUser)) (R : VPNUser → VPNUser → Prop) : Prop := {
  ch_world : ∀ u w r w', users_ok w → change u w = (r, w') →
    users_ok w' ∧ users w' = users w ∧ (users_calm w → users_calm w');
  ch_rel : ∀ u w u' w', users_ok w → change u w = (Ok u', w') → R u u';
  ch_keeps : ∀ u u', R u u' →
    User_ID u' = User_ID u ∧ User_Username u' = User_Username u ∧ User_CreatedAt u' = User_CreatedAt u
    ∧ valid_status (User_Status u') = true
}.

Lemma mutate_law id change R w r w' :
  changes change R → users_ok w → mutate id change w = (r, w') →
  users_ok w' ∧
  match r.2 with
  | None => ∃ u u' t, users w !! id = Some u ∧ R u u' ∧ r.1 = Some u'
      ∧ users w' = <[id := restamp (User_CreatedAt u) t u']> (users w)
  | Some e =>
    (users_calm w → same_users (users w) (users w') ∧ users_calm w') ∧
    (same_users (users w) (users w') ∨
     ∃ u u' t, users w !! id = Some u ∧ R u u' ∧ users w' = <[id := restamp (User_CreatedAt u) t u']> (users w))
  end.
Proof.
  intros [Hw Hrel Hk] Ho H. unfold mutate in H.
  run_bind H. apply repo_UserByID_law in E as (O1 & U1 & C1 & Hr1); [|done].
  destruct a as [u|e]; cycle 1.
  { run_ret H. rewrite U1. split; [done|]. simpl. split; [by split; auto|by left]. }
  run_bind H. destruct (Hw _ _ _ _ O1 E) as (O2 & U2 & C2).
  destruct a as [u'|e]; cycle 1.
  { run_ret H. rewrite U2, U1. split; [done|]. simpl. split; [by split; auto|by left]. }
  apply Hrel in E; [|done]. destruct (Hk _ _ E) as (Hid & Hn & Hc & Hst).
  destruct (users_rows _ _ _ Ho Hr1) as [Hidu Hstu].
  run_bind H. apply (repo_UpdateUser_law u' u) in E0 as (O3 & C3 & U3); [|done|by rewrite U2, U1, Hid, Hidu|done|done].
  rewrite U2, U1 in U3. rewrite Hid, Hidu in U3.
  destruct a as [e|]; cycle 1.
  2: { run_ret H. rewrite U3. split; [done|]. simpl. split; [|by left]. intros Hcw.
       split; [done|]. by apply C3, C2, C1. }
  destruct U3 as [t U3].
  run_bind H. apply applyCurrent_law in E0 as (O4 & U4 & C4); [|done].
  destruct a as [e|]; [|run_ret H; split; [done|]; simpl; rewrite U4, U3; eauto 10].
  assert (Hin : users w3 !! User_ID u = Some (restamp (User_CreatedAt u) t u')).
  { rewrite U4, U3, Hidu. apply lookup_insert_eq. }
  run_bind H. apply (repo_UpdateUser_law u _ _ _ _ O4 Hin) in E0 as (O5 & C5 & U5); [|done|done].
  run_ret H. split; [done|]. simpl.
  assert (Hsame : a = None → same_users (users w) (users w')).
  { intros ->. destruct U5 as [t' U5]. rewrite U5, U4, U3. unfold same_users.
    rewrite !fmap_insert, insert_insert_eq. apply insert_id. rewrite lookup_fmap, Hr1. done. }
  split.
  - intros Hcw. destruct C5 as [Hcw' ->]; [by apply C4, C3, C2, C1|]. auto.
  - destruct a as [e'|]; [right|left; by auto]. rewrite U5, U4, U3. eauto 10.
Qed.
(** ** Create *)

(** [Create] adds exactly one active row, under a fresh id, with a valid name
    no other row has and a 32-byte credential that it returns once and not in
    the user; when it fails and the database does not, no row is left behind. *)
Theorem Create_adds_one username w r w' :
  users_ok w → UserManager_Create username w = (r, w') →
  users_ok w' ∧
  match r with
  | Ok c =>
    let id := User_ID (Created_User c) in
    userNameRE username = true ∧ users w !! id = None
    ∧ (∀ i x, users w !! i = Some x → User_Username x ≠ username)
    ∧ User_Credential (Created_User c) = "" ∧ len (Created_Password c) = 32
    ∧ ∃ t, users w' = <[id := mkVPNUser id username (Created_Password c) UserActive t t]> (users w)
  | Err _ => users_calm w → users w' = users w
  end.
Proof.
  intros Ho H. unfold UserManager_Create in H.
  destruct (userNameRE username); [|by run_ret H]. simpl in H.
  run_bind H. apply randomCredential_law in E as (O1 & U1 & C1 & Hl); [|done].
  destruct a as [password|]; [|by run_ret H].
  run_bind H. apply repo_InsertUser_law in E as (O2 & C2 & U2); [|done].
  destruct a as [id|]; [|run_ret H; rewrite U2, U1; done].
  destruct U2 as (Hfresh & Hname & t & U2). rewrite U1 in *.
  run_bind H. apply applyCurrent_law in E as (O3 & U3 & C3); [|done].
  destruct a as [e|].
  - run_bind H. apply repo_DeleteUser_law in E as (O4 & C4 & U4); [|done]. run_ret H.
    split; [done|]. intros Hcw. destruct C4 as [_ ->]; [by auto|].
    rewrite U4, U3, U2. by apply delete_insert_id.
  - run_ret H. split; [done|]. simpl. split_and!; [done|done|done|done|by apply Hl|].
    exists t. by rewrite U3, U2.
Qed.

(** ** Changes of one user *)

Inductive mutation : Type := Enable | Disable | Revoke.
Definition run_mutation (mu : mutation) (id : Z) : M W (option gerror) :=
  match mu with
  | Enable => UserManager_Enable id
  | Disable => UserManager_Disable id
  | Revoke => UserManager_Revoke id
  end.
(** The row it asks for. *)
Definition mutated (mu : mutation) (u : VPNUser) : VPNUser :=
  match mu with
  | Enable => user_set_Status UserActive u
  | Disable => user_set_Status UserDisabled u
  | Revoke => user_set_Credential revoked_credential (user_set_Status UserRevoked u)
  end.
Definition mutation_change (mu : mutation) : VPNUser → M W (result VPNUser) :=
  match mu with
  | Enable => change_status UserActive
  | Disable => change_status UserDisabled
  | Revoke => change_revoke
  end.
Lemma run_mutation_eq mu id w :
  run_mutation mu id w = let '(r, w') := mutate id (mutation_change mu) w in (r.2, w').
Proof. by destruct mu. Qed.

Definition mutation_rel (mu : mutation) (u u' : VPNUser) : Prop :=
  User_Status u ≠ UserRevoked ∧ u' = mutated mu u.
Lemma mutation_changes mu : changes (mutation_change mu) (mutation_rel mu).
Proof.
  split.
  - intros u w r w' Ho. destruct mu; simpl; unfold change_status, change_revoke; case_bool_decide; intros [= <- <-]; done.
  - intros u w u' w' Ho. destruct mu; simpl; unfold change_status, change_revoke; case_bool_decide; intros [= <- <-]; done.
  - intros u u' [_ ->]. by destruct mu.
Qed.

Definition rotation_rel (u u' : VPNUser) : Prop :=
  User_Status u = UserActive ∧ ∃ p, len p = 32 ∧ u' = user_set_Credential p u.
Lemma rotation_changes : changes change_credential rotation_rel.
Proof.
  split.
  - intros u w r w' Ho H. unfold change_credential in H. case_bool_decide; [|by run_ret H].
    simpl in H. run_bind H. apply randomCredential_law in E as (? & ? & ? & _); [|done].
    by destruct a; run_ret H.
  - intros u w u' w' Ho H. unfold change_credential in H. case_bool_decide as Ha; [|run_absurd H].
    simpl in H. run_bind H. apply randomCredential_law in E as (_ & _ & _ & Hl); [|done].
    destruct a as [p|]; [run_ret H|run_absurd H]. split; [done|]. exists p. split; [by apply Hl|done].
  - intros u u' [Ha (p & _ & ->)]. simpl. rewrite Ha. done.
Qed.

(** C26. [Enable], [Disable] and [Revoke] are all or nothing: success changes the
    named row, which was not revoked, to the asked status (and a revoked one to
    the credential that is never exported) and no other row; an error, when the
    database itself does not fail, leaves every row as it was but for its time
    stamp. *)
Theorem mutation_atomic mu id w e w' :
  users_ok w → run_mutation mu id w = (e, w') →
  users_ok w' ∧
  match e with
  | None => ∃ u t, users w !! id = Some u ∧ User_Status u ≠ UserRevoked
      ∧ users w' = <[id := restamp (User_CreatedAt u) t (mutated mu u)]> (users w)
  | Some _ => users_calm w → same_users (users w) (users w')
  end.
Proof.
  intros Ho. rewrite run_mutation_eq. destruct (mutate _ _ w) as [r w1] eqn:E. intros [= <- <-].
  destruct (mutate_law _ _ _ _ _ _ (mutation_changes mu) Ho E) as [O1 H]. split; [done|].
  destruct r.2; [naive_solver|]. destruct H as (u & u' & t & Hu & [Hst ->] & _ & ->). eauto.
Qed.

(** [Rotate] replaces the credential of an active user, and only that: the
    32-byte password it returns with success is the one stored; an error, when
    the database does not fail, leaves the old credential in force. *)
Lemma Rotate_atomic id w p e w' :
  users_ok w → UserManager_Rotate id w = ((p, e), w') →
  users_ok w' ∧
  match e with
  | None => ∃ u t, users w !! id = Some u ∧ User_Status u = UserActive ∧ len p = 32
      ∧ users w' = <[id := restamp (User_CreatedAt u) t (user_set_Credential p u)]> (users w)
  | Some _ => users_calm w → same_users (users w) (users w')
  end.
Proof.
  intros Ho. unfold UserManager_Rotate, bind, ret. destruct (mutate _ _ w) as [r w1] eqn:E. intros [= <- <- <-].
  destruct (mutate_law _ _ _ _ _ _ rotation_changes Ho E) as [O1 H]. split; [done|].
  destruct r.2; [naive_solver|]. destruct H as (u & u' & t & Hu & [Hst (p & Hl & ->)] & -> & ->).
  simpl. eauto 10.
Qed.

(** ** Revocation is final *)

Inductive user_op : Type :=
| OpCreate (name : string)
| OpMutate (mu : mutation) (id : Z)
| OpRotate (id : Z)
| OpList.
Definition run_op (op : user_op) : M W unit :=
  match op with
  | OpCreate name => let* _ := UserManager_Create name in ret tt
  | OpMutate mu id => let* _ := run_mutation mu id in ret tt
  | OpRotate id => let* _ := UserManager_Rotate id in ret tt
  | OpList => let* _ := UserManager_List in ret tt
  end.
Fixpoint run_ops (ops : list user_op) : M W unit :=
  match ops with
  | [] => ret tt
  | op :: ops' => let* _ := run_op op in run_ops ops'
  end.

(** The row [id] is revoked, with this name and this stored credential. *)
Definition revoked_row (m : gmap Z VPNUser) (id : Z) (name credential : string) : Prop :=
  ∃ u, m !! id = Some u ∧ User_Status u = UserRevoked ∧ User_Username u = name ∧ User_Credential u = credential.

Lemma same_users_revoked m m' id name c : same_users m m' → revoked_row m id name c → revoked_row m' id name c.
Proof.
  intros Hs (u & Hu & Hst & Hn & Hc). unfold same_users in Hs. apply (f_equal (lookup id)) in Hs.
  rewrite !lookup_fmap, Hu in Hs. destruct (m' !! id) as [u'|] eqn:E; [|done].
  exists u'. split; [done|]. injection Hs. intros. split_and!; congruence.
Qed.
Lemma mutate_revoked id' change R w r w' id name c :
  changes change R → (∀ u u', R u u' → User_Status u ≠ UserRevoked) → users_ok w →
  mutate id' change w = (r, w') → revoked_row (users w) id name c →
  users_ok w' ∧ revoked_row (users w') id name c.
Proof.
  intros Hch HR Ho H Hrow. destruct (mutate_law _ _ _ _ _ _ Hch Ho H) as [O1 Hr]. split; [done|].
  assert (Hcase : same_users (users w) (users w') ∨ ∃ u u' t, users w !! id' = Some u ∧ R u u'
            ∧ users w' = <[id' := restamp (User_CreatedAt u) t u']> (users w)) by (destruct r.2; naive_solver).
  destruct Hcase as [Hs|(u & u' & t & Hu & Hru & ->)]; [by eapply same_users_revoked|].
  apply HR in Hru. destruct Hrow as (v & Hv & Hst & ?). exists v. rewrite lookup_insert_ne; [done|].
  intros ->. congruence.
Qed.

(** [Create] touches no existing row, even when its clean-up fails. *)
Lemma Create_frame username w r w' i u :
  users_ok w → UserManager_Create username w = (r, w') → users w !! i = Some u →
  users_ok w' ∧ users w' !! i = Some u.
Proof.
  intros Ho H Hi. unfold UserManager_Create in H. case_match; [by run_ret H|].
  run_bind H. apply randomCredential_law in E as (O1 & U1 & _); [|done].
  destruct a as [password|]; [|run_ret H; by rewrite U1].
  run_bind H. apply repo_InsertUser_law in E as (O2 & _ & U2); [|done].
  destruct a as [id|]; [|run_ret H; by rewrite U2, U1].
  destruct U2 as (Hfresh & _ & t & U2). rewrite U1 in *. assert (i ≠ id) by congruence.
  run_bind H. apply applyCurrent_law in E as (O3 & U3 & _); [|done].
  destruct a as [e|].
  - run_bind H. apply repo_DeleteUser_law in E as (O4 & _ & U4); [|done]. run_ret H. split; [done|].
    rewrite U4. destruct a; [|rewrite lookup_delete_ne by done]; by rewrite U3, U2, lookup_insert_ne.
  - run_ret H. split; [done|]. by rewrite U3, U2, lookup_insert_ne.
Qed.

Lemma run_op_revoked op w w' id name c :
  users_ok w → run_op op w = (tt, w') → revoked_row (users w) id name c →
  users_ok w' ∧ revoked_row (users w') id name c.
Proof.
  intros Ho H Hrow. destruct op as [uname|mu i|i|]; simpl in H; run_bind H; run_ret H.
  - destruct Hrow as (u & Hu & Hx). destruct (Create_frame _ _ _ _ _ _ Ho E Hu) as [O1 H1].
    split; [done|]. by exists u.
  - rewrite run_mutation_eq in E. destruct (mutate _ _ w) as [r w1] eqn:Em. injection E as <- <-.
    eapply mutate_revoked; [apply (mutation_changes mu)| |done..]. by intros u u' [? _].
  - unfold UserManager_Rotate in E. run_bind E. run_ret E.
    eapply mutate_revoked; [apply rotation_changes| |done..]. by intros u u' [-> _].
  - unfold UserManager_List in E. run_bind E. run_ret E. destruct a0 as [us e].
    apply repo_ListUsers_law in E0 as [? ->]; done.
Qed.

(** C27. Revocation is final: no sequence of calls of the manager, whatever fails
    in them, changes the status, the name or the erased credential of a revoked
    user. *)
Theorem revoked_is_final ops w w' id name credential :
  users_ok w → revoked_row (users w) id name credential → run_ops ops w = (tt, w') →
  users_ok w' ∧ revoked_row (users w') id name credential.
Proof.
  revert w. induction ops as [|op ops IH]; intros w Ho Hrow H; [by injection H as <-|].
  simpl in H. run_bind H. destruct a. destruct (run_op_revoked _ _ _ _ _ _ Ho E Hrow). by apply (IH w1).
Qed.
End UserManager.
