(* ===== verification/Entropy.v ===== *)
(** [crypto/rand.Read]: a source of bytes, read in order, with injected failures. *)
From S2P Require Import Prelude GoStrings Services.

Record entropy := mkEntropy {
  en_bytes : nat → ascii;
  en_pos : nat;
  en_faults : list (option gerror)
}.

Definition en_read (n : Z) : M entropy (result string) := λ w,
  match en_faults w with
  | Some e :: q => (Err e, mkEntropy (en_bytes w) (en_pos w) q)
  | q => (Ok (of_chars (en_bytes w <$> seq (en_pos w) (Z.to_nat n))),
          mkEntropy (en_bytes w) (en_pos w + Z.to_nat n) (tail q))
  end.

#[export] Instance entropy_random : Random entropy := { rand_Read := en_read }.

Lemma en_read_length n w s w' : 0 <= n → en_read n w = (Ok s, w') → len s = n.
Proof.
  intros Hn H. assert (Hs : s = of_chars (en_bytes w <$> seq (en_pos w) (Z.to_nat n))).
  { unfold en_read in H. destruct (en_faults w) as [|[e|] q]; congruence. }
  unfold len. rewrite <-chars_length, Hs, chars_of_chars, length_fmap, length_seq. lia.
Qed.
