(* ===== verification/Session.v ===== *)
(** [internal/auth/session.go] and [bootstrap.go]: the administrator's log in,
    the sessions, the change of the password and the first administrator, over
    the statements of [Store.v] and the hashes of [Password.v].

    [s.now()] reads the wall clock the store reads. *)
From S2P Require Import Prelude GoStrings Base64 Sha256 Domain GoTime X509 CertState Store StoreSpec Password.
From S2P Require Import Services Entropy.

(** The database and the random source. *)
Record auth_world := mkAuthWorld { aw_store : store; aw_random : entropy }.
Definition on_store {A} : M store A → M auth_world A :=
  zoom aw_store (λ s w, mkAuthWorld s (aw_random w)).
Definition on_random {A} : M entropy A → M auth_world A :=
  zoom aw_random (λ e w, mkAuthWorld (aw_store w) e).
Definition aw_tables (w : auth_world) : tables := db_tables (aw_store w).
Definition aw_faults (w : auth_world) : list (option gerror) := db_faults (aw_store w).

Record Session := mkSession {
  Session_Token : string;
  Session_Admin : Admin;
  Session_ExpiresAt : Time
}.
Record SessionService := mkSessionService { svc_lifetime : Duration; svc_dummyHash : string }.

Section Sessions.
Context {UT : UnicodeTables} {ARGON : Argon2}.

(** [HashPassword] reads the salt only for a password that passes the rules. *)
Definition hash_password (password : string) : M auth_world (result string) :=
  match ValidatePassword password with
  | Some e => ret (Err e)
  | None => let* salt := on_random (rand_Read ArgonSaltLength) in ret (HashPassword password salt)
  end.

(** [None] is the panic. *)
Definition NewSessionService (lifetime : Duration) : M auth_world (option SessionService) :=
  let* dummy := hash_password "Timing-Equalizer-9!" in
  ret (match dummy with
       | Ok h => Some (mkSessionService (if lifetime <=? 0 then 12 * hour else lifetime) h)
       | Err _ => None
       end).

Definition tokenHash (token : string) : string := sha256_sum token.
Definition newToken : M auth_world (result string) :=
  let? raw := on_random (rand_Read 32) in ret (Ok (b64_encode RawURL raw)).

Definition session_create (s : SessionService) (admin : Admin) : M auth_world (result Session) :=
  let? token := newToken in
  let* now := on_store db_now in
  let expires := now + svc_lifetime s in
  nil? on_store (Store_CreateSession (tokenHash token) (Admin_ID admin) expires) in
  ret (Ok (mkSession token admin expires)).

Definition Login (s : SessionService) (username password : string) : M auth_world (result Session) :=
  let* r := on_store (Store_AdminByUsername username) in
  match r with
  | Err e =>
    if errors_is e ErrNoRows
    then let _ := VerifyPassword (svc_dummyHash s) password in ret (Err ErrInvalidCredentials)
    else ret (Err e)
  | Ok admin =>
    if negb (VerifyPassword (Admin_PasswordHash admin) password) then ret (Err ErrInvalidCredentials)
    else session_create s admin
  end.

Definition Authenticate (token : string) : M auth_world (result Admin) :=
  if bool_decide (token = "") then ret (Err ErrInvalidSession)
  else
    let* now := on_store db_now in
    let* r := on_store (Store_SessionAdmin (tokenHash token) now) in
    ret (match r with
         | Err e => if errors_is e ErrNoRows then Err ErrInvalidSession else Err e
         | Ok admin => Ok admin
         end).

Definition Logout (token : string) : M auth_world (option gerror) :=
  if bool_decide (token = "") then ret None else on_store (Store_DeleteSession (tokenHash token)).

Definition ChangePassword (s : SessionService) (token current next : string) : M auth_world (result Session) :=
  let? admin := Authenticate token in
  if negb (VerifyPassword (Admin_PasswordHash admin) current) then ret (Err ErrInvalidCredentials)
  else
    let? hash := hash_password next in
    nil? on_store (Store_UpdateAdminPassword (Admin_ID admin) hash) in
    session_create s (mkAdmin (Admin_ID admin) (Admin_Username admin) hash).

Definition DeleteAdmin (token password : string) : M auth_world (option gerror) :=
  let* r := Authenticate token in
  match r with
  | Err e => ret (Some e)
  | Ok admin =>
    if negb (VerifyPassword (Admin_PasswordHash admin) password) then ret (Some ErrInvalidCredentials)
    else on_store (Store_DeleteAdmin (Admin_ID admin))
  end.

Definition Bootstrap_Required : M auth_world (bool * option gerror) :=
  let* r := on_store Store_HasAdmin in
  ret (match r with Ok has => (negb has, None) | Err e => (negb false, Some e) end).

Definition Bootstrap (username password : string) : M auth_world (option gerror) :=
  let username := trim_space username in
  if (len username <? 3) || (64 <? len username)
  then ret (Some (Errorf "administrator username must contain 3 to 64 characters"))
  else
    let* hash := hash_password password in
    match hash with
    | Err e => ret (Some e)
    | Ok hash => on_store (Store_CreateFirstAdmin username hash)
    end.
End Sessions.
