(* ===== verification/SessionSpec.v ===== *)
(** What the administrator's sessions guarantee: a log in opens exactly one
    session, which authenticates its token until it expires; a change of the
    password ends every other session; logging out and deleting the
    administrator end theirs; the first administrator is created once. *)
From S2P Require Import Prelude GoStrings Quote Base64 Sha256 Domain GoTime X509 CertState Store StoreSpec.
From S2P Require Import Password Services Entropy Session.

#[local] Arguments session_expired : simpl never.
#[local] Opaque format_time.

(** ** The statements *)

Lemma on_store_inv {A} (m : M store A) w r w' :
  on_store m w = (r, w') → m (aw_store w) = (r, aw_store w').
Proof. unfold on_store, zoom. destruct (m (aw_store w)) as [a s] eqn:E. by intros [= <- <-]. Qed.
Lemma on_random_inv {A} (m : M entropy A) w r w' :
  on_random m w = (r, w') → m (aw_random w) = (r, aw_random w') ∧ aw_store w' = aw_store w.
Proof. unfold on_random, zoom. destruct (m (aw_random w)) as [a s] eqn:E. by intros [= <- <-]. Qed.

Lemma CreateSession_inv hash id expires w e w' :
  Store_CreateSession hash id expires w = (e, w') →
  (db_faults w = [] → db_faults w' = []) ∧
  match e with
  | Some _ => db_tables w' = db_tables w
  | None => is_Some (admin_by_id (db_tables w) id) ∧ ∃ now,
      db_tables w' = put_admin (t_admin (db_tables w))
                       (<[hash := mkSessionRow id expires now]> (t_sessions (db_tables w))) (db_tables w)
  end.
Proof.
  intros H. unfold Store_CreateSession in H. run_bind H. apply db_now_inv in E as [Ht Hf].
  split; [intros Hc; eapply exec_calm; [exact H|congruence]|].
  apply exec_inv in H as [(He & Ht' & _)|H]; [destruct e; congruence|]. rewrite Ht in H.
  destruct (_ || _) eqn:Eb; injection H as <- H; [congruence|].
  apply orb_false_iff in Eb as [_ Eb]. apply bool_decide_eq_false in Eb.
  split; [by apply not_eq_None_Some|]. eauto.
Qed.

(** The sessions that are left after the expired ones were deleted. *)
Definition live_sessions (now : Time) (ss : gmap string SessionRow) : gmap string SessionRow :=
  filter (λ kv, session_expired now kv.2 = false) ss.
Definition session_admin (t : tables) (hash : string) (now : Time) : option Admin :=
  match t_sessions t !! hash with
  | Some s => if session_expired now s then None else admin_by_id t (ses_admin_id s)
  | None => None
  end.
Lemma live_session t hash now :
  session_admin (put_admin (t_admin t) (live_sessions now (t_sessions t)) t) hash now = session_admin t hash now.
Proof.
  unfold session_admin, live_sessions. simpl. rewrite map_lookup_filter.
  destruct (t_sessions t !! hash) as [s|]; simpl; [|done].
  destruct (session_expired now s) eqn:E; [by rewrite option_guard_False by (simpl; congruence)|].
  rewrite option_guard_True by done. simpl. by rewrite E.
Qed.

Lemma SessionAdmin_inv hash now w r w' :
  Store_SessionAdmin hash now w = (r, w') →
  (db_faults w = [] → db_faults w' = [] ∧ r = of_row (session_admin (db_tables w) hash now))
  ∧ (∀ a, r = Ok a → session_admin (db_tables w) hash now = Some a)
  ∧ (db_tables w' = db_tables w
     ∨ db_tables w' = put_admin (t_admin (db_tables w)) (live_sessions now (t_sessions (db_tables w))) (db_tables w)).
Proof.
  intros H. unfold Store_SessionAdmin in H. run_bind H.
  assert (Hc : db_faults w = [] → db_faults w1 = [] ∧ db_faults w' = []).
  { intros Hc. assert (db_faults w1 = []) by by eapply exec_calm. split; [done|]. by eapply stmt_calm. }
  apply query_inv in H as [Ht H].
  assert (Hs : session_admin (db_tables w1) hash now = session_admin (db_tables w) hash now
               ∧ (db_tables w1 = db_tables w ∨ db_tables w1
                    = put_admin (t_admin (db_tables w)) (live_sessions now (t_sessions (db_tables w))) (db_tables w))).
  { apply exec_inv in E as [(_ & -> & _)|E]; [auto|]. injection E as _ <-. split; [apply live_session|by right]. }
  destruct Hs as [Hs Ht1]. rewrite Ht. fold (session_admin (db_tables w1) hash now) in H. rewrite Hs in H.
  split_and!; [|..|done].
  - intros [Hc1 Hc2]%Hc. split; [done|]. by destruct H as [[_ Hq]|H].
  - intros adm ->. destruct H as [[H _]|H]; [done|]. by destruct (session_admin _ _ _); simplify_eq/=.
Qed.

Lemma transaction_inv body w e w' :
  transaction body w = (e, w') →
  match e with
  | Some _ => db_tables w' = db_tables w
  | None => ∃ w1 w2, db_tables w1 = db_tables w ∧ body w1 = (None, w2) ∧ db_tables w' = db_tables w2
  end.
Proof.
  intros H. unfold transaction in H. run_bind H.
  assert (Ht : db_tables w1 = db_tables w).
  { apply exec_inv in E as [(_ & ? & _)|E]; [done|]. by injection E. }
  destruct a; [by run_ret H|]. run_bind H. injection E0 as <- <-. run_bind H.
  destruct a as [e'|].
  - run_bind H. injection E1 as <- <-. by run_ret H.
  - run_ret H. run_bind E0. destruct a as [x|]; [run_absurd E0|]. exists w1. eexists. split_and!; [done|exact E1|]. apply exec_inv in E0 as [(? & _)|E0]; [done|]. by injection E0.
Qed.

Lemma UpdateAdminPassword_inv id hash w w' :
  Store_UpdateAdminPassword id hash w = (None, w') → id = 1 →
  ∃ now, db_tables w' = put_admin
    ((λ a, mkAdminRow (adm_username a) hash (adm_created_at a) now) <$> t_admin (db_tables w))
    (sessions_of_others id (t_sessions (db_tables w))) (db_tables w).
Proof.
  intros H ->. apply transaction_inv in H as (w1 & w2 & Ht & H & ->). run_bind H.
  apply db_now_inv in E as [Ht0 _]. run_bind H. destruct a0; [run_absurd H|].
  apply exec_inv in E as [(? & _)|E]; [done|]. apply exec_inv in H as [(? & _)|H]; [done|].
  simpl in E. injection E as E. injection H as <-. rewrite <-E, Ht0, Ht. by eexists.
Qed.

(** ** Random values and hashes *)

Lemma hash_password_inv `{UnicodeTables, Argon2} password w h w' :
  hash_password password w = (Ok h, w') →
  aw_store w' = aw_store w ∧ ValidatePassword password = None ∧ VerifyPassword h password = true.
Proof.
  unfold hash_password. intros Hr. destruct (ValidatePassword password) as [e|] eqn:Hv; [run_absurd Hr|].
  run_bind Hr. apply on_random_inv in E as [E Hs]. injection Hr as Hr <-.
  unfold HashPassword in Hr. rewrite Hv in Hr. destruct a as [salt|]; [|done]. injection Hr as <-.
  split_and!; [done|done|]. rewrite verify_hash_with; [by apply bool_decide_eq_true|]. by eapply en_read_length in E.
Qed.
Lemma newToken_inv w t w' :
  newToken w = (Ok t, w') → aw_store w' = aw_store w ∧ len t = 43 ∧ t ≠ "".
Proof.
  intros H. unfold newToken in H. run_bind H. apply on_random_inv in E as [E Hs].
  destruct a as [raw|]; [|run_absurd H]. run_ret H. apply en_read_length in E; [|done].
  assert (Hl : len (b64_encode RawURL raw) = 43) by (rewrite b64_encode_length, E; done).
  split_and!; [done|done|]. intros Ht. by rewrite Ht in Hl.
Qed.

(** ** The operations *)

Section Operations.
Context {UT : UnicodeTables} {ARGON : Argon2}.

Lemma session_create_inv s admin w r w' :
  session_create s admin w = (r, w') →
  match r with
  | Err _ => aw_tables w' = aw_tables w
  | Ok sess => Session_Admin sess = admin ∧ Session_Token sess ≠ "" ∧
      is_Some (admin_by_id (aw_tables w) (Admin_ID admin)) ∧
      ∃ now, aw_tables w' = put_admin (t_admin (aw_tables w))
        (<[tokenHash (Session_Token sess) := mkSessionRow (Admin_ID admin) (Session_ExpiresAt sess) now]>
           (t_sessions (aw_tables w))) (aw_tables w)
  end.
Proof.
  intros H. unfold session_create in H. run_bind H. destruct a as [token|e].
  - apply newToken_inv in E as (Hs & _ & Hne). run_bind H. apply on_store_inv in E.
    apply db_now_inv in E as [Ht _]. run_bind H. apply on_store_inv, CreateSession_inv in E as [_ Hc].
    unfold aw_tables. rewrite <-Hs, <-Ht. destruct a0 as [e|]; run_ret H; [done|].
    destruct Hc as (Ha & now & Hc). simpl. split_and!; [done..|]. by exists now.
  - run_ret H. unfold newToken in E. run_bind E. apply on_random_inv in E0 as [_ Hs]. unfold aw_tables.
    destruct a as [raw|]; run_ret E; by rewrite Hs.
Qed.

Lemma Authenticate_inv token w r w' :
  Authenticate token w = (r, w') →
  (token ≠ "" → aw_faults w = [] →
     r = match session_admin (aw_tables w) (tokenHash token) (db_clock (aw_store w)) with
         | Some a => Ok a | None => Err ErrInvalidSession end ∧ aw_faults w' = [])
  ∧ (∀ a, r = Ok a → token ≠ "" ∧ session_admin (aw_tables w) (tokenHash token) (db_clock (aw_store w)) = Some a)
  ∧ (aw_tables w' = aw_tables w ∨ aw_tables w' =
       put_admin (t_admin (aw_tables w)) (live_sessions (db_clock (aw_store w)) (t_sessions (aw_tables w))) (aw_tables w)).
Proof.
  intros H. unfold Authenticate in H. case_bool_decide as Ht.
  { run_ret H. split_and!; [done|by intros|by left]. }
  run_bind H. apply on_store_inv in E. injection E as <- E.
  run_bind H. apply on_store_inv in E0. run_ret H.
  apply SessionAdmin_inv in E0 as (Hc & Hok & Hfr). rewrite <-E in Hc, Hok, Hfr. simpl in Hc, Hok, Hfr.
  split_and!; [|..|done].
  - intros _ [Hf ->]%Hc. split; [|done].
    fold (aw_tables w). by destruct (session_admin (aw_tables w) _ _).
  - intros adm Ha. split; [done|]. apply Hok. destruct a as [x|e]; [|by destruct (errors_is e ErrNoRows)].
    by injection Ha as ->.
Qed.

Lemma admin_by_id_row t id a : admin_by_id t id = Some a → id = 1 ∧ ∃ row, t_admin t = Some row ∧ a = admin_of row.
Proof.
  unfold admin_by_id. destruct (id =? 1) eqn:E; [|done]. destruct (t_admin t) as [row|]; [|done].
  intros [= <-]. split; [lia|eauto].
Qed.

(** C25. Logging in: it succeeds only for the administrator's name and a password
    his hash verifies; then exactly one session is added, under the SHA-256 of
    the returned token, and the token authenticates him as long as the
    database answers and the session has not expired.  A refused or failed log
    in leaves the tables as they were. *)
Theorem Login_opens_one_session s username password w r w' :
  Login s username password w = (r, w') →
  match r with
  | Err _ => aw_tables w' = aw_tables w
  | Ok sess => ∃ row now,
      t_admin (aw_tables w) = Some row ∧ adm_username row = username
      ∧ VerifyPassword (adm_password_hash row) password = true
      ∧ aw_tables w' = put_admin (Some row)
          (<[tokenHash (Session_Token sess) := mkSessionRow 1 (Session_ExpiresAt sess) now]>
             (t_sessions (aw_tables w))) (aw_tables w)
      ∧ (aw_faults w' = [] →
         text_le (format_time (Session_ExpiresAt sess)) (format_time (db_clock (aw_store w'))) = false →
         (Authenticate (Session_Token sess) w').1 = Ok (admin_of row))
  end.
Proof.
  intros H. unfold Login in H. run_bind H. apply on_store_inv, query_inv in E as [Ht Ha].
  assert (Htab : aw_tables w1 = aw_tables w) by done.
  destruct a as [admin|e]; [|by destruct (errors_is e ErrNoRows); run_ret H].
  destruct Ha as [[? _]|Ha]; [done|]. fold (aw_tables w) in Ha.
  destruct (t_admin (aw_tables w)) as [row|] eqn:Erow; [|done]. case_bool_decide as Hu; [|done].
  injection Ha as ->. destruct (VerifyPassword _ _) eqn:Hv; simpl in H; [|by run_ret H].
  apply session_create_inv in H. rewrite Htab in H. destruct r as [sess|e]; [|done].
  destruct H as (Hadm & Hne & _ & now & Htab'). rewrite Erow in Htab'. simpl in Htab'.
  exists row, now. split_and!; [done..|]. intros Hcalm Hlive.
  destruct (Authenticate (Session_Token sess) w') as [r2 w2] eqn:E2.
  apply Authenticate_inv in E2 as (Hok & _). destruct (Hok Hne Hcalm) as [-> _].
  unfold session_admin. rewrite Htab'. simpl. rewrite lookup_insert_eq.
  unfold session_expired. simpl. by rewrite Hlive.
Qed.

(** A token authenticates only through an unexpired row that holds its
    SHA-256, and it authenticates the administrator that exists now; reading
    the sessions removes at most the expired ones. *)
Theorem Authenticate_sound token w a w' :
  Authenticate token w = (Ok a, w') →
  (∃ s row, t_sessions (aw_tables w) !! tokenHash token = Some s
     ∧ session_expired (db_clock (aw_store w)) s = false
     ∧ t_admin (aw_tables w) = Some row ∧ a = admin_of row)
  ∧ (∀ h s, t_sessions (aw_tables w) !! h = Some s → session_expired (db_clock (aw_store w)) s = false →
       t_sessions (aw_tables w') !! h = Some s)
  ∧ t_admin (aw_tables w') = t_admin (aw_tables w).
Proof.
  intros H. apply Authenticate_inv in H as (_ & Hok & Hfr). destruct (Hok a eq_refl) as [_ Hs].
  split.
  - unfold session_admin in Hs. destruct (t_sessions _ !! _) as [s|]; [|done].
    destruct (session_expired _ s) eqn:Es; [done|]. apply admin_by_id_row in Hs as (_ & row & ? & ?). eauto 10.
  - destruct Hfr as [->| ->]; [done|]. split; [|done]. intros h s Hh He. simpl. unfold live_sessions.
    by apply map_lookup_filter_Some.
Qed.

Lemma sessions_of_others_empty t : tables_ok t → sessions_of_others 1 (t_sessions t) = ∅.
Proof.
  intros Hok. apply map_empty. intros h. unfold sessions_of_others. apply map_lookup_filter_None. right.
  intros s Hs. simpl. destruct (ok_sessions _ Hok _ _ Hs). tauto.
Qed.
Lemma live_sessions_ok now t : tables_ok t → tables_ok (put_admin (t_admin t) (live_sessions now (t_sessions t)) t).
Proof. intros H. by apply put_admin_fewer. Qed.


(** Logging out ends the session of the token and no other. *)
Lemma Logout_ends_session token w w' :
  Logout token w = (None, w') → aw_faults w = [] →
  (Authenticate token w').1 = Err ErrInvalidSession
  ∧ (token ≠ "" → aw_tables w'
       = put_admin (t_admin (aw_tables w)) (delete (tokenHash token) (t_sessions (aw_tables w))) (aw_tables w)).
Proof.
  intros H Hcalm. unfold Logout in H. case_bool_decide as Hne.
  { run_ret H. split; [|done]. done. }
  apply on_store_inv in H. assert (Hf : aw_faults w' = []) by by eapply exec_calm.
  apply exec_inv in H as [(? & _)|H]; [done|]. injection H as H. fold (aw_tables w) (aw_tables w') in H.
  split; [|done]. destruct (Authenticate token w') as [r2 w2] eqn:E2. simpl.
  apply Authenticate_inv in E2 as (Hc & _). destruct (Hc Hne Hf) as [-> _].
  unfold session_admin. rewrite <-H. simpl. by rewrite lookup_delete_eq.
Qed.

(** The first administrator is created once: [Bootstrap] succeeds only when
    there is none, under the trimmed name of 3 to 64 bytes and a hash that
    verifies his password, without touching anything else; once he exists every
    further call is refused, and every failure leaves the tables alone. *)
Theorem Bootstrap_once username password w e w' :
  Bootstrap username password w = (e, w') →
  match e with
  | Some _ => aw_tables w' = aw_tables w
  | None => t_admin (aw_tables w) = None ∧ 3 <= len (trim_space username) <= 64
      ∧ ∃ row, aw_tables w' = put_admin (Some row) (t_sessions (aw_tables w)) (aw_tables w)
        ∧ adm_username row = trim_space username ∧ VerifyPassword (adm_password_hash row) password = true
  end.
Proof.
  intros H. unfold Bootstrap in H. destruct (_ || _) eqn:Hl; [by run_ret H|]. run_bind H.
  destruct a as [hash|er].
  - apply hash_password_inv in E as (Hst & _ & Hh). apply on_store_inv, transaction_inv in H.
    unfold aw_tables. rewrite <-Hst. destruct e as [er|]; [done|]. destruct H as (s1 & s2 & Ht & H & ->).
    run_bind H. apply query_inv in E as [Ht1 Hq]. destruct a as [[]|]; [run_absurd H| |run_absurd H].
    run_bind H. apply db_now_inv in E as [Ht2 _].
    apply exec_inv in H as [(? & _)|H]; [done|]. rewrite Ht2, Ht1, Ht in H.
    destruct (t_admin (db_tables (aw_store w1))) eqn:Ea; [done|]. injection H as <-.
    split_and!; [done|lia|lia|]. by eexists.
  - run_ret H. unfold hash_password in E. destruct (ValidatePassword password); [by run_ret E|].
    run_bind E. apply on_random_inv in E0 as [_ Hs]. injection E as _ <-. unfold aw_tables. by rewrite Hs.
Qed.

(** Deleting the administrator needs his session and password, and leaves
    neither an administrator nor a session: the control plane is back to the
    state in which [Required] asks for the first administrator. *)
Theorem DeleteAdmin_resets token password w w' :
  tables_ok (aw_tables w) → DeleteAdmin token password w = (None, w') →
  (∃ row, t_admin (aw_tables w) = Some row ∧ VerifyPassword (adm_password_hash row) password = true)
  ∧ t_admin (aw_tables w') = None ∧ t_sessions (aw_tables w') = ∅
  ∧ (aw_faults w' = [] → (Bootstrap_Required w').1 = (true, None)).
Proof.
  intros Hok H. unfold DeleteAdmin in H. run_bind H. destruct a as [admin|]; [|run_absurd H].
  apply Authenticate_inv in E as (_ & Hsound & Hfr). destruct (Hsound _ eq_refl) as [_ Hs].
  unfold session_admin in Hs. destruct (t_sessions (aw_tables w) !! _) as [s0|]; [|done].
  destruct (session_expired _ s0); [done|]. apply admin_by_id_row in Hs as (_ & row & Hrow & ->).
  assert (Hok1 : tables_ok (aw_tables w1)) by (destruct Hfr as [->| ->]; [done|by apply live_sessions_ok]).
  destruct (VerifyPassword _ _) eqn:Hv in H; [simpl in H|run_absurd H].
  apply on_store_inv, exec_inv in H as [(? & _)|H]; [done|]. simpl in H. injection H as H.
  fold (aw_tables w1) (aw_tables w') in H. rewrite sessions_of_others_empty in H by done.
  assert (Hadm : t_admin (aw_tables w') = None) by by rewrite <-H.
  split_and!; [by eauto|done|by rewrite <-H|]. intros Hcalm.
  unfold Bootstrap_Required, bind, on_store, zoom, Store_HasAdmin, query, stmt.
  unfold aw_faults in Hcalm. rewrite Hcalm. simpl. fold (aw_tables w'). by rewrite Hadm.
Qed.
End Operations.
