(* ===== verification/TLSService.v ===== *)
(** [internal/service/tls_apply.go]: [TLSCoordinator], which publishes a key pair
    together with a configuration that names it, reloads the endpoint, and puts
    both stores and the database back when a step fails; [RevertLast] and
    [CompletePublished] end the publication.

    The coordinator's lock and the shared publication lock make a call one step
    of the world. *)
From S2P Require Import Prelude GoStrings GoPath Domain Sanitize Config FileSys Revisions X509 TLSStore.
From S2P Require Import Services.

Class TLSRevisionStore (W : Type) := {
  tls_Publish : Bundle → M W (result Published);
  tls_Rollback : M W (option gerror);
  tls_Restore : option (string → M W (option gerror))   (** [None]: no such method *)
}.
(** The interface [AdminCertificate]; [P] is [*tls.Certificate]. *)
Record AdminCertificate (W P : Type) := mkAdminCertificate {
  admin_Prepare : Published → M W (result P);
  admin_Activate : option P → M W unit
}.
Arguments admin_Prepare {W P} _ _.
Arguments admin_Activate {W P} _ _.

Record tlsPublication (P : Type) := mkTlsPublication {
  pub_oldConfig : string;
  pub_oldTLS : string;
  pub_newConfig : string;
  pub_action : string;
  pub_activeUser : bool;
  pub_adminPair : option P
}.
Arguments mkTlsPublication {P} _ _ _ _ _ _.
Arguments pub_oldConfig {P} _.
Arguments pub_oldTLS {P} _.
Arguments pub_newConfig {P} _.
Arguments pub_action {P} _.
Arguments pub_activeUser {P} _.
Arguments pub_adminPair {P} _.

(** The coordinator's [pending] field, beside the rest of the world. *)
Record coord (W P : Type) := mkCoord { co_env : W; co_pending : option (tlsPublication P) }.
Arguments mkCoord {W P} _ _.
Arguments co_env {W P} _.
Arguments co_pending {W P} _.

(** The readiness check of the coordinator, and the coordinator with nothing pending. *)
Definition NewTLSCoordinator {W P : Type} (w : W) (ready : option (M W (option gerror))) : M W (option gerror) * coord W P :=
  (match ready with None => ret None | Some check => check end, mkCoord w None).

Section TLSCoordinator.
Context {UT : UnicodeTables} {W P : Type}.
Context {RS : RevisionStore W} {CS : ConfigRevisionStore W} {PR : Process W} {TS : TLSRevisionStore W}.
(** [c.ready], the constant nil function when none was given, and [c.admin]. *)
Variable ready : M W (option gerror).
Variable admin : option (AdminCertificate W P).

Definition env {A} (m : M W A) : M (coord W P) A :=
  zoom co_env (λ w c, mkCoord w (co_pending c)) m.
Definition set_pending (p : option (tlsPublication P)) : M (coord W P) unit :=
  modify (λ c, mkCoord (co_env c) p).

Definition restoreConfig (revision : string) : M W (option gerror) :=
  match configs_Restore with Some restore => restore revision | None => configs_Rollback end.
Definition restoreTLS (revision : string) : M W (option gerror) :=
  match tls_Restore with Some restore => restore revision | None => tls_Rollback end.

(** The revision a snapshot's certificate belongs to. *)
Definition old_tls (s : Snapshot) : string :=
  if bool_decide (Snap_TLSCertificatePath s = "") then "" else base_name (dir_name (Snap_TLSCertificatePath s)).
Definition active_user (s : Snapshot) : bool :=
  existsb (λ u, bool_decide (User_Status u = UserActive)) (Snap_Users s).

Definition tls_rollback_failed (configErr tlsErr dbErr reloadErr readyErr : option gerror) : string :=
  "; rollback config=" +:+ error_v configErr +:+ " tls=" +:+ error_v tlsErr +:+ " db=" +:+ error_v dbErr
  +:+ " reload=" +:+ error_v reloadErr +:+ " ready=" +:+ error_v readyErr.

(** [errors.Join(...) != nil] *)
Definition any_error (es : list (option gerror)) : bool := existsb (λ e, negb (bool_decide (e = None))) es.

(** The [if c.admin != nil]. *)
Definition prepare_admin (p : Published) : M W (result (option P)) :=
  match admin with
  | None => ret (Ok None)
  | Some a => let? cert := admin_Prepare a p in ret (Ok (Some cert))
  end.
(** [c.process.Reload] and, when it succeeded, [c.ready]. *)
Definition reload_ready : M W (option gerror * option gerror) :=
  let* reloadErr := process_Reload in
  match reloadErr with
  | Some e => ret (Some e, None)
  | None => let* readyErr := ready in ret (None, readyErr)
  end.

(** [Publish]: the publication that becomes pending comes with its result.  The
    deferred [restoreTLS] runs on the returns between [tls.Publish] and the
    end; the last part restores by itself. *)
Definition abandon (oldTLS : string) (e : gerror) : M W (result (Published * tlsPublication P)) :=
  let* _ := restoreTLS oldTLS in ret (Err e).
Definition abandon_both (oldConfig oldTLS : string) (e : gerror) : M W (result (Published * tlsPublication P)) :=
  let* _ := restoreConfig oldConfig in abandon oldTLS e.

Definition roll_back (oldConfig oldTLS configRevision : string) (primaryErr : gerror) :
    M W (result (Published * tlsPublication P)) :=
  let* configErr := restoreConfig oldConfig in
  let* tlsErr := restoreTLS oldTLS in
  let* dbErr := SetActiveRevision oldConfig in
  let* rr := reload_ready in
  let* _ := RecordEvent (apply_event configRevision "tls" "sighup" "rollback" (sanitizeError (Some primaryErr))) in
  if any_error [configErr; tlsErr; dbErr; rr.1; rr.2]
  then ret (Err (WrapIn "TLS reload failed: " primaryErr (tls_rollback_failed configErr tlsErr dbErr rr.1 rr.2)))
  else ret (Err (Wrapf "TLS reload failed and was rolled back" primaryErr)).

Definition publish_pair (bundle : Bundle) : M W (result (Published * tlsPublication P)) :=
  let? oldConfig := ActiveRevision in
  let* s := Snapshot_ in
  match s with
  | (_, Some e) => ret (Err e)
  | (snapshot, None) =>
    let oldTLS := old_tls snapshot in
    let? published := tls_Publish bundle in
    let* prepared := prepare_admin published in
    match prepared with
    | Err e => abandon oldTLS e
    | Ok adminPair =>
      match Render (snap_set_tls (Pub_CertificatePath published) (Pub_PrivateKeyPath published) snapshot) with
      | Err e => abandon oldTLS e
      | Ok files =>
        let* applied := configs_Apply files in
        match applied with
        | Err e => abandon_both oldConfig oldTLS e
        | Ok configRevision =>
          let* dbErr := SetActiveRevision configRevision in
          match dbErr with
          | Some e => abandon_both oldConfig oldTLS e
          | None =>
            if negb (active_user snapshot)
            then ret (Ok (published, mkTlsPublication oldConfig oldTLS configRevision "none" false adminPair))
            else
              let* rr := reload_ready in
              match errors_join rr.1 rr.2 with
              | None => ret (Ok (published, mkTlsPublication oldConfig oldTLS configRevision "sighup" true adminPair))
              | Some primaryErr => roll_back oldConfig oldTLS configRevision primaryErr
              end
          end
        end
      end
    end
  end.

Definition TLSCoordinator_Publish (bundle : Bundle) : M (coord W P) (result Published) :=
  let? r := env (publish_pair bundle) in
  let* _ := set_pending (Some r.2) in
  ret (Ok r.1).

(** The part of [RevertLast] below the test of [pending]. *)
Definition revert (old : tlsPublication P) : M W (option gerror) :=
  let* configErr := restoreConfig (pub_oldConfig old) in
  let* tlsErr := restoreTLS (pub_oldTLS old) in
  let* dbErr := SetActiveRevision (pub_oldConfig old) in
  let* processErr :=
    (if pub_activeUser old && negb (any_error [configErr; tlsErr; dbErr])
     then let* rr := reload_ready in ret (errors_join rr.1 rr.2)
     else ret None) in
  let* _ := RecordEvent (apply_event (pub_newConfig old) "tls" (pub_action old) "rollback"
                           "TLS metadata publication failed") in
  ret (errors_join (errors_join (errors_join configErr tlsErr) dbErr) processErr).
Definition RevertLast : M (coord W P) (option gerror) :=
  let* p := gets co_pending in
  match p with
  | None => ret (Some (Errorf "no pending TLS publication"))
  | Some old => let* _ := set_pending None in env (revert old)
  end.

Definition CompletePublished : M (coord W P) unit :=
  let* p := gets co_pending in
  let* _ := (match p with
             | Some old =>
               let* _ := (match admin with
                          | Some a => env (admin_Activate a (pub_adminPair old))
                          | None => ret tt
                          end) in
               env (let* _ := RecordEvent (apply_event (pub_newConfig old) "tls" (pub_action old) "success" "") in ret tt)
             | None => ret tt
             end) in
  set_pending None.
End TLSCoordinator.
