(* ===== verification/TLSServiceSpec.v ===== *)
(** What the coordinator promises: a publication that fails puts both stores and
    the database back, one that succeeds has published the pair and a
    configuration that names it, and [RevertLast] undoes it. *)
From S2P Require Import Prelude GoStrings GoPath Domain Sanitize Config FileSys Revisions X509 TLSStore.
From S2P Require Import Services TLSService.

(** What the coordinator sees besides [view]: the link of the key-pair store,
    the pair the metadata row names, and the revisions the two stores hold. *)
Class TLSViews (W : Type) := {
  tls_view : W → option string;
  tls_recorded : W → string;
  has_config : W → string → Prop;
  has_tls : W → string → Prop
}.
Definition selected (revision : string) : option string :=
  if decide (revision = "") then None else Some (target_of revision).
Definition framed `{TLSViews W} (w w' : W) : Prop :=
  tls_recorded w' = tls_recorded w
  ∧ (∀ r, has_config w r → has_config w' r) ∧ (∀ r, has_tls w r → has_tls w' r).
#[export] Instance framed_preorder `{TLSViews W} : PreOrder framed.
Proof. unfold framed. split; [by intros w; split_and!|]. intros a b c (E1 & ? & ?) (E2 & ? & ?). split_and!; [congruence|auto..]. Qed.

Definition keeps_tls `{Publication W, TLSViews W} {A} (m : M W A) : Prop :=
  ∀ w r w', reliable w → m w = (r, w') → tls_view w' = tls_view w ∧ framed w w'.
Definition neutral `{Publication W, TLSViews W} {A} (m : M W A) : Prop :=
  keeps_tls m ∧ ∀ w r w', reliable w → m w = (r, w') → reliable w' ∧ view w' = view w.

Class TLSPublication (W P : Type) `{PUB : Publication W} {TS : TLSRevisionStore W} {TV : TLSViews W}
    (ready : M W (option gerror)) (admin : option (AdminCertificate W P)) := {
  ActiveRevision_keeps : keeps_tls ActiveRevision;
  SetActiveRevision_keeps a : keeps_tls (SetActiveRevision a);
  RecordEvent_keeps ev : keeps_tls (RecordEvent ev);
  Snapshot_keeps : keeps_tls Snapshot_;
  Snapshot_names w s w' : reliable w → Snapshot_ w = ((s, None), w') → old_tls s = tls_recorded w;
  configs_Apply_keeps fs : keeps_tls (configs_Apply fs);
  process_Reload_keeps : keeps_tls process_Reload;
  ready_neutral : neutral ready;
  Prepare_neutral a p : admin = Some a → neutral (admin_Prepare a p);
  tls_Publish_law b w r w' : reliable w → tls_Publish b w = (r, w') →
    reliable w' ∧ view w' = view w ∧ framed w w'
    ∧ tls_view w' = match r with Ok p => Some (target_of (Pub_Revision p)) | Err _ => tls_view w end;
  configs_Restore_law : ∃ f, configs_Restore = Some f ∧ ∀ rev w e w',
    reliable w → rev = "" ∨ has_config w rev → f rev w = (e, w') →
    e = None ∧ reliable w' ∧ v_active (view w') = v_active (view w) ∧ v_current (view w') = selected rev
    ∧ tls_view w' = tls_view w ∧ framed w w';
  tls_Restore_law : ∃ f, tls_Restore = Some f ∧ ∀ rev w e w',
    reliable w → rev = "" ∨ has_tls w rev → f rev w = (e, w') →
    e = None ∧ reliable w' ∧ view w' = view w ∧ tls_view w' = selected rev ∧ framed w w'
}.

Section Coordinator.
Context {UT : UnicodeTables} {W P : Type}.
Context {RS : RevisionStore W} {CS : ConfigRevisionStore W} {PR : Process W} {PUB : Publication W}.
Context {TS : TLSRevisionStore W} {TV : TLSViews W}.
Variable ready : M W (option gerror).
Variable admin : option (AdminCertificate W P).
Context {TP : TLSPublication W P ready admin}.

(** The two links are those the database names, and the revisions exist. *)
Record consistent (w : W) : Prop := {
  cs_reliable : reliable w;
  cs_config : v_current (view w) = selected (v_active (view w));
  cs_has_config : v_active (view w) = "" ∨ has_config w (v_active (view w));
  cs_tls : tls_view w = selected (tls_recorded w);
  cs_has_tls : tls_recorded w = "" ∨ has_tls w (tls_recorded w)
}.

(** The worlds between the first reading and the end. *)
Record during (w0 w : W) : Prop := {
  du_reliable : reliable w;
  du_framed : framed w0 w
}.
Lemma during_step {A} (m : M W A) w0 w r w' :
  keeps_tls m → during w0 w → m w = (r, w') → reliable w' → during w0 w' ∧ tls_view w' = tls_view w.
Proof. intros Hk [Hr Hf] H Hr'. destruct (Hk _ _ _ Hr H) as [? ?]. split; [|done]. split; [done|by etrans]. Qed.

Lemma restoreConfig_law w0 w e w' :
  consistent w0 → during w0 w → restoreConfig (v_active (view w0)) w = (e, w') →
  e = None ∧ during w0 w' ∧ v_active (view w') = v_active (view w)
  ∧ v_current (view w') = v_current (view w0) ∧ tls_view w' = tls_view w.
Proof.
  intros HC [Hr Hf] H. unfold restoreConfig in H. destruct configs_Restore_law as (f & Hs & Hlaw). rewrite Hs in H.
  apply Hlaw in H as (-> & Hr' & Ha & Hc & Ht & Hf'); [|done|].
  - split_and!; [done|split; [done|by etrans]|done|by rewrite (cs_config _ HC)|done].
  - destruct (cs_has_config _ HC) as [|Hh]; [by left|right]. by apply Hf.
Qed.
Lemma restoreTLS_law w0 w e w' :
  consistent w0 → during w0 w → restoreTLS (tls_recorded w0) w = (e, w') →
  e = None ∧ during w0 w' ∧ view w' = view w ∧ tls_view w' = tls_view w0.
Proof.
  intros HC [Hr Hf] H. unfold restoreTLS in H. destruct tls_Restore_law as (f & Hs & Hlaw). rewrite Hs in H.
  apply Hlaw in H as (-> & Hr' & Hv & Ht & Hf'); [|done|].
  - split_and!; [done|split; [done|by etrans]|done|by rewrite (cs_tls _ HC)].
  - destruct (cs_has_tls _ HC) as [|Hh]; [by left|right]. by apply Hf.
Qed.
Lemma SetActive_during a w0 w e w' :
  during w0 w → SetActiveRevision a w = (e, w') →
  during w0 w' ∧ tls_view w' = tls_view w
  ∧ view w' = match e with None => view_set_active a (view w) | Some _ => view w end.
Proof.
  intros Hd H. destruct (SetActiveRevision_law _ _ _ _ (du_reliable _ _ Hd) H) as [Hr Hv].
  destruct (during_step _ _ _ _ _ (SetActiveRevision_keeps a) Hd H Hr). done.
Qed.
Lemma RecordEvent_during ev w0 w e w' :
  during w0 w → RecordEvent ev w = (e, w') →
  during w0 w' ∧ tls_view w' = tls_view w ∧ view w' = view w.
Proof.
  intros Hd H. destruct (RecordEvent_law _ _ _ _ (du_reliable _ _ Hd) H) as [Hr Hv].
  destruct (during_step _ _ _ _ _ (RecordEvent_keeps ev) Hd H Hr). done.
Qed.
Lemma neutral_during {A} (m : M W A) w0 w r w' :
  neutral m → during w0 w → m w = (r, w') → during w0 w' ∧ tls_view w' = tls_view w ∧ view w' = view w.
Proof.
  intros [Hk Hn] Hd H. destruct (Hn _ _ _ (du_reliable _ _ Hd) H) as [Hr Hv].
  destruct (during_step _ _ _ _ _ Hk Hd H Hr). done.
Qed.
Lemma reload_ready_neutral : neutral (reload_ready ready).
Proof.
  assert (Hboth : ∀ w r w', reliable w → reload_ready ready w = (r, w') →
    (reliable w' ∧ view w' = view w) ∧ tls_view w' = tls_view w ∧ framed w w').
  { intros w r w' Hr H. unfold reload_ready in H. run_bind H.
    destruct (process_Reload_law _ _ _ Hr E) as [Hr1 Hv1]. destruct (process_Reload_keeps _ _ _ Hr E) as [Ht1 Hf1].
    destruct a as [e|]; [by run_ret H|]. run_bind H. destruct ready_neutral as [Hk Hn].
    destruct (Hn _ _ _ Hr1 E0). destruct (Hk _ _ _ Hr1 E0). run_ret H.
    split_and!; [done|congruence|congruence|by etrans]. }
  split; intros w r w' Hr H; by destruct (Hboth _ _ _ Hr H).
Qed.
Lemma prepare_admin_neutral p : neutral (prepare_admin admin p).
Proof.
  unfold prepare_admin. destruct admin as [a|] eqn:Ha.
  - destruct (Prepare_neutral a p eq_refl) as [Hk Hn].
    split; intros w r w' Hr H; run_bind H; destruct a0; run_ret H; eauto.
  - split; intros w r w' Hr H; run_ret H; [split; [done|reflexivity]|done].
Qed.

(** ** Publication *)

(** The worlds between the publication of the pair and that of the database:
    the configuration and the database as they were. *)
Lemma abandon_law w0 w e r w' :
  consistent w0 → during w0 w → abandon (P:=P) (tls_recorded w0) e w = (r, w') →
  r = Err e ∧ during w0 w' ∧ view w' = view w ∧ tls_view w' = tls_view w0.
Proof.
  intros HC Hd H. unfold abandon in H. run_bind H. apply (restoreTLS_law _ _ _ _ HC Hd) in E as (_ & ? & ? & ?).
  by run_ret H.
Qed.
Lemma abandon_both_law w0 w e r w' :
  consistent w0 → during w0 w →
  abandon_both (P:=P) (v_active (view w0)) (tls_recorded w0) e w = (r, w') →
  r = Err e ∧ during w0 w' ∧ v_active (view w') = v_active (view w)
  ∧ v_current (view w') = v_current (view w0) ∧ tls_view w' = tls_view w0.
Proof.
  intros HC Hd H. unfold abandon_both in H. run_bind H.
  apply (restoreConfig_law _ _ _ _ HC Hd) in E as (_ & Hd1 & Ha & Hc & _).
  apply (abandon_law _ _ _ _ _ HC Hd1) in H as (? & ? & Hv & ?). by rewrite Hv.
Qed.

(** The error of a rollback whose last steps failed: the two stores are
    restored, the database or the endpoint is not. *)
Definition tls_rollback_error (e : gerror) : Prop :=
  ∃ c d p q, e = WrapIn "TLS reload failed: " c (tls_rollback_failed None None d p q)
             ∧ (d ≠ None ∨ p ≠ None ∨ q ≠ None).

Lemma roll_back_law w0 w rev e r w' :
  consistent w0 → during w0 w →
  roll_back (P:=P) ready (v_active (view w0)) (tls_recorded w0) rev e w = (r, w') →
  ∃ e', r = Err e' ∧ v_current (view w') = v_current (view w0) ∧ tls_view w' = tls_view w0
    ∧ (v_active (view w') = v_active (view w0) ∨ tls_rollback_error e').
Proof.
  intros HC Hd H. unfold roll_back in H.
  run_bind H. apply (restoreConfig_law _ _ _ _ HC Hd) in E as (-> & Hd1 & _ & Hc1 & _).
  run_bind H. apply (restoreTLS_law _ _ _ _ HC Hd1) in E as (-> & Hd2 & Hv2 & Ht2).
  run_bind H. apply (SetActive_during _ _ _ _ _ Hd2) in E as (Hd3 & Ht3 & Hv3).
  run_bind H. apply (neutral_during _ _ _ _ _ reload_ready_neutral Hd3) in E as (Hd4 & Ht4 & Hv4).
  run_bind H. apply (RecordEvent_during _ _ _ _ _ Hd4) in E as (Hd5 & Ht5 & Hv5).
  assert (Hend : v_current (view w5) = v_current (view w0) ∧ tls_view w5 = tls_view w0
                 ∧ (a = None → v_active (view w5) = v_active (view w0))).
  { rewrite Hv5, Hv4, Hv3, Ht5, Ht4, Ht3. split_and!; [destruct a; simpl; congruence|done|by intros ->]. }
  destruct Hend as (Hc & Ht & Ha). destruct (any_error _) eqn:Hany; run_ret H; eexists; (split_and!; [done..|]).
  - right. eexists _, _, _, _. split; [done|]. unfold any_error in Hany. simpl in Hany.
    destruct a, (a0.1), (a0.2); simpl in Hany; naive_solver.
  - left. apply Ha. unfold any_error in Hany. simpl in Hany. by destruct a.
Qed.

Definition TLS_files (s : Snapshot) (p : Published) : result Files :=
  Render (snap_set_tls (Pub_CertificatePath p) (Pub_PrivateKeyPath p) s).

Lemma publish_pair_law b w r w' :
  consistent w → publish_pair ready admin b w = (r, w') →
  match r with
  | Err e => v_current (view w') = v_current (view w) ∧ tls_view w' = tls_view w
      ∧ (v_active (view w') = v_active (view w) ∨ tls_rollback_error e)
  | Ok (p, pub) => during w w' ∧ pub_oldConfig pub = v_active (view w) ∧ pub_oldTLS pub = tls_recorded w
      ∧ tls_view w' = Some (target_of (Pub_Revision p))
      ∧ ∃ s files, TLS_files s p = Ok files ∧ pub_newConfig pub = revision_of files
        ∧ view w' = view_set_active (revision_of files) (view_apply (revision_of files) (view w))
        ∧ pub_activeUser pub = active_user s
  end.
Proof.
  intros HC H. assert (Hd : during w w) by (split; [apply HC|reflexivity]). unfold publish_pair in H.
  run_bind H. destruct (ActiveRevision_law _ _ _ (cs_reliable _ HC) E) as (Hr1 & Hv1 & Ha).
  destruct (during_step _ _ _ _ _ ActiveRevision_keeps Hd E Hr1) as [Hd1 Ht1]. clear E.
  destruct a as [old|e]; [specialize (Ha _ eq_refl); subst old|run_ret H; by rewrite Hv1; auto].
  run_bind H. destruct (Snapshot_law _ _ _ Hr1 E) as [Hr2 Hv2].
  destruct (during_step _ _ _ _ _ Snapshot_keeps Hd1 E Hr2) as [Hd2 Ht2].
  rewrite Hv1 in Hv2. rewrite Ht1 in Ht2. destruct a as [s [e|]]; [run_ret H; by rewrite Hv2; auto|].
  assert (Hold : old_tls s = tls_recorded w).
  { rewrite (Snapshot_names _ _ _ Hr1 E). apply (du_framed _ _ Hd1). }
  rewrite Hold in H. clear E.
  run_bind H. destruct (tls_Publish_law _ _ _ _ Hr2 E) as (Hr3 & Hv3 & Hf3 & Ht3). clear E.
  assert (Hd3 : during w w2) by (split; [done|etrans; [apply (du_framed _ _ Hd2)|done]]). rewrite Hv2 in Hv3.
  destruct a as [p|e]; [|run_ret H; rewrite Hv3, Ht3; auto].
  run_bind H. apply (neutral_during _ _ _ _ _ (prepare_admin_neutral p) Hd3) in E as (Hd4 & Ht4 & Hv4).
  rewrite Hv3 in Hv4. rewrite Ht3 in Ht4.
  destruct a as [adm|e].
  2:{ apply (abandon_law _ _ _ _ _ HC Hd4) in H as (-> & _ & -> & ->). rewrite Hv4. auto. }
  destruct (Render _) as [files|e] eqn:Hren in H.
  2:{ apply (abandon_law _ _ _ _ _ HC Hd4) in H as (-> & _ & -> & ->). rewrite Hv4. auto. }
  run_bind H. destruct (configs_Apply_law _ _ _ _ (du_reliable _ _ Hd4) E) as [Hr5 Hv5].
  destruct (during_step _ _ _ _ _ (configs_Apply_keeps files) Hd4 E Hr5) as [Hd5 Ht5]. clear E.
  destruct a as [rev|e].
  2:{ apply (abandon_both_law _ _ _ _ _ HC Hd5) in H as (-> & _ & -> & -> & ->). rewrite Hv5, Hv4. auto. }
  destruct Hv5 as [-> Hv5].
  run_bind H. apply (SetActive_during _ _ _ _ _ Hd5) in E as (Hd6 & Ht6 & Hv6).
  destruct a as [e|].
  { apply (abandon_both_law _ _ _ _ _ HC Hd6) in H as (-> & _ & -> & -> & ->). rewrite Hv6, Hv5, Hv4. auto. }
  rewrite Hv5, Hv4 in Hv6. rewrite Ht5, Ht4 in Ht6.
  destruct (active_user s) eqn:Hact; simpl in H.
  2:{ run_ret H. split_and!; [done..|]. exists s, files. done. }
  run_bind H. apply (neutral_during _ _ _ _ _ reload_ready_neutral Hd6) in E as (Hd7 & Ht7 & Hv7).
  destruct (errors_join _ _) as [e|].
  - apply (roll_back_law _ _ _ _ _ _ HC Hd7) in H as (e' & -> & Hx). exact Hx.
  - run_ret H. rewrite Hv7, Ht7. split_and!; [done..|]. exists s, files. done.
Qed.

Lemma env_inv {A} (m : M W A) (c : coord W P) r c' :
  env m c = (r, c') → m (co_env c) = (r, co_env c') ∧ co_pending c' = co_pending c.
Proof. unfold env, zoom. destruct (m (co_env c)) as [x w]. by intros [= <- <-]. Qed.
Lemma Publish_inv b (c : coord W P) r c' :
  TLSCoordinator_Publish ready admin b c = (r, c') →
  ∃ pr, publish_pair ready admin b (co_env c) = (pr, co_env c') ∧
  match pr with
  | Ok (p, pub) => r = Ok p ∧ co_pending c' = Some pub
  | Err e => r = Err e ∧ co_pending c' = co_pending c
  end.
Proof.
  intros H. unfold TLSCoordinator_Publish in H. run_bind H. apply env_inv in E as [E Hp].
  destruct a as [[p pub]|e]; [|run_ret H; by eexists]. run_bind H. injection E0 as <- <-. run_ret H.
  eexists. split; [exact E|done].
Qed.


(** A publication that returns a pair has made it current in the key-pair
    store and has published and recorded a configuration rendered with the
    pair's own paths, and it is pending until it is completed or reverted. *)
Theorem TLS_publish_commits b (c : coord W P) p c' :
  consistent (co_env c) → TLSCoordinator_Publish ready admin b c = (Ok p, c') →
  tls_view (co_env c') = Some (target_of (Pub_Revision p))
  ∧ (∃ s files, TLS_files s p = Ok files
       ∧ v_active (view (co_env c')) = revision_of files
       ∧ v_current (view (co_env c')) = Some (target_of (revision_of files)))
  ∧ is_Some (co_pending c').
Proof.
  intros HC H. apply Publish_inv in H as ([[p' pub]|e'] & H & Hr); [|by destruct Hr].
  destruct Hr as [[= ->] Hp]. apply publish_pair_law in H as (_ & _ & _ & Ht & s & files & Hf & _ & Hv & _); [|done].
  split_and!; [done| |by rewrite Hp]. exists s, files. by rewrite Hv.
Qed.

(** C29. [RevertLast] undoes the publication that is pending: when it returns
    nil, both links and the database are as they were before the publication,
    and nothing is pending. *)
Theorem RevertLast_undoes b (c : coord W P) p c1 c2 :
  consistent (co_env c) → TLSCoordinator_Publish ready admin b c = (Ok p, c1) →
  RevertLast ready c1 = (None, c2) →
  co_pending c2 = None
  ∧ v_active (view (co_env c2)) = v_active (view (co_env c))
  ∧ v_current (view (co_env c2)) = v_current (view (co_env c))
  ∧ tls_view (co_env c2) = tls_view (co_env c).
Proof.
  intros HC HP H. apply Publish_inv in HP as ([[p' pub]|e'] & HP & Hr); [|by destruct Hr].
  destruct Hr as [[= ->] Hp]. apply publish_pair_law in HP as (Hd & Hoc & Hot & _); [|done].
  unfold RevertLast in H. run_bind H. injection E as <- <-. rewrite Hp in H.
  run_bind H. injection E as <- <-. apply env_inv in H as [H Hpend]. split; [done|]. clear Hpend.
  simpl in H. unfold revert in H. rewrite Hoc, Hot in H.
  run_bind H. apply (restoreConfig_law _ _ _ _ HC Hd) in E as (-> & Hd1 & _ & Hc1 & _).
  run_bind H. apply (restoreTLS_law _ _ _ _ HC Hd1) in E as (-> & Hd2 & Hv2 & Ht2).
  run_bind H. apply (SetActive_during _ _ _ _ _ Hd2) in E as (Hd3 & Ht3 & Hv3).
  run_bind H. assert (E4 : during (co_env c) w3 ∧ tls_view w3 = tls_view w2 ∧ view w3 = view w2).
  { destruct (_ && _) in E.
    - run_bind E. apply (neutral_during _ _ _ _ _ reload_ready_neutral Hd3) in E0. by run_ret E.
    - by run_ret E. }
  destruct E4 as (Hd4 & Ht4 & Hv4).
  run_bind H. apply (RecordEvent_during _ _ _ _ _ Hd4) in E0 as (Hd5 & Ht5 & Hv5).
  injection H as H <-. destruct a as [e|]; [by destruct a0|].
  rewrite Ht5, Hv5, Ht4, Hv4, Ht3, Hv3, Ht2. simpl. split_and!; [done|congruence|done].
Qed.
End Coordinator.
