(* ===== verification/TLSSettings.v ===== *)
(** [internal/service/tls_settings.go] and [certificate.go]: the settings of the
    certificate, and the authorised import of a pair. *)
From S2P Require Import Prelude GoStrings GoTime Domain X509 CertState Store StoreSpec Manager.

(** [CertificateOperations] *)
Record CertificateOperations (W : Type) := mkCertificateOperations {
  cert_Issue : Mode → string → string → M W (Metadata * option gerror);
  cert_Renew : M W (Metadata * option gerror)
}.
Arguments cert_Issue {W} _ _ _ _.
Arguments cert_Renew {W} _.

Definition meta_set_mode (mode : Mode) (m : Metadata) : Metadata :=
  meta_set_identity (M_Source m) mode (M_Hostname m) (M_Email m) (M_DirectoryURL m) m.

Section TLSSettings.
Context {UT : UnicodeTables} {W : Type}.
Variable ParseAddress : string → option string.
(** [TLSSettingsRepository], [os.ReadFile] and the certificate manager, whose
    [Serialize] runs its argument under the manager's lock. *)
Variable LoadTLSMetadata : M W (result Metadata).
Variable SaveTLSMetadata : Metadata → M W (option gerror).
Variable SetHostname : string → M W (option gerror).
Variable ReadFile : string → M W (result string).
Variable cert : CertificateOperations W.

(** [NewTLSSettingsServiceWithMode] *)
Definition default_mode (mode : Mode) : Mode := if bool_decide (mode = Staging) then mode else Production.
Variable defaultMode : Mode.

Definition View : M W outcome :=
  let* r := LoadTLSMetadata in
  ret (match r with
       | Ok m => (m, None)
       | Err e => if errors_is e ErrNoRows
                  then (meta_set_identity LetsEncrypt defaultMode "" "" "" (meta_set_state Unconfigured zero_metadata), None)
                  else (zero_metadata, Some e)
       end).

(** [SaveTLSMetadata] and [SetHostname], the end of [save] and of
    [ConfigureInitial]. *)
Definition store_settings (hostname : string) (current : Metadata) : M W outcome :=
  let* e := SaveTLSMetadata current in
  match e with
  | Some e => ret (current, Some e)
  | None =>
    let* e := SetHostname hostname in
    ret (current, e)
  end.

(** The assignments of [save]. *)
Definition changed_settings (source : Source) (hostname certificatePath keyPath : string) (m : Metadata) : bool :=
  negb (bool_decide (EffectiveSource m = source)) || negb (bool_decide (M_Hostname m = hostname))
  || negb (bool_decide (M_ProvidedCertificatePath m = certificatePath))
  || negb (bool_decide (M_ProvidedKeyPath m = keyPath)).
Definition new_settings (source : Source) (hostname email : string) (mode : Mode) (certificatePath keyPath : string)
    (m : Metadata) : Metadata :=
  let m' := if changed_settings source hostname certificatePath keyPath m then meta_set_state Unconfigured m else m in
  let m' := meta_set_provided certificatePath keyPath
              (meta_set_identity source (if bool_decide (source = LetsEncrypt) then mode else ManualMode)
                 hostname email (M_DirectoryURL m') m') in
  if bool_decide (M_State m' = "") then meta_set_state Unconfigured m' else m'.

Definition settings_save (source : Source) (hostname email : string) (mode : Mode)
    (certificatePath keyPath : string) : M W outcome :=
  let* v := View in
  match v with
  | (current, Some e) => ret (current, Some e)
  | (current, None) =>
    if bool_decide (M_State current = Issuing) || bool_decide (M_State current = Renewing)
    then ret (current, Some (Errorf "certificate operation is in progress"))
    else store_settings hostname (new_settings source hostname email mode certificatePath keyPath current)
  end.

Definition SaveConfiguration (source : Source) (hostname email : string) (mode : Mode)
    (certificatePath keyPath : string) : M W outcome :=
  match ValidateSourceSettings ParseAddress source hostname email certificatePath keyPath with
  | Some e => ret (zero_metadata, Some e)
  | None =>
    if bool_decide (source = LetsEncrypt) && negb (bool_decide (mode = Production)) && negb (bool_decide (mode = Staging))
    then ret (zero_metadata, Some (Errorf "invalid ACME mode"))
    else settings_save source hostname email mode certificatePath keyPath
  end.

Definition Save (hostname email : string) (mode : Mode) : M W outcome :=
  let* v := View in
  match v with
  | (current, Some e) => ret (current, Some e)
  | (current, None) =>
    if negb (bool_decide (EffectiveSource current = LetsEncrypt))
    then ret (current, Some (Errorf "changing TLS source requires an explicit selection"))
    else SaveConfiguration LetsEncrypt hostname email mode "" ""
  end.

Definition initial_settings (source : Source) (hostname email certificatePath keyPath : string) (m : Metadata) :
    Metadata :=
  let m' := meta_set_provided certificatePath keyPath
              (meta_set_identity source (M_Mode m) hostname email (M_DirectoryURL m) m) in
  if bool_decide (source = Provided) || bool_decide (source = SelfSigned) then meta_set_mode ManualMode m' else m'.

Definition ConfigureInitial (source : Source) (hostname email certificatePath keyPath : string) : M W outcome :=
  match ValidateSourceSettings ParseAddress source hostname email certificatePath keyPath with
  | Some e => ret (zero_metadata, Some e)
  | None =>
    let* v := View in
    match v with
    | (current, Some e) => ret (current, Some e)
    | (current, None) =>
      if negb (bool_decide (M_Hostname current = "")) || negb (bool_decide (M_ActiveRevision current = ""))
      then ret (current, Some (Errorf "TLS source is already configured"))
      else store_settings hostname (initial_settings source hostname email certificatePath keyPath current)
    end
  end.

Definition Issue : M W outcome :=
  let* v := View in
  match v with
  | (current, Some e) => ret (current, Some e)
  | (current, None) =>
    if bool_decide (M_Hostname current = "") || bool_decide (M_Email current = "")
    then ret (current, Some (Errorf "save hostname and email before issue"))
    else cert_Issue cert (M_Mode current) (M_Email current) (M_Hostname current)
  end.
Definition Renew : M W outcome := cert_Renew cert.

Definition PublicSelfSignedCertificate : M W (result string) :=
  let* v := View in
  match v with
  | (_, Some e) => ret (Err e)
  | (m, None) =>
    if negb (bool_decide (EffectiveSource m = SelfSigned)) || negb (bool_decide (M_State m = Active))
       || bool_decide (M_ActiveRevision m = "") || bool_decide (M_CertificatePath m = "")
    then ret (Err (Errorf "self-signed certificate is not available"))
    else
      let? data := ReadFile (M_CertificatePath m) in
      if 1048576 <? len data then ret (Err (Errorf "certificate is too large")) else ret (Ok data)
  end.
End TLSSettings.

(** ** [CertificateService] *)

Record Actor := mkActor { Actor_AdminID : Z; Actor_SessionHash : string }.
Section CertificateService.
Context {W : Type}.
(** [s.authorizer] and [s.manager], which may be nil. *)
Variable authorizer : option (Actor → M W (option gerror)).
Variable manager : option (string → string → string → M W outcome).
Definition CertificateService_ImportManual (actor : Actor) (hostname chain privateKey : string) : M W outcome :=
  match authorizer, manager with
  | Some authorize, Some import =>
    let* e := authorize actor in
    match e with
    | Some e => ret (zero_metadata, Some e)
    | None => import hostname chain privateKey
    end
  | _, _ => ret (zero_metadata, Some (Errorf "certificate service is not configured"))
  end.

(** Nothing is imported for an actor the authorizer refuses: the manager is
    not called, and the authorizer's error is returned. *)
Lemma ImportManual_needs_authorization authorize actor hostname chain key w e w1 :
  authorizer = Some authorize → is_Some manager → authorize actor w = (Some e, w1) →
  CertificateService_ImportManual actor hostname chain key w = ((zero_metadata, Some e), w1).
Proof.
  intros Ha [import Hm] He. unfold CertificateService_ImportManual, bind. rewrite Ha, Hm. by rewrite He.
Qed.
End CertificateService.

(** ** The settings over the store *)

Section OverStore.
Context {UT : UnicodeTables}.
Variable ParseAddress : string → option string.
Variable defaultMode : Mode.

Lemma View_inv w v w' :
  View Store_LoadTLSMetadata defaultMode w = (v, w') →
  db_tables w' = db_tables w ∧
  (v.2 = None → (match t_tls (db_tables w) with
                | Some r => v.1 = meta_set_source_sans (M_Source (tls_meta r)) (split_sans (tls_sans r)) (tls_meta r)
                | None => M_State v.1 = Unconfigured ∧ M_Hostname v.1 = "" ∧ M_ActiveRevision v.1 = ""
                    ∧ M_CertificatePath v.1 = "" ∧ M_PrivateKeyPath v.1 = ""
                end) ∨ db_faults w ≠ []).
Proof.
  intros H. unfold View in H. run_bind H. apply query_inv in E as [Ht Ha]. run_ret H. split; [done|].
  intros Hv. destruct Ha as [[_ ?]| ->]; [by right|left]. by destruct (t_tls (db_tables w)).
Qed.

Lemma settings_kept source hostname email mode cp kp m :
  let m' := new_settings source hostname email mode cp kp m in
  M_Source m' = source ∧ M_Hostname m' = hostname ∧ M_Email m' = email
  ∧ M_ProvidedCertificatePath m' = cp ∧ M_ProvidedKeyPath m' = kp
  ∧ M_Mode m' = (if bool_decide (source = LetsEncrypt) then mode else ManualMode)
  ∧ M_ActiveRevision m' = M_ActiveRevision m ∧ M_CertificatePath m' = M_CertificatePath m
  ∧ M_PrivateKeyPath m' = M_PrivateKeyPath m
  ∧ (changed_settings source hostname cp kp m = true → M_State m' = Unconfigured)
  ∧ (changed_settings source hostname cp kp m = false → M_State m ≠ "" → M_State m' = M_State m).
Proof.
  simpl. unfold new_settings. destruct (changed_settings _ _ _ _ m) eqn:Ec; simpl.
  - split_and!; done.
  - case_bool_decide; simpl; split_and!; done.
Qed.

(** Saved settings are consistent: a nil error means the settings were valid
    for their source, no operation was in progress, the metadata row and the
    endpoint's host name both carry the new host name, the published pair stays
    the one that is served, and the state is [unconfigured] again exactly when
    the source, the host name or a path changed. *)
Theorem SaveConfiguration_consistent source hostname email mode cp kp w m w' r s :
  tables_ok (db_tables w) → db_faults w = [] →
  t_tls (db_tables w) = Some r → t_settings (db_tables w) = Some s →
  SaveConfiguration ParseAddress Store_LoadTLSMetadata Store_SaveTLSMetadata Store_SetHostname defaultMode
    source hostname email mode cp kp w = ((m, None), w') →
  ValidateSourceSettings ParseAddress source hostname email cp kp = None
  ∧ M_State (tls_meta r) ∉ [Issuing; Renewing]
  ∧ ((set_hostname <$> t_settings (db_tables w')) = Some hostname)
  ∧ ∃ r', t_tls (db_tables w') = Some r' ∧ M_Hostname (tls_meta r') = hostname
    ∧ M_Source (tls_meta r') = source ∧ M_Email (tls_meta r') = email
    ∧ M_ActiveRevision (tls_meta r') = M_ActiveRevision (tls_meta r)
    ∧ M_CertificatePath (tls_meta r') = M_CertificatePath (tls_meta r)
    ∧ M_PrivateKeyPath (tls_meta r') = M_PrivateKeyPath (tls_meta r)
    ∧ M_State (tls_meta r') = (if changed_settings source hostname cp kp (tls_meta r) then Unconfigured
                               else M_State (tls_meta r)).
Proof.
  intros Hok Hq Hr Hs H. unfold SaveConfiguration in H.
  destruct (ValidateSourceSettings _ _ _ _ _ _) eqn:Hv; [run_absurd H|]. split; [done|].
  destruct (_ && _ && _) in H; [run_absurd H|]. unfold settings_save in H.
  run_bind H. apply View_inv in E as [Ht Hview]. destruct a as [current [e|]]; [run_absurd H|].
  destruct (Hview eq_refl) as [Hcur|?]; [|done]. rewrite Hr in Hcur. simpl in Hcur.
  destruct (bool_decide (M_State current = Issuing) || _) eqn:Hst; [run_absurd H|].
  apply orb_false_iff in Hst as [H1%bool_decide_eq_false H2%bool_decide_eq_false].
  assert (Hstate : M_State current = M_State (tls_meta r)) by by rewrite Hcur.
  rewrite Hstate in H1, H2. split; [set_solver|].
  destruct (ok_tls _ Hok _ Hr) as [Hmok Hsrc].
  assert (Hch : changed_settings source hostname cp kp current = changed_settings source hostname cp kp (tls_meta r)).
  { assert (He : EffectiveSource current = EffectiveSource (tls_meta r)) by by rewrite Hcur.
    unfold changed_settings. rewrite He. by rewrite Hcur. }
  pose proof (settings_kept source hostname email mode cp kp current) as Hk. simpl in Hk.
  set (new := new_settings source hostname email mode cp kp current) in *.
  unfold store_settings in H. run_bind H. destruct a as [e|]; [run_absurd H|].
  unfold Store_SaveTLSMetadata in E. run_bind E. apply db_now_inv in E0 as [Ht0 _].
  apply exec_inv in E as [(? & _)|E]; [done|]. destruct (meta_ok new) eqn:Hmn; [|done]. injection E as E.
  run_bind H. unfold Store_SetHostname in E0. run_bind E0. apply db_now_inv in E1 as [Ht1 _].
  injection H as <- -> <-. apply exec_inv in E0 as [(? & _)|E0]; [done|]. injection E0 as E0.
  rewrite <-E0, Ht1, <-E, Ht0, Ht. simpl. rewrite Hs. split; [done|]. eexists. split; [done|]. simpl.
  destruct Hk as (K1 & K2 & K3 & K4 & K5 & K6 & K7 & K8 & K9 & K10 & K11).
  assert (Hsource : source ≠ "").
  { intros ->. unfold ValidateSourceSettings in Hv. by destruct (validateCertificateHostname hostname). }
  split_and!.
  - done.
  - unfold EffectiveSource. rewrite K1. by rewrite bool_decide_eq_false_2.
  - done.
  - by rewrite K7, Hcur.
  - by rewrite K8, Hcur.
  - by rewrite K9, Hcur.
  - rewrite <-Hch. destruct (changed_settings _ _ _ _ current) eqn:Ec; [by apply K10|].
    rewrite K11, Hstate; [done..|]. rewrite Hstate. intros Hz. unfold meta_ok in Hmok. rewrite Hz in Hmok. done.
Qed.
End OverStore.
