(* ===== verification/Supervisor.v ===== *)
(** [internal/supervisor/supervisor.go]: the supervisor of the endpoint process,
    as a system of interleaved steps.

    A part of the code that runs under [s.mu] is one step; so is a system call or
    a channel operation between two such parts.  Processes are numbered in the
    order they are started, and the numbers stand for their pids and for the
    [*exec.Cmd] pointers the code compares; contexts are numbered too, and a
    cancelled one stays cancelled.  Every started process has one goroutine
    running [watch]; calls of [Stop] and [Restart] are threads with a phase. *)
From stdpp Require Import pretty.
From S2P Require Import Prelude GoStrings Domain Sanitize.

Record Config := mkConfig {
  cfg_Binary : string;
  cfg_Args : option (string → list string);   (** [None] is a nil function *)
  cfg_WorkingDir : string;
  cfg_StopTimeout : Duration;
  cfg_MaxRestarts : Z;
  cfg_RestartWindow : Duration;
  cfg_MaxLogBytes : Z;
  cfg_Version : string
}.

(** Where the goroutine of a process stands: in [cmd.Wait], before its lock with
    the error [Wait] returned, in the wait before a restart, or at its end. *)
Inductive watch_phase : Type :=
| Waiting
| Locking (err : option gerror)
| Sleeping (delay : Duration)
| Finished.

Record proc := mkProc {
  pr_revision : string;
  pr_ctx : nat;
  pr_exit : option (option gerror);   (** [None] while it runs, then [Wait]'s error *)
  pr_closed : bool;                   (** [done] is closed *)
  pr_watch : watch_phase
}.

(** Where a call of [Stop] stands; [next] is the revision a [Restart] goes on to
    start. *)
Inductive call : Type :=
| Signalling (pid ctx : nat) (next : option string)
| Selecting (pid ctx : nat) (next : option string)
| Killing (pid ctx : nat) (cancelled : bool) (next : option string)
| Finishing (pid ctx : nat) (next : option string)
| Restarting (ctx : nat) (revision : string)
| Returned (err : option gerror).

Record Supervisor := mkSupervisor {
  sv_cfg : Config;
  sv_cmd : option nat;
  sv_desired : bool;
  sv_stopping : bool;
  sv_status : EndpointStatus;
  sv_restarts : list Time;
  sv_procs : gmap nat proc;
  sv_next : nat;
  sv_calls : gmap nat call;
  sv_cancelled : gset nat
}.

Definition st_set_State (st : string) (s : EndpointStatus) : EndpointStatus :=
  mkEndpointStatus st (Status_Revision s) (Status_Version s) (Status_PID s) (Status_StartedAt s) (Status_LastError s).
Definition st_set_PID (pid : Z) (s : EndpointStatus) : EndpointStatus :=
  mkEndpointStatus (Status_State s) (Status_Revision s) (Status_Version s) pid (Status_StartedAt s) (Status_LastError s).
Definition st_set_error (e : string) (s : EndpointStatus) : EndpointStatus :=
  mkEndpointStatus (Status_State s) (Status_Revision s) (Status_Version s) (Status_PID s) (Status_StartedAt s) e.



Definition sv_with (cmd : option nat) (desired stopping : bool) (st : EndpointStatus) (s : Supervisor) : Supervisor :=
  mkSupervisor (sv_cfg s) cmd desired stopping st (sv_restarts s) (sv_procs s) (sv_next s) (sv_calls s) (sv_cancelled s).
Definition sv_set_status (f : EndpointStatus → EndpointStatus) (s : Supervisor) : Supervisor :=
  sv_with (sv_cmd s) (sv_desired s) (sv_stopping s) (f (sv_status s)) s.
Definition sv_set_restarts (l : list Time) (s : Supervisor) : Supervisor :=
  mkSupervisor (sv_cfg s) (sv_cmd s) (sv_desired s) (sv_stopping s) (sv_status s) l (sv_procs s) (sv_next s)
    (sv_calls s) (sv_cancelled s).
Definition sv_set_procs (ps : gmap nat proc) (next : nat) (s : Supervisor) : Supervisor :=
  mkSupervisor (sv_cfg s) (sv_cmd s) (sv_desired s) (sv_stopping s) (sv_status s) (sv_restarts s) ps next
    (sv_calls s) (sv_cancelled s).
Definition sv_set_calls (cs : gmap nat call) (s : Supervisor) : Supervisor :=
  mkSupervisor (sv_cfg s) (sv_cmd s) (sv_desired s) (sv_stopping s) (sv_status s) (sv_restarts s) (sv_procs s)
    (sv_next s) cs (sv_cancelled s).
Definition sv_set_cancelled (c : gset nat) (s : Supervisor) : Supervisor :=
  mkSupervisor (sv_cfg s) (sv_cmd s) (sv_desired s) (sv_stopping s) (sv_status s) (sv_restarts s) (sv_procs s)
    (sv_next s) (sv_calls s) c.

Definition set_watch (n : nat) (ph : watch_phase) (s : Supervisor) : Supervisor :=
  sv_set_procs (alter (λ p, mkProc (pr_revision p) (pr_ctx p) (pr_exit p) (pr_closed p) ph) n (sv_procs s)) (sv_next s) s.
Definition set_call (t : nat) (c : call) (s : Supervisor) : Supervisor := sv_set_calls (<[t := c]> (sv_calls s)) s.
Definition cancelled (s : Supervisor) (ctx : nat) : bool := bool_decide (ctx ∈ sv_cancelled s).

(** ** The parts of the code *)

Definition New (cfg : Config) : result Supervisor :=
  match cfg_Args cfg with
  | Some args =>
    if bool_decide (cfg_Binary cfg = "") then Err (Errorf "binary and args are required")
    else
      let cfg := mkConfig (cfg_Binary cfg) (Some args) (cfg_WorkingDir cfg)
        (if cfg_StopTimeout cfg <=? 0 then 10 * second else cfg_StopTimeout cfg)
        (if cfg_MaxRestarts cfg <=? 0 then 5 else cfg_MaxRestarts cfg)
        (if cfg_RestartWindow cfg <=? 0 then minute else cfg_RestartWindow cfg)
        (if cfg_MaxLogBytes cfg <=? 0 then 262144 else cfg_MaxLogBytes cfg) (cfg_Version cfg) in
      Ok (mkSupervisor cfg None false false (mkEndpointStatus "stopped" "" (cfg_Version cfg) 0 0 "") [] ∅ 1 ∅ ∅)
  | None => Err (Errorf "binary and args are required")
  end.

(** The command of a revision: what [spawn] below starts. *)
Record endpoint_command := mkCommand { ec_Path : string; ec_Args : list string; ec_Dir : string }.
Definition command_of (cfg : Config) (revision : string) : option endpoint_command :=
  match cfg_Args cfg with
  | Some args => Some (mkCommand (cfg_Binary cfg) (args revision) (cfg_WorkingDir cfg))
  | None => None
  end.
(** [spawn] is the error of [cmd.Start]. *)
Definition startLocked (ctx : nat) (revision : string) (now : Time) (spawn : option gerror) (s : Supervisor) :
    option gerror * Supervisor :=
  match spawn with
  | Some e =>
    (Some e, sv_set_status (λ st, st_set_error (supervisor_sanitize (error_text e)) (st_set_State "stopped" st)) s)
  | None =>
    let n := sv_next s in
    (None, sv_set_procs (<[n := mkProc revision ctx None false Waiting]> (sv_procs s)) (S n)
             (sv_with (Some n) (sv_desired s) (sv_stopping s)
                (mkEndpointStatus "starting" revision (cfg_Version (sv_cfg s)) (Z.of_nat n) now "") s))
  end.
Definition Start (ctx : nat) (revision : string) (now : Time) (spawn : option gerror) (s : Supervisor) :
    option gerror * Supervisor :=
  match sv_cmd s with
  | Some _ => (Some (Errorf "endpoint is already running"), s)
  | None => startLocked ctx revision now spawn (sv_with None true false (sv_status s) s)
  end.

(** [watch], from its lock to its unlock. *)
Definition kept_restarts (s : Supervisor) (now : Time) : list Time :=
  List.filter (λ t, now - cfg_RestartWindow (sv_cfg s) <? t) (sv_restarts s).
Definition restart_delay (n : Z) : Duration := Z.shiftl 1 (Z.min (n - 1) 5) * 100 * millisecond.
Definition watch_exit (n : nat) (p : proc) (err : option gerror) (now : Time) (s : Supervisor) : Supervisor :=
  if negb (bool_decide (sv_cmd s = Some n)) then set_watch n Finished s
  else
    let st := st_set_PID 0 (sv_status s) in
    let st := match err with Some e => st_set_error (supervisor_sanitize (error_text e)) st | None => st end in
    if negb (sv_desired s) || sv_stopping s || cancelled s (pr_ctx p)
    then set_watch n Finished (sv_with None (sv_desired s) (sv_stopping s) (st_set_State "stopped" st) s)
    else
      let restarts := kept_restarts s now ++ [now] in
      let count := Z.of_nat (length restarts) in
      if cfg_MaxRestarts (sv_cfg s) <? count
      then set_watch n Finished (sv_set_restarts restarts
             (sv_with None false (sv_stopping s) (st_set_State "crash-loop" st) s))
      else set_watch n (Sleeping (restart_delay count)) (sv_set_restarts restarts
             (sv_with None (sv_desired s) (sv_stopping s) (st_set_State "starting" st) s)).
(** [watch], after the timer. *)
Definition watch_wake (n : nat) (p : proc) (now : Time) (spawn : option gerror) (s : Supervisor) : Supervisor :=
  let s := set_watch n Finished s in
  if sv_desired s && bool_decide (sv_cmd s = None) && negb (sv_stopping s)
  then (startLocked (pr_ctx p) (pr_revision p) now spawn s).2 else s.

Definition MarkReady (s : Supervisor) : Supervisor :=
  match sv_cmd s with Some _ => sv_set_status (st_set_State "ready") s | None => s end.
Definition MarkDegraded (err : option gerror) (s : Supervisor) : Supervisor :=
  match sv_cmd s with
  | Some _ => sv_set_status (λ st,
      let st := st_set_State "degraded" st in
      match err with Some e => st_set_error (supervisor_sanitize (error_text e)) st | None => st end) s
  | None => s
  end.
(** [ctxErr] is [ctx.Err()], [signalErr] the error of the signal. *)
Definition Reload (ctxErr signalErr : option gerror) (s : Supervisor) : option gerror :=
  match sv_cmd s with
  | None => Some (Errorf "endpoint is not running")
  | Some _ => match ctxErr with Some e => Some e | None => signalErr end
  end.
Definition Status (s : Supervisor) : EndpointStatus := sv_status s.
Definition Supervisor_String (s : Supervisor) : string :=
  let st := Status s in
  Status_State st +:+ " pid=" +:+ pretty (Status_PID st) +:+ " revision=" +:+ Status_Revision st.

(** [Stop] up to its first unlock; the phase the call is in. *)
Definition after_stop (ctx : nat) (next : option string) : call :=
  match next with Some revision => Restarting ctx revision | None => Returned None end.
Definition stop_begin (ctx : nat) (next : option string) (s : Supervisor) : call * Supervisor :=
  match sv_cmd s with
  | None => (after_stop ctx next, sv_with None false (sv_stopping s) (st_set_State "stopped" (sv_status s)) s)
  | Some n => (Signalling n ctx next, sv_with (Some n) false true (sv_status s) s)
  end.
(** [Stop], its last locked part. *)
Definition stop_finish (s : Supervisor) : Supervisor :=
  sv_with (sv_cmd s) (sv_desired s) false (st_set_State "stopped" (sv_status s)) s.

(** ** Steps *)

Definition ctx_err : gerror := SysErr "context canceled".

Inductive event : Type :=
| EStart (ctx : nat) (revision : string) (now : Time) (spawn : option gerror)
| EStop (t ctx : nat) (next : option string)            (** a call of [Stop] or [Restart] *)
| ESignal (t : nat) (err : option gerror)               (** the signal; not [os.ErrProcessDone] *)
| EDone (t : nat) | ECtx (t : nat) | ETimer (t : nat)   (** the branches of the [select] *)
| EKilled (t : nat)                                     (** [<-done] after the kill *)
| EFinish (t : nat)
| ERestart (t : nat) (now : Time) (spawn : option gerror)
| EExit (n : nat) (err : option gerror)                 (** the process ends *)
| EWaited (n : nat)                                     (** [Wait] returns, [done] is closed *)
| EWatch (n : nat) (now : Time)
| EWake (n : nat) (now : Time) (spawn : option gerror) | EGiveUp (n : nat)
| EMarkReady | EMarkDegraded (err : option gerror)
| ECancel (ctx : nat).

Definition closed (s : Supervisor) (n : nat) : bool :=
  match sv_procs s !! n with Some p => pr_closed p | None => false end.

Definition step (s : Supervisor) (e : event) : option Supervisor :=
  match e with
  | EStart ctx revision now spawn => Some (Start ctx revision now spawn s).2
  | EStop t ctx next =>
    match sv_calls s !! t with
    | None => let '(c, s') := stop_begin ctx next s in Some (set_call t c s')
    | Some _ => None
    end
  | ESignal t err =>
    match sv_calls s !! t with
    | Some (Signalling n ctx next) =>
      Some (set_call t (match err with Some e => Returned (Some e) | None => Selecting n ctx next end) s)
    | _ => None
    end
  | EDone t =>
    match sv_calls s !! t with
    | Some (Selecting n ctx next) => if closed s n then Some (set_call t (Finishing n ctx next) s) else None
    | _ => None
    end
  | ECtx t =>
    match sv_calls s !! t with
    | Some (Selecting n ctx next) => if cancelled s ctx then Some (set_call t (Killing n ctx true next) s) else None
    | _ => None
    end
  | ETimer t =>
    match sv_calls s !! t with
    | Some (Selecting n ctx next) => Some (set_call t (Killing n ctx false next) s)
    | _ => None
    end
  | EKilled t =>
    match sv_calls s !! t with
    | Some (Killing n ctx c next) =>
      if closed s n
      then Some (set_call t (if c then Returned (Some ctx_err) else Finishing n ctx next) s) else None
    | _ => None
    end
  | EFinish t =>
    match sv_calls s !! t with
    | Some (Finishing n ctx next) => Some (set_call t (after_stop ctx next) (stop_finish s))
    | _ => None
    end
  | ERestart t now spawn =>
    match sv_calls s !! t with
    | Some (Restarting ctx revision) =>
      let '(e, s') := Start ctx revision now spawn s in Some (set_call t (Returned e) s')
    | _ => None
    end
  | EExit n err =>
    match sv_procs s !! n with
    | Some (mkProc revision ctx None cl w) =>
      Some (sv_set_procs (<[n := mkProc revision ctx (Some err) cl w]> (sv_procs s)) (sv_next s) s)
    | _ => None
    end
  | EWaited n =>
    match sv_procs s !! n with
    | Some (mkProc revision ctx (Some err) _ Waiting) =>
      Some (sv_set_procs (<[n := mkProc revision ctx (Some err) true (Locking err)]> (sv_procs s)) (sv_next s) s)
    | _ => None
    end
  | EWatch n now =>
    match sv_procs s !! n with
    | Some p => match pr_watch p with Locking err => Some (watch_exit n p err now s) | _ => None end
    | None => None
    end
  | EWake n now spawn =>
    match sv_procs s !! n with
    | Some p => match pr_watch p with Sleeping _ => Some (watch_wake n p now spawn s) | _ => None end
    | None => None
    end
  | EGiveUp n =>
    match sv_procs s !! n with
    | Some p => match pr_watch p with
                | Sleeping _ => if cancelled s (pr_ctx p) then Some (set_watch n Finished s) else None
                | _ => None
                end
    | None => None
    end
  | EMarkReady => Some (MarkReady s)
  | EMarkDegraded err => Some (MarkDegraded err s)
  | ECancel ctx => Some (sv_set_cancelled ({[ ctx ]} ∪ sv_cancelled s) s)
  end.

Fixpoint run (s : Supervisor) (es : list event) : option Supervisor :=
  match es with
  | [] => Some s
  | e :: es' => match step s e with Some s' => run s' es' | None => None end
  end.

Inductive reachable (cfg : Config) : Supervisor → Prop :=
| reach_new s : New cfg = Ok s → reachable cfg s
| reach_step s e s' : reachable cfg s → step s e = Some s' → reachable cfg s'.

