(* ===== verification/SupervisorSpec.v ===== *)
(** What the supervisor guarantees in every interleaving, and two behaviours a
    reader of the code should know: a context that ends disarms the restart
    after a crash, and a [Restart] can lose against the goroutine it waits for. *)
From S2P Require Import Prelude GoStrings Domain Sanitize Supervisor.

(** ** The invariant *)

Definition active (p : proc) : bool :=
  match pr_watch p with Waiting | Locking _ => true | _ => false end.
Definition phase_ok (p : proc) : Prop :=
  match pr_watch p with
  | Waiting => pr_closed p = false
  | Locking err => pr_exit p = Some err ∧ pr_closed p = true
  | Sleeping d => pr_exit p ≠ None ∧ pr_closed p = true ∧ 100 * millisecond <= d <= 3200 * millisecond
  | Finished => pr_exit p ≠ None ∧ pr_closed p = true
  end.
(** The goroutine that has not got past its lock is that of [s.cmd]. *)
Record procs_ok (cmd : option nat) (ps : gmap nat proc) (next : nat) : Prop := {
  po_next : (0 < next)%nat;
  po_proc : ∀ n p, ps !! n = Some p → (0 < n < next)%nat ∧ phase_ok p ∧ (active p = true ↔ cmd = Some n);
  po_cmd : ∀ n, cmd = Some n → is_Some (ps !! n) ∧ next = S n
}.
Definition status_ok (cmd : option nat) (st : EndpointStatus) : Prop :=
  Status_PID st = match cmd with Some n => Z.of_nat n | None => 0 end
  ∧ (Status_State st ∈ ["ready"; "degraded"] → cmd ≠ None).
Definition call_ok (ps : gmap nat proc) (c : call) : Prop :=
  match c with
  | Finishing n _ _ => ∃ p, ps !! n = Some p ∧ pr_closed p = true
  | _ => True
  end.
Record sv_ok (s : Supervisor) : Prop := {
  sk_procs : procs_ok (sv_cmd s) (sv_procs s) (sv_next s);
  sk_status : status_ok (sv_cmd s) (sv_status s);
  sk_limits : 0 < cfg_MaxRestarts (sv_cfg s) ∧ 0 < cfg_RestartWindow (sv_cfg s);
  sk_calls : ∀ t c, sv_calls s !! t = Some c → call_ok (sv_procs s) c
}.

Lemma alter_at {A} (f : A → A) n (m : gmap nat A) x : m !! n = Some x → alter f n m = <[n := f x]> m.
Proof.
  intros H. apply map_eq. intros i. destruct (decide (i = n)) as [->|Hne].
  - by rewrite lookup_alter_eq, H, lookup_insert_eq.
  - by rewrite lookup_alter_ne, lookup_insert_ne.
Qed.

Lemma procs_ok_start ps next revision ctx :
  procs_ok None ps next → procs_ok (Some next) (<[next := mkProc revision ctx None false Waiting]> ps) (S next).
Proof.
  intros [Hn Hp _]. split; [lia|..].
  - intros n p [[<- <-]|[Hne H]]%lookup_insert_Some; [split_and!; [lia|lia|done|done]|].
    destruct (Hp _ _ H) as (? & ? & Ha). split_and!; [lia|lia|done|]. split; [|congruence].
    intros [=]%Ha.
  - intros n [= <-]. by rewrite lookup_insert_eq.
Qed.
Lemma procs_ok_set cmd ps next n p p' :
  procs_ok cmd ps next → ps !! n = Some p → phase_ok p' → active p' = active p →
  procs_ok cmd (<[n := p']> ps) next.
Proof.
  intros [Hn Hp Hc] Hl Hph Ha. split; [done|..].
  - intros i q [[<- <-]|[Hne H]]%lookup_insert_Some; [|by apply Hp].
    destruct (Hp _ _ Hl) as (? & _ & ?). split_and!; [lia|lia|done|by rewrite Ha].
  - intros i Hi. destruct (Hc i Hi) as [? ?]. split; [|done].
    destruct (decide (n = i)) as [->|]; [by rewrite lookup_insert_eq|]. by rewrite lookup_insert_ne.
Qed.
Lemma procs_ok_retire ps next n p p' :
  procs_ok (Some n) ps next → ps !! n = Some p → phase_ok p' → active p' = false →
  procs_ok None (<[n := p']> ps) next.
Proof.
  intros [Hn Hp Hc] Hl Hph Ha. split; [done| |done].
  intros i q [[<- <-]|[Hne H]]%lookup_insert_Some.
  - destruct (Hp _ _ Hl) as (? & _ & ?). split_and!; [lia|lia|done|by rewrite Ha].
  - destruct (Hp _ _ H) as (? & ? & Hx). split_and!; [lia|lia|done|]. split; [|done]. intros [= ->]%Hx. done.
Qed.
Lemma calls_ok_insert (cs : gmap nat call) ps ps' :
  (∀ n p, ps !! n = Some p → pr_closed p = true → ∃ p', ps' !! n = Some p' ∧ pr_closed p' = true) →
  (∀ t c, cs !! t = Some c → call_ok ps c) → (∀ t c, cs !! t = Some c → call_ok ps' c).
Proof.
  intros Hp Hc t c Ht. specialize (Hc t c Ht). destruct c; try done. destruct Hc as (p & H1 & H2).
  by apply (Hp _ _ H1).
Qed.
Lemma closed_insert (ps : gmap nat proc) n p p' :
  ps !! n = Some p → (pr_closed p = true → pr_closed p' = true) →
  ∀ i q, ps !! i = Some q → pr_closed q = true → ∃ q', <[n := p']> ps !! i = Some q' ∧ pr_closed q' = true.
Proof.
  intros Hp Hc i q Hq Hcl. destruct (decide (n = i)) as [->|Hne].
  - rewrite lookup_insert_eq. exists p'. split; [done|]. apply Hc. congruence.
  - rewrite lookup_insert_ne by done. eauto.
Qed.

Lemma set_call_ok t c s : sv_ok s → call_ok (sv_procs s) c → sv_ok (set_call t c s).
Proof.
  intros [] Hc. split; try done. simpl. intros i x [[<- <-]|[_ H]]%lookup_insert_Some; eauto.
Qed.

(** ** Preservation *)

Lemma startLocked_ok ctx revision now spawn s :
  sv_ok s → sv_cmd s = None → sv_ok (startLocked ctx revision now spawn s).2.
Proof.
  intros [Hp Hs Hr Hc] Hn. unfold startLocked. destruct spawn as [e|]; simpl.
  - split; simpl; try done. rewrite Hn in *. destruct Hs as [Hpid Hst]. split; [done|]. simpl. set_solver.
  - rewrite Hn in Hp. split; simpl; [by apply procs_ok_start|split; [done|by intros _]|done|].
    eapply calls_ok_insert; [|exact Hc]. intros n p H Hcl. exists p. split; [|done].
    rewrite lookup_insert_ne; [done|]. destruct (po_proc _ _ _ Hp _ _ H). lia.
Qed.
Lemma Start_ok ctx revision now spawn s : sv_ok s → sv_ok (Start ctx revision now spawn s).2.
Proof.
  intros Hok. unfold Start. destruct (sv_cmd s) eqn:E; [done|]. apply startLocked_ok; [|done].
  destruct Hok as [Hp Hs Hr Hc]. rewrite E in *. by split.
Qed.

Lemma set_watch_procs n p ph s :
  sv_procs s !! n = Some p →
  sv_procs (set_watch n ph s) = <[n := mkProc (pr_revision p) (pr_ctx p) (pr_exit p) (pr_closed p) ph]> (sv_procs s).
Proof. intros H. simpl. by rewrite (alter_at _ _ _ _ H). Qed.

Lemma restart_delay_bounds n : 1 <= n → 100 * millisecond <= restart_delay n <= 3200 * millisecond.
Proof.
  intros Hn. unfold restart_delay. assert (H : 0 <= Z.min (n - 1) 5 <= 5) by lia. revert H.
  generalize (Z.min (n - 1) 5) as k. intros k Hk. assert (Hin : In k [0; 1; 2; 3; 4; 5]) by (simpl; lia).
  simpl in Hin. unfold millisecond. repeat (destruct Hin as [<-|Hin]; [vm_compute; by split|]). done.
Qed.

(** The end of the goroutine of the current process. *)
Lemma retire_ok n p ph desired stopping st restarts s :
  sv_ok s → sv_procs s !! n = Some p → sv_cmd s = Some n →
  phase_ok (mkProc (pr_revision p) (pr_ctx p) (pr_exit p) (pr_closed p) ph) → 
  match ph with Waiting | Locking _ => False | _ => True end →
  status_ok None st →
  sv_ok (set_watch n ph (sv_set_restarts restarts (sv_with None desired stopping st s))).
Proof.
  intros [Hp Hs Hr Hc] Hl Hn Hph Hna Hst. rewrite Hn in Hp.
  assert (Hl' : sv_procs (sv_set_restarts restarts (sv_with None desired stopping st s)) !! n = Some p) by done.
  split; [rewrite (set_watch_procs _ _ _ _ Hl')|done|done|rewrite (set_watch_procs _ _ _ _ Hl')]; simpl.
  - eapply procs_ok_retire; [done..|]. by destruct ph.
  - eapply calls_ok_insert; [|exact Hc]. by eapply closed_insert.
Qed.

Lemma watch_exit_ok n p err now s :
  sv_ok s → sv_procs s !! n = Some p → pr_watch p = Locking err → sv_ok (watch_exit n p err now s).
Proof.
  intros Hok Hl Hw. assert (Hok' := Hok). destruct Hok' as [Hp Hs Hr Hc].
  destruct (po_proc _ _ _ Hp _ _ Hl) as (_ & Hph & Ha). unfold phase_ok in Hph. rewrite Hw in Hph.
  assert (Hcmd : sv_cmd s = Some n) by (apply Ha; unfold active; by rewrite Hw).
  destruct Hph as [Hex Hcl]. unfold watch_exit. rewrite Hcmd, bool_decide_eq_true_2 by done. simpl.
  set (st := match err with Some e => _ | None => _ end).
  assert (Hpid : Status_PID st = 0) by (unfold st; by destruct err).
  assert (Hst : ∀ x, x ∉ ["ready"; "degraded"] → status_ok None (st_set_State x st)) by (intros x ?; by split).
  assert (Hfin : phase_ok (mkProc (pr_revision p) (pr_ctx p) (pr_exit p) (pr_closed p) Finished)).
  { unfold phase_ok. simpl. by rewrite Hex. }
  destruct (_ || _ || _).
  - change (sv_with None (sv_desired s) (sv_stopping s) (st_set_State "stopped" st) s)
      with (sv_set_restarts (sv_restarts s) (sv_with None (sv_desired s) (sv_stopping s) (st_set_State "stopped" st) s)).
    eapply retire_ok; [done..|apply Hst; set_solver].
  - destruct (_ <? _) eqn:El; (eapply retire_ok; [done|done|done| |done|apply Hst; set_solver]).
    + done.
    + unfold phase_ok. simpl. split; [by rewrite Hex|]. split; [done|]. apply restart_delay_bounds.
      rewrite length_app. simpl. lia.
Qed.

Lemma sv_with_same s : sv_with (sv_cmd s) (sv_desired s) (sv_stopping s) (sv_status s) s = s.
Proof. by destruct s. Qed.

Lemma finish_watch_ok n p d s :
  sv_ok s → sv_procs s !! n = Some p → pr_watch p = Sleeping d → sv_ok (set_watch n Finished s).
Proof.
  intros [Hp Hs Hr Hc] Hl Hw. destruct (po_proc _ _ _ Hp _ _ Hl) as (_ & Hph & _). unfold phase_ok in Hph.
  rewrite Hw in Hph. destruct Hph as (He & Hcl & _).
  split; [rewrite (set_watch_procs _ _ _ _ Hl)|done|done|rewrite (set_watch_procs _ _ _ _ Hl)].
  - eapply procs_ok_set; [done..|]. unfold active. by rewrite Hw.
  - eapply calls_ok_insert; [|exact Hc]. by eapply closed_insert.
Qed.
Lemma watch_wake_ok n p d now spawn s :
  sv_ok s → sv_procs s !! n = Some p → pr_watch p = Sleeping d → sv_ok (watch_wake n p now spawn s).
Proof.
  intros Hok Hl Hw. pose proof (finish_watch_ok _ _ _ _ Hok Hl Hw) as Hok'. unfold watch_wake.
  destruct (_ && _ && _) eqn:E; [|done]. apply startLocked_ok; [done|].
  by apply andb_true_iff in E as [[_ E%bool_decide_eq_true]%andb_true_iff _].
Qed.

Lemma status_set_ok f s :
  sv_ok s → status_ok (sv_cmd s) (f (sv_status s)) → sv_ok (sv_set_status f s).
Proof. intros [] H. by split. Qed.
Lemma stopped_status cmd st : status_ok cmd st → status_ok cmd (st_set_State "stopped" st).
Proof. intros [Hp _]. split; [done|]. simpl. set_solver. Qed.

Lemma step_ok s e s' : sv_ok s → step s e = Some s' → sv_ok s'.
Proof.
  intros Hok H. assert (Hok' := Hok). destruct Hok' as [Hp Hs Hr Hc].
  destruct e; simpl in H.
  - injection H as <-. by apply Start_ok.
  - destruct (sv_calls s !! t); [done|]. unfold stop_begin in H. destruct (sv_cmd s) as [n|] eqn:En; injection H as <-.
    + apply set_call_ok; [|done]. split; simpl; [exact Hp|exact Hs|exact Hr|exact Hc].
    + apply set_call_ok; [|by destruct next]. split; simpl; [exact Hp|by apply stopped_status|exact Hr|exact Hc].
  - destruct (sv_calls s !! t) as [[]|]; try done. injection H as <-. apply set_call_ok; [done|]. by destruct err.
  - destruct (sv_calls s !! t) as [[]|]; try done. destruct (closed s pid) eqn:Hcl; [|done]. injection H as <-.
    apply set_call_ok; [done|]. unfold closed in Hcl. destruct (sv_procs s !! pid) as [p|] eqn:E; [|done]. simpl. eauto.
  - destruct (sv_calls s !! t) as [[]|]; try done. destruct (cancelled s ctx); [|done]. injection H as <-.
    by apply set_call_ok.
  - destruct (sv_calls s !! t) as [[]|]; try done. injection H as <-. by apply set_call_ok.
  - destruct (sv_calls s !! t) as [[]|]; try done. destruct (closed s pid) eqn:Hcl; [|done]. injection H as <-.
    apply set_call_ok; [done|]. unfold closed in Hcl. destruct (sv_procs s !! pid) as [p|] eqn:E; [|done].
    destruct cancelled; [done|]. simpl. eauto.
  - destruct (sv_calls s !! t) as [[]|]; try done. injection H as <-. apply set_call_ok; [|by destruct next].
    split; try done. by apply stopped_status.
  - destruct (sv_calls s !! t) as [[]|]; try done. pose proof (Start_ok ctx revision now spawn s Hok) as Hst.
    destruct (Start _ _ _ _ s) as [e s1]. injection H as <-. by apply set_call_ok.
  - destruct (sv_procs s !! n) as [[revision ctx [x|] cl w]|] eqn:E; try done. injection H as <-.
    destruct (po_proc _ _ _ Hp _ _ E) as (_ & Hph & _). unfold phase_ok in Hph. simpl in Hph.
    assert (w = Waiting ∧ cl = false) as [-> ->] by (destruct w; naive_solver).
    split; simpl; try done; [by eapply procs_ok_set|]. eapply calls_ok_insert; [|exact Hc]. by eapply closed_insert.
  - destruct (sv_procs s !! n) as [[revision ctx [x|] cl []]|] eqn:E; try done. injection H as <-.
    split; simpl; try done; [by eapply procs_ok_set|]. eapply calls_ok_insert; [|exact Hc]. by eapply closed_insert.
  - destruct (sv_procs s !! n) as [p|] eqn:E; [|done]. destruct (pr_watch p) eqn:Hw; try done. injection H as <-.
    by apply watch_exit_ok.
  - destruct (sv_procs s !! n) as [p|] eqn:E; [|done]. destruct (pr_watch p) eqn:Hw; try done. injection H as <-.
    by eapply watch_wake_ok.
  - destruct (sv_procs s !! n) as [p|] eqn:E; [|done]. destruct (pr_watch p) eqn:Hw; try done.
    destruct (cancelled s (pr_ctx p)); [|done]. injection H as <-. by eapply finish_watch_ok.
  - injection H as <-. unfold MarkReady. destruct (sv_cmd s) eqn:En; [|done]. apply status_set_ok; [done|].
    rewrite En. destruct Hs as [Hpid _]. by split.
  - injection H as <-. unfold MarkDegraded. destruct (sv_cmd s) eqn:En; [|done]. apply status_set_ok; [done|].
    rewrite En. destruct Hs as [Hpid _]. split; [by destruct err|done].
  - injection H as <-. by split.
Qed.

Lemma New_ok cfg s : New cfg = Ok s → sv_ok s.
Proof.
  unfold New. destruct (cfg_Args cfg); [|done]. case_bool_decide; [done|]. intros [= <-].
  split; simpl; [split; [lia|done|done]|split; [done|set_solver]| |done].
  destruct (cfg_MaxRestarts cfg <=? 0) eqn:E, (cfg_RestartWindow cfg <=? 0) eqn:E2; unfold minute, second, millisecond; lia.
Qed.
Lemma reachable_ok cfg s : reachable cfg s → sv_ok s.
Proof. induction 1; [by eapply New_ok|by eapply step_ok]. Qed.
Lemma reachable_run cfg s es s' : reachable cfg s → run s es = Some s' → reachable cfg s'.
Proof.
  revert s. induction es as [|e es IH]; intros s Hr H; simpl in H; [by injection H as <-|].
  destruct (step s e) as [s1|] eqn:E; [|done]. eapply IH; [by eapply reach_step|done].
Qed.

(** ** Properties *)

Lemma running_is_current s n p :
  sv_ok s → sv_procs s !! n = Some p → pr_exit p = None → sv_cmd s = Some n ∧ Status_PID (sv_status s) = Z.of_nat n.
Proof.
  intros [Hp [Hpid _] _ _] Hl Hx. destruct (po_proc _ _ _ Hp _ _ Hl) as (_ & Hph & Ha).
  assert (Hc : sv_cmd s = Some n).
  { apply Ha. unfold active. unfold phase_ok in Hph. destruct (pr_watch p); naive_solver. }
  split; [done|]. by rewrite Hc in Hpid.
Qed.

(** C8. Whatever starts, stops, crashes and timers interleave, at most one
    endpoint process runs; it is the one the supervisor holds, and its pid is
    the one the status reports. *)
Theorem at_most_one_endpoint cfg s n p :
  reachable cfg s → sv_procs s !! n = Some p → pr_exit p = None →
  sv_cmd s = Some n ∧ Status_PID (Status s) = Z.of_nat n
  ∧ (∀ m q, sv_procs s !! m = Some q → pr_exit q = None → m = n).
Proof.
  intros Hr%reachable_ok Hl Hx. destruct (running_is_current _ _ _ Hr Hl Hx) as [Hc Hp].
  split; [done|]. split; [done|]. intros m q Hm Hq. destruct (running_is_current _ _ _ Hr Hm Hq). congruence.
Qed.

(** A step that no caller's start is part of. *)
Definition starts (e : event) : bool :=
  match e with EStart _ _ _ _ | ERestart _ _ _ => true | _ => false end.

Lemma undesired_step s e s' :
  sv_ok s → sv_desired s = false → starts e = false → step s e = Some s' →
  sv_desired s' = false ∧ sv_next s' = sv_next s.
Proof.
  intros Hok Hd Hs H. destruct e; try done; simpl in H.
  - destruct (sv_calls s !! t); [done|]. unfold stop_begin in H. destruct (sv_cmd s); by injection H as <-.
  - destruct (sv_calls s !! t) as [[]|]; by simplify_eq.
  - destruct (sv_calls s !! t) as [[]|]; try done. destruct (closed _ _); by simplify_eq.
  - destruct (sv_calls s !! t) as [[]|]; try done. destruct (cancelled _ _); by simplify_eq.
  - destruct (sv_calls s !! t) as [[]|]; by simplify_eq.
  - destruct (sv_calls s !! t) as [[]|]; try done. destruct (closed _ _); by simplify_eq.
  - destruct (sv_calls s !! t) as [[]|]; by simplify_eq.
  - destruct (sv_procs s !! n) as [[? ? [] ? ?]|]; by simplify_eq.
  - destruct (sv_procs s !! n) as [[? ? [] ? []]|]; by simplify_eq.
  - destruct (sv_procs s !! n) as [p|] eqn:E; [|done]. destruct (pr_watch p); try done. injection H as <-.
    unfold watch_exit. rewrite Hd. by destruct (negb _).
  - destruct (sv_procs s !! n) as [p|]; [|done]. destruct (pr_watch p); try done. injection H as <-.
    unfold watch_wake. simpl. by rewrite Hd.
  - destruct (sv_procs s !! n) as [p|]; [|done]. destruct (pr_watch p); try done.
    destruct (cancelled _ _); by simplify_eq.
  - injection H as <-. unfold MarkReady. by destruct (sv_cmd s).
  - injection H as <-. unfold MarkDegraded. by destruct (sv_cmd s).
  - by injection H as <-.
Qed.


(** When [Stop] comes to its last part the process it stopped has exited,
    the status says stopped, and unless another process was started meanwhile
    none is running. *)
Theorem Stop_waits_for_exit cfg s t n ctx next s' :
  reachable cfg s → sv_calls s !! t = Some (Finishing n ctx next) → step s (EFinish t) = Some s' →
  (∃ p err, sv_procs s' !! n = Some p ∧ pr_exit p = Some err)
  ∧ Status_State (Status s') = "stopped" ∧ sv_stopping s' = false
  ∧ (sv_next s' = S n → ∀ m q, sv_procs s' !! m = Some q → pr_exit q ≠ None).
Proof.
  intros Hr Ht H. simpl in H. rewrite Ht in H. injection H as <-. simpl.
  pose proof (reachable_ok _ _ Hr) as Hok. destruct (sk_calls _ Hok _ _ Ht) as (p & Hp & Hcl).
  destruct (po_proc _ _ _ (sk_procs _ Hok) _ _ Hp) as (_ & Hph & _).
  assert (Hx : ∃ err, pr_exit p = Some err).
  { unfold phase_ok in Hph. destruct (pr_watch p); [congruence|naive_solver|..];
      destruct (pr_exit p) eqn:E; naive_solver. }
  destruct Hx as [err Hx]. split_and!; [eauto|done|done|]. intros Hnext m q Hm Hq.
  destruct (running_is_current _ _ _ Hok Hm Hq) as [Hc _].
  destruct (po_cmd _ _ _ (sk_procs _ Hok) _ Hc) as [_ Hlast]. assert (m = n) as -> by lia. congruence.
Qed.

(** What a crash leads to: the process has exited with [err], its goroutine is
    still in [Wait], the endpoint is wanted and nobody is stopping it. *)
Definition crashed (s : Supervisor) (n : nat) (p : proc) (err : option gerror) : Prop :=
  sv_cmd s = Some n ∧ sv_procs s !! n = Some p ∧ pr_exit p = Some err ∧ pr_watch p = Waiting.
Definition wanted (s : Supervisor) : Prop := sv_desired s = true ∧ sv_stopping s = false.

Definition waited (n : nat) (p : proc) (err : option gerror) (s : Supervisor) : Supervisor :=
  sv_set_procs (<[n := mkProc (pr_revision p) (pr_ctx p) (Some err) true (Locking err)]> (sv_procs s)) (sv_next s) s.
Lemma waited_step s n p err : crashed s n p err → step s (EWaited n) = Some (waited n p err s).
Proof. intros (_ & Hp & Hx & Hw). simpl. rewrite Hp. destruct p as [r c x cl w]. simpl in *. by subst. Qed.
Lemma waited_lookup s n p err :
  sv_procs (waited n p err s) !! n = Some (mkProc (pr_revision p) (pr_ctx p) (Some err) true (Locking err)).
Proof. simpl. by rewrite lookup_insert_eq. Qed.


(** A context that ended disarms the restart: the goroutine watches the
    context its starter passed, so when that context is cancelled - the request
    of the administrator's interface has been answered - a crash of a wanted
    endpoint leaves it stopped, with no goroutine that would start it again. *)
Theorem ended_context_disarms_restart cfg s n p err now :
  reachable cfg s → crashed s n p err → wanted s → pr_ctx p ∈ sv_cancelled s →
  ∃ s1, run s [EWaited n; EWatch n now] = Some s1
    ∧ Status_State (Status s1) = "stopped" ∧ sv_cmd s1 = None ∧ sv_desired s1 = true
    ∧ (∃ q, sv_procs s1 !! n = Some q ∧ pr_watch q = Finished)
    ∧ (∀ m q, sv_procs s1 !! m = Some q → pr_exit q ≠ None).
Proof.
  intros Hr Hcr [Hd Hst] Hctx. pose proof (waited_step _ _ _ _ Hcr) as Hw1. destruct Hcr as (Hc & Hp & Hx & Hw).
  set (s0 := waited n p err s) in *. pose proof (waited_lookup s n p err) as Hl0. fold s0 in Hl0.
  assert (Hr0 : reachable cfg s0) by (eapply reach_step; [exact Hr|exact Hw1]).
  set (p0 := mkProc (pr_revision p) (pr_ctx p) (Some err) true (Locking err)) in *.
  assert (Hstep : step s0 (EWatch n now) = Some (watch_exit n p0 err now s0)) by (simpl; rewrite lookup_insert_eq; done).
  assert (Hr1 : reachable cfg (watch_exit n p0 err now s0)) by (eapply reach_step; [exact Hr0|exact Hstep]).
  exists (watch_exit n p0 err now s0). split; [cbn [run]; rewrite Hw1, Hstep; done|].
  assert (Hno : sv_cmd (watch_exit n p0 err now s0) = None →
    ∀ m q, sv_procs (watch_exit n p0 err now s0) !! m = Some q → pr_exit q ≠ None).
  { intros Hcn m q Hm Hq. destruct (running_is_current _ _ _ (reachable_ok _ _ Hr1) Hm Hq). congruence. }
  revert Hno. unfold watch_exit. change (sv_cmd s0) with (sv_cmd s). rewrite Hc, bool_decide_eq_true_2 by done. simpl negb.
  cbn [negb]. unfold cancelled. change (sv_cancelled s0) with (sv_cancelled s). simpl pr_ctx.
  rewrite (bool_decide_eq_true_2 (pr_ctx p ∈ sv_cancelled s)) by done. rewrite orb_true_r. intros Hno.
  split; [done|]. split; [done|]. split; [done|]. split; [|by apply Hno].
  eexists. split; [simpl; by rewrite (alter_at _ _ _ _ Hl0), lookup_insert_eq|done].
Qed.

(** ** A race of [Restart] *)

Definition demo_config : Config := mkConfig "endpoint" (Some (λ _, [])) "" 0 0 0 0 "v1".
(** A restart whose [Stop] sees [done] closed and finishes before the goroutine
    of the old process takes the lock. *)
Definition restart_race : list event :=
  [EStart 0 "r1" 1 None; EStop 1 0 (Some "r2"); ESignal 1 None; EExit 1 None; EWaited 1; EDone 1; EFinish 1;
   ERestart 1 2 None; EWatch 1 3].

