(* ===== verification/ClientProfile.v ===== *)
(** [internal/clientprofile]: the client-side settings and the way they are
    written into the official export, its TOML tables and its deep link. *)
From S2P Require Import Prelude GoStrings Quote Base64 GoPath Domain Config.

(** ** [settings.go] *)

Record Settings := mkSettings {
  PublicAddress : string;
  Protocol : string;
  AntiDPI : bool;
  IPv6 : bool;
  TLSProfile : string;
  PostQuantum : bool
}.
#[export] Instance Settings_eq_dec : EqDecision Settings.
Proof. solve_decision. Defined.

Definition Default : Settings := mkSettings "" "http2" false true "chrome" true.

(** The pattern of [config.go]. *)
Definition dnsName (s : string) : bool := hostnameRE s.

Definition validate_address (a : string) : option gerror :=
  match split_host_port a with
  | None => Some (Errorf "public address must be host:port (IPv6: [address]:port)")
  | Some (host, port) =>
    if negb (match atoi port with Some p => (1 <=? p) && (p <=? 65535) | None => false end)
    then Some (Errorf "public port must be between 1 and 65535")
    else match parse_ip host with
    | Some ip => if ip_is_unspecified ip || ip_is_multicast ip
                 then Some (Errorf "public address must identify a reachable server") else None
    | None => if (253 <? len host) || negb (dnsName host) then Some (Errorf "invalid public hostname") else None
    end
  end.

Definition tls_profiles : list string := ["chrome"; "safari"; "firefox"; "okhttp"; "openssl"; "default"].
Definition Settings_Validate (s : Settings) : option gerror :=
  match (if bool_decide (PublicAddress s = "") then None else validate_address (PublicAddress s)) with
  | Some e => Some e
  | None =>
    if negb (bool_decide (Protocol s = "http2")) && negb (bool_decide (Protocol s = "http3"))
    then Some (Errorf "choose HTTP/2 or QUIC/HTTP/3")
    else if AntiDPI s && negb (bool_decide (Protocol s = "http2"))
    then Some (Errorf "Anti-DPI preset requires HTTP/2; test QUIC separately")
    else if bool_decide (TLSProfile s ∈ tls_profiles) then None
    else Some (Errorf "unknown TLS fingerprint")
  end.

Definition Address (s : Settings) (hostname : string) : result string :=
  match Settings_Validate s with
  | Some e => Err e
  | None =>
    if negb (bool_decide (PublicAddress s = "")) then Ok (PublicAddress s)
    else if negb (dnsName hostname) || (253 <? len hostname) || bool_decide (is_Some (parse_ip hostname))
    then Err (Errorf "configure a VPN TLS hostname first")
    else Ok (join_host_port hostname "443")
  end.

(** ** [export.go]: the deep link *)

(** A QUIC variable-length integer: the top two bits of the first byte give the
    length.  62 bits at most, so the 64-bit accumulator never wraps. *)
Definition varint (b : list ascii) : option (Z * nat) :=
  match b with
  | [] => None
  | c :: r =>
    let n := Z.to_nat (Z.shiftl 1 (Z.shiftr (code c) 6)) in
    if (length b <? n)%nat then None
    else Some (foldl (λ v x, Z.lor (Z.shiftl v 8) (code x)) (Z.land (code c) 63) (take (n - 1) r), n)
  end.

(** The client settings' tags: IPv6, protocol, anti-DPI. *)
Definition kept_tag (tag : Z) : bool := negb (tag =? 4) && negb (tag =? 9) && negb (tag =? 10).

(** One entry: its tag, its bytes and the rest. *)
Definition next_entry (raw : list ascii) : result (Z * list ascii * list ascii) :=
  match varint raw with
  | None => Err (Errorf "truncated deeplink tag")
  | Some (tag, n) =>
    let raw1 := drop n raw in
    match varint raw1 with
    | None => Err (Errorf "truncated deeplink length")
    | Some (size, n) =>
      let raw2 := drop n raw1 in
      if Z.of_nat (length raw2) <? size then Err (Errorf "truncated deeplink value")
      else
        let raw3 := drop (Z.to_nat size) raw2 in
        Ok (tag, take (length raw - length raw3) raw, raw3)
    end
  end.
(** The loop; an entry has two bytes at least, so the length is fuel enough. *)
Fixpoint kept_entries (fuel : nat) (raw out : list ascii) : result (list ascii) :=
  match raw with
  | [] => Ok out
  | _ =>
    match fuel with
    | O => Err (SysErr "out of fuel")
    | S fuel' =>
      match next_entry raw with
      | Err e => Err e
      | Ok (tag, entry, rest) => kept_entries fuel' rest (if kept_tag tag then out ++ entry else out)
      end
    end
  end.

Definition boolByte (v : bool) : Z := if v then 1 else 0.
Definition settings_entries (s : Settings) : list ascii :=
  chr <$> [4; 1; boolByte (IPv6 s); 9; 1; (if bool_decide (Protocol s = "http3") then 2 else 1);
           10; 1; boolByte (AntiDPI s)].
Definition link_prefix : string := "tt://?".

Definition tuneLink (link : string) (s : Settings) : result string :=
  let payload := trim_prefix link link_prefix in
  if bool_decide (payload = link) || bool_decide (payload = "") || (1048576 <? len payload)
  then Err (Errorf "invalid official deeplink")
  else match b64_decode RawURL payload with
  | None => Err (Errorf "invalid official deeplink encoding")
  | Some raw =>
    match kept_entries (String.length raw) (chars raw) [] with
    | Err e => Err e
    | Ok out => Ok (link_prefix +:+ b64_encode RawURL (of_chars (out ++ settings_entries s)))
    end
  end.

(** ** [export.go]: the TOML documents *)

(** A decoded value; [TOther] is one of a kind the code does not build. *)
Inductive toml_value : Type :=
| TString (s : string)
| TBool (b : bool)
| TInt (z : Z)
| TList (l : list string)
| TTable (m : gmap string toml_value)
| TOther (id : Z).
#[export] Instance toml_value_eq_dec : EqDecision toml_value.
Proof.
  refine (fix go v v' := let _ : EqDecision toml_value := @go in
    match v, v' with
    | TString a, TString b => cast_if (decide (a = b))
    | TBool a, TBool b => cast_if (decide (a = b))
    | TInt a, TInt b => cast_if (decide (a = b))
    | TList a, TList b => cast_if (decide (a = b))
    | TTable a, TTable b => cast_if (decide (a = b))
    | TOther a, TOther b => cast_if (decide (a = b))
    | _, _ => right _
    end); congruence.
Defined.
(** [github.com/BurntSushi/toml] *)
Class Toml := {
  toml_Decode : string → result (gmap string toml_value);
  toml_Encode : gmap string toml_value → result string
}.

Section Apply.
Context {TOML : Toml}.

Definition client_fields (s : Settings) (m : gmap string toml_value) : gmap string toml_value :=
  <["tls_profile" := TString (TLSProfile s)]>
    (<["has_ipv6" := TBool (IPv6 s)]> (<["anti_dpi" := TBool (AntiDPI s)]>
       (<["upstream_protocol" := TString (Protocol s)]> m))).
Definition cli_table (s : Settings) (endpoint : gmap string toml_value) : gmap string toml_value :=
  list_to_map [
    ("loglevel", TString "info"); ("vpn_mode", TString "general"); ("killswitch_enabled", TBool true);
    ("post_quantum_group_enabled", TBool (PostQuantum s)); ("endpoint", TTable endpoint);
    ("listener", TTable {[ "tun" := TTable (list_to_map [
       ("mtu_size", TInt 1350); ("change_system_dns", TBool true);
       ("included_routes", TList ["0.0.0.0/0"; "2000::/3"]);
       ("excluded_routes", TList ["0.0.0.0/8"; "10.0.0.0/8"; "127.0.0.0/8"; "169.254.0.0/16"; "172.16.0.0/12";
                                  "192.168.0.0/16"; "224.0.0.0/3"])]) ]})].

Definition Profile_Apply (cfg : ClientConfig) (s : Settings) : result ClientConfig :=
  match Settings_Validate s with
  | Some e => Err e
  | None =>
    match toml_Decode (Client_TOML cfg) with
    | Err _ => Err (Errorf "invalid official endpoint TOML")
    | Ok endpoint =>
      let endpoint := client_fields s endpoint in
      match toml_Encode endpoint with
      | Err e => Err e
      | Ok text =>
        match tuneLink (Client_DeepLink cfg) s with
        | Err e => Err e
        | Ok link =>
          match toml_Encode (cli_table s endpoint) with
          | Err e => Err e
          | Ok cli => Ok (mkClientConfig link text cli)
          end
        end
      end
    end
  end.
End Apply.

(** ** The entries of a link

    The reference reading of a link's bytes: a list of entries, each with its
    tag and its bytes. *)
Inductive entries : list ascii → list (Z * list ascii) → Prop :=
| entries_nil : entries [] []
| entries_cons raw tag e rest es :
    next_entry raw = Ok (tag, e, rest) → entries rest es → entries raw ((tag, e) :: es).

Definition link_entries (link : string) (es : list (Z * list ascii)) : Prop :=
  ∃ payload raw, link = link_prefix +:+ payload ∧ b64_decode RawURL payload = Some raw ∧ entries (chars raw) es.

Lemma varint_length b v n : varint b = Some (v, n) → (0 < n <= length b)%nat.
Proof.
  unfold varint. destruct b as [|c r]; [done|]. destruct (_ <? _)%nat eqn:E; [done|]. intros [= _ <-].
  apply Nat.ltb_ge in E. split; [|done].
  assert (0 < Z.shiftl 1 (Z.shiftr (code c) 6)); [|lia].
  rewrite Z.shiftl_1_l. apply Z.pow_pos_nonneg; [lia|]. apply Z.shiftr_nonneg. pose proof (code_bounds c). lia.
Qed.
Lemma varint_app b v n r : varint b = Some (v, n) → varint (b ++ r) = Some (v, n).
Proof.
  destruct b as [|c b]; [done|]. unfold varint. change ((c :: b) ++ r) with (c :: (b ++ r)). cbv beta iota zeta.
  generalize (Z.to_nat (Z.shiftl 1 (Z.shiftr (code c) 6))) as k. intros k.
  destruct (Nat.ltb_spec (length (c :: b)) k) as [|E]; [done|]. intros [= <- <-]. cbn [length] in E.
  rewrite (proj2 (Nat.ltb_ge _ _)) by (cbn [length]; rewrite length_app; lia). by rewrite take_app_le by lia.
Qed.
Lemma varint_take b j v n : varint b = Some (v, n) → (n <= j)%nat → varint (take j b) = Some (v, n).
Proof.
  intros H Hj. pose proof (varint_length _ _ _ H) as Hn. revert H. destruct b as [|c b]; [done|].
  destruct j as [|j]; [lia|]. unfold varint. cbn [take]. cbv beta iota zeta.
  generalize (Z.to_nat (Z.shiftl 1 (Z.shiftr (code c) 6))) as k. intros k.
  destruct (Nat.ltb_spec (length (c :: b)) k) as [|E]; [done|]. intros [= <- <-]. cbn [length] in E.
  rewrite (proj2 (Nat.ltb_ge _ _)) by (cbn [length]; rewrite length_take; lia).
  rewrite take_take. do 4 f_equal. lia.
Qed.

(** An entry is a prefix of the bytes, read alike whatever follows it. *)
Lemma next_entry_split raw tag e rest :
  next_entry raw = Ok (tag, e, rest) →
  raw = e ++ rest ∧ (2 <= length e)%nat ∧ ∀ r, next_entry (e ++ r) = Ok (tag, e, r).
Proof.
  unfold next_entry. destruct (varint raw) as [[t n]|] eqn:E1; [|done].
  destruct (varint (drop n raw)) as [[size m]|] eqn:E2; [|done].
  destruct (_ <? size) eqn:E3; [done|]. intros [= -> <- <-]. apply Z.ltb_ge in E3.
  pose proof (varint_length _ _ _ E1). pose proof (varint_length _ _ _ E2) as H2. rewrite length_drop in H2.
  rewrite !drop_drop. rewrite !length_drop in E3. set (k := (n + (m + Z.to_nat size))%nat).
  assert (Hk : (length raw - length (drop k raw))%nat = k) by (rewrite length_drop; unfold k; lia).
  rewrite Hk. split; [by rewrite take_drop|]. split; [rewrite length_take; unfold k; lia|]. intros r.
  assert (Ht : ∀ (l : list ascii) i j, (j <= i)%nat → (j <= length l)%nat →
    drop j (take i l ++ r) = take (i - j) (drop j l) ++ r).
  { intros l i j Hi Hj. rewrite drop_app_le by (rewrite length_take; lia). by rewrite skipn_firstn_comm. }
  assert (V : ∀ b j v q, varint b = Some (v, q) → (q <= j)%nat → varint (take j b ++ r) = Some (v, q))
    by (intros b j v q Hv Hq; by apply varint_app, varint_take).
  rewrite (V raw k _ _ E1) by (unfold k; lia). rewrite (Ht raw k n) by (unfold k; lia).
  rewrite (V _ _ _ _ E2) by (unfold k; lia). rewrite (Ht _ _ m) by (rewrite ?length_drop; unfold k; lia).
  replace (k - n - m)%nat with (Z.to_nat size) by (unfold k; lia).
  rewrite (Ht _ _ (Z.to_nat size)) by (rewrite ?length_drop; lia).
  rewrite Nat.sub_diag. cbn [take app]. rewrite !length_app, !length_take, !length_drop.
  rewrite (proj2 (Z.ltb_ge _ _)) by lia.
  do 3 f_equal. replace (k `min` length raw + length r - length r)%nat with k by (unfold k; lia).
  rewrite take_app_le by (rewrite length_take; unfold k; lia). rewrite take_take. f_equal. lia.
Qed.

Lemma entries_app a es b fs : entries a es → entries b fs → entries (a ++ b) (es ++ fs).
Proof.
  intros Ha Hb. induction Ha as [|raw tag e rest es Hn _ IH]; [done|].
  destruct (next_entry_split _ _ _ _ Hn) as (-> & _ & Hs). rewrite <-app_assoc.
  simpl. eapply entries_cons; [apply Hs|done].
Qed.
Lemma entries_one raw tag : next_entry raw = Ok (tag, raw, []) → entries raw [(tag, raw)].
Proof. intros H. eapply entries_cons; [done|constructor]. Qed.

Definition keep (te : Z * list ascii) : bool := kept_tag te.1.

Lemma kept_entries_sound fuel raw out res :
  kept_entries fuel raw out = Ok res →
  ∃ es, entries raw es ∧ res = out ++ concat (List.filter keep es).*2.
Proof.
  revert raw out. induction fuel as [|fuel IH]; intros raw out H; simpl in H.
  - destruct raw; [|done]. injection H as <-. exists []. split; [constructor|by rewrite app_nil_r].
  - destruct raw as [|c raw]; [injection H as <-; exists []; split; [constructor|by rewrite app_nil_r]|].
    destruct (next_entry (c :: raw)) as [[[tag e] rest]|] eqn:En; [|done].
    apply IH in H as (es & He & ->). exists ((tag, e) :: es). split; [by eapply entries_cons|].
    simpl. unfold keep at 2. simpl. destruct (kept_tag tag); simpl; [by rewrite <-app_assoc|done].
Qed.
Lemma kept_entries_complete fuel raw es out :
  entries raw es → (length raw <= fuel)%nat →
  kept_entries fuel raw out = Ok (out ++ concat (List.filter keep es).*2).
Proof.
  intros He. revert fuel out. induction He as [|raw tag e rest es Hn _ IH]; intros fuel out Hf.
  - destruct fuel; simpl; by rewrite app_nil_r.
  - destruct (next_entry_split _ _ _ _ Hn) as (Hraw & Hl & _).
    assert (Hlen : length raw = (length e + length rest)%nat) by by rewrite Hraw, length_app.
    destruct fuel as [|fuel]; [lia|]. destruct raw as [|c raw]; [simpl in Hlen; lia|]. cbn [kept_entries].
    rewrite Hn, IH by lia. simpl. unfold keep at 2. simpl. destruct (kept_tag tag); simpl; [by rewrite <-app_assoc|done].
Qed.
Lemma entries_concat es :
  Forall (λ te, ∀ r, next_entry (te.2 ++ r) = Ok (te.1, te.2, r)) es → entries (concat es.*2) es.
Proof.
  induction 1 as [|[tag e] es Hn _ IH]; [constructor|]. simpl in *. eapply entries_cons; [apply Hn|done].
Qed.
Lemma entries_stable raw es : entries raw es → Forall (λ te, ∀ r, next_entry (te.2 ++ r) = Ok (te.1, te.2, r)) es.
Proof.
  induction 1 as [|raw tag e rest es Hn _ IH]; constructor; [|done].
  by destruct (next_entry_split _ _ _ _ Hn) as (_ & _ & ?).
Qed.
Lemma entries_filter f raw es : entries raw es → entries (concat (List.filter f es).*2) (List.filter f es).
Proof.
  intros He%entries_stable. apply entries_concat. rewrite Forall_forall in He |- *. intros te Hin. apply He.
  apply list_elem_of_In, filter_In in Hin as [Hin _]. by apply list_elem_of_In.
Qed.

(** The three entries of the settings. *)
Definition settings_tlv (s : Settings) : list (Z * list ascii) :=
  [(4, chr <$> [4; 1; boolByte (IPv6 s)]);
   (9, chr <$> [9; 1; (if bool_decide (Protocol s = "http3") then 2 else 1)]);
   (10, chr <$> [10; 1; boolByte (AntiDPI s)])].
Lemma settings_entries_tlv s : entries (settings_entries s) (settings_tlv s).
Proof.
  unfold settings_entries, settings_tlv.
  destruct (IPv6 s), (AntiDPI s), (bool_decide _);
    (eapply entries_cons; [reflexivity|]; eapply entries_cons; [reflexivity|]; eapply entries_cons; [reflexivity|constructor]).
Qed.

Lemma has_prefix_split s p : has_prefix s p = true → s = p +:+ trim_prefix s p.
Proof.
  intros H. unfold trim_prefix. rewrite H. revert s H. induction p as [|c p IH]; intros s H; [done|].
  destruct s as [|c' s]; [done|]. simpl in H |- *. apply andb_true_iff in H as [->%bool_decide_eq_true H].
  change (String c' s = String c' (p +:+ drop_bytes (String.length p) s)). f_equal. by apply IH.
Qed.
Lemma trim_link_prefix payload : trim_prefix (link_prefix +:+ payload) link_prefix = payload.
Proof. by destruct payload. Qed.

(** Tuning a deep link changes exactly the client settings: the result has
    the entries of the official link, in order and byte for byte, except those
    of the tags 4, 9 and 10, followed by the entries of the settings; and every
    link of that form whose payload is not longer than 1 MiB can be tuned. *)
Theorem tuneLink_entries link es s :
  link_entries link es → link ≠ link_prefix → len link <= 1048576 + 6 →
  ∃ link', tuneLink link s = Ok link' ∧ link_entries link' (List.filter keep es ++ settings_tlv s).
Proof.
  intros (payload & raw & -> & Hd & He) Hne Hl. unfold tuneLink.
  rewrite trim_link_prefix.
  assert (Hnp : payload ≠ "") by (intros ->; apply Hne; done).
  rewrite bool_decide_eq_false_2, bool_decide_eq_false_2; [|done|].
  2:{ intros E. apply (f_equal String.length) in E. rewrite string_length_app in E. simpl in E. lia. }
  unfold len in *. rewrite string_length_app in Hl. simpl in Hl.
  rewrite (proj2 (Z.ltb_ge _ _)) by lia. simpl. rewrite Hd.
  rewrite (kept_entries_complete _ _ _ [] He) by (rewrite chars_length; lia). simpl.
  eexists. split; [done|]. eexists _, _. split; [done|]. split; [apply b64_decode_encode|].
  rewrite chars_of_chars. apply entries_app; [by eapply entries_filter|apply settings_entries_tlv].
Qed.

Lemma filter_keep_twice es s : List.filter keep (List.filter keep es ++ settings_tlv s) = List.filter keep es.
Proof.
  rewrite List.filter_app. replace (List.filter keep (settings_tlv s)) with (@nil (Z * list ascii)) by done.
  rewrite app_nil_r. induction es as [|te es IH]; [done|]. simpl. destruct (keep te) eqn:E; simpl; [|done].
  by rewrite E, IH.
Qed.

(** Only well-formed links are tuned, and tuning is idempotent: a tuned link
    that is still short enough is tuned to itself with the same settings, and
    tuning with other settings forgets the first ones. *)
Theorem tuneLink_idempotent link s s' link' :
  tuneLink link s = Ok link' → len link' <= 1048576 + 6 →
  (∃ es, link_entries link es) ∧ tuneLink link' s = Ok link' ∧ tuneLink link' s' = tuneLink link s'.
Proof.
  intros H Hl. unfold tuneLink in H |- *.
  assert (Hlink : trim_prefix link link_prefix ≠ link → link = link_prefix +:+ trim_prefix link link_prefix).
  { intros Hne. apply has_prefix_split. unfold trim_prefix in Hne. by destruct (has_prefix link link_prefix). }
  destruct (bool_decide (trim_prefix link link_prefix = link)) eqn:E1; [done|]. apply bool_decide_eq_false in E1.
  specialize (Hlink E1). destruct (_ || _) in H |- *; [done|].
  destruct (b64_decode RawURL (trim_prefix link link_prefix)) as [raw|] eqn:Hd; [|done].
  destruct (kept_entries _ (chars raw) []) as [out|] eqn:Hk in H |- *; [|done]. injection H as <-.
  apply kept_entries_sound in Hk as (es & He & ->). cbn [app] in Hl |- *.
  set (kept := List.filter keep es) in *. set (body := b64_encode RawURL (of_chars (concat kept.*2 ++ settings_entries s))) in *.
  split; [by exists es, (trim_prefix link link_prefix), raw|].
  rewrite trim_link_prefix.
  assert (Hbody : len body ≠ 0).
  { unfold body. rewrite b64_encode_length. unfold len. rewrite <-chars_length, chars_of_chars, length_app.
    unfold settings_entries. rewrite length_fmap. simpl length. pose proof (Nat2Z.is_nonneg (length (concat kept.*2))). zdiv. }
  rewrite bool_decide_eq_false_2, bool_decide_eq_false_2.
  2:{ intros E. rewrite E in Hbody. done. }
  2:{ intros E. apply (f_equal String.length) in E. rewrite string_length_app in E. simpl in E. lia. }
  assert (Hlb : len body <= 1048576).
  { revert Hl. clear. unfold len. rewrite string_length_app. change (String.length link_prefix) with 6%nat. lia. }
  rewrite (proj2 (Z.ltb_ge 1048576 (len body)) Hlb). simpl. unfold body at 1 3. rewrite b64_decode_encode.
  assert (Hes : entries (concat kept.*2 ++ settings_entries s) (kept ++ settings_tlv s))
    by (apply entries_app; [by eapply entries_filter|apply settings_entries_tlv]).
  rewrite chars_of_chars, (kept_entries_complete _ _ _ [] Hes).
  2:{ rewrite <-chars_length, chars_of_chars. lia. }
  unfold kept. rewrite filter_keep_twice. simpl. done.
Qed.

(** ** The exported documents *)

Definition client_keys : list string := ["upstream_protocol"; "anti_dpi"; "has_ipv6"; "tls_profile"].

Lemma client_fields_other s m k : k ∉ client_keys → client_fields s m !! k = m !! k.
Proof. intros Hk. unfold client_fields. rewrite !lookup_insert_ne by set_solver. done. Qed.

(** The client settings change what they name and nothing else: an export
    that succeeds keeps every field of the official endpoint table but the four
    transport fields, which have the values of the settings; the full client
    configuration carries that table and the post-quantum option beside it, not
    in it; and the deep link is the tuned one. *)
Theorem Profile_Apply_changes_settings {TOML : Toml} cfg s cfg' :
  Profile_Apply cfg s = Ok cfg' →
  Settings_Validate s = None ∧ tuneLink (Client_DeepLink cfg) s = Ok (Client_DeepLink cfg')
  ∧ ∃ m m' cli, toml_Decode (Client_TOML cfg) = Ok m ∧ toml_Encode m' = Ok (Client_TOML cfg')
    ∧ toml_Encode cli = Ok (Client_CLI cfg')
    ∧ (∀ k, k ∉ client_keys → m' !! k = m !! k)
    ∧ m' !! "upstream_protocol" = Some (TString (Protocol s)) ∧ m' !! "anti_dpi" = Some (TBool (AntiDPI s))
    ∧ m' !! "has_ipv6" = Some (TBool (IPv6 s)) ∧ m' !! "tls_profile" = Some (TString (TLSProfile s))
    ∧ cli !! "endpoint" = Some (TTable m')
    ∧ cli !! "post_quantum_group_enabled" = Some (TBool (PostQuantum s)).
Proof.
  unfold Profile_Apply. intros H. destruct (Settings_Validate s); [done|].
  destruct (toml_Decode _) as [m|] eqn:Hd; [|done]. destruct (toml_Encode _) as [t|] eqn:He; [|done].
  destruct (tuneLink _ s) as [l|] eqn:Hl; [|done]. destruct (toml_Encode (cli_table _ _)) as [c|] eqn:Hc; [|done].
  injection H as <-. split; [done|]. split; [done|]. exists m, (client_fields s m), (cli_table s (client_fields s m)).
  split_and!; try done; [apply client_fields_other|..];
    unfold client_fields, cli_table; cbn [list_to_map foldr fst snd uncurry];
    repeat first [rewrite lookup_insert_eq; done|rewrite lookup_insert_ne by done].
Qed.
