(* ===== verification/ClientExport.v ===== *)
(** [internal/endpointcli/client.go] and [internal/service/client_configs.go]:
    the export of a user's client configuration by the official endpoint
    binary, with its bounded output, and [internal/logbuffer/ring.go] with the
    log buffer of the supervisor. *)
From S2P Require Import Prelude GoStrings Quote GoPath Domain Sanitize ClientProfile.

(** ** [limitBuffer] *)

Record limitBuffer := mkLimitBuffer { lb_buf : string; lb_max : Z; lb_tooLarge : bool }.
Definition limit_Write (b : limitBuffer) (p : string) : limitBuffer :=
  let n := len p in
  let remaining := lb_max b - len (lb_buf b) in
  let '(buf, remaining) :=
    (if 0 <? remaining
     then let remaining := if n <? remaining then n else remaining in
          (lb_buf b +:+ take_bytes (Z.to_nat remaining) p, remaining)
     else (lb_buf b, remaining)) in
  mkLimitBuffer buf (lb_max b) (if remaining <? n then true else lb_tooLarge b).
(** The writes of a command, in order. *)
Definition limit_writes (max : Z) (ps : list string) : limitBuffer :=
  foldl limit_Write (mkLimitBuffer "" max false) ps.

(** ** The bounded logs *)

Record Ring := mkRing { ring_max : Z; ring_buf : string }.
Definition Ring_New (max : Z) : Ring := mkRing (if max <=? 0 then 262144 else max) "".
(** [Write] of both buffers, with the sanitizer of its package. *)
Definition Ring_Write (clean : string → string) (r : Ring) (p : string) : Ring * Z :=
  let buf := ring_buf r +:+ clean p in
  (mkRing (ring_max r)
     (if ring_max r <? len buf then drop_bytes (Z.to_nat (len buf - ring_max r)) buf else buf), len p).
Definition Log_Write : Ring → string → Ring * Z := Ring_Write redact.
(** [Logf] of the formatted message. *)
Definition Logf (r : Ring) (message : string) : Ring := (Log_Write r (message +:+ String "010"%char "")).1.
Definition ringWriter_Write : Ring → string → Ring * Z := Ring_Write supervisor_sanitize.

(** ** [Client] *)

(** The result of a command: what it wrote, [ctx.Err()] and the error of [Run]. *)
Record command_result := mkCommandResult {
  cr_stdout : list string;
  cr_stderr : list string;
  cr_ctx : option gerror;
  cr_err : option gerror
}.
(** The semaphore [c.sem] and the binary: its arguments, its directory and its
    deadline.  [sem_acquire] fails with [ctx.Err()]. *)
Class ExportEnvironment (W : Type) := {
  sem_acquire : M W (option gerror);
  sem_release : M W unit;
  run_command : string → list string → string → Duration → M W command_result
}.
Record Client := mkClient {
  cl_binary : string;
  cl_vpnConfig : string;
  cl_hostsConfig : string;
  cl_timeout : Duration;
  cl_maxOutput : Z;
  cl_concurrency : Z
}.

Definition first_line (s : string) : string :=
  match str_index s (String "010"%char "") with Some i => take_bytes i s | None => s end.

Section Client.
Context {UT : UnicodeTables} {W : Type} {EE : ExportEnvironment W}.

Definition NewClient (binary vpnConfig hostsConfig : string) (timeout : Duration) (maxOutput concurrency : Z) :
    result Client :=
  if bool_decide (binary = "") || bool_decide (vpnConfig = "") || bool_decide (hostsConfig = "")
  then Err (Errorf "binary and config paths are required")
  else Ok (mkClient binary vpnConfig hostsConfig (if timeout <=? 0 then 10 * second else timeout)
             (if maxOutput <=? 0 then 1048576 else maxOutput) (if concurrency <=? 0 then 2 else concurrency)).

(** [run], after the command has ended. *)
Definition run_outcome (c : Client) (format : string) (r : command_result) : result string :=
  let out := limit_writes (cl_maxOutput c) (cr_stdout r) in
  let stderr := limit_writes 4096 (cr_stderr r) in
  match cr_ctx r with
  | Some e => Err (Wrapf "endpoint export timeout" e)
  | None =>
    match cr_err r with
    | Some e => Err (WrapIn "endpoint export failed: " e (": " +:+ cli_sanitize (lb_buf stderr)))
    | None =>
      if lb_tooLarge out then Err (Errorf "endpoint export exceeded output limit")
      else
        let result := trim_space (lb_buf out) in
        Ok (if bool_decide (format = "deeplink") then trim_space (first_line result) else result)
    end
  end.
Definition Client_run (c : Client) (username address format : string) : M W (result string) :=
  let* r := run_command (cl_binary c)
    [cl_vpnConfig c; cl_hostsConfig c; "-c"; username; "-a"; address; "--format"; format]
    (dir_name (cl_vpnConfig c)) (cl_timeout c) in
  ret (run_outcome c format r).

(** [Export], between the acquisition and the release. *)
Definition export_held (c : Client) (username address : string) : M W (result ClientConfig) :=
  let? deepLink := Client_run c username address "deeplink" in
  if negb (has_prefix deepLink "tt://?") && negb (has_prefix deepLink "tt://")
  then ret (Err (Errorf "official endpoint returned an invalid deeplink"))
  else
    let? toml := Client_run c username address "toml" in
    ret (Ok (mkClientConfig deepLink toml "")).
Definition Client_Export (c : Client) (user : VPNUser) (address : string) : M W (result ClientConfig) :=
  if negb (bool_decide (User_Status user = UserActive))
  then ret (Err (Errorf ("user " +:+ quote (User_Username user) +:+ " is not active")))
  else if bool_decide (trim_space address = "") then ret (Err (Errorf "public address is required"))
  else
    let* e := sem_acquire in
    match e with
    | Some e => ret (Err e)
    | None =>
      let* r := export_held c (User_Username user) address in
      let* _ := sem_release in
      ret r
    end.
End Client.

(** ** [ClientConfigService] *)

Class ClientUserRepository (W : Type) := {
  cc_UserByID : Z → M W (result VPNUser);
  cc_Snapshot : M W (Snapshot * option gerror);
  cc_LoadClientProfile : M W (Settings * option gerror)
}.

Section ClientConfigs.
Context {TOML : Toml} {W : Type} {CU : ClientUserRepository W}.
(** [s.exporter.Export] and [s.process.Status]. *)
Variable exporter_Export : VPNUser → string → M W (result ClientConfig).
Variable process_Status : M W EndpointStatus.

Definition ClientConfig_Export (id : Z) : M W (result ClientConfig) :=
  let* st := process_Status in
  if negb (bool_decide (Status_State st = "ready")) then ret (Err (Errorf "endpoint is not ready"))
  else
    let? user := cc_UserByID id in
    if negb (bool_decide (User_Status user = UserActive))
    then ret (Err (Errorf "client config is available only for active users"))
    else
      let* s := cc_Snapshot in
      match s with
      | (_, Some e) => ret (Err e)
      | (snap, None) =>
        let* p := cc_LoadClientProfile in
        match p with
        | (_, Some e) => ret (Err e)
        | (profile, None) =>
          if bool_decide (Snap_Hostname snap = "") then ret (Err (Errorf "public hostname is not configured"))
          else match Address profile (Snap_Hostname snap) with
          | Err e => ret (Err e)
          | Ok address =>
            let? cfg := exporter_Export user address in
            ret (Profile_Apply cfg profile)
          end
        end
      end.

(** [qrcode.Encode] of the medium level, or [None] when the deadline of two
    seconds passed first, with the context's error. *)
Variable qr_encode : string → Z → M W (option (result string)).
Variable qr_ctx_error : gerror.
Definition QR (id size : Z) : M W (result string) :=
  if (size <? 128) || (512 <? size) then ret (Err (Errorf "QR size must be between 128 and 512"))
  else
    let? cfg := ClientConfig_Export id in
    if 2048 <? len (Client_DeepLink cfg) then ret (Err (Errorf "QR payload exceeds limit"))
    else
      let* r := qr_encode (Client_DeepLink cfg) size in
      ret (match r with Some out => out | None => Err (Wrapf "QR generation timeout" qr_ctx_error) end).
End ClientConfigs.

(** ** Properties of the buffers *)

Fixpoint concat_strings (ps : list string) : string :=
  match ps with [] => "" | p :: ps' => p +:+ concat_strings ps' end.

Lemma string_app_assoc (a b c : string) : (a +:+ b) +:+ c = a +:+ (b +:+ c).
Proof. induction a as [|x a IH]; [done|]. change (String x ((a +:+ b) +:+ c) = String x (a +:+ (b +:+ c))). by rewrite IH. Qed.
Lemma take_bytes_le n s : (String.length (take_bytes n s) <= n)%nat.
Proof. revert s; induction n as [|n IH]; intros [|c s]; simpl; try lia. specialize (IH s). lia. Qed.
Lemma take_bytes_app n a b :
  take_bytes n (a +:+ b) = take_bytes n a +:+ take_bytes (n - String.length a) b.
Proof.
  revert a; induction n as [|n IH]; intros [|c a]; [done..| ]. change (String c (take_bytes n (a +:+ b)) = String c (take_bytes n a +:+ take_bytes (n - String.length a) b)). by rewrite IH.
Qed.
Lemma take_bytes_all n s : (String.length s <= n)%nat → take_bytes n s = s.
Proof. revert s; induction n as [|n IH]; intros [|c s] H; simpl in *; [done|lia|done|]. rewrite IH; [done|lia]. Qed.

(** A buffer that has seen the bytes [s]. *)
Definition limited (max : Z) (s : string) : limitBuffer :=
  mkLimitBuffer (take_bytes (Z.to_nat max) s) max (max <? len s).

Lemma take_bytes_len n s : String.length (take_bytes n s) = (n `min` String.length s)%nat.
Proof. revert s; induction n as [|n IH]; intros [|c s]; simpl; [done..|]. by rewrite IH. Qed.
Lemma take_bytes_0 s : take_bytes 0 s = "".
Proof. by destruct s. Qed.
Lemma string_app_nil_r (s : string) : s +:+ "" = s.
Proof. induction s as [|c s IH]; [done|]. change (String c (s +:+ "") = String c s). by rewrite IH. Qed.

Lemma limit_Write_limited max s p :
  0 <= max → limit_Write (limited max s) p = limited max (s +:+ p).
Proof.
  intros Hmax. unfold limit_Write, limited. cbn [lb_max lb_buf lb_tooLarge]. unfold len.
  rewrite take_bytes_len, string_length_app, take_bytes_app.
  destruct (Z.ltb_spec 0 (max - Z.of_nat (Z.to_nat max `min` String.length s))) as [H|H].
  - assert (Hs : (String.length s < Z.to_nat max)%nat) by lia.
    set (r := if _ <? _ then _ else _).
    assert (Hr : take_bytes (Z.to_nat r) p = take_bytes (Z.to_nat max - String.length s) p).
    { unfold r. destruct (Z.ltb_spec (Z.of_nat (String.length p))
        (max - Z.of_nat (Z.to_nat max `min` String.length s))) as [Hp|Hp].
      - rewrite !take_bytes_all by lia. done.
      - f_equal. lia. }
    rewrite Hr. f_equal. rewrite (proj2 (Z.ltb_ge max (Z.of_nat (String.length s)))) by lia. unfold r.
    destruct (Z.ltb_spec (Z.of_nat (String.length p)) (max - Z.of_nat (Z.to_nat max `min` String.length s)));
      destruct (Z.ltb_spec max (Z.of_nat (String.length s + String.length p)));
      repeat match goal with |- context [?x <? ?y] => destruct (Z.ltb_spec x y) end; try done; lia.
  - assert (Hs : (Z.to_nat max <= String.length s)%nat) by lia.
    replace (Z.to_nat max - String.length s)%nat with 0%nat by lia. rewrite take_bytes_0, string_app_nil_r. f_equal.
    destruct (Z.ltb_spec max (Z.of_nat (String.length s))); destruct (Z.ltb_spec max (Z.of_nat (String.length s + String.length p)));
      repeat match goal with |- context [?x <? ?y] => destruct (Z.ltb_spec x y) end; try done; lia.
Qed.

(** The output of the endpoint is bounded and a cut is never mistaken for the
    output: whatever the chunks are, the buffer holds the first [max] bytes of
    all that was written, and [tooLarge] says exactly that there was more. *)
Theorem limit_writes_bounded max ps :
  0 <= max →
  lb_buf (limit_writes max ps) = take_bytes (Z.to_nat max) (concat_strings ps)
  ∧ (lb_tooLarge (limit_writes max ps) = true ↔ max < len (concat_strings ps)).
Proof.
  intros Hmax. assert (H : ∀ s, foldl limit_Write (limited max s) ps = limited max (s +:+ concat_strings ps)).
  { induction ps as [|p ps IH]; intros s; simpl; [by rewrite string_app_nil_r|].
    by rewrite limit_Write_limited, IH, string_app_assoc by done. }
  unfold limit_writes. assert (Hinit : mkLimitBuffer "" max false = limited max "").
  { unfold limited. destruct (Z.to_nat max); simpl; f_equal; symmetry; apply Z.ltb_ge; unfold len; simpl; lia. }
  rewrite Hinit, (H ""). split; [done|]. apply Z.ltb_lt.
Qed.

Lemma drop_bytes_len n s : String.length (drop_bytes n s) = (String.length s - n)%nat.
Proof. revert s; induction n as [|n IH]; intros [|c s]; simpl; [done..|]. by rewrite IH. Qed.

(** The log buffers never hold more than their limit, keep the end of what
    was written, sanitized, and report the whole write as written. *)
Lemma Ring_Write_bounded clean r p r' n :
  0 < ring_max r → len (ring_buf r) <= ring_max r → Ring_Write clean r p = (r', n) →
  len (ring_buf r') <= ring_max r' ∧ ring_max r' = ring_max r ∧ n = len p
  ∧ ∃ dropped, ring_buf r +:+ clean p = dropped +:+ ring_buf r'
    ∧ (dropped ≠ "" → len (ring_buf r') = ring_max r').
Proof.
  intros Hmax Hl H. unfold Ring_Write in H. injection H as <- <-. cbn [ring_buf ring_max].
  set (buf := ring_buf r +:+ clean p). destruct (Z.ltb_spec (ring_max r) (len buf)) as [H|H].
  - set (k := Z.to_nat (len buf - ring_max r)).
    assert (Hlen : len (drop_bytes k buf) = ring_max r) by (unfold len in *; rewrite drop_bytes_len; unfold k, len; lia).
    split_and!; [lia|done|done|]. exists (take_bytes k buf). split; [|by intros _].
    generalize k, buf. clear. intros k. induction k as [|k IH]; intros [|c s]; [done..|]. change (String c s = String c (take_bytes k s +:+ drop_bytes k s)). by rewrite <-IH.
  - split_and!; [done..|]. exists "". split; [done|]. by intros ?.
Qed.
