(* ===== verification/ReleaseScripts.v ===== *)
(** [scripts/verify-official-export.go] and [scripts/write-connection-smoke.go]:
    the release checks of an official export, with their own reader of deep
    links, and the client profile of the connection test.  Both run the
    controller's [clientprofile.Apply]; the theorems relate what they read to
    what [ClientProfile.v] writes. *)
From S2P Require Import Prelude GoStrings Base64 GoPath Domain Quote Sha256 X509 ClientProfile ClientExport.

(** ** The end of a script

    Normally, by [fail(message)] (exit status 1), or by a panic. *)
Inductive script_outcome (A : Type) : Type :=
| Done (a : A)
| Failed (message : string)
| Panicked.
Arguments Done {A} _.
Arguments Failed {A} _.
Arguments Panicked {A}.

(** [if condition { fail(message) }] and [if err != nil { fail(message) }] *)
Definition fail_if {A} (condition : bool) (message : string) (k : script_outcome A) : script_outcome A :=
  if condition then Failed message else k.
Definition ok_or_fail {A B} (r : result A) (message : string) (k : A → script_outcome B) : script_outcome B :=
  match r with Ok a => k a | Err _ => Failed message end.
(** [if err != nil { panic(err) }] *)
Definition ok_or_panic {A B} (r : result A) (k : A → script_outcome B) : script_outcome B :=
  match r with Ok a => k a | Err _ => Panicked end.
Definition then_do {A B} (o : script_outcome A) (k : A → script_outcome B) : script_outcome B :=
  match o with Done a => k a | Failed m => Failed m | Panicked => Panicked end.

(** The files of a script: [os.ReadFile], and [os.WriteFile] with its mode. *)
Class ScriptFiles (W : Type) := {
  script_ReadFile : string → M W (result string);
  script_WriteFile : string → string → Z → M W (option gerror)
}.
Definition read_or {W A} {F : ScriptFiles W} (path : string) (bad : script_outcome A) (k : string → M W (script_outcome A)) :
    M W (script_outcome A) :=
  let* r := script_ReadFile path in match r with Ok data => k data | Err _ => ret bad end.

(** ** [verify-official-export.go]: the reader of deep links *)

Module ExportCheck.

Definition wrap_uint64 (v : Z) : Z := Z.land v (Z.ones 64).
Definition varint (raw : list ascii) : option (Z * nat) :=
  match raw with
  | [] => None
  | c :: _ =>
    let n := Z.to_nat (Z.shiftl 1 (Z.shiftr (code c) 6)) in
    if (length raw <? n)%nat then None
    else Some (foldl (λ v b, Z.lor (wrap_uint64 (Z.shiftl v 8)) (code b)) (Z.land (code c) 63) (take (n - 1) (drop 1 raw)), n)
  end.

(** The loop over [raw]; an entry has two bytes at least. *)
Fixpoint decode_loop (fuel : nat) (raw : list ascii) (fields : gmap Z (list ascii)) : result (gmap Z (list ascii)) :=
  match raw with
  | [] => Ok fields
  | _ =>
    match fuel with
    | O => Err (SysErr "out of fuel")
    | S fuel' =>
      match varint raw with
      | None => Err (Errorf "invalid tag")
      | Some (tag, n) =>
        let raw := drop n raw in
        match varint raw with
        | None => Err (Errorf "invalid length")
        | Some (size, n) =>
          if Z.of_nat (length raw) - Z.of_nat n <? size then Err (Errorf "invalid length")
          else
            let raw := drop n raw in
            decode_loop fuel' (drop (Z.to_nat size) raw) (<[tag := take (Z.to_nat size) raw]> fields)
        end
      end
    end
  end.
Definition decodeFields (link : string) : result (gmap Z (list ascii)) :=
  if negb (has_prefix link "tt://?") || (1048576 <? len link) then Err (Errorf "invalid deeplink")
  else match b64_decode RawURL (trim_prefix link "tt://?") with
  | None => Err (Errorf "illegal base64 data")
  | Some raw => decode_loop (String.length raw) (chars raw) ∅
  end.

(** ** The checks *)

(** A value of a map compared with a constant. *)
Definition is_string (v : option toml_value) (s : string) : bool :=
  match v with Some (TString s') => bool_decide (s' = s) | _ => false end.
Definition is_bool (v : option toml_value) (b : bool) : bool :=
  match v with Some (TBool b') => bool_decide (b' = b) | _ => false end.
Definition is_nil (v : option toml_value) : bool := match v with None => true | Some _ => false end.
(** [fmt.Sprint] of a value that is not a string. *)
Class Sprint := { sprint_value : toml_value → string }.

Section Checks.
Context {UT : UnicodeTables} {X : X509} {SP : Sprint} {TOML : Toml}.

Definition Sprint_of (v : option toml_value) : string :=
  match v with Some (TString s) => s | Some v => sprint_value v | None => "<nil>" end.
Definition pem_bytes (text : string) : option string :=
  match pem_decode text with Some (_, bs, _) => Some bs | None => None end.
Definition same_pem (want got : option string) : bool :=
  match want, got with Some w, Some g => bool_decide (w = g) | _, _ => false end.

Definition checkEndpoint (endpoint : gmap string toml_value) (certificate : string) : script_outcome unit :=
  fail_if (negb (is_string (endpoint !! "hostname") "vpn.example.com") || negb (is_string (endpoint !! "username") "alice")
           || negb (is_string (endpoint !! "password") "integration-test-password")
           || is_bool (endpoint !! "skip_verification") true)
    "hostname, credentials or certificate verification changed" (
  fail_if (negb match endpoint !! "addresses" with
                | Some (TList [address]) => bool_decide (address = "vpn.example.com:443")
                | _ => false
                end)
    "external address does not use host port 443" (
  fail_if (negb (same_pem (pem_bytes certificate) (pem_bytes (Sprint_of (endpoint !! "certificate")))))
    "certificate trust material was lost" (Done tt))).

(** [fields[tag]], the empty slice when there is none. *)
Definition field (fields : gmap Z (list ascii)) (tag : Z) : string := of_chars (default [] (fields !! tag)).
Definition checkFields (fields : gmap Z (list ascii)) (certificate : string) : script_outcome unit :=
  fail_if (negb match pem_bytes certificate with Some want => contains (field fields 8) want | None => false end
           || negb (bool_decide (field fields 5 = "alice"))
           || negb (bool_decide (field fields 6 = "integration-test-password"))
           || negb (bool_decide (field fields 2 = "vpn.example.com:443")))
    "deeplink lost trust material, credentials or address" (
  fail_if match fields !! 7 with Some v => negb (bool_decide (v = [chr 0])) | None => false end
    "deeplink enabled skip_verification" (Done tt)).

(** The settings of the check. *)
Definition check_settings : Settings :=
  mkSettings (PublicAddress Default) (Protocol Default) true (IPv6 Default) "safari" false.

(** The checks of the official export, which end with the controller's [Apply]. *)
Definition check_official (linkOutput tomlOutput certificate : string) : script_outcome string :=
  let link := trim_space (first_line linkOutput) in
  fail_if (negb (has_prefix link "tt://?")) "official exporter did not return a deeplink" (
  ok_or_fail (toml_Decode tomlOutput) "official exporter did not return valid TOML" (λ original,
  then_do (checkEndpoint original certificate) (λ _,
  ok_or_fail (decodeFields link) "official deeplink is malformed" (λ fields,
  then_do (checkFields fields certificate) (λ _, Done link))))).
(** The checks of what the controller makes of it. *)
Definition check_controller (result : ClientConfig) (certificate : string) : script_outcome unit :=
  ok_or_fail (toml_Decode (Client_TOML result)) "controller endpoint TOML is invalid" (λ endpoint,
  ok_or_fail (toml_Decode (Client_CLI result)) "controller CLI TOML is invalid" (λ cli,
  then_do (checkEndpoint endpoint certificate) (λ _,
  match cli !! "endpoint" with
  | Some (TTable cli_endpoint) =>
    then_do (checkEndpoint cli_endpoint certificate) (λ _,
    fail_if (negb (is_bool (cli !! "post_quantum_group_enabled") false)
             || negb (is_nil (endpoint !! "post_quantum_group_enabled"))
             || negb (is_nil (cli_endpoint !! "post_quantum_group_enabled")))
      "post-quantum option is not top-level" (
    fail_if (negb (is_string (endpoint !! "upstream_protocol") "http2") || negb (is_bool (endpoint !! "anti_dpi") true)
             || negb (is_string (endpoint !! "tls_profile") "safari"))
      "selected transport or TLS settings missing from TOML" (
    ok_or_fail (decodeFields (Client_DeepLink result)) "updated deeplink is malformed" (λ updated,
    then_do (checkFields updated certificate) (λ _,
    fail_if (negb (bool_decide (field updated 10 = byte_str 1)) || negb (bool_decide (field updated 9 = byte_str 1)))
      "selected transport or Anti-DPI missing from deeplink" (Done tt))))))
  | _ => Panicked
  end))).
Definition check_export (linkOutput tomlOutput certificate : string) : script_outcome unit :=
  then_do (check_official linkOutput tomlOutput certificate) (λ link,
  ok_or_fail (Profile_Apply (mkClientConfig link tomlOutput "") check_settings)
    "controller rejected official export" (λ result, check_controller result certificate)).

Definition main {W} {F : ScriptFiles W} (args : list string) : M W (script_outcome unit) :=
  match args with
  | [_; link; toml; cert] =>
    read_or link (Failed "read link output") (λ linkOutput,
    read_or toml (Failed "read TOML output") (λ tomlOutput,
    read_or cert (Failed "read certificate") (λ certificate,
    ret (check_export linkOutput tomlOutput certificate))))
  | _ => ret (Failed "usage: verify-official-export.go <link-output> <toml-output> <certificate>")
  end.
End Checks.
End ExportCheck.

(** ** [write-connection-smoke.go] *)

Module ConnectionSmoke.
Section Smoke.
Context {UT : UnicodeTables} {TOML : Toml}.

Definition variant_settings (variant : string) : option Settings :=
  let s := Default in
  if bool_decide (variant = "baseline") then Some s
  else if bool_decide (variant = "anti-dpi")
  then Some (mkSettings (PublicAddress s) (Protocol s) true (IPv6 s) (TLSProfile s) (PostQuantum s))
  else if bool_decide (variant = "pq-off")
  then Some (mkSettings (PublicAddress s) (Protocol s) (AntiDPI s) (IPv6 s) (TLSProfile s) false)
  else if bool_decide (variant = "quic")
  then Some (mkSettings (PublicAddress s) "http3" (AntiDPI s) (IPv6 s) (TLSProfile s) (PostQuantum s))
  else None.

(** The changes of the full configuration; [delete] works on the table [full] holds. *)
Definition isolate (full : gmap string toml_value) : script_outcome (gmap string toml_value) :=
  match full !! "endpoint" with
  | Some (TTable endpoint) =>
    Done (<["killswitch_enabled" := TBool false]>
         (<["listener" := TTable {[ "socks" := TTable {[ "address" := TString "127.0.0.1:1080" ]} ]}]>
         (<["endpoint" := TTable (delete "tls_profile" endpoint)]> full)))
  | _ => Panicked
  end.
Definition smoke_profile (linkOutput endpointTOML variant : string) : script_outcome string :=
  match variant_settings variant with
  | None => Panicked
  | Some settings =>
    let link := trim_space (first_line linkOutput) in
    ok_or_panic (Profile_Apply (mkClientConfig link endpointTOML "") settings) (λ cfg,
    ok_or_panic (toml_Decode (Client_CLI cfg)) (λ full,
    then_do (isolate full) (λ full,
    ok_or_panic (toml_Encode full) Done)))
  end.
Definition main {W} {F : ScriptFiles W} (args : list string) : M W (script_outcome unit) :=
  match args with
  | [_; deeplink; endpoint; variant; output] =>
    read_or deeplink Panicked (λ linkOutput,
    read_or endpoint Panicked (λ endpointTOML,
    match smoke_profile linkOutput endpointTOML variant with
    | Done text =>
      let* e := script_WriteFile output text 384 in
      ret (match e with Some _ => Panicked | None => Done tt end)
    | Failed m => ret (Failed m)
    | Panicked => ret Panicked
    end))
  | _ => ret Panicked
  end.
End Smoke.
End ConnectionSmoke.

(** ** The reader agrees with the controller's *)

Lemma lor_byte_bound v c k : 0 <= k → 0 <= v < 2 ^ k → 0 <= Z.lor (Z.shiftl v 8) (code c) < 2 ^ (k + 8).
Proof.
  intros Hk [Hv Hlt]. pose proof (code_bounds c) as Hc.
  assert (Hs : 0 <= Z.shiftl v 8 < 2 ^ (k + 8)).
  { rewrite Z.shiftl_mul_pow2, Z.pow_add_r by lia. change (2 ^ 8) with 256. nia. }
  split; [apply Z.lor_nonneg; lia|]. destruct (decide (Z.lor (Z.shiftl v 8) (code c) = 0)) as [->|Hne]; [lia|].
  assert (H8 : code c < 2 ^ (k + 8)) by (assert (2 ^ 8 <= 2 ^ (k + 8)) by (apply Z.pow_le_mono_r; lia); lia).
  assert (0 <= Z.lor (Z.shiftl v 8) (code c)) by (apply Z.lor_nonneg; lia).
  apply Z.log2_lt_pow2; [lia|]. rewrite Z.log2_lor by lia.
  assert (L : ∀ x, 0 <= x < 2 ^ (k + 8) → Z.log2 x < k + 8).
  { intros x Hx. destruct (decide (x = 0)) as [->|]; [simpl; lia|]. apply Z.log2_lt_pow2; lia. }
  pose proof (L _ Hs). pose proof (L (code c)). lia.
Qed.
Lemma wrap_uint64_id v : 0 <= v < 2 ^ 64 → ExportCheck.wrap_uint64 v = v.
Proof. intros H. unfold ExportCheck.wrap_uint64. rewrite Z.land_ones by lia. by apply Z.mod_small. Qed.
Lemma varint_fold l v k :
  0 <= k → 0 <= v < 2 ^ k → k + 8 * Z.of_nat (length l) <= 64 →
  foldl (λ v b, Z.lor (ExportCheck.wrap_uint64 (Z.shiftl v 8)) (code b)) v l = foldl (λ v x, Z.lor (Z.shiftl v 8) (code x)) v l.
Proof.
  revert v k. induction l as [|c l IH]; intros v k Hk Hv Hl; [done|]. cbn [foldl length] in *.
  rewrite wrap_uint64_id.
  2:{ rewrite Z.shiftl_mul_pow2 by lia. change (2 ^ 8) with 256.
      assert (2 ^ (k + 8) <= 2 ^ 64) by (apply Z.pow_le_mono_r; lia). rewrite Z.pow_add_r in * by lia.
      change (2 ^ 8) with 256 in *. nia. }
  apply (IH _ (k + 8)); [lia|by apply lor_byte_bound|lia].
Qed.
(** The accumulator of 64 bits never wraps: both readers agree. *)
Lemma varint_agrees raw : ExportCheck.varint raw = varint raw.
Proof.
  destruct raw as [|c r]; [done|]. unfold ExportCheck.varint, varint. cbn [drop].
  pose proof (code_bounds c) as Hc. destruct (_ <? _)%nat; [done|]. do 2 f_equal.
  assert (Hs : 0 <= Z.shiftr (code c) 6 <= 3) by (rewrite Z.shiftr_div_pow2 by lia; change (2 ^ 6) with 64; zdiv).
  apply (varint_fold _ _ 6); [lia| |].
  - change 63 with (Z.ones 6). rewrite Z.land_ones by lia. apply Z.mod_pos_bound. lia.
  - assert (Z.to_nat (Z.shiftl 1 (Z.shiftr (code c) 6)) <= 8)%nat.
    { rewrite Z.shiftl_1_l. assert (H3 : 2 ^ Z.shiftr (code c) 6 <= 2 ^ 3) by (apply Z.pow_le_mono_r; lia).
      change (2 ^ 3) with 8 in H3. lia. }
    rewrite length_take. lia.
Qed.

(** The value of an entry: its bytes without the tag and the length. *)
Definition entry_value (e : list ascii) : list ascii :=
  match varint e with
  | Some (_, n) => match varint (drop n e) with Some (_, m) => drop m (drop n e) | None => [] end
  | None => []
  end.
(** The fields of a list of entries: the last entry of a tag counts. *)
Definition add_fields (fields : gmap Z (list ascii)) (es : list (Z * list ascii)) : gmap Z (list ascii) :=
  foldl (λ f te, <[te.1 := entry_value te.2]> f) fields es.

Lemma next_entry_value raw tag e rest :
  next_entry raw = Ok (tag, e, rest) →
  ∃ n size m, varint raw = Some (tag, n) ∧ varint (drop n raw) = Some (size, m)
    ∧ size <= Z.of_nat (length (drop n raw)) - Z.of_nat m
    ∧ drop (Z.to_nat size) (drop m (drop n raw)) = rest ∧ take (Z.to_nat size) (drop m (drop n raw)) = entry_value e.
Proof.
  intros H. destruct (next_entry_split _ _ _ _ H) as (Hraw & _ & _). revert H. unfold next_entry.
  destruct (varint raw) as [[t n]|] eqn:E1; [|done]. destruct (varint (drop n raw)) as [[size m]|] eqn:E2; [|done].
  destruct (_ <? size) eqn:E3; [done|]. intros [= -> He <-]. apply Z.ltb_ge in E3.
  pose proof (varint_length _ _ _ E1). pose proof (varint_length _ _ _ E2) as H2. rewrite length_drop in H2. rewrite !length_drop in E3.
  exists n, size, m. split_and!; try done; [rewrite length_drop; lia|].
  set (k := (n + (m + Z.to_nat size))%nat).
  assert (Hk : e = take k raw) by (rewrite <-He, !drop_drop, !length_drop; f_equal; unfold k; lia).
  unfold entry_value. rewrite Hk, (varint_take _ k _ _ E1) by (unfold k; lia). rewrite skipn_firstn_comm.
  rewrite (varint_take _ _ _ _ E2) by (unfold k; lia). rewrite skipn_firstn_comm. f_equal. unfold k. lia.
Qed.

(** The script's loop reads the entries of a link. *)
Lemma decode_loop_complete fuel raw es fields :
  entries raw es → (length raw <= fuel)%nat → ExportCheck.decode_loop fuel raw fields = Ok (add_fields fields es).
Proof.
  intros He. revert fuel fields. induction He as [|raw tag e rest es Hn _ IH]; intros fuel fields Hf; [by destruct fuel|].
  destruct (next_entry_split _ _ _ _ Hn) as (Hraw & Hl & _).
  destruct (next_entry_value _ _ _ _ Hn) as (n & size & m & E1 & E2 & E3 & Hr & Hv).
  assert (Hlen : length raw = (length e + length rest)%nat) by by rewrite Hraw, length_app.
  destruct fuel as [|fuel]; [lia|]. destruct raw as [|c raw]; [simpl in Hlen; lia|]. cbn [ExportCheck.decode_loop].
  rewrite varint_agrees, E1. cbv beta iota zeta. rewrite varint_agrees, E2. cbv beta iota zeta.
  rewrite (proj2 (Z.ltb_ge _ _)) by lia. rewrite Hr, Hv. apply IH. lia.
Qed.
Lemma decode_loop_sound fuel raw fields fields' :
  ExportCheck.decode_loop fuel raw fields = Ok fields' → ∃ es, entries raw es ∧ fields' = add_fields fields es.
Proof.
  revert raw fields. induction fuel as [|fuel IH]; intros raw fields H.
  { destruct raw; [|done]. injection H as <-. exists []. split; [constructor|done]. }
  destruct raw as [|c raw]; [injection H as <-; exists []; split; [constructor|done]|].
  cbn [ExportCheck.decode_loop] in H. rewrite varint_agrees in H.
  destruct (varint (c :: raw)) as [[tag n]|] eqn:E1; [|done]. rewrite varint_agrees in H.
  destruct (varint (drop n (c :: raw))) as [[size m]|] eqn:E2; [|done].
  destruct (_ <? size) eqn:E3; [done|]. apply Z.ltb_ge in E3. apply IH in H as (es & He & ->).
  pose proof (varint_length _ _ _ E2) as Hm.
  assert (Hn : ∃ e, next_entry (c :: raw) = Ok (tag, e, drop (Z.to_nat size) (drop m (drop n (c :: raw))))).
  { unfold next_entry. rewrite E1, E2. cbv beta iota zeta. rewrite (proj2 (Z.ltb_ge _ _)) by (rewrite length_drop; lia).
    by eexists. }
  destruct Hn as [e Hn]. exists ((tag, e) :: es). split; [by eapply entries_cons|].
  destruct (next_entry_value _ _ _ _ Hn) as (n' & size' & m' & E1' & E2' & _ & _ & Hv).
  rewrite E1 in E1'. injection E1' as <-. rewrite E2 in E2'. injection E2' as <- <-. by rewrite Hv.
Qed.

Lemma decodeFields_iff link fields :
  ExportCheck.decodeFields link = Ok fields ↔
  len link <= 1048576 ∧ ∃ es, link_entries link es ∧ fields = add_fields ∅ es.
Proof.
  unfold ExportCheck.decodeFields. split.
  - intros H. destruct (has_prefix link "tt://?") eqn:Hp; [|done]. destruct (Z.ltb_spec 1048576 (len link)) as [|Hl]; [done|].
    split; [done|]. simpl in H. destruct (b64_decode RawURL _) as [raw|] eqn:Hd; [|done].
    apply decode_loop_sound in H as (es & He & ->). exists es. split; [|done].
    exists (trim_prefix link "tt://?"), raw. split; [by apply has_prefix_split|done].
  - intros (Hl & es & (payload & raw & -> & Hd & He) & ->). rewrite trim_link_prefix, Hd.
    assert (has_prefix (link_prefix +:+ payload) "tt://?" = true) as -> by by destruct payload.
    rewrite (proj2 (Z.ltb_ge _ _) Hl). simpl. apply decode_loop_complete; [done|]. by rewrite chars_length.
Qed.

(** ** Tuning a link sets three fields *)

(** The fields of the settings over those of a link. *)
Definition tuned_fields (s : Settings) (fields : gmap Z (list ascii)) : gmap Z (list ascii) :=
  <[10 := [chr (boolByte (AntiDPI s))]]>
    (<[9 := [chr (if bool_decide (Protocol s = "http3") then 2 else 1)]]>
      (<[4 := [chr (boolByte (IPv6 s))]]> fields)).

Lemma kept_tag_iff tag : kept_tag tag = true ↔ tag ≠ 4 ∧ tag ≠ 9 ∧ tag ≠ 10.
Proof. unfold kept_tag. destruct (Z.eqb_spec tag 4), (Z.eqb_spec tag 9), (Z.eqb_spec tag 10); naive_solver lia. Qed.
Lemma tuned_fields_kept s fields tag : kept_tag tag = true → tuned_fields s fields !! tag = fields !! tag.
Proof. intros (?&?&?)%kept_tag_iff. unfold tuned_fields. by rewrite !lookup_insert_ne by done. Qed.
Lemma tuned_fields_ext s f g :
  (∀ tag, kept_tag tag = true → f !! tag = g !! tag) → tuned_fields s f = tuned_fields s g.
Proof.
  intros H. apply map_eq. intros tag. unfold tuned_fields.
  destruct (decide (tag = 10)) as [->|]; [by rewrite !lookup_insert_eq|]. rewrite !(lookup_insert_ne _ 10) by done.
  destruct (decide (tag = 9)) as [->|]; [by rewrite !lookup_insert_eq|]. rewrite !(lookup_insert_ne _ 9) by done.
  destruct (decide (tag = 4)) as [->|]; [by rewrite !lookup_insert_eq|]. rewrite !(lookup_insert_ne _ 4) by done.
  apply H. by apply kept_tag_iff.
Qed.
Lemma add_fields_keep es f g :
  (∀ tag, kept_tag tag = true → f !! tag = g !! tag) →
  ∀ tag, kept_tag tag = true → add_fields f (List.filter keep es) !! tag = add_fields g es !! tag.
Proof.
  revert f g. induction es as [|[t e] es IH]; intros f g H; [done|]. simpl. unfold keep at 1. simpl.
  destruct (kept_tag t) eqn:Et; simpl; apply IH; intros tag Htag.
  - destruct (decide (t = tag)) as [->|]; [by rewrite !lookup_insert_eq|]. rewrite !lookup_insert_ne by done. by apply H.
  - rewrite lookup_insert_ne by (intros ->; congruence). by apply H.
Qed.
Lemma add_settings s f : add_fields f (settings_tlv s) = tuned_fields s f.
Proof. unfold add_fields, settings_tlv, tuned_fields. simpl. by destruct (IPv6 s), (AntiDPI s), (bool_decide _). Qed.

(** C22. What the controller writes into a link is what an independent reader finds
    there: reading a tuned link gives the fields of the official link with IPv6,
    the protocol and Anti-DPI (tags 4, 9 and 10) set to those of the settings,
    whatever else the link holds and however often it names a field. *)
Theorem tuned_link_decodes link s link' fields :
  ExportCheck.decodeFields link = Ok fields → tuneLink link s = Ok link' → len link' <= 1048576 →
  ExportCheck.decodeFields link' = Ok (tuned_fields s fields).
Proof.
  intros (Hl & es & He & ->)%decodeFields_iff Ht Hl'.
  assert (link ≠ link_prefix) by by intros ->.
  destruct (tuneLink_entries link es s He) as (l & Ht' & He'); [done|lia|]. rewrite Ht in Ht'. injection Ht' as <-.
  apply decodeFields_iff. split; [done|]. eexists. split; [done|].
  unfold add_fields at 2. rewrite foldl_app. fold (add_fields ∅ (List.filter keep es)).
  fold (add_fields (add_fields ∅ (List.filter keep es)) (settings_tlv s)). rewrite add_settings.
  apply tuned_fields_ext. intros tag Htag. symmetry. by apply add_fields_keep.
Qed.

(** ** The controller passes the release check *)

Section Release.
Context {UT : UnicodeTables} {X : X509} {SP : ExportCheck.Sprint} {TOML : Toml}.
(** The encoder's documents are read back. *)
Hypothesis toml_roundtrip : ∀ m text, toml_Encode m = Ok text → toml_Decode text = Ok m.

Definition endpoint_keys : list string :=
  ["hostname"; "username"; "password"; "skip_verification"; "addresses"; "certificate"].
Lemma checkEndpoint_ext m m' certificate :
  (∀ k, k ∈ endpoint_keys → m !! k = m' !! k) →
  ExportCheck.checkEndpoint m certificate = ExportCheck.checkEndpoint m' certificate.
Proof. intros H. unfold ExportCheck.checkEndpoint. by rewrite !H by (unfold endpoint_keys; set_solver). Qed.
Lemma checkFields_ext f g certificate :
  (∀ tag, kept_tag tag = true → f !! tag = g !! tag) → ExportCheck.checkFields f certificate = ExportCheck.checkFields g certificate.
Proof. intros H. unfold ExportCheck.checkFields, ExportCheck.field. by rewrite !H by done. Qed.

Lemma then_do_done {A B} (o : script_outcome A) (k : A → script_outcome B) b : then_do o k = Done b → ∃ a, o = Done a ∧ k a = Done b.
Proof. destruct o; [by eexists|done..]. Qed.
Lemma fail_if_done {A} c m (k : script_outcome A) a : fail_if c m k = Done a → c = false ∧ k = Done a.
Proof. by destruct c. Qed.
Lemma ok_or_fail_done {A B} (r : result A) m (k : A → script_outcome B) b :
  ok_or_fail r m k = Done b → ∃ a, r = Ok a ∧ k a = Done b.
Proof. destruct r; [by eexists|done]. Qed.

Lemma check_official_iff linkOutput tomlOutput certificate link :
  ExportCheck.check_official linkOutput tomlOutput certificate = Done link ↔
  link = trim_space (first_line linkOutput) ∧
  ∃ original fields, toml_Decode tomlOutput = Ok original ∧ ExportCheck.checkEndpoint original certificate = Done tt
    ∧ ExportCheck.decodeFields link = Ok fields ∧ ExportCheck.checkFields fields certificate = Done tt.
Proof.
  unfold ExportCheck.check_official. split.
  - intros (_ & H)%fail_if_done. apply ok_or_fail_done in H as (original & Hd & H). apply then_do_done in H as ([] & He & H).
    apply ok_or_fail_done in H as (fields & Hf & H). apply then_do_done in H as ([] & Hc & H). injection H as <-.
    split; [done|]. by exists original, fields.
  - intros (-> & original & fields & -> & H1 & H2 & H3). simpl. rewrite H1. simpl. rewrite H2. simpl. rewrite H3. simpl.
    apply decodeFields_iff in H2 as (_ & es & (payload & raw & E & _ & _) & _). rewrite E. by destruct payload.
Qed.

End Release.

(** ** The profile of the connection test *)

Section SmokeSpec.
Context {UT : UnicodeTables} {TOML : Toml}.
Hypothesis toml_roundtrip : ∀ m text, toml_Encode m = Ok text → toml_Decode text = Ok m.

(** The variants are valid settings that differ from the default in one option. *)
Lemma variant_settings_valid variant s :
  ConnectionSmoke.variant_settings variant = Some s → Settings_Validate s = None ∧ PublicAddress s = "".
Proof.
  unfold ConnectionSmoke.variant_settings. repeat case_bool_decide; try done; intros [= <-]; by vm_compute.
Qed.

(** The profile of the connection test has no tunnel: it reads back as the
    controller's full configuration with one SOCKS listener on the loopback
    interface in place of the tunnel, no kill switch and no TLS profile; the transport is that of the variant, and every other field of the
    endpoint is the official one. *)
Theorem smoke_profile_isolated linkOutput endpointTOML variant text :
  ConnectionSmoke.smoke_profile linkOutput endpointTOML variant = Done text →
  ∃ s m full endpoint, ConnectionSmoke.variant_settings variant = Some s ∧ toml_Decode endpointTOML = Ok m
    ∧ toml_Decode text = Ok full
    ∧ full !! "listener" = Some (TTable {[ "socks" := TTable {[ "address" := TString "127.0.0.1:1080" ]} ]})
    ∧ full !! "killswitch_enabled" = Some (TBool false)
    ∧ full !! "post_quantum_group_enabled" = Some (TBool (PostQuantum s))
    ∧ full !! "endpoint" = Some (TTable endpoint) ∧ endpoint !! "tls_profile" = None
    ∧ endpoint !! "upstream_protocol" = Some (TString (Protocol s)) ∧ endpoint !! "anti_dpi" = Some (TBool (AntiDPI s))
    ∧ ∀ k, k ∉ client_keys → endpoint !! k = m !! k.
Proof.
  unfold ConnectionSmoke.smoke_profile. destruct (ConnectionSmoke.variant_settings variant) as [s|]; [|done].
  destruct (Profile_Apply _ s) as [cfg|] eqn:Ha; [|done]. simpl.
  destruct (Profile_Apply_changes_settings _ _ _ Ha)
    as (_ & _ & m & m' & cli & Hm & _ & Hcli & Hother & Hup & Hdpi & _ & _ & Hep & Hpq).
  rewrite (toml_roundtrip _ _ Hcli). simpl. unfold ConnectionSmoke.isolate. rewrite Hep. simpl.
  set (full := <["killswitch_enabled" := _]> _). destruct (toml_Encode full) as [t|] eqn:He; [|done]. intros [= <-].
  exists s, m, full, (delete "tls_profile" m'). subst full. split_and!; try done.
  - by apply toml_roundtrip.
  - by rewrite lookup_insert_ne, lookup_insert_eq by done.
  - by rewrite lookup_insert_eq.
  - by rewrite !lookup_insert_ne by done.
  - by rewrite !lookup_insert_ne, lookup_insert_eq by done.
  - by rewrite lookup_delete_eq.
  - by rewrite lookup_delete_ne by done.
  - by rewrite lookup_delete_ne by done.
  - intros k Hk. rewrite lookup_delete_ne; [by apply Hother|]. intros <-. apply Hk. unfold client_keys. set_solver.
Qed.

(** The script writes one file, readable by its owner only, and only when every
    step before succeeded; it ends normally exactly when that write does. *)
Theorem smoke_main_writes_once {W} {F : ScriptFiles W} args w o w' :
  (∀ path v, (script_ReadFile path v).2 = v) → ConnectionSmoke.main args w = (o, w') →
  (w' = w ∧ o ≠ Done tt)
  ∨ ∃ program deeplink endpoint variant output linkOutput endpointTOML text e,
      args = [program; deeplink; endpoint; variant; output]
      ∧ (script_ReadFile deeplink w).1 = Ok linkOutput ∧ (script_ReadFile endpoint w).1 = Ok endpointTOML
      ∧ ConnectionSmoke.smoke_profile linkOutput endpointTOML variant = Done text
      ∧ script_WriteFile output text 384 w = (e, w') ∧ (o = Done tt ↔ e = None).
Proof.
  intros Hread. unfold ConnectionSmoke.main.
  destruct args as [|a1 [|a2 [|a3 [|a4 [|a5 [|]]]]]]; try (intros [= <- <-]; by left).
  unfold read_or, bind, ret. pose proof (Hread a2 w) as H2. destruct (script_ReadFile a2 w) as [[l|] v] eqn:E2;
    simpl in H2; subst v; [|intros [= <- <-]; by left].
  pose proof (Hread a3 w) as H3. destruct (script_ReadFile a3 w) as [[t|] v] eqn:E3;
    simpl in H3; subst v; [|intros [= <- <-]; by left].
  destruct (ConnectionSmoke.smoke_profile l t a4) as [text| |] eqn:Es; try (intros [= <- <-]; by left).
  destruct (script_WriteFile a5 text 384 w) as [e v] eqn:Ew. intros [= <- <-]. right.
  exists a1, a2, a3, a4, a5, l, t, text, e. rewrite E2, E3. split_and!; try done. by destruct e.
Qed.
End SmokeSpec.
