(* ===== verification/PathFacts.v ===== *)
(** Facts about slash-separated paths: [filepath.Clean] and [filepath.Join] on
    lists of components. *)
From S2P Require Import Prelude GoStrings GoPath Quote.

Definition no_slash (s : string) : Prop := slash ∉ chars s.
Lemma plain_no_slash s : plain s → no_slash s.
Proof. by intros [? _]. Qed.
Lemma Forall_plain_no_slash l : Forall plain l → Forall no_slash l.
Proof. intros H. eapply Forall_impl; [exact H|exact plain_no_slash]. Qed.

(** An absolute path of components. *)
Definition abs_path (l : list string) : string := "/" +:+ join_strings "/" l.

Lemma string_app_cons c (a b : string) : String c a +:+ b = String c (a +:+ b).
Proof. done. Qed.
Lemma join_strings_cons x y l : join_strings "/" (x :: y :: l) = x +:+ "/" +:+ join_strings "/" (y :: l).
Proof. done. Qed.
Lemma split_join l : l ≠ [] → Forall no_slash l → split (join_strings "/" l) slash = l.
Proof.
  intros Hne H. induction H as [|x l Hx Hl IH]; [done|]. destruct l as [|y l].
  - unfold split. cbn [join_strings]. rewrite split_chars_plain by done. simpl. by rewrite of_chars_chars.
  - rewrite join_strings_cons. unfold split. rewrite !chars_app.
    change (chars "/" ++ ?x) with (slash :: x). rewrite split_chars_slash by done.
    rewrite fmap_cons. cbn [rev app]. rewrite of_chars_chars. f_equal. by apply IH.
Qed.
Lemma elem_of_rev {A} (x : A) l : x ∈ rev l ↔ x ∈ l.
Proof. rewrite rev_alt. apply (elem_of_reverse x l). Qed.
Lemma split_pieces s : Forall no_slash (split s slash).
Proof.
  unfold split. assert (∀ l cur, slash ∉ cur → Forall no_slash (of_chars <$> split_chars slash cur l)) as H.
  { induction l as [|c l IH]; intros cur Hc; simpl.
    - constructor; [|constructor]. unfold no_slash. rewrite chars_of_chars, elem_of_rev. done.
    - case_bool_decide; simpl; [constructor|].
      + unfold no_slash. by rewrite chars_of_chars, elem_of_rev.
      + apply IH. set_solver.
      + apply IH. apply not_elem_of_cons. split; [congruence|done]. }
  apply H. set_solver.
Qed.
Lemma split_nonempty s : split s slash ≠ [].
Proof.
  unfold split. assert (∀ l cur, of_chars <$> split_chars slash cur l ≠ []) as H; [|by apply H].
  intros l. induction l as [|c l IH]; intros cur; simpl; [done|]. case_bool_decide; [done|apply IH].
Qed.
Lemma split_slash s : split (String slash s) slash = "" :: split s slash.
Proof. done. Qed.
Lemma split_abs l : l ≠ [] → Forall no_slash l → split (abs_path l) slash = "" :: l.
Proof. intros. unfold abs_path. change ("/" +:+ ?x) with (String slash x). rewrite split_slash, split_join; done. Qed.

(** ** Clean *)

Lemma clean_elems_app rooted acc l l' :
  Forall plain l → clean_elems rooted acc (l ++ l') = clean_elems rooted (rev l ++ acc) l'.
Proof.
  intros H. revert acc. induction H as [|x l (Hs & H1 & H2 & H3) Hl IH]; intros acc; [done|].
  cbn [app clean_elems]. rewrite !bool_decide_eq_false_2 by done. cbn [orb]. rewrite IH. cbn [rev].
  by rewrite <- (assoc_L (++)).
Qed.
Lemma clean_elems_plain rooted l : Forall plain l → clean_elems rooted [] l = l.
Proof. intros H. rewrite <- (app_nil_r l), clean_elems_app by done. cbn [clean_elems]. by rewrite app_nil_r, rev_involutive, app_nil_r. Qed.

(** What the loop puts out: going up, then down. *)
Lemma clean_elems_shape rooted es acc :
  Forall no_slash es → (∃ k ps, rev acc = replicate k ".." ++ ps ∧ Forall plain ps ∧ (rooted = true → k = 0%nat)) →
  ∃ k ps, clean_elems rooted acc es = replicate k ".." ++ ps ∧ Forall plain ps ∧ (rooted = true → k = 0%nat).
Proof.
  intros Hes. revert acc. induction Hes as [|e es He Hes IH]; intros acc Hacc; cbn [clean_elems]; [exact Hacc|].
  case_bool_decide as H1; [by apply IH|]. case_bool_decide as H2; [by apply IH|]. cbn [orb].
  destruct Hacc as (k & ps & Hrev & Hps & Hk).
  case_bool_decide as H3; cycle 1.
  { apply IH. exists k, (ps ++ [e]). cbn [rev]. rewrite Hrev, <- (assoc_L (++)). split; [done|]. split; [|done].
    apply Forall_app. split; [done|]. constructor; [|done]. done. }
  subst e. destruct acc as [|a acc].
  - destruct rooted; apply IH.
    + by exists 0%nat, [].
    + by exists 1%nat, [].
  - cbn [rev] in Hrev. case_bool_decide as H4.
    + subst a. apply IH. exists (S k), []. cbn [rev]. rewrite Hrev, app_nil_r.
      destruct ps as [|p ps _] using rev_ind.
      * rewrite app_nil_r. split; [by rewrite <- replicate_cons_app|]. split; [done|]. intros Hr. specialize (Hk Hr). subst k.
        destruct (rev acc); done.
      * rewrite (assoc_L (++)) in Hrev. apply app_inj_tail in Hrev as [_ <-].
        apply Forall_app in Hps as [_ (? & ? & ? & ?)%Forall_singleton]. done.
    + apply IH. destruct ps as [|p ps _] using rev_ind.
      * rewrite app_nil_r in Hrev. destruct k as [|k]; [by destruct (rev acc)|].
        rewrite replicate_S_end in Hrev. apply app_inj_tail in Hrev as [_ Ha]. by destruct H4.
      * rewrite (assoc_L (++)) in Hrev. apply app_inj_tail in Hrev as [Hr _].
        exists k, ps. split; [done|]. apply Forall_app in Hps as [Hps _]. done.
Qed.

Lemma join_app l l' : l ≠ [] → l' ≠ [] → join_strings "/" (l ++ l') = join_strings "/" l +:+ "/" +:+ join_strings "/" l'.
Proof.
  intros Hl Hl'. induction l as [|x l IH]; [done|]. destruct l as [|y l].
  - cbn [app]. destruct l'; [done|]. by rewrite join_strings_cons.
  - cbn [app]. rewrite !join_strings_cons. cbn [app] in IH. rewrite IH by done.
    apply chars_inj. rewrite !chars_app. by rewrite <- !(assoc_L (++)).
Qed.
Lemma plain_join_nonempty ps : ps ≠ [] → Forall plain ps → join_strings "/" ps ≠ "".
Proof.
  intros Hne H. destruct H as [|x l (_ & Hx & _) Hl]; [done|]. destruct l; [done|]. rewrite join_strings_cons.
  by destruct x.
Qed.
Lemma plain_head s : plain s → is_abs s = false.
Proof.
  intros (Hs & _). destruct s as [|c s]; [done|]. unfold is_abs. change (bool_decide (slash = c) && has_prefix s "" = false).
  rewrite bool_decide_eq_false_2; [done|]. intros <-. apply Hs. left.
Qed.
Lemma is_abs_slash s : is_abs (String slash s) = true.
Proof. unfold is_abs. by destruct s. Qed.

(** Joining an absolute clean path and a relative one. *)
Lemma clean_abs l : Forall plain l → clean (abs_path l) = abs_path l.
Proof.
  intros H. unfold clean. rewrite bool_decide_eq_false_2 by done.
  replace (is_abs (abs_path l)) with true by (symmetry; apply is_abs_slash).
  assert (clean_elems true [] (split (abs_path l) slash) = l) as ->; [|done].
  destruct (decide (l = [])) as [->|Hne]; [done|]. rewrite split_abs by (try done; by apply Forall_plain_no_slash).
  cbn [clean_elems]. rewrite bool_decide_eq_true_2 by done. cbn [orb]. by apply clean_elems_plain.
Qed.
Lemma join_abs l ps : l ≠ [] → ps ≠ [] → Forall plain l → Forall plain ps →
  join_path [abs_path l; join_strings "/" ps] = abs_path (l ++ ps).
Proof.
  intros Hl Hps Hl' Hps'. unfold join_path. pose proof (plain_join_nonempty _ Hps Hps').
  rewrite !filter_cons, !decide_True by done. rewrite filter_nil.
  assert (join_strings "/" [abs_path l; join_strings "/" ps] = abs_path (l ++ ps)) as ->.
  { cbn [join_strings]. unfold abs_path. rewrite join_app by done. done. }
  apply clean_abs. by apply Forall_app.
Qed.

(** The same for a path and the components themselves. *)
Lemma join_abs_all l ps : l ≠ [] → ps ≠ [] → Forall plain l → Forall plain ps → join_path (abs_path l :: ps) = abs_path (l ++ ps).
Proof.
  intros Hl Hps Hl' Hps'. unfold join_path. rewrite filter_cons, decide_True by done.
  assert (filter (λ e, e ≠ "") ps = ps) as ->.
  { clear Hps. induction Hps' as [|p ps (_ & Hp & _) _ IH]; [done|]. by rewrite filter_cons, decide_True, IH. }
  destruct ps as [|p ps]; [done|]. rewrite join_strings_cons.
  assert (abs_path l +:+ "/" +:+ join_strings "/" (p :: ps) = abs_path (l ++ p :: ps)) as ->
    by (unfold abs_path; by rewrite join_app).
  apply clean_abs. by apply Forall_app.
Qed.

(** Relative paths of components. *)
Lemma is_abs_join ps : ps ≠ [] → Forall plain ps → is_abs (join_strings "/" ps) = false.
Proof.
  intros Hne H. destruct H as [|x l Hx Hl]; [done|]. destruct l as [|y l]; [by apply plain_head|]. rewrite join_strings_cons.
  destruct Hx as (Hs & He & _). destruct x as [|c x]; [done|]. unfold is_abs.
  change (bool_decide (slash = c) && has_prefix (x +:+ "/" +:+ join_strings "/" (y :: l)) "" = false).
  rewrite bool_decide_eq_false_2; [done|]. intros <-. apply Hs. left.
Qed.
Lemma clean_rel ps : ps ≠ [] → Forall plain ps → clean (join_strings "/" ps) = join_strings "/" ps.
Proof.
  intros Hne H. unfold clean. pose proof (plain_join_nonempty _ Hne H). rewrite bool_decide_eq_false_2 by done.
  rewrite split_join by (try done; by apply Forall_plain_no_slash).
  rewrite is_abs_join, clean_elems_plain by done. by rewrite bool_decide_eq_false_2.
Qed.
Lemma dotdot_prefix s : has_prefix s "../" = true → ∃ l, split s slash = ".." :: l.
Proof.
  destruct s as [|a [|b [|c s]]]; try done; cbn [has_prefix].
  - rewrite !andb_true_iff. naive_solver.
  - rewrite !andb_true_iff. naive_solver.
  - rewrite !andb_true_iff, !bool_decide_eq_true. intros (<- & <- & <- & _). eexists. reflexivity.
Qed.
Lemma dir_name_child d c : d ≠ [] → Forall plain d → plain c → dir_name (abs_path (d ++ [c])) = abs_path d.
Proof.
  intros Hne Hd Hc. unfold dir_name, last_index_byte.
  assert (Heq : abs_path (d ++ [c]) = abs_path d +:+ String slash c).
  { unfold abs_path. rewrite join_app by done. done. }
  rewrite Heq, chars_app. change (chars (String slash c)) with (slash :: chars c).
  assert (Hl : ∀ l1 l2 i acc, slash ∉ l2 → last_index (l1 ++ slash :: l2) slash i acc = Some (i + length l1)%nat).
  { induction l1 as [|x l1 IH]; intros l2 i acc Hs; cbn [app last_index length].
    - rewrite bool_decide_eq_true_2 by done. rewrite Nat.add_0_r. clear -Hs.
      assert (∀ j o, last_index l2 slash j o = o) as ->; [|done].
      induction l2 as [|y l2 IH]; intros j o; [done|]. apply not_elem_of_cons in Hs as [? ?]. cbn [last_index].
      rewrite bool_decide_eq_false_2 by congruence. by apply IH.
    - rewrite IH by done. f_equal. lia. }
  rewrite Hl by apply Hc. cbn [Nat.add].
  assert (take_bytes (S (length (chars (abs_path d)))) (abs_path d +:+ String slash c) = abs_path d +:+ "/") as ->.
  { apply chars_inj. rewrite chars_app. generalize (abs_path d) as s. induction s as [|x s IH]; [done|].
    cbn [chars String.list_ascii_of_string length]. change (String x s +:+ String slash c) with (String x (s +:+ String slash c)).
    cbn [take_bytes chars String.list_ascii_of_string app]. f_equal. exact IH. }
  unfold clean. rewrite bool_decide_eq_false_2 by done.
  replace (is_abs (abs_path d +:+ "/")) with true by (symmetry; apply is_abs_slash).
  assert (clean_elems true [] (split (abs_path d +:+ "/") slash) = d) as ->; [|done].
  assert (split (abs_path d +:+ "/") slash = "" :: d ++ [""]) as ->.
  { assert (abs_path d +:+ "/" = String slash (join_strings "/" (d ++ [""]))) as ->.
    { rewrite join_app by done. done. }
    rewrite split_slash, split_join; [done|by destruct d|]. apply Forall_app. split; [by apply Forall_plain_no_slash|].
    repeat constructor. unfold no_slash. simpl. set_solver. }
  cbn [clean_elems]. rewrite bool_decide_eq_true_2 by done. cbn [orb]. rewrite clean_elems_app by done.
  cbn [clean_elems]. rewrite bool_decide_eq_true_2 by done. cbn [orb clean_elems]. by rewrite app_nil_r, rev_involutive.
Qed.

(** An absolute path with a dot, with a suffix, and seen from a directory it is not below. *)
Lemma join_dot l : l ≠ [] → Forall plain l → join_path [abs_path l; "."] = abs_path l.
Proof.
  intros Hl Hp. unfold join_path. rewrite !filter_cons, !decide_True by done. rewrite filter_nil.
  assert (join_strings "/" [abs_path l; "."] = abs_path (l ++ ["."])) as ->.
  { unfold abs_path. rewrite join_app by done. done. }
  unfold clean. rewrite bool_decide_eq_false_2 by done.
  replace (is_abs (abs_path (l ++ ["."]))) with true by (symmetry; apply is_abs_slash).
  assert (clean_elems true [] (split (abs_path (l ++ ["."])) slash) = l) as ->; [|done]. rewrite split_abs.
  - cbn [clean_elems]. rewrite bool_decide_eq_true_2 by done. cbn [orb]. rewrite clean_elems_app by done. cbn [clean_elems].
    change (bool_decide ("." = "") || bool_decide ("." = ".")) with true. cbn. by rewrite app_nil_r, rev_involutive.
  - by destruct l.
  - apply Forall_app. split; [by apply Forall_plain_no_slash|]. constructor; [|constructor]. by apply (bool_decide_unpack _).
Qed.
Lemma join_strings_suffix l c s : join_strings "/" (l ++ [c +:+ s]) = join_strings "/" (l ++ [c]) +:+ s.
Proof.
  destruct (decide (l = [])) as [->|Hl]; [done|]. rewrite !join_app by done. apply chars_inj. cbn [join_strings].
  rewrite !chars_app. by rewrite <- !(assoc_L (++)).
Qed.
Lemma abs_path_suffix l c s : abs_path (l ++ [c]) +:+ s = abs_path (l ++ [c +:+ s]).
Proof. unfold abs_path. rewrite join_strings_suffix. done. Qed.
Lemma plain_suffix c s : plain c → slash ∉ chars s → (2 <= String.length s)%nat → plain (c +:+ s).
Proof.
  intros (Hs & He & _) Hss Hl. assert (3 <= String.length (c +:+ s))%nat as H3.
  { rewrite string_length_app. destruct c; [done|]. simpl. lia. }
  split; [rewrite chars_app; by apply not_elem_of_app|].
  split; [|split]; intros E; rewrite E in H3; simpl in H3; lia.
Qed.
Lemma split_last {A} (l : list A) : l ≠ [] → ∃ d c, l = d ++ [c].
Proof. intros Hl. destruct l as [|c d _] using rev_ind; [done|]. eauto. Qed.
