(* ===== verification/PosixFs.v ===== *)
(** The file system as [internal/backup] and [internal/migration] use it: whole
    paths, resolved through symbolic links, over the tree of [FileSys.v] with its
    root as [/]. *)
From S2P Require Import Prelude GoStrings GoPath Quote FileSys PathFacts.

(** ** Resolution

    The components of a path are walked from the root; a link is followed unless
    it is the last component and [follow] is false.  [links] bounds the links
    followed, as the system's limit does.  The result is where the object is, or
    would be made. *)
Definition no_directory : gerror := SysErr "not a directory".
Definition max_links : nat := 40.
Fixpoint resolve (links : nat) (t : node) (follow : bool) (base : path) (l : list string) {struct links} : result path :=
  (fix go (base : path) (l : list string) : result path :=
     match l with
     | [] => Ok base
     | c :: l' =>
       if bool_decide (c = "") || bool_decide (c = ".") then go base l'
       else if bool_decide (c = "..") then go (parent base) l'
       else match tree_get (base ++ [c]) t with
       | Some (Link target) =>
         if bool_decide (l' = []) && negb follow then Ok (base ++ [c])
         else match links with
              | O => Err (SysErr "too many levels of symbolic links")
              | S k => resolve k t follow (if is_abs target then [] else base) (split target slash ++ l')
              end
       | Some (Dir _ _) => go (base ++ [c]) l'
       | Some (File _ _) => if bool_decide (l' = []) then Ok (base ++ [c]) else Err no_directory
       | None => if bool_decide (l' = []) then Ok (base ++ [c]) else Err ErrNotExist
       end
     end) base l.
Definition locate (t : node) (follow : bool) (p : string) : result path := resolve max_links t follow [] (split p slash).

(** ** Calls *)

Section Calls.
(** The process's mask of the modes of new files. *)
Variable umask : Z.
Definition new_mode (mode : Z) : Z := Z.ldiff (Z.land mode 511) umask.

(** A call on a resolved path. *)
Definition at_path {A} (follow : bool) (p : string) (run : path → node → result A * node) : M fs (result A) :=
  sys (λ t, match locate t follow p with Ok q => run q t | Err e => (Err e, t) end).
Definition at_path_err (follow : bool) (p : string) (run : path → node → option gerror * node) : M fs (option gerror) :=
  let* r := at_path follow p (λ q t, let '(e, t') := run q t in (match e with Some e => Err e | None => Ok tt end, t')) in
  ret (match r with Err e => Some e | Ok _ => None end).

Definition existing (q : path) (t : node) : result node :=
  match tree_get q t with Some n => Ok n | None => Err ErrNotExist end.
(** [os.Lstat] and [os.Stat] *)
Definition px_lstat (p : string) : M fs (result node) := at_path false p (λ q t, (existing q t, t)).
Definition px_stat (p : string) : M fs (result node) := at_path true p (λ q t, (existing q t, t)).
(** [os.Readlink] *)
Definition px_readlink (p : string) : M fs (result string) :=
  at_path false p (λ q t, (match tree_get q t with
                           | Some (Link l) => Ok l
                           | Some _ => Err (SysErr "invalid argument")
                           | None => Err ErrNotExist
                           end, t)).
(** [os.ReadFile]; [os.Open] and [io.Copy] of a file *)
Definition px_read_file (p : string) : M fs (result string) :=
  at_path true p (λ q t, (match tree_get q t with
                          | Some (File d _) => Ok d
                          | Some _ => Err (SysErr "is a directory")
                          | None => Err ErrNotExist
                          end, t)).
(** A new object in a directory that exists. *)
Definition make (q : path) (n : node) (t : node) : option gerror * node :=
  if bool_decide (is_Some (tree_get q t)) then (Some ErrExist, t)
  else if is_dir (tree_get (parent q) t) then (None, tree_put q (Some n) t) else (Some ErrNotExist, t).
(** [os.Mkdir], [os.Symlink] *)
Definition px_mkdir (p : string) (mode : Z) : M fs (option gerror) :=
  at_path_err false p (λ q t, make q (Dir (new_mode mode) ∅) t).
Definition px_symlink (target p : string) : M fs (option gerror) := at_path_err false p (λ q t, make q (Link target) t).
(** [os.OpenFile(p, O_CREATE|O_EXCL|O_WRONLY, mode)]: where the file is. *)
Definition px_create_excl (p : string) (mode : Z) : M fs (result path) :=
  at_path false p (λ q t, let '(e, t') := make q (File "" (new_mode mode)) t in
                          (match e with Some e => Err e | None => Ok q end, t')).
(** [os.WriteFile]: the file is created or truncated, and written. *)
Definition px_write_file (p data : string) (mode : Z) : M fs (option gerror) :=
  at_path_err true p (λ q t, match tree_get q t with
                             | Some (File _ m) => (None, tree_put q (Some (File data m)) t)
                             | Some _ => (Some (SysErr "is a directory"), t)
                             | None => make q (File data (new_mode mode)) t
                             end).
(** [os.Chmod] *)
Definition px_chmod (p : string) (mode : Z) : M fs (option gerror) :=
  at_path_err true p (λ q t, match tree_get q t with
                             | Some (File d _) => (None, tree_put q (Some (File d (Z.land mode 511))) t)
                             | Some (Dir _ es) => (None, match q with [] => Dir (Z.land mode 511) es
                                                         | _ => tree_put q (Some (Dir (Z.land mode 511) es)) t end)
                             | _ => (Some ErrNotExist, t)
                             end).
(** [os.ReadDir]: the names in order. *)
Definition sorted_names (es : gmap string node) : list string := (sort_by fst (map_to_list es)).*1.
Definition px_read_dir (p : string) : M fs (result (list string)) :=
  at_path true p (λ q t, (match tree_get q t with
                          | Some (Dir _ es) => Ok (sorted_names es)
                          | Some _ => Err no_directory
                          | None => Err ErrNotExist
                          end, t)).
(** [os.RemoveAll] and [os.Remove] *)
Definition px_remove_all (p : string) : M fs (option gerror) := at_path_err false p (λ q t, (None, tree_put q None t)).
Definition px_remove (p : string) : M fs (option gerror) :=
  at_path_err false p (λ q t, match tree_get q t with
                              | None => (Some ErrNotExist, t)
                              | Some (Dir _ es) => if bool_decide (es = ∅) then (None, tree_put q None t) else (Some ErrExist, t)
                              | Some _ => (None, tree_put q None t)
                              end).
(** [os.Rename], the cases of [os_rename]; a directory cannot move below itself. *)
Definition px_rename (p p' : string) : M fs (option gerror) :=
  at_path_err false p (λ q t,
    match locate t false p' with
    | Err e => (Some e, t)
    | Ok q' =>
      match tree_get q t with
      | None => (Some ErrNotExist, t)
      | Some n =>
        if bool_decide (q `prefix_of` q') then (if bool_decide (q = q') then None else Some (SysErr "invalid argument"), t)
        else if is_dir (tree_get (parent q') t) then
          match n, tree_get q' t with
          | Dir _ _, Some (Dir _ es) =>
            if bool_decide (es = ∅) then (None, tree_put q' (Some n) (tree_put q None t)) else (Some ErrExist, t)
          | Dir _ _, Some _ => (Some no_directory, t)
          | _, Some (Dir _ _) => (Some ErrExist, t)
          | _, _ => (None, tree_put q' (Some n) (tree_put q None t))
          end
        else (Some ErrNotExist, t)
      end
    end).

(** [os.MkdirAll], by the components of the path in reverse. *)
Fixpoint mkdir_all (rev_p : list string) (mode : Z) : M fs (option gerror) :=
  let p := abs_path (rev rev_p) in
  let* s := px_stat p in
  match s with
  | Ok (Dir _ _) => ret None
  | Ok _ => ret (Some no_directory)
  | Err e =>
    match rev_p with
    | [] => ret (Some e)
    | _ :: parent_rev =>
      err? mkdir_all parent_rev mode in
      let* e := px_mkdir p mode in
      match e with
      | None => ret None
      | Some e =>
        let* l := px_lstat p in
        ret (match l with Ok (Dir _ _) => None | _ => Some e end)
      end
    end
  end.
(** Of a clean absolute path. *)
Definition components (p : string) : list string := filter (λ c, c ≠ "") (split p slash).
Definition px_mkdir_all (p : string) (mode : Z) : M fs (option gerror) := mkdir_all (rev (components p)) mode.

(** [os.MkdirTemp("", prefix)] below [/tmp]: the name is one no entry has. *)
Definition px_mkdir_temp (prefix : string) : M fs (result string) :=
  sys (λ t, if is_dir (tree_get ["tmp"] t) then
              let name := prefix +:+ fresh_suffix (entries_of (tree_get ["tmp"] t)) in
              (Ok (abs_path ["tmp"; name]), tree_put ["tmp"; name] (Some (Dir 448 ∅)) t)
            else (Err ErrNotExist, t)).

(** ** [filepath.Walk] and [filepath.WalkDir]

    The objects of a tree with their paths: a directory before its entries, these
    in the order of their names; links are not followed. *)
Fixpoint walk (n : node) : list (path * node) :=
  ([], n) :: match n with
  | Dir _ es =>
    concat ((λ kl : string * list (path * node), (λ pn : path * node, (kl.1 :: pn.1, pn.2)) <$> kl.2)
      <$> sort_by fst (map_fold (λ k n' acc, (k, walk n') :: acc) [] es))
  | _ => []
  end.
(** The listing is taken in one step. *)
Definition px_walk (p : string) : M fs (result (list (path * node))) :=
  at_path false p (λ q t, (match existing q t with Ok n => Ok (walk n) | Err e => Err e end, t)).
End Calls.

Fixpoint node_height (n : node) : nat :=
  match n with
  | Dir _ es => S (map_fold (λ _ n' h, Nat.max (node_height n') h) O es)
  | _ => 1
  end.
