(* ===== verification/TreeWalk.v ===== *)
(** Walking a tree and building it again: the list [filepath.Walk] visits, and
    what is left after every visited object has been made somewhere else. *)
From stdpp Require Import list.
From S2P Require Import Prelude GoStrings Config FileSys PosixFs.

(** ** Sorted entries *)

Lemma sort_by_fmap {B C} (g : string * B → string * C) l :
  (∀ x, (g x).1 = x.1) → NoDup l.*1 → sort_by fst (g <$> l) = g <$> sort_by fst l.
Proof.
  intros Hg Hnd. apply (sorted_unique fst).
  - rewrite sort_by_perm, <- list_fmap_compose. erewrite list_fmap_ext; [exact Hnd|]. intros ? x _. apply Hg.
  - apply sort_by_sorted.
  - pose proof (sort_by_sorted fst l) as Hs. induction Hs as [|x s Hs IH Hx]; [constructor|]. rewrite fmap_cons.
    constructor; [exact IH|]. apply Forall_fmap. eapply Forall_impl; [exact Hx|]. intros y Hy. unfold key_le in *. simpl. by rewrite !Hg.
  - by rewrite !sort_by_perm.
Qed.
Definition sorted_entries (es : gmap string node) : list (string * node) := sort_by fst (map_to_list es).
Lemma sorted_entries_elem es c n : (c, n) ∈ sorted_entries es ↔ es !! c = Some n.
Proof. unfold sorted_entries. rewrite sort_by_perm. apply elem_of_map_to_list. Qed.
Lemma sorted_entries_keys es : NoDup (sorted_entries es).*1.
Proof. unfold sorted_entries. rewrite sort_by_perm. apply NoDup_fst_map_to_list. Qed.
Lemma sorted_entries_map es : list_to_map (sorted_entries es) = es.
Proof.
  rewrite <- (list_to_map_to_list es) at 2. apply list_to_map_proper; [apply sorted_entries_keys|].
  unfold sorted_entries. apply sort_by_perm.
Qed.

(** ** Induction over a tree *)

Lemma node_height_entry m es c n : es !! c = Some n → (node_height n < node_height (Dir m es))%nat.
Proof.
  intros E. cbn [node_height]. enough (node_height n <= map_fold (λ _ n' h, Nat.max (node_height n') h) O es)%nat by lia.
  revert E. apply (map_fold_weak_ind (λ h es, es !! c = Some n → (node_height n <= h)%nat)); [done|].
  intros i x es' h _ IH. rewrite lookup_insert_Some. intros [[_ ->]|[_ E]]; [lia|]. specialize (IH E). lia.
Qed.
Lemma node_ind_nested (P : node → Prop) :
  (∀ d m, P (File d m)) → (∀ l, P (Link l)) → (∀ m es, (∀ c n, es !! c = Some n → P n) → P (Dir m es)) → ∀ n, P n.
Proof.
  intros Hf Hl Hd n. induction n as [n IH] using (induction_ltof1 _ node_height). unfold ltof in IH.
  destruct n as [d m|l|m es]; [done..|]. apply Hd. intros c n E. apply IH. by apply (node_height_entry m) in E.
Qed.

(** ** The walk *)

Definition under (p : path) : list (path * node) → list (path * node) := fmap (prod_map (app p) id).
Definition walk_entries (l : list (string * node)) : list (path * node) :=
  concat ((λ kn : string * node, under [kn.1] (walk kn.2)) <$> l).
Lemma walk_dir m es : walk (Dir m es) = ([], Dir m es) :: walk_entries (sorted_entries es).
Proof.
  cbn [walk]. f_equal. unfold walk_entries. f_equal.
  assert (map_fold (λ k n' acc, (k, walk n') :: acc) [] es = prod_map id walk <$> map_to_list es) as ->.
  { rewrite map_fold_foldr. induction (map_to_list es) as [|[c n] l IH]; [done|]. cbn [foldr]. by rewrite IH. }
  rewrite sort_by_fmap by (try done; apply NoDup_fst_map_to_list). rewrite <- list_fmap_compose.
  apply list_fmap_ext. intros _ [c n] _. done.
Qed.
Lemma under_app p l l' : under p (l ++ l') = under p l ++ under p l'.
Proof. apply fmap_app. Qed.
Lemma under_under p q l : under p (under q l) = under (p ++ q) l.
Proof.
  unfold under. rewrite <- list_fmap_compose. apply list_fmap_ext. intros _ [r n] _. simpl. by rewrite (assoc_L (++)).
Qed.
Lemma under_nil l : under [] l = l.
Proof. unfold under. induction l as [|[q n] l IH]; [done|]. cbn. by f_equal. Qed.
Lemma under_elem p l q n : (q, n) ∈ under p l ↔ ∃ r, q = p ++ r ∧ (r, n) ∈ l.
Proof.
  unfold under. rewrite list_elem_of_fmap. split.
  - intros ([r n'] & [= -> ->] & H). by exists r.
  - intros (r & -> & H). by exists (r, n).
Qed.
Lemma walk_entries_cons c n l : walk_entries ((c, n) :: l) = under [c] (walk n) ++ walk_entries l.
Proof. done. Qed.
Lemma walk_entries_elem l q n : (q, n) ∈ walk_entries l ↔ ∃ c n' r, (c, n') ∈ l ∧ q = c :: r ∧ (r, n) ∈ walk n'.
Proof.
  induction l as [|[c n'] l IH].
  - split; [by intros ?%not_elem_of_nil|]. by intros (? & ? & ? & ?%not_elem_of_nil & _).
  - rewrite walk_entries_cons, elem_of_app, under_elem, IH. setoid_rewrite elem_of_cons. split.
    + intros [(r & -> & Hr)|(c' & n'' & r & H & Heq & Hr)]; [exists c, n', r|exists c', n'', r]; naive_solver.
    + intros (c' & n'' & r & [[= -> ->]|H] & -> & Hr); [left|right]; naive_solver.
Qed.
(** The walk visits the objects of the tree, each at its path. *)
Lemma walk_get n q n' : (q, n') ∈ walk n ↔ tree_get q n = Some n'.
Proof.
  revert q n'. induction n as [d m|l|m es IH] using node_ind_nested; intros q n'.
  1,2: cbn [walk]; rewrite list_elem_of_singleton; destruct q; cbn; naive_solver.
  rewrite walk_dir, elem_of_cons, walk_entries_elem. destruct q as [|c q]; cbn [tree_get].
  - split; [|naive_solver]. intros [[= ->]|(? & ? & ? & _ & ? & _)]; done.
  - split.
    + intros [?|(c' & n'' & r & Hin & [= <- <-] & Hr)]; [done|]. apply sorted_entries_elem in Hin. rewrite Hin. by eapply IH.
    + destruct (es !! c) as [n''|] eqn:E; [|done]. intros Hr. right. exists c, n'', q.
      rewrite sorted_entries_elem. split; [done|]. split; [done|]. by eapply IH.
Qed.
Lemma walk_head n : ∃ l, walk n = ([], n) :: l ∧ ∀ q n', (q, n') ∈ l → q ≠ [].
Proof.
  destruct n as [d m|l|m es].
  1,2: exists []; split; [done|]; intros ? ? ?%not_elem_of_nil; done.
  exists (walk_entries (sorted_entries es)). split; [apply walk_dir|]. intros q n'. rewrite walk_entries_elem.
  by intros (c & n'' & r & _ & -> & _).
Qed.

(** ** Building a tree *)

Lemma tree_put_below p r v n t :
  p ≠ [] → r ≠ [] → is_dir (tree_get (parent p) t) = true →
  tree_put (p ++ r) v (tree_put p (Some n) t) = tree_put p (Some (tree_put r v n)) t.
Proof.
  unfold parent. revert t. induction p as [|x p IH]; intros t Hp Hr Hdir; [done|]. destruct t as [| |m' es']; [by destruct p..|].
  destruct p as [|y p].
  - destruct r as [|z r]; [done|]. cbn [app]. change (tree_put (x :: z :: r) v ?u) with (match u with
      Dir m es => match es !! x with Some n' => Dir m (<[x := tree_put (z :: r) v n']> es) | None => u end | _ => u end).
    cbn [tree_put]. rewrite lookup_partial_alter_eq. f_equal. apply map_eq. intros i.
    destruct (decide (x = i)) as [<-|Hne].
    + by rewrite lookup_insert_eq, lookup_partial_alter_eq.
    + by rewrite lookup_insert_ne, !lookup_partial_alter_ne.
  - cbn [app tree_put removelast tree_get] in *. destruct (es' !! x) as [n'|] eqn:E; [|done].
    cbn [tree_put]. rewrite lookup_insert_eq, insert_insert_eq. do 2 f_equal. by apply (IH n').
Qed.
Lemma tree_put_child p c v m es t :
  p ≠ [] → is_dir (tree_get (parent p) t) = true →
  tree_put (p ++ [c]) v (tree_put p (Some (Dir m es)) t) = tree_put p (Some (Dir m (partial_alter (λ _, v) c es))) t.
Proof. intros. by rewrite tree_put_below. Qed.
Lemma tree_put_same p t n : p ≠ [] → tree_get p t = Some n → tree_put p (Some n) t = t.
Proof.
  intros Hne. revert t. induction p as [|c p IH]; intros t Hget; [done|]. destruct t as [| |m es]; [done..|].
  cbn [tree_get] in Hget. destruct (es !! c) as [n'|] eqn:E; [|done]. cbn [tree_put]. destruct p as [|x p].
  - cbn in Hget. f_equal. rewrite <- Hget, <- E. apply partial_alter_self.
  - rewrite E. f_equal. rewrite IH by done. by rewrite insert_id.
Qed.
Definition alter_below (r : path) (u : option node) (o : option node) : option node :=
  match r with [] => u | _ => tree_put r u <$> o end.
Lemma tree_put_cons a r u m es : tree_put (a :: r) u (Dir m es) = Dir m (partial_alter (alter_below r u) a es).
Proof.
  cbn [tree_put]. destruct r as [|z r]; [done|].
  destruct (es !! a) as [n|] eqn:Ea; f_equal; apply map_eq; intros i; destruct (decide (i = a)) as [->|Hi].
  - rewrite lookup_insert_eq, lookup_partial_alter_eq, Ea. done.
  - rewrite lookup_insert_ne, lookup_partial_alter_ne by done. done.
  - rewrite lookup_partial_alter_eq, Ea. done.
  - by rewrite lookup_partial_alter_ne by done.
Qed.
Lemma tree_put_comm p q v w t : ¬ (p `prefix_of` q) → ¬ (q `prefix_of` p) →
  tree_put p v (tree_put q w t) = tree_put q w (tree_put p v t).
Proof.
  revert q t. induction p as [|c p IH]; intros q t Hp Hq; [by destruct Hp; apply prefix_nil|].
  destruct q as [|d q]; [by destruct Hq; apply prefix_nil|]. destruct t as [| |m es]; [done..|]. rewrite !tree_put_cons. f_equal.
  destruct (decide (c = d)) as [<-|Hne]; [|by apply partial_alter_partial_alter_ne].
  assert (¬ (p `prefix_of` q) ∧ ¬ (q `prefix_of` p)) as [Hp' Hq'].
  { split; intros H; [apply Hp|apply Hq]; by apply prefix_cons. }
  destruct p as [|x p]; [by destruct Hp'; apply prefix_nil|]. destruct q as [|y q]; [by destruct Hq'; apply prefix_nil|].
  rewrite !partial_alter_partial_alter_eq. apply partial_alter_ext. intros o _. destruct o as [n|]; [|done].
  exact (f_equal Some (IH (y :: q) n Hp' Hq')).
Qed.
(** The object alone: a directory without its entries. *)
Definition shell (n : node) : node := match n with Dir m _ => Dir m ∅ | _ => n end.

Section Replay.
Variables (put : path → node → M fs (option gerror)) (T : path) (k : Z).
Variables (ok : path → node → Prop) (Inv : node → Prop).
Fixpoint put_all (l : list (path * node)) : M fs (option gerror) :=
  match l with
  | [] => ret None
  | (q, n) :: l' => err? put q n in put_all l'
  end.
Hypothesis Inv_put : ∀ q v t, Inv t → Inv (tree_put (T ++ q) v t).
Hypothesis put_ok : ∀ q n t,
  ok q n → Inv t → is_dir (tree_get (parent (T ++ q)) t) = true → tree_get (T ++ q) t = None →
  put q n (mkFs t [] k) = (None, mkFs (tree_put (T ++ q) (Some (shell n)) t) [] k).

Lemma put_all_app l l' w w' : put_all l w = (None, w') → put_all (l ++ l') w = put_all l' w'.
Proof using.
  revert w. induction l as [|[q n] l IH]; intros w; cbn [app put_all]; [by intros [= ->]|].
  unfold try_err, bind. destruct (put q n w) as [[e|] w1]; [done|]. apply IH.
Qed.
Definition all_ok (q : path) (n : node) : Prop := ∀ r n', tree_get r n = Some n' → ok (q ++ r) n'.
Lemma all_ok_entry q m es c n : all_ok q (Dir m es) → es !! c = Some n → all_ok (q ++ [c]) n.
Proof using. intros H E r n' Hr. rewrite <- (assoc_L (++)). apply H. cbn [app tree_get]. by rewrite E. Qed.

Definition replays (n : node) : Prop := ∀ q t,
  all_ok q n → Inv t → T ++ q ≠ [] → is_dir (tree_get (parent (T ++ q)) t) = true → tree_get (T ++ q) t = None →
  put_all (under q (walk n)) (mkFs t [] k) = (None, mkFs (tree_put (T ++ q) (Some n) t) [] k).
Lemma replay_entries q m t l : (∀ c n, (c, n) ∈ l → replays n ∧ all_ok (q ++ [c]) n) →
  Inv t → T ++ q ≠ [] → is_dir (tree_get (parent (T ++ q)) t) = true → NoDup l.*1 →
  ∀ es, (∀ c n, (c, n) ∈ l → es !! c = None) →
  put_all (under q (walk_entries l)) (mkFs (tree_put (T ++ q) (Some (Dir m es)) t) [] k)
  = (None, mkFs (tree_put (T ++ q) (Some (Dir m (list_to_map l ∪ es))) t) [] k).
Proof using Inv_put put_ok.
  intros Hl Hinv Hne Hdir. induction l as [|[c n] l IH]; intros Hnd es Hes.
  - cbn. by rewrite (left_id_L ∅ (∪)).
  - apply NoDup_cons in Hnd as [Hc Hnd]. rewrite walk_entries_cons, under_app, under_under.
    destruct (Hl c n) as [Hn Hok]; [left|].
    assert (Hget : tree_get (T ++ q) (tree_put (T ++ q) (Some (Dir m es)) t) = Some (Dir m es)) by by apply tree_get_put_eq.
    erewrite put_all_app.
    2: { apply Hn; [done|by apply Inv_put| | |].
         - by destruct T, q.
         - unfold parent. rewrite (assoc_L (++)), removelast_last, Hget. done.
         - rewrite (assoc_L (++)), tree_get_app, Hget. cbn. by rewrite (Hes c n) by left. }
    rewrite (assoc_L (++)), tree_put_child by done.
    change (partial_alter (λ _, Some n) c es) with (<[c := n]> es). rewrite IH.
    + do 4 f_equal. cbn [list_to_map foldr]. unfold list_to_map at 2. cbn [foldr].
      rewrite <- insert_union_l, insert_union_r; [done|]. by apply not_elem_of_list_to_map_1.
    + intros c' n' H. apply Hl. by right.
    + done.
    + intros c' n' H. rewrite lookup_insert_ne; [eapply Hes; by right|]. intros <-. apply Hc.
      apply list_elem_of_fmap. by exists (c, n').
Qed.
Lemma replay n : replays n.
Proof using Inv_put put_ok.
  induction n as [d m|l|m es IH] using node_ind_nested; intros q t Hok Hinv Hne Hdir Hnone.
  1,2: cbn; rewrite app_nil_r; unfold try_err, bind; rewrite put_ok; try done; specialize (Hok []); rewrite app_nil_r in Hok; by apply Hok.
  rewrite walk_dir. unfold under. rewrite fmap_cons. fold (under q (walk_entries (sorted_entries es))).
  cbn [put_all prod_map fst snd id]. rewrite app_nil_r. unfold try_err, bind. rewrite put_ok; [|rewrite <- (app_nil_r q); by apply Hok|done..].
  cbn [shell]. rewrite replay_entries; [by rewrite sorted_entries_map, (right_id_L ∅ (∪))| |try done..].
  - intros c n H%sorted_entries_elem. split; [by eapply IH|by eapply all_ok_entry].
  - apply sorted_entries_keys.
Qed.
(** Everything below a directory that is there and empty. *)
Lemma replay_root m m' es t :
  (∀ r n', r ≠ [] → tree_get r (Dir m' es) = Some n' → ok r n') → Inv t → T ≠ [] → is_dir (tree_get (parent T) t) = true → tree_get T t = Some (Dir m ∅) →
  put_all (tail (walk (Dir m' es))) (mkFs t [] k) = (None, mkFs (tree_put T (Some (Dir m es)) t) [] k).
Proof using Inv_put put_ok.
  intros Hok Hinv Hne Hdir Hget. rewrite walk_dir. cbn [tail]. rewrite <- (under_nil (walk_entries _)).
  pose proof (replay_entries [] m t (sorted_entries es)) as H. rewrite app_nil_r in H.
  pose proof (tree_put_same T t _ Hne Hget) as Ht.
  specialize (λ a b c d e, H a b c d e ∅). rewrite Ht in H. rewrite H; [by rewrite sorted_entries_map, (right_id_L ∅ (∪))| |try done..].
  - intros c n E%sorted_entries_elem. split; [apply replay|]. intros r n' Hr. apply Hok; [done|]. cbn. by rewrite E.
  - apply sorted_entries_keys.
Qed.
End Replay.
