(* ===== verification/PosixFacts.v ===== *)
(** What the calls of [PosixFs.v] do when nothing fails: paths below real
    directories lead where they say, and a new object is made where it is named. *)
From S2P Require Import Prelude GoStrings GoPath Quote FileSys PathFacts PosixFs.

(** ** Running forward *)

Lemma bind_run {W A B} (m : M W A) (k : A → M W B) w a w' : m w = (a, w') → bind m k w = k a w'.
Proof. intros H. unfold bind. by rewrite H. Qed.
Lemma ok_then {W A B} (m : M W (result A)) (k : A → M W (result B)) w a w' : m w = (Ok a, w') → try_ok m k w = k a w'.
Proof. intros H. unfold try_ok, bind. by rewrite H. Qed.
Lemma nil_then {W B} (m : M W (option gerror)) (k : M W (result B)) w w' : m w = (None, w') → try_nil m k w = k w'.
Proof. intros H. unfold try_nil, bind. by rewrite H. Qed.
Lemma err_then {W} (m k : M W (option gerror)) w w' : m w = (None, w') → try_err m k w = k w'.
Proof. intros H. unfold try_err, bind. by rewrite H. Qed.
(** Makes the first call of the goal's computation, of which [H] tells the result. *)
Ltac call H := first
  [ erewrite (bind_run _ _ _ _ _ H) | erewrite (ok_then _ _ _ _ _ H) | erewrite (nil_then _ _ _ _ H) | erewrite (err_then _ _ _ _ H) ].

(** ** Resolution where there are no links *)

Lemma resolve_nil links t follow base : resolve links t follow base [] = Ok base.
Proof. by destruct links. Qed.
Lemma resolve_empty links t follow base l : resolve links t follow base ("" :: l) = resolve links t follow base l.
Proof. by destruct links. Qed.
Lemma resolve_dir links t follow base c l :
  plain c → is_dir (tree_get (base ++ [c]) t) = true →
  resolve links t follow base (c :: l) = resolve links t follow (base ++ [c]) l.
Proof.
  intros (_ & H1 & H2 & H3) Hd. destruct links; cbn [resolve];
    rewrite !bool_decide_eq_false_2 by done; cbn [orb]; by destruct (tree_get (base ++ [c]) t) as [[| |]|].
Qed.
Definition is_link (o : option node) : bool := match o with Some (Link _) => true | _ => false end.
Lemma resolve_last links t follow base c :
  plain c → follow && is_link (tree_get (base ++ [c]) t) = false →
  resolve links t follow base [c] = Ok (base ++ [c]).
Proof.
  intros (_ & H1 & H2 & H3) Hl. destruct links; cbn [resolve];
    rewrite !bool_decide_eq_false_2 by done; cbn [orb];
    destruct (tree_get (base ++ [c]) t) as [[| |]|]; try done; destruct follow; done.
Qed.

Lemma tree_get_prefix p q t : is_Some (tree_get (p ++ q) t) → q ≠ [] → is_dir (tree_get p t) = true.
Proof.
  rewrite tree_get_app. destruct (tree_get p t) as [n|]; [|by intros [? ?]].
  destruct q as [|c q]; [done|]. intros Hs _. destruct n; [by destruct Hs..|done].
Qed.
Lemma is_dir_prefix p q t : is_dir (tree_get (p ++ q) t) = true → is_dir (tree_get p t) = true.
Proof.
  intros H. destruct (decide (q = [])) as [->|Hq]; [by rewrite app_nil_r in H|].
  eapply tree_get_prefix; [|done]. destruct (tree_get (p ++ q) t); [by eexists|done].
Qed.
Lemma resolve_dirs links t follow base d l :
  Forall plain d → is_dir (tree_get (base ++ d) t) = true →
  resolve links t follow base (d ++ l) = resolve links t follow (base ++ d) l.
Proof.
  intros H. revert base. induction H as [|c d Hc Hd IH]; intros base Hdir; [by rewrite app_nil_r|].
  rewrite cons_middle, (assoc_L (++)) in Hdir. cbn [app]. rewrite resolve_dir; [|done|by eapply is_dir_prefix].
  rewrite IH by done. by rewrite <- (assoc_L (++)).
Qed.

(** Where a path below a real directory leads. *)
Lemma locate_dir t follow d :
  d ≠ [] → Forall plain d → is_dir (tree_get d t) = true → locate t follow (abs_path d) = Ok d.
Proof.
  intros Hne Hd Hdir. unfold locate. rewrite split_abs by (try done; by apply Forall_plain_no_slash).
  rewrite resolve_empty, <- (app_nil_r d) at 1. rewrite resolve_dirs by done. apply resolve_nil.
Qed.
Lemma locate_child t follow d c :
  Forall plain d → plain c → is_dir (tree_get d t) = true → follow && is_link (tree_get (d ++ [c]) t) = false →
  locate t follow (abs_path (d ++ [c])) = Ok (d ++ [c]).
Proof.
  intros Hd Hc Hdir Hl. unfold locate. rewrite split_abs; [|by destruct d|].
  - rewrite resolve_empty, resolve_dirs by done. by apply resolve_last.
  - apply Forall_app. split; [by apply Forall_plain_no_slash|]. repeat constructor. by apply plain_no_slash.
Qed.

(** ** Calls without failures *)

Abbreviation calm t k := (mkFs t [] k).
Lemma at_path_calm {A} follow p (run : path → node → result A * node) t k :
  at_path follow p run (calm t k) =
    match locate t follow p with
    | Ok q => ((run q t).1, calm (run q t).2 k)
    | Err e => (Err e, calm t k)
    end.
Proof. unfold at_path, sys. cbn [fs_faults fs_tree fs_clock]. destruct (locate t follow p) as [q|e]; [|done]. by destruct (run q t). Qed.
Lemma at_path_err_calm follow p (run : path → node → option gerror * node) t k :
  at_path_err follow p run (calm t k) =
    match locate t follow p with
    | Ok q => ((run q t).1, calm (run q t).2 k)
    | Err e => (Some e, calm t k)
    end.
Proof.
  unfold at_path_err, bind. rewrite at_path_calm. destruct (locate t follow p) as [q|e]; [|done].
  destruct (run q t) as [[e|] t']; done.
Qed.

Section Calm.
Variable umask : Z.
Context {t : node} {d : path} {k : Z}.
Hypothesis Hne : d ≠ [].
Hypothesis Hd : Forall plain d.
Hypothesis Hdir : is_dir (tree_get d t) = true.

Lemma stat_dir_calm : px_stat (abs_path d) (calm t k) = (existing d t, calm t k).
Proof using Hne Hd Hdir. unfold px_stat. by rewrite at_path_calm, locate_dir. Qed.
Lemma mkdir_all_rev mode : mkdir_all umask (rev d) mode (calm t k) = (None, calm t k).
Proof using Hne Hd Hdir.
  destruct (rev d) eqn:E; cbn [mkdir_all]; rewrite <- E, rev_involutive; unfold bind; rewrite stat_dir_calm;
    unfold existing; destruct (tree_get d t) as [[| |]|]; done.
Qed.
Lemma components_abs : components (abs_path d) = d.
Proof using Hne Hd.
  unfold components. rewrite split_abs by (try done; by apply Forall_plain_no_slash).
  rewrite filter_cons, decide_False by (intros H; by apply H). clear -Hd. induction Hd as [|c d (_ & ? & _) ? IH]; [done|].
  by rewrite filter_cons, decide_True, IH.
Qed.
Lemma mkdir_all_existing mode : px_mkdir_all umask (abs_path d) mode (calm t k) = (None, calm t k).
Proof using Hne Hd Hdir. unfold px_mkdir_all. rewrite components_abs. apply mkdir_all_rev. Qed.

(** A new object in the directory. *)
Context {c : string}.
Hypothesis Hc : plain c.
Hypothesis Hnew : tree_get (d ++ [c]) t = None.
Lemma parent_child : parent (d ++ [c]) = d.
Proof using. unfold parent. apply removelast_last. Qed.
Lemma make_child n : make (d ++ [c]) n t = (None, tree_put (d ++ [c]) (Some n) t).
Proof using Hdir Hnew. unfold make. rewrite Hnew, parent_child, Hdir. done. Qed.
Lemma locate_new follow : locate t follow (abs_path (d ++ [c])) = Ok (d ++ [c]).
Proof using Hd Hc Hdir Hnew. apply locate_child; [done..|]. rewrite Hnew. by destruct follow. Qed.
Lemma mkdir_all_new mode :
  px_mkdir_all umask (abs_path (d ++ [c])) mode (calm t k)
  = (None, calm (tree_put (d ++ [c]) (Some (Dir (new_mode umask mode) ∅)) t) k).
Proof using Hne Hd Hdir Hc Hnew.
  unfold px_mkdir_all, components. rewrite split_abs; [|by destruct d|].
  2: { apply Forall_app. split; [by apply Forall_plain_no_slash|]. repeat constructor. by apply plain_no_slash. }
  assert (filter (λ c, c ≠ "") ("" :: d ++ [c]) = d ++ [c]) as ->.
  { rewrite filter_cons, decide_False by (intros H; by apply H). rewrite filter_app.
    pose proof components_abs as Hcomp. unfold components in Hcomp. rewrite split_abs in Hcomp by (try done; by apply Forall_plain_no_slash).
    rewrite filter_cons, decide_False in Hcomp by (intros H; by apply H). rewrite Hcomp.
    rewrite filter_cons, decide_True by apply Hc. done. }
  rewrite rev_unit. cbn [mkdir_all rev]. rewrite rev_involutive. unfold bind at 1, px_stat.
  rewrite at_path_calm, locate_new. cbn [fst snd]. unfold existing. rewrite Hnew.
  unfold try_err, bind. rewrite mkdir_all_rev. unfold px_mkdir. rewrite at_path_err_calm, locate_new, make_child. done.
Qed.
Lemma symlink_new l :
  px_symlink l (abs_path (d ++ [c])) (calm t k) = (None, calm (tree_put (d ++ [c]) (Some (Link l)) t) k).
Proof using Hd Hdir Hc Hnew. unfold px_symlink. by rewrite at_path_err_calm, locate_new, make_child. Qed.
End Calm.

Lemma tree_put_under p r v v' t : p ≠ [] → tree_put p v (tree_put (p ++ r) v' t) = tree_put p v t.
Proof.
  revert t. induction p as [|c p IH]; intros t Hp; [done|]. destruct t as [| |m es]; [done..|].
  destruct p as [|c' p].
  - destruct r as [|x r]; cbn [app tree_put].
    + f_equal. apply map_eq. intros k. rewrite !lookup_partial_alter. by case_decide.
    + destruct (es !! c) as [n|] eqn:E; cbn [tree_put]; [|done]. f_equal. apply map_eq. intros k.
      rewrite !lookup_partial_alter. case_decide; [done|]. by rewrite lookup_insert_ne.
  - cbn [app tree_put]. destruct (es !! c) as [n|] eqn:E; cbn [tree_put]; rewrite ?E; [|done].
    rewrite lookup_insert_eq. rewrite insert_insert_eq. do 2 f_equal. by apply (IH n).
Qed.
Lemma tree_put_twice p v v' t : p ≠ [] → tree_put p v (tree_put p v' t) = tree_put p v t.
Proof. intros Hp. rewrite <- (app_nil_r p) at 2. by apply tree_put_under. Qed.

(** ** Objects that are there *)

Lemma locate_get t follow p n :
  p ≠ [] → Forall plain p → tree_get p t = Some n → follow && is_link (Some n) = false → locate t follow (abs_path p) = Ok p.
Proof.
  intros Hp Hpl Hget Hl. destruct p as [|c d _] using rev_ind; [done|]. apply Forall_app in Hpl as [Hd Hc].
  apply (Forall_singleton plain) in Hc. apply locate_child; [done..| |by rewrite Hget].
  eapply (tree_get_prefix d [c]); [|done]. rewrite Hget. by eexists.
Qed.
Section Present.
Context {t : node} {p : path} {n : node} {k : Z}.
Hypothesis Hp : p ≠ [].
Hypothesis Hpl : Forall plain p.
Hypothesis Hget : tree_get p t = Some n.
Lemma lstat_get : px_lstat (abs_path p) (calm t k) = (Ok n, calm t k).
Proof using Hp Hpl Hget. unfold px_lstat. rewrite at_path_calm. erewrite locate_get by done. unfold existing. by rewrite Hget. Qed.
Lemma readlink_get l : n = Link l → px_readlink (abs_path p) (calm t k) = (Ok l, calm t k).
Proof using Hp Hpl Hget.
  intros ->. unfold px_readlink. rewrite at_path_calm. erewrite locate_get by done. by rewrite Hget.
Qed.
Lemma read_file_get d m : n = File d m → px_read_file (abs_path p) (calm t k) = (Ok d, calm t k).
Proof using Hp Hpl Hget.
  intros ->. unfold px_read_file. rewrite at_path_calm. erewrite locate_get by done. by rewrite Hget.
Qed.
Lemma walk_get_calm : px_walk (abs_path p) (calm t k) = (Ok (walk n), calm t k).
Proof using Hp Hpl Hget.
  unfold px_walk. rewrite at_path_calm. erewrite locate_get by done. unfold existing. by rewrite Hget.
Qed.
End Present.
Lemma file_close_calm t k : file_close (calm t k) = (None, calm t k).
Proof. done. Qed.
Lemma file_sync_calm t k : file_sync (calm t k) = (None, calm t k).
Proof. done. Qed.

(** ** Temporary directories *)

Lemma tree_put_absent p t : p ≠ [] → tree_get p t = None → tree_put p None t = t.
Proof.
  revert t. induction p as [|c p IH]; intros t Hp Hnone; [done|]. destruct t as [| |m es]; [done..|]. cbn [tree_put].
  destruct p as [|x p].
  - f_equal. cbn in Hnone. destruct (es !! c) eqn:E; [done|]. rewrite <- E. apply partial_alter_self.
  - cbn [tree_get] in Hnone. destruct (es !! c) as [n|] eqn:E; [|done]. f_equal. by rewrite (IH n), insert_id.
Qed.
Lemma tree_put_undo p v t : p ≠ [] → tree_get p t = None → tree_put p None (tree_put p v t) = t.
Proof. intros Hp Hn. rewrite tree_put_twice by done. by apply tree_put_absent. Qed.

Definition work_dir (prefix : string) (t : node) : path :=
  ["tmp"; prefix +:+ fresh_suffix (entries_of (tree_get ["tmp"] t))].
Lemma work_dir_plain prefix t : slash ∉ chars prefix → (3 <= String.length prefix)%nat → Forall plain (work_dir prefix t).
Proof.
  intros Hs Hl. unfold work_dir. apply Forall_cons; split; [by apply (bool_decide_unpack _)|]. apply Forall_singleton.
  split; [|destruct prefix as [|? [|? [|? ?]]]; simpl in Hl; (lia || done)].
  rewrite chars_app. apply not_elem_of_app. split; [done|]. unfold fresh_suffix. rewrite chars_of_chars.
  intros [H _]%elem_of_replicate. discriminate H.
Qed.
Section Temporary.
Context {t : node} {k : Z} {prefix : string}.
Hypothesis Htmp : is_dir (tree_get ["tmp"] t) = true.
Hypothesis Hslash : slash ∉ chars prefix.
Hypothesis Hlong : (3 <= String.length prefix)%nat.
Lemma work_dir_new : tree_get (work_dir prefix t) t = None.
Proof using Htmp.
  unfold work_dir. change (["tmp"; ?x]) with (["tmp"] ++ [x]). rewrite tree_get_app.
  destruct (tree_get ["tmp"] t) as [[| |m es]|]; [done..| |done]. cbn [entries_of tree_get]. by rewrite fresh_suffix_fresh.
Qed.
Lemma mkdir_temp_calm :
  px_mkdir_temp prefix (calm t k)
  = (Ok (abs_path (work_dir prefix t)), calm (tree_put (work_dir prefix t) (Some (Dir 448 ∅)) t) k).
Proof using Htmp. unfold px_mkdir_temp, sys. cbn [fs_faults fs_tree fs_clock]. rewrite Htmp. done. Qed.
(** What is there, and is no directory above it, is not touched by it. *)
Lemma work_dir_apart p : is_Some (tree_get p t) → ¬ (work_dir prefix t `prefix_of` p).
Proof using Htmp.
  intros Hp [r ->]. rewrite tree_get_app, work_dir_new in Hp. by destruct Hp.
Qed.
Lemma work_dir_not_above p n : tree_get p t = Some n → is_dir (Some n) = false → ¬ (p `prefix_of` work_dir prefix t).
Proof using Htmp.
  intros Hp Hn [r Hr]. destruct r as [|x r].
  - rewrite app_nil_r in Hr. pose proof work_dir_new as H. rewrite Hr, Hp in H. done.
  - unfold work_dir in Hr. destruct p as [|a [|b p]].
    + injection Hp as <-. destruct t; done.
    + injection Hr as Ha _. rewrite <- Ha in Hp. rewrite Hp in Htmp. congruence.
    + injection Hr as _ Hr. by destruct p.
Qed.
Lemma work_dir_apart_new p : tree_get p t = None → is_dir (tree_get (parent p) t) = true → p ≠ work_dir prefix t →
  ¬ (work_dir prefix t `prefix_of` p) ∧ ¬ (p `prefix_of` work_dir prefix t).
Proof using Htmp.
  intros Hp Hdir Hne. split.
  - intros [r Hr]. destruct r as [|x r _] using rev_ind; [by rewrite app_nil_r in Hr|]. subst p.
    rewrite (assoc_L (++)) in Hdir. unfold parent in Hdir. rewrite removelast_last, tree_get_app, work_dir_new in Hdir. done.
  - intros [r Hr]. unfold work_dir in *. destruct p as [|a [|b p]].
    + by destruct t.
    + injection Hr as Ha _. rewrite <- Ha in Hp. by rewrite Hp in Htmp.
    + injection Hr as Ha Hb Hr. symmetry in Hr. apply app_eq_nil in Hr as [-> _]. by subst.
Qed.
Lemma work_dir_get p n v : tree_get p t = Some n → is_dir (Some n) = false → tree_get p (tree_put (work_dir prefix t) v t) = Some n.
Proof using Htmp.
  intros Hp Hn. rewrite tree_get_put_ne; [done| |by eapply work_dir_not_above]. apply work_dir_apart. by rewrite Hp.
Qed.
Lemma remove_work_dir n :
  px_remove_all (abs_path (work_dir prefix t)) (calm (tree_put (work_dir prefix t) (Some n) t) k) = (None, calm t k).
Proof using Htmp Hslash Hlong.
  unfold px_remove_all. rewrite at_path_err_calm. erewrite (locate_get _ _ _ n); [|done|by apply work_dir_plain| |done].
  - cbn [fst snd]. rewrite tree_put_undo; [done..|apply work_dir_new].
  - by apply tree_get_put_eq.
Qed.
End Temporary.
