(* ===== verification/AccountKey.v ===== *)
(** [internal/certificate/account_key.go], the account key of [acme.go], and
    [admin_certificate.go]: the ACME account's key is written once and whole. *)
From S2P Require Import Prelude GoStrings GoPath Quote Sha256 Domain FileSys Revisions X509 CertState TLSStore.

(** ** The file system calls

    The root is the data directory.  [os.CreateTemp(dir, prefix + "*" + suffix)]
    makes a file whose name no entry of [dir] has. *)
Definition temp_name (prefix suffix : string) (es : gmap string node) : string :=
  prefix +:+ fresh_suffix es +:+ suffix.
Definition os_create_temp (dir : path) (prefix suffix : string) : M fs (result string) :=
  sys (λ t,
    if is_dir (tree_get dir t) then
      let name := temp_name prefix suffix (entries_of (tree_get dir t)) in
      (Ok name, tree_put (dir ++ [name]) (Some (File "" 384)) t)
    else (Err ErrNotExist, t)).
Definition os_read_file (p : path) : M fs (result string) :=
  sys (λ t, (match tree_get p t with
             | Some (File d _) => Ok d
             | None => Err ErrNotExist
             | Some _ => Err (SysErr "is a directory")
             end, t)).

Definition account_dir : path := ["acme"].
Definition account_path : path := ["acme"; "account.key"].
(** The steps from the [Chmod] of the temporary file to the [Close]. *)
Definition write_account (tmp : path) (key : string) : M fs (option gerror) :=
  let* e := os_chmod tmp 384 in
  let* e := (match e with None => file_write tmp key | Some _ => ret e end) in
  let* e := (match e with None => file_sync | Some _ => ret e end) in
  let* c := file_close in
  ret (match e with Some _ => e | None => c end).
Definition place_account (dataDir : string) (tmp : path) (key : string) : M fs (result string) :=
  nil? write_account tmp key in
  nil? os_rename tmp account_path in
  nil? os_open_dir account_dir in
  nil? file_sync in
  ret (Ok (join_path [dataDir; "acme"; "account.key"])).
(** The deferred [os.Remove] runs last. *)
Definition StoreAccountKey (dataDir key : string) : M fs (result string) :=
  if negb (is_abs dataDir) then ret (Err (Errorf "data directory must be absolute"))
  else if bool_decide (key = "") then ret (Err (Errorf "account key is empty"))
  else
    nil? os_mkdir_all "acme" 448 in
    let? name := os_create_temp account_dir ".account-" ".tmp" in
    let* r := place_account dataDir (account_dir ++ [name]) key in
    let* _ := os_remove (account_dir ++ [name]) in
    ret r.

Section Account.
Context {X : X509}.
(** [crypto.Signer] values: their generation, and their PKCS #8 text in PEM. *)
Variable signer : Type.
Variable generate : result signer.
Variable encode_key : signer → result string.
Variable parse_pkcs8 : string → result signer.

Definition parseAccountKey (data : string) : result signer :=
  match pem_decode data with
  | None => Err (Errorf "invalid account key PEM")
  | Some (_, bytes, _) => parse_pkcs8 bytes
  end.
Definition loadOrCreateAccountKey (dataDir : string) : M fs (result signer) :=
  let* r := os_read_file account_path in
  match r with
  | Ok data => ret (parseAccountKey data)
  | Err e =>
    if negb (errors_is e ErrNotExist) then ret (Err e)
    else match generate with
    | Err e => ret (Err e)
    | Ok key =>
      match encode_key key with
      | Err e => ret (Err e)
      | Ok text =>
        let? _ := StoreAccountKey dataDir text in
        ret (Ok key)
      end
    end
  end.
End Account.

(** ** [AdminCertificate] *)

Section AdminCertificate.
(** [tls.Certificate]: [tls.LoadX509KeyPair] and the window of its leaf. *)
Variable pair : Type.
Variable load_pair : string → string → result pair.
Variable leaf_window : pair → result (Time * Time).
Definition Prepare (p : Published) (now : Time) : result pair :=
  if bool_decide (Pub_Revision p = "") || negb (bool_decide (base_name (dir_name (Pub_CertificatePath p)) = Pub_Revision p))
     || negb (bool_decide (dir_name (Pub_CertificatePath p) = dir_name (Pub_PrivateKeyPath p)))
  then Err (Errorf "AdminUI TLS paths do not belong to one revision")
  else match load_pair (Pub_CertificatePath p) (Pub_PrivateKeyPath p) with
  | Err e => Err (Wrapf "load AdminUI TLS revision" e)
  | Ok x =>
    match leaf_window x with
    | Err e => Err (Wrapf "parse AdminUI TLS certificate" e)
    | Ok (notBefore, notAfter) =>
      if (now <? notBefore) || negb (now <? notAfter)
      then Err (Errorf "AdminUI TLS certificate is outside its validity window") else Ok x
    end
  end.
(** The atomic pointer. *)
Definition Activate (x : pair) : M (option pair) unit := λ _, (tt, Some x).
Definition GetCertificate : M (option pair) (result pair) := λ a,
  (match a with Some x => Ok x | None => Err (Errorf "AdminUI TLS certificate is not ready") end, a).
End AdminCertificate.

(** ** The key file is written whole *)

Lemma max_name_fresh es n k : es !! n = Some k → (String.length n < String.length (fresh_suffix es))%nat.
Proof.
  intros E%max_name_length_le. unfold fresh_suffix. rewrite <- (chars_length (of_chars _)), chars_of_chars, length_replicate. lia.
Qed.
Lemma temp_name_fresh p s es : es !! temp_name p s es = None.
Proof.
  destruct (es !! _) as [n|] eqn:E; [|done]. apply max_name_fresh in E.
  unfold temp_name in E at 1. rewrite !string_length_app in E. lia.
Qed.
Lemma os_create_temp_inv d p s w r w' :
  os_create_temp d p s w = (r, w') →
  (is_ok r = false ∧ fs_tree w' = fs_tree w) ∨
  ∃ n, r = Ok n ∧ n = temp_name p s (entries_of (tree_get d (fs_tree w))) ∧ is_dir (tree_get d (fs_tree w)) = true
    ∧ fs_tree w' = tree_put (d ++ [n]) (Some (File "" 384)) (fs_tree w).
Proof.
  intros [?|E]%sys_inv; [by left|]. destruct (is_dir _); [right|left; by simplify_eq].
  injection E as <- <-. eauto.
Qed.

(** The key file of a tree. *)
Definition account_key (t : node) : option node := tree_get account_path t.
Lemma below_temp_key name t t' :
  name ≠ "account.key" → below (account_dir ++ [name]) t t' → account_key t' = account_key t.
Proof.
  intros Hn [H _]. apply H; intros Hp; apply prefix_cons_inv_2 in Hp; apply prefix_cons_inv_1 in Hp; congruence.
Qed.
Lemma write_account_below tmp key : tmp ≠ [] → writes_below tmp (write_account tmp key).
Proof.
  intros Ht. unfold write_account. pose proof (file_write_below tmp [] key) as Hw. rewrite app_nil_r in Hw.
  repeat first [solve [auto with fsdb] | case_match | apply writes_below_bind; [|intros ?]].
Qed.
Lemma write_account_done tmp key d m w w' :
  tmp ≠ [] → is_dir (tree_get (parent tmp) (fs_tree w)) = true → tree_get tmp (fs_tree w) = Some (File d m) →
  write_account tmp key w = (None, w') → fs_tree w' = tree_put tmp (Some (File (d +:+ key) 384)) (tree_put tmp (Some (File d 384)) (fs_tree w)).
Proof.
  intros Hne Hd Hf H. unfold write_account in H. run_bind H. run_bind H. run_bind H. run_bind H. run_ret H.
  destruct a1; [done|]. destruct a0; [by run_ret E1|]. destruct a; [by run_ret E0|].
  apply sys_err_None in E. rewrite Hf in E. injection E as E. apply file_sync_keeps in E1. apply file_close_keeps in E2.
  apply (file_write_inv _ _ d 384) in E0; [congruence|]. rewrite <- E. by apply tree_get_put_eq.
Qed.
Lemma parent_shorter (p : path) : p ≠ [] → (length (parent p) < length p)%nat.
Proof. intros Hp. unfold parent. rewrite removelast_firstn_len, length_take. destruct p; simpl; [done|lia]. Qed.
Lemma tree_put_parent p v n : p ≠ [] → is_dir (tree_get (parent p) n) = true → is_dir (tree_get (parent p) (tree_put p v n)) = true.
Proof.
  intros Hp Hd. pose proof (parent_shorter p Hp). apply tree_get_put_dir; [done| |].
  - intros E. rewrite <- E in *. lia.
  - intros Hx%prefix_length. lia.
Qed.

(** The directory of the keys is there or can be made. *)
Definition account_place (t : node) : Prop :=
  is_dir (Some t) = true ∧ (tree_get ["acme"] t = None ∨ is_dir (tree_get ["acme"] t) = true).
Lemma mkdir_acme w e w' :
  account_place (fs_tree w) → os_mkdir_all "acme" 448 w = (e, w') →
  account_key (fs_tree w') = account_key (fs_tree w) ∧ account_place (fs_tree w')
  ∧ (e = None → is_dir (tree_get ["acme"] (fs_tree w')) = true).
Proof.
  intros [Hr Ha] [[He Ht]|E]%sys_err_inv; [by rewrite Ht|]. destruct (fs_tree w) as [| |m es]; [done..|].
  unfold account_place, account_key, account_path in *. cbn in E, Ha |- *. destruct (es !! "acme") as [[| |m' es']|] eqn:Hes; cbn in Ha.
  - by destruct Ha.
  - by destruct Ha.
  - injection E as <- <-. cbn. rewrite Hes. cbn. auto.
  - injection E as <- <-. cbn. rewrite lookup_partial_alter_eq. cbn. auto.
Qed.

Lemma StoreAccountKey_outcome dataDir key w r w' :
  account_place (fs_tree w) → StoreAccountKey dataDir key w = (r, w') →
  (account_key (fs_tree w') = account_key (fs_tree w) ∨ account_key (fs_tree w') = Some (File key 384))
  ∧ (is_ok r = true → account_key (fs_tree w') = Some (File key 384)).
Proof.
  intros Hp H. unfold StoreAccountKey in H.
  destruct (negb (is_abs dataDir)); [run_ret H; by split; [left|]|].
  destruct (bool_decide (key = "")); [run_ret H; by split; [left|]|].
  run_bind H. destruct (mkdir_acme _ _ _ Hp E) as (Hk1 & Hp1 & Hd1).
  destruct a as [e|]; [run_ret H; rewrite Hk1; by split; [left|]|]. specialize (Hd1 eq_refl). clear E.
  run_bind H. apply os_create_temp_inv in E as [[Hr Ht]|(name & -> & Hname & _ & Ht)].
  { destruct a; [done|]. run_ret H. rewrite Ht, Hk1. by split; [left|]. }
  assert (Hne : name ≠ "account.key") by (rewrite Hname; done). clear Hname.
  set (tmp := account_dir ++ [name]) in *. run_bind H. run_bind H. run_ret H.
  assert (Hk2 : account_key (fs_tree w0) = account_key (fs_tree w)).
  { rewrite <- Hk1. apply (below_temp_key name); [done|]. rewrite Ht. apply below_put_eq. }
  assert (Hkr : account_key (fs_tree w') = account_key (fs_tree w2)).
  { apply (below_temp_key name); [done|]. by apply os_remove_below in E0. }
  rewrite Hkr. clear Hkr E0. unfold place_account in E.
  run_bind E. assert (Hb : account_key (fs_tree w3) = account_key (fs_tree w0)).
  { apply (below_temp_key name); [done|]. by apply write_account_below in E0. }
  destruct a as [e|]; [run_ret E; rewrite Hb, Hk2; by split; [left|]|].
  apply (write_account_done _ _ "" 384) in E0; [|done| |].
  2: { rewrite Ht. by apply tree_put_parent. }
  2: { rewrite Ht. by apply tree_get_put_eq. }
  run_bind E. apply os_rename_inv in E1 as [[He Ht3]|(-> & n & Hn & _ & _ & Ht3)].
  { destruct a; [|done]. run_ret E. rewrite Ht3, Hb, Hk2. by split; [left|]. }
  assert (Hd2 : is_dir (tree_get (parent tmp) (tree_put tmp (Some (File "" 384)) (fs_tree w0))) = true).
  { apply tree_put_parent; [done|]. rewrite Ht. by apply tree_put_parent. }
  assert (n = File key 384) as ->.
  { rewrite E0, tree_get_put_eq in Hn by done. by injection Hn as <-. }
  assert (Hk : account_key (fs_tree w4) = Some (File key 384)).
  { rewrite Ht3. apply tree_get_put_eq; [done|]. change (parent account_path) with (parent tmp).
    apply tree_put_parent; [done|]. rewrite E0. by apply tree_put_parent. }
  run_bind E. apply os_open_dir_keeps in E1.
  destruct a as [e|]; [run_ret E; rewrite E1, Hk; by split; [right|]|].
  run_bind E. apply file_sync_keeps in E2.
  destruct a as [e|]; run_ret E; rewrite E2, E1, Hk; by split; [right|].
Qed.
Lemma StoreAccountKey_done dataDir key w p w' :
  account_place (fs_tree w) → StoreAccountKey dataDir key w = (Ok p, w') → account_key (fs_tree w') = Some (File key 384).
Proof. intros Hp H. by apply (StoreAccountKey_outcome _ _ _ _ _ Hp H). Qed.

(** C35. The account's key is written whole or not at all: whatever calls fail, the
    file [acme/account.key] afterwards is the one that was there or holds exactly
    the new key with mode 0600; and when the path is returned it holds the new key. *)
Theorem StoreAccountKey_atomic dataDir key w r w' :
  account_place (fs_tree w) → StoreAccountKey dataDir key w = (r, w') →
  (account_key (fs_tree w') = account_key (fs_tree w) ∨ account_key (fs_tree w') = Some (File key 384))
  ∧ (is_ok r = true → account_key (fs_tree w') = Some (File key 384)).
Proof. apply StoreAccountKey_outcome. Qed.

Lemma read_key_inv w a w1 :
  os_read_file account_path w = (a, w1) → (∀ e q, fs_faults w = Some e :: q → errors_is e ErrNotExist = false) →
  fs_tree w1 = fs_tree w ∧ match a with
    | Ok d => ∃ m, account_key (fs_tree w) = Some (File d m)
    | Err e => errors_is e ErrNotExist = true → account_key (fs_tree w) = None
    end.
Proof.
  unfold os_read_file, sys, account_key. set (o := tree_get account_path (fs_tree w)). intros E Hf.
  destruct (fs_faults w) as [|[e|] q] eqn:Hq.
  2: { injection E as <- <-. split; [done|]. intros He. by rewrite (Hf _ _ eq_refl) in He. }
  all: destruct o as [[d m|l|m es]|]; injection E as <- <-; (split; [done|]); first [by exists m|done|intros He; by vm_compute in He].
Qed.

Section KeyKept.
Context {X : X509}.
Variable signer : Type.
Variable generate : result signer.
Variable encode_key : signer → result string.
Variable parse_pkcs8 : string → result signer.
(** The text of a key is a PEM block that parses to the key. *)
Hypothesis parse_encode : ∀ k text, encode_key k = Ok text → parseAccountKey signer parse_pkcs8 text = Ok k.

(** The account keeps its key: a key file that is there is read and never
    written, and a key that is returned is the one the file holds, so every later
    start uses the same ACME account.  A failure injected into the reading must not
    itself say that the file is missing. *)
Theorem account_key_kept dataDir w r w' :
  account_place (fs_tree w) → (∀ e q, fs_faults w = Some e :: q → errors_is e ErrNotExist = false) →
  loadOrCreateAccountKey signer generate encode_key parse_pkcs8 dataDir w = (r, w') →
  (∀ n, account_key (fs_tree w) = Some n → fs_tree w' = fs_tree w)
  ∧ (∀ k, r = Ok k → ∃ d m, account_key (fs_tree w') = Some (File d m) ∧ parseAccountKey signer parse_pkcs8 d = Ok k).
Proof using parse_encode.
  intros Hp Hf H. unfold loadOrCreateAccountKey in H. run_bind H.
  pose proof (read_key_inv _ _ _ E Hf) as Ht. clear E.
  destruct Ht as [Ht Ha]. destruct a as [d|e].
  - run_ret H. rewrite Ht. split; [done|]. destruct Ha as [m Hm]. intros k Hk. eauto.
  - destruct (errors_is e ErrNotExist); cbn [negb] in H; [|by run_ret H]. specialize (Ha eq_refl).
    split; [intros n Hn; congruence|]. intros k ->.
    destruct generate as [k0|]; [|run_absurd H]. destruct (encode_key k0) as [text|] eqn:Hk0; [|run_absurd H].
    run_bind H. destruct a; [|run_absurd H]. run_ret H.
    apply StoreAccountKey_done in E; [|by rewrite Ht]. eauto using parse_encode.
Qed.
End KeyKept.
