(* ===== verification/Acme.v ===== *)
(** The client of [internal/certificate/acme.go] over the lego library, which is a
    parameter, and the account it works with. *)
From S2P Require Import Prelude GoStrings GoPath Domain FileSys X509 CertState AccountKey.

(** [ACMEConfig]; of the provider, whether there is one. *)
Record LegoConfig := mkLegoConfig {
  lg_Mode : Mode; lg_Email : string; lg_DataDir : string; lg_RegistrationURI : string; lg_DirectoryOverride : string;
  lg_HasProvider : bool; lg_Timeout : Z
}.
(** [legoUser] without its registration, which changes: that is in the world, at
    [lu_Id]. *)
Record legoUser {signer : Type} := mkLegoUser { lu_Email : string; lu_Key : signer; lu_Id : nat }.
Arguments legoUser : clear implicits.

(** [github.com/go-acme/lego]: the calls, with the location of the account the user
    is registered as. *)
Class Lego (signer R : Type) := {
  lego_NewClient : legoUser signer → option string → string → Z → M R (option gerror);
  lego_SetHTTP01Provider : M R (option gerror);
  lego_QueryRegistration : legoUser signer → string → M R (result string);
  lego_ResolveAccountByKey : legoUser signer → M R (result string);
  lego_Register : legoUser signer → M R (result string);
  lego_Obtain : legoUser signer → option string → string → M R (result Bundle)
}.

Section Acme.
Context {X : X509} {DIR : ACMEDirectories} {UT : UnicodeTables} {signer R : Type} {LG : Lego signer R}.
Variable ParseAddress : string → option string.
Variable generate : result signer.
Variable encode_key : signer → result string.
Variable parse_pkcs8 : string → result signer.

(** The data directory, the registrations of the users made so far, the server. *)
Record acme_world := mkAcmeWorld { aw_data : fs; aw_registrations : gmap nat string; aw_next : nat; aw_server : R }.
Definition on_data {A} : M fs A → M acme_world A := zoom aw_data (λ x w, mkAcmeWorld x (aw_registrations w) (aw_next w) (aw_server w)).
Definition on_server {A} : M R A → M acme_world A := zoom aw_server (λ x w, mkAcmeWorld (aw_data w) (aw_registrations w) (aw_next w) x).
Definition registration (u : legoUser signer) : M acme_world (option string) := gets (λ w, aw_registrations w !! lu_Id u).
Definition set_registration (u : legoUser signer) (uri : string) : M acme_world unit :=
  modify (λ w, mkAcmeWorld (aw_data w) (<[lu_Id u := uri]> (aw_registrations w)) (aw_next w) (aw_server w)).
(** [&legoUser{email, key}] *)
Definition new_user (email : string) (key : signer) : M acme_world (legoUser signer) := λ w,
  (mkLegoUser signer email key (aw_next w),
   mkAcmeWorld (aw_data w) (delete (aw_next w) (aw_registrations w)) (S (aw_next w)) (aw_server w)).

Definition NewLegoClient (cfg : LegoConfig) : M acme_world (result (legoUser signer)) :=
  match ValidateIdentity ParseAddress (lg_Email cfg) "placeholder.example.org" with
  | Some e => ret (Err e)
  | None =>
    if negb (is_abs (lg_DataDir cfg)) then ret (Err (Errorf "data directory must be absolute"))
    else
      let? key := on_data (loadOrCreateAccountKey signer generate encode_key parse_pkcs8 (lg_DataDir cfg)) in
      let* user := new_user (lg_Email cfg) key in
      (if bool_decide (lg_RegistrationURI cfg = "") then ret tt else set_registration user (lg_RegistrationURI cfg)) ;;
      match DirectoryURL (lg_Mode cfg) with
      | Err e => ret (Err e)
      | Ok directory =>
        let directory := if bool_decide (lg_DirectoryOverride cfg = "") then directory else lg_DirectoryOverride cfg in
        let* reg := registration user in
        nil? on_server (lego_NewClient user reg directory (Z.max 0 (lg_Timeout cfg))) in
        if negb (lg_HasProvider cfg) then ret (Err (Errorf "HTTP-01 provider is required"))
        else nil? on_server lego_SetHTTP01Provider in ret (Ok user)
      end
  end.
(** From the search by key on. *)
Definition resolve_or_register (user : legoUser signer) : M acme_world (result string) :=
  let* r := on_server (lego_ResolveAccountByKey user) in
  match r with
  | Ok uri => set_registration user uri ;; ret (Ok uri)
  | Err _ =>
    let? uri := on_server (lego_Register user) in
    set_registration user uri ;; ret (Ok uri)
  end.
Definition LegoClient_EnsureAccount (user : legoUser signer) : M acme_world (result string) :=
  let* reg := registration user in
  match reg with
  | Some uri =>
    let* r := on_server (lego_QueryRegistration user uri) in
    match r with
    | Ok uri => set_registration user uri ;; ret (Ok uri)
    | Err _ => resolve_or_register user
    end
  | None => resolve_or_register user
  end.
Definition LegoClient_Obtain (user : legoUser signer) (hostname : string) : M acme_world (result Bundle) :=
  match ValidateIdentity ParseAddress (lu_Email user) hostname with
  | Some e => ret (Err e)
  | None =>
    let* reg := registration user in
    on_server (lego_Obtain user reg hostname)
  end.

(** ** The account of a key

    What RFC 8555 says of a server: an account belongs to a key; the two searches
    change nothing, and what they find is the account of the key; registering a key
    that has an account gives that account.  An answer may be lost. *)
Class LegoLaws := {
  account : R → signer → option string;
  QueryRegistration_law u uri s r s' : lego_QueryRegistration u uri s = (r, s') →
    account s' = account s ∧ ∀ x, r = Ok x → account s (lu_Key u) = Some x;
  ResolveAccountByKey_law u s r s' : lego_ResolveAccountByKey u s = (r, s') →
    account s' = account s ∧ ∀ x, r = Ok x → account s (lu_Key u) = Some x;
  Register_law u s r s' : lego_Register u s = (r, s') →
    (∀ k, k ≠ lu_Key u → account s' k = account s k)
    ∧ (∀ x, account s (lu_Key u) = Some x → account s' (lu_Key u) = Some x)
    ∧ ∀ x, r = Ok x → account s' (lu_Key u) = Some x
}.
Context {LL : LegoLaws}.

Lemma on_server_inv {A} (m : M R A) w r w' : on_server m w = (r, w') →
  m (aw_server w) = (r, aw_server w') ∧ aw_registrations w' = aw_registrations w ∧ aw_data w' = aw_data w.
Proof. unfold on_server, zoom. destruct (m (aw_server w)). by intros [= <- <-]. Qed.
(** What [EnsureAccount] does to the server's accounts and the client's record. *)
Definition account_kept (user : legoUser signer) (w : acme_world) (r : result string) (w' : acme_world) : Prop :=
  (∀ k, k ≠ lu_Key user → account (aw_server w') k = account (aw_server w) k)
  ∧ (∀ x, account (aw_server w) (lu_Key user) = Some x → account (aw_server w') (lu_Key user) = Some x)
  ∧ ∀ x, r = Ok x → account (aw_server w') (lu_Key user) = Some x ∧ aw_registrations w' !! lu_Id user = Some x.
Lemma resolve_or_register_kept user w r w' : resolve_or_register user w = (r, w') → account_kept user w r w'.
Proof.
  intros H. unfold resolve_or_register in H. run_bind H. apply on_server_inv in E as (E & _ & _).
  apply ResolveAccountByKey_law in E as [Hs Hf]. unfold account_kept. destruct a as [uri|e].
  - run_bind H. injection E as _ <-. run_ret H. cbn [aw_server aw_registrations]. rewrite Hs. split; [done|]. split; [done|].
    intros x [= <-]. split; [by apply Hf|apply lookup_insert_eq].
  - run_bind H. apply on_server_inv in E as (E & _ & _). apply Register_law in E as (H1 & H2 & H3). rewrite <- Hs. destruct a as [uri|e'].
    + run_bind H. injection E as _ <-. run_ret H. cbn [aw_server aw_registrations]. split; [done|]. split; [done|].
      intros x [= <-]. split; [by apply H3|apply lookup_insert_eq].
    + run_ret H. done.
Qed.
(** [EnsureAccount] returns the account of the client's key and records it; an
    account the key had is the one that is returned, and other keys keep theirs. *)
Theorem EnsureAccount_finds user w r w' : LegoClient_EnsureAccount user w = (r, w') →
  account_kept user w r w' ∧ ∀ x y, account (aw_server w) (lu_Key user) = Some x → r = Ok y → x = y.
Proof.
  intros H. assert (Hk : account_kept user w r w').
  { unfold LegoClient_EnsureAccount in H. run_bind H. injection E as <- <-. destruct (aw_registrations w !! lu_Id user) as [uri|];
      [|by apply resolve_or_register_kept]. run_bind H. apply on_server_inv in E as (E & _ & _).
    apply QueryRegistration_law in E as [Hs Hf]. destruct a as [uri'|e].
    - run_bind H. injection E as _ <-. run_ret H. unfold account_kept. cbn [aw_server aw_registrations]. rewrite Hs. split; [done|].
      split; [done|]. intros x [= <-]. split; [by apply Hf|apply lookup_insert_eq].
    - apply resolve_or_register_kept in H. unfold account_kept in *. by rewrite Hs in H. }
  split; [done|]. intros x y Hx Hy. destruct Hk as (_ & H2 & H3). destruct (H3 y Hy) as [Ha _]. specialize (H2 x Hx). congruence.
Qed.
End Acme.
