(* ===== verification/Scheduler.v ===== *)
(** [internal/certificate/scheduler.go] and [runAutomatic] of [automatic.go]: when
    a certificate is renewed, how long a failure waits, the worker's loop, and the
    start and stop of the worker. *)
From S2P Require Import Prelude GoStrings Domain Sanitize X509 CertState.

(** ** [float64]

    IEEE binary64 of [SpecFloat], rounded to nearest even.  The multiplications
    are not fused with the additions, as on amd64. *)
Abbreviation f64 := spec_float.
Definition fadd : f64 → f64 → f64 := SFadd 53 1024.
Definition fsub : f64 → f64 → f64 := SFsub 53 1024.
Definition fmul : f64 → f64 → f64 := SFmul 53 1024.
Definition flt (a b : f64) : bool := SFltb a b.
Definition of_int (z : Z) : f64 := binary_normalize 53 1024 z 0 false.
Definition one_tenth : f64 := SFdiv 53 1024 (of_int 1) (of_int 10).
(** [int64(f)]: towards zero; out of range is the value amd64 gives. *)
Definition to_int64 (f : f64) : Z :=
  match f with
  | S754_zero _ => 0
  | S754_finite s m e =>
    let v := if 0 <=? e then Z.pos m * 2 ^ e else Z.pos m / 2 ^ (- e) in
    let v := if s then - v else v in
    if (min_int64 <=? v) && (v <=? max_int64) then v else min_int64
  | _ => min_int64
  end.

(** ** The instant and the delays *)

Definition clamp_unit (x : f64) : f64 :=
  let x := if flt x (of_int 0) then of_int 0 else x in
  if flt (of_int 1) x then of_int 1 else x.
Definition RenewalAt (notAfter : Time) (lead : Duration) (jitterFraction random : f64) : Time :=
  let lead := if lead <? 0 then 0 else lead in
  let jitterFraction := clamp_unit jitterFraction in
  let random := clamp_unit random in
  let offset := fmul (fmul (fsub (fmul random (of_int 2)) (of_int 1)) jitterFraction) (of_int lead) in
  let when := notAfter - lead + to_int64 offset in
  if negb (when <? notAfter) then notAfter - second else when.

(** The loop of [Backoff]; [i] rounds are left. *)
Fixpoint backoff_loop (i : nat) (delay maximum : Duration) : Duration :=
  match i with
  | O => if maximum <? delay then maximum else delay
  | S i' =>
    if delay <? maximum then
      if Z.quot maximum 2 <? delay then maximum else backoff_loop i' (wrap64 (delay * 2)) maximum
    else if maximum <? delay then maximum else delay
  end.
Definition Backoff (attempt : Z) (base maximum : Duration) : Duration :=
  let attempt := if attempt <? 0 then 0 else attempt in
  let base := if base <=? 0 then second else base in
  let maximum := if maximum <? base then base else maximum in
  backoff_loop (Z.to_nat attempt) base maximum.

Definition jitterBackoff (delay maximum : Duration) (fraction random : f64) : Duration :=
  let fraction := clamp_unit fraction in
  let random := clamp_unit random in
  let factor := fadd (fsub (of_int 1) fraction) (fmul (fmul (of_int 2) fraction) random) in
  let result := to_int64 (fmul (of_int delay) factor) in
  if maximum <? result then maximum else result.

(** ** The worker *)

Record Scheduler := mkScheduler {
  s_automatic : bool;
  s_lead : Duration;
  s_baseBackoff : Duration;
  s_maxBackoff : Duration;
  s_jitter : f64
}.
Definition NewScheduler (lead : Duration) : Scheduler :=
  mkScheduler false (if lead <=? 0 then 30 * 24 * hour else lead) minute (6 * hour) one_tenth.
Definition NewAutomaticScheduler : Scheduler :=
  let s := NewScheduler 0 in mkScheduler true (s_lead s) (s_baseBackoff s) (s_maxBackoff s) (s_jitter s).

(** What the worker calls: the repository, [renew], the clock, the random source,
    the logger, [ctx.Err() != nil] and a timer, whose answer is false when the
    context ended first. *)
Class SchedulerWorld (W : Type) := {
  sw_Load : M W (Metadata * option gerror);
  sw_Save : Metadata → M W (option gerror);
  sw_renew : M W (Metadata * option gerror);
  sw_now : M W Time;
  sw_Float64 : M W f64;
  sw_logf : Duration → string → M W unit;
  sw_ended : M W bool;
  sw_timer : Duration → M W bool
}.

Section Worker.
Context {UT : UnicodeTables} {W : Type} {SW : SchedulerWorld W}.
Variable s : Scheduler.

Definition waitScheduler (d : Duration) : M W bool := sw_timer (if d <? 0 then 0 else d).

(** One round of [runAutomatic], from the call of [renew] to the end of the wait:
    the next attempt, or [None] for a return. *)
Definition automatic_round (attempt : Z) : M W (option Z) :=
  let* r := sw_renew in
  let* ended := sw_ended in
  if ended then ret None
  else
    let* next := (match r.2 with
      | Some e =>
        let* random := sw_Float64 in
        let delay := jitterBackoff (Backoff attempt (s_baseBackoff s) (s_maxBackoff s)) (s_maxBackoff s) (s_jitter s) random in
        let* _ := sw_logf delay (sanitizeCertificateError (Some e)) in
        ret (delay, attempt + 1)
      | None => ret (30 * second, 0)
      end) in
    let* go := waitScheduler next.1 in
    ret (if go then Some next.2 else None).
(** The loop; [true] for a return, [false] when the fuel, a number of rounds, ran
    out. *)
Fixpoint runAutomatic (rounds : nat) (attempt : Z) : M W bool :=
  match rounds with
  | O => ret false
  | S rounds' =>
    let* ended := sw_ended in
    if ended then ret true
    else
      let* next := automatic_round attempt in
      match next with Some a => runAutomatic rounds' a | None => ret true end
  end.

(** One round of the loop of [run]. *)
Definition scheduled_round (attempt : Z) : M W (option Z) :=
  let* l := sw_Load in
  match l with
  | (_, Some _) =>
    let* go := waitScheduler (Backoff attempt (s_baseBackoff s) (s_maxBackoff s)) in
    ret (if go then Some (attempt + 1) else None)
  | (meta, None) =>
    if bool_decide (M_Mode meta = ManualMode) || bool_decide (M_State meta = Unconfigured) then
      let* go := waitScheduler hour in ret (if go then Some 0 else None)
    else
      let* random := sw_Float64 in
      let* now := sw_now in
      let delay := RenewalAt (M_NotAfter meta) (s_lead s) (s_jitter s) random - now in
      let* go := (if 0 <? delay then waitScheduler delay else ret true) in
      if negb go then ret None
      else
        let* u := sw_renew in
        match u with
        | (_, None) => ret (Some 0)
        | (_, Some e) =>
          let attempt := attempt + 1 in
          let meta := meta_set_error (sanitizeCertificateError (Some e)) meta in
          let* now := sw_now in
          let* _ := (if M_NotAfter meta + Z.quot (- s_lead s) 4 <? now
                     then let* _ := sw_Save (meta_set_state Degraded meta) in ret tt else ret tt) in
          let* go := waitScheduler (Backoff (attempt - 1) (s_baseBackoff s) (s_maxBackoff s)) in
          ret (if go then Some attempt else None)
        end
  end.
Fixpoint run_scheduled (rounds : nat) (attempt : Z) : M W bool :=
  match rounds with
  | O => ret false
  | S rounds' =>
    let* next := scheduled_round attempt in
    match next with Some a => run_scheduled rounds' a | None => ret true end
  end.
Definition scheduler_run (rounds : nat) : M W bool :=
  if s_automatic s then runAutomatic rounds 0 else run_scheduled rounds 0.
End Worker.

(** ** The delays are what they should be *)

Lemma wrap64_id z : min_int64 <= z <= max_int64 → wrap64 z = z.
Proof. unfold wrap64, min_int64, max_int64. intros. rewrite Z.mod_small; lia. Qed.
Lemma backoff_loop_spec i delay maximum :
  0 < delay <= maximum → maximum <= max_int64 →
  backoff_loop i delay maximum = Z.min maximum (delay * 2 ^ Z.of_nat i).
Proof.
  revert delay. induction i as [|i IH]; intros delay Hd Hm; cbn [backoff_loop].
  - destruct (Z.ltb_spec maximum delay); lia.
  - rewrite Nat2Z.inj_succ, Z.pow_succ_r by lia.
    assert (1 <= 2 ^ Z.of_nat i) by (pose proof (Z.pow_pos_nonneg 2 (Z.of_nat i)); lia).
    destruct (Z.ltb_spec delay maximum); [|destruct (Z.ltb_spec maximum delay); nia].
    rewrite Z.quot_div_nonneg by lia. destruct (Z.ltb_spec (maximum / 2) delay).
    + assert (maximum <= 2 * delay) by zdiv. nia.
    + assert (delay * 2 <= maximum) by zdiv. rewrite wrap64_id by (unfold min_int64; lia). rewrite IH by lia. f_equal. ring.
Qed.
(** C37. The backoff of the n-th attempt is exactly [base * 2^n], cut at the
    maximum, whatever the attempt: the doubling of the 64-bit duration never
    overflows, because the loop compares with half the maximum first. *)
Theorem Backoff_spec attempt base maximum :
  base <= max_int64 → maximum <= max_int64 →
  Backoff attempt base maximum =
    let b := if base <=? 0 then second else base in
    Z.min (Z.max maximum b) (b * 2 ^ Z.max 0 attempt).
Proof.
  intros Hb Hm. unfold Backoff. cbv zeta. set (b := if base <=? 0 then second else base).
  assert (0 < b <= max_int64) as Hb' by (unfold b; destruct (Z.leb_spec base 0); unfold max_int64, second, millisecond in *; lia).
  replace (if maximum <? b then b else maximum) with (Z.max maximum b) by (destruct (Z.ltb_spec maximum b); lia).
  replace (if attempt <? 0 then 0 else attempt) with (Z.max 0 attempt) by (destruct (Z.ltb_spec attempt 0); lia).
  rewrite backoff_loop_spec by lia. by rewrite Z2Nat.id by lia.
Qed.

Lemma RenewalAt_before notAfter lead jitter random : RenewalAt notAfter lead jitter random < notAfter.
Proof.
  unfold RenewalAt. set (when := _ - _ + _). destruct (Z.ltb_spec when notAfter); cbn [negb]; [done|].
  unfold second, millisecond. lia.
Qed.
Lemma jitterBackoff_le delay maximum fraction random : jitterBackoff delay maximum fraction random <= maximum.
Proof. unfold jitterBackoff. match goal with |- (if ?b <? ?c then _ else _) <= _ => destruct (Z.ltb_spec b c) end; lia. Qed.

(** ** Start and stop

    A worker's context ends by [Stop] or with its parent; [done] is closed when the
    worker has returned.  A call of [Stop] captures the worker at its beginning
    and gives it up at its end; the mutex is free in between. *)
Module Lifecycle.

Record state := mkState {
  st_cancel : option nat;         (** [s.cancel] and [s.done]: the worker's number *)
  st_running : gset nat;          (** workers that have not returned *)
  st_ended : gset nat;            (** workers whose context has ended *)
  st_stops : gmap nat nat;        (** calls of [Stop] that wait, and their worker *)
  st_next : nat
}.
Definition initial : state := mkState None ∅ ∅ ∅ 0.

Definition Scheduler_Start (s : state) : option gerror * state :=
  match st_cancel s with
  | Some _ => (Some (Errorf "renewal scheduler already running"), s)
  | None => (None, mkState (Some (st_next s)) ({[st_next s]} ∪ st_running s) (st_ended s) (st_stops s) (S (st_next s)))
  end.
(** The two parts of [Stop]. *)
Definition stop_call (call : nat) (s : state) : state :=
  match st_cancel s with
  | None => s
  | Some n => mkState (st_cancel s) (st_running s) ({[n]} ∪ st_ended s) (<[call := n]> (st_stops s)) (st_next s)
  end.
Definition stop_done (call : nat) (s : state) : state :=
  mkState None (st_running s) (st_ended s) (delete call (st_stops s)) (st_next s).
Definition stop_timeout (call : nat) (s : state) : state :=
  mkState (st_cancel s) (st_running s) (st_ended s) (delete call (st_stops s)) (st_next s).

Inductive event : Type :=
| EStart
| EStop (call : nat)
| EDone (call : nat)       (** [<-done] in a call of [Stop] *)
| ETimeout (call : nat)    (** [<-ctx.Done()] in a call of [Stop] *)
| EParent (worker : nat)   (** the parent's context ends *)
| EReturn (worker : nat).
Definition lifecycle_step (s : state) (e : event) : option state :=
  match e with
  | EStart => Some (Scheduler_Start s).2
  | EStop c => if bool_decide (st_stops s !! c = None) then Some (stop_call c s) else None
  | EDone c =>
    match st_stops s !! c with
    | Some n => if bool_decide (n ∈ st_running s) then None else Some (stop_done c s)
    | None => None
    end
  | ETimeout c => if bool_decide (is_Some (st_stops s !! c)) then Some (stop_timeout c s) else None
  | EParent n => Some (mkState (st_cancel s) (st_running s) ({[n]} ∪ st_ended s) (st_stops s) (st_next s))
  | EReturn n => if bool_decide (n ∈ st_running s ∩ st_ended s)
                 then Some (mkState (st_cancel s) (st_running s ∖ {[n]}) (st_ended s) (st_stops s) (st_next s)) else None
  end.
Fixpoint run (s : state) (es : list event) : option state :=
  match es with
  | [] => Some s
  | e :: es' => match lifecycle_step s e with Some s' => run s' es' | None => None end
  end.
(** No two calls of [Stop] at once: [app.go] has one, in a deferred function. *)
Definition lone_stop (s : state) (e : event) : bool :=
  match e with EStop _ => bool_decide (st_stops s = ∅) | _ => true end.
Fixpoint lone_stops (s : state) (es : list event) : bool :=
  match es with
  | [] => true
  | e :: es' => lone_stop s e && match lifecycle_step s e with Some s' => lone_stops s' es' | None => true end
  end.

Record state_ok (s : state) : Prop := {
  so_running : ∀ n, n ∈ st_running s → st_cancel s = Some n;
  so_stops : ∀ c n, st_stops s !! c = Some n → st_cancel s = Some n ∧ st_stops s = {[c := n]};
  so_next : ∀ n, st_cancel s = Some n → (n < st_next s)%nat
}.
Lemma delete_lone c n (m : gmap nat nat) : m = {[c := n]} → delete c m = ∅.
Proof. intros ->. apply delete_singleton_eq. Qed.
Lemma lifecycle_step_ok s e s' : state_ok s → lone_stop s e = true → lifecycle_step s e = Some s' → state_ok s'.
Proof.
  intros [Hr Hs Hn] Hl. destruct e as [|c|c|c|n|n]; cbn [lifecycle_step lone_stop] in *.
  - unfold Scheduler_Start. destruct (st_cancel s) as [n|] eqn:Hc; intros [= <-]; [by split; rewrite ?Hc|].
    assert (st_running s = ∅) as Hr0. { apply set_eq. intros n. split; [|set_solver]. intros H%Hr. done. }
    split; cbn.
    + intros n. rewrite Hr0. set_solver.
    + intros c n Hcn. by apply Hs in Hcn as [? _].
    + intros n [= <-]. lia.
  - apply bool_decide_eq_true in Hl. case_bool_decide as Hc; [|done]. intros [= <-]. unfold stop_call.
    destruct (st_cancel s) as [n|] eqn:Hcn; [|by split; rewrite ?Hcn]. rewrite Hl. split; cbn.
    + done.
    + intros c' n'. rewrite insert_empty, lookup_singleton_Some. intros [<- <-]. done.
    + done.
  - destruct (st_stops s !! c) as [n|] eqn:Hc; [|done]. case_bool_decide as Hrun; [done|]. intros [= <-].
    apply Hs in Hc as [Hcn Hone]. split; cbn.
    + intros n' Hn'. apply Hr in Hn' as Hn''. congruence.
    + intros c' n'. rewrite (delete_lone _ _ _ Hone). done.
    + done.
  - case_bool_decide as Hc; [|done]. destruct Hc as [n Hc]. intros [= <-]. apply Hs in Hc as [Hcn Hone].
    split; cbn; [done| |done]. intros c' n'. by rewrite (delete_lone _ _ _ Hone).
  - intros [= <-]. by split.
  - case_bool_decide; [|done]. intros [= <-]. split; cbn; [set_solver|done..].
Qed.
Lemma lifecycle_run_ok s es s' : state_ok s → lone_stops s es = true → run s es = Some s' → state_ok s'.
Proof.
  revert s. induction es as [|e es IH]; intros s Hok Hl H; [by injection H as <-|].
  cbn [lone_stops run] in *. destruct (lifecycle_step s e) as [s1|] eqn:E; [|done]. apply andb_true_iff in Hl as [Hl1 Hl2].
  eapply IH; [by eapply lifecycle_step_ok|done..].
Qed.
Lemma initial_ok : state_ok initial.
Proof. by split. Qed.

(** C38. Whatever starts, stops, time-outs and ends of contexts happen, as long as
    no two calls of [Stop] overlap, at most one renewal worker runs, and it is the
    one the next [Stop] will end. *)
Theorem one_worker es s a b :
  run initial es = Some s → lone_stops initial es = true → a ∈ st_running s → b ∈ st_running s →
  a = b ∧ st_cancel s = Some a.
Proof.
  intros H Hl Ha Hb. destruct (lifecycle_run_ok _ _ _ initial_ok Hl H) as [Hr _ _].
  apply Hr in Ha, Hb. split; [congruence|done].
Qed.

(** When two calls of [Stop] overlap, the slower one forgets a worker that was
    started after the faster one returned: two workers run then, and no [Stop] ends
    the first. *)
Theorem stale_stop_forgets_worker :
  ∃ s, run initial [EStart; EStop 1; EStop 2; EReturn 0; EDone 1; EStart; EDone 2; EStart] = Some s
    ∧ st_running s = {[ 1%nat; 2%nat ]} ∧ st_ended s = {[ 0%nat ]} ∧ st_cancel s = Some 2%nat.
Proof. eexists. split; [reflexivity|]. repeat split; vm_compute; reflexivity. Qed.
End Lifecycle.
