(* ===== verification/Json.v ===== *)
(** [encoding/json] as the program uses it: the text of a value, a reader of any
    JSON text, and that the reader undoes the writer. *)
From S2P Require Import Prelude GoStrings Quote Config.

(** A number is its text; the members of an object are in the order of the text. *)
#[warnings="-register-all"]
Inductive json : Type :=
| JNull
| JBool (b : bool)
| JNumber (text : list ascii)
| JString (s : string)
| JArray (l : list json)
| JObject (l : list (string * json)).

(** ** Writing *)

(** [appendString] with HTML escaping. *)
Definition json_escape (rb : Z * list ascii) : list ascii :=
  let '(r, bs) := rb in
  let bsl := chr 92 in
  if (r =? rune_error) && (length bs =? 1)%nat then bsl :: chr 117 :: hex_digits 4 rune_error
  else if (r =? 34) || (r =? 92) then [bsl; chr r]
  else if r =? 8 then [bsl; chr 98]
  else if r =? 12 then [bsl; chr 102]
  else if r =? 10 then [bsl; chr 110]
  else if r =? 13 then [bsl; chr 114]
  else if r =? 9 then [bsl; chr 116]
  else if (r <? 32) || (r =? 60) || (r =? 62) || (r =? 38) || (r =? 8232) || (r =? 8233)
  then bsl :: chr 117 :: hex_digits 4 r
  else bs.
Definition json_string (s : string) : list ascii := chr 34 :: concat (json_escape <$> runes s) ++ [chr 34].

(** The separators: [MarshalIndent] starts a new line, indented by two blanks per
    level, before each element and before the closing bracket. *)
Definition line_break (indented : bool) (depth : nat) : list ascii :=
  if indented then chr 10 :: replicate (2 * depth) (chr 32) else [].
Fixpoint separated (sep : list ascii) (l : list (list ascii)) : list ascii :=
  match l with
  | [] => []
  | [x] => x
  | x :: l' => x ++ sep ++ separated sep l'
  end.
Definition bracketed (indented : bool) (depth : nat) (left right : Z) (l : list (list ascii)) : list ascii :=
  match l with
  | [] => [chr left; chr right]
  | _ => chr left :: line_break indented (S depth) ++ separated (chr 44 :: line_break indented (S depth)) l
           ++ line_break indented depth ++ [chr right]
  end.
Fixpoint json_text (indented : bool) (depth : nat) (v : json) : list ascii :=
  match v with
  | JNull => chars "null"
  | JBool b => chars (if b then "true" else "false")
  | JNumber t => t
  | JString s => json_string s
  | JArray l => bracketed indented depth 91 93 (json_text indented (S depth) <$> l)
  | JObject l =>
    bracketed indented depth 123 125
      ((λ kv : string * json, json_string kv.1 ++ chr 58 :: (if indented then [chr 32] else [])
                                ++ json_text indented (S depth) kv.2) <$> l)
  end.
(** [json.Marshal] and [json.MarshalIndent] with no prefix and two blanks. *)
Definition json_compact (v : json) : string := of_chars (json_text false 0 v).
Definition json_indented (v : json) : string := of_chars (json_text true 0 v).

(** ** Reading *)

Definition json_space (c : ascii) : bool := (code c =? 32) || (code c =? 9) || (code c =? 10) || (code c =? 13).
Definition skip_space (l : list ascii) : list ascii := drop_while json_space l.

(** [\u] and four digits, a surrogate pair joined, a lone surrogate U+FFFD. *)
Definition json_hex_value (c : ascii) : option Z :=
  let z := code c in
  if (65 <=? z) && (z <=? 70) then Some (z - 55) else hex_digit_value c.
Fixpoint json_hex (l : list ascii) (acc : Z) : option Z :=
  match l with
  | [] => Some acc
  | c :: l' => match json_hex_value c with Some d => json_hex l' (acc * 16 + d) | None => None end
  end.
Definition read_hex4 (l : list ascii) : option (Z * list ascii) :=
  match l with
  | a :: b :: c :: d :: l' => option_map (λ z, (z, l')) (json_hex [a; b; c; d] 0)
  | _ => None
  end.
Definition is_surrogate (r : Z) : bool := (55296 <=? r) && (r <? 57344).
Definition low_half (r : Z) (l : list ascii) : option (Z * list ascii) :=
  match l with
  | a :: b :: l' =>
    if (code a =? 92) && (code b =? 117) then
      match read_hex4 l' with
      | Some (r2, l2) =>
        if (r <? 56320) && (56320 <=? r2) && (r2 <? 57344)
        then Some ((r - 55296) * 1024 + (r2 - 56320) + 65536, l2) else None
      | None => None
      end
    else None
  | _ => None
  end.
Definition json_simple_escape (z : Z) : option Z :=
  if (z =? 34) || (z =? 92) || (z =? 47) then Some z
  else if z =? 98 then Some 8 else if z =? 102 then Some 12 else if z =? 110 then Some 10
  else if z =? 114 then Some 13 else if z =? 116 then Some 9 else None.

(** After the opening quote. *)
Fixpoint read_string (fuel : nat) (l : list ascii) : option (list ascii * list ascii) :=
  match fuel with
  | O => None
  | S f =>
    match l with
    | [] => None
    | c :: l1 =>
      let z := code c in
      if z =? 34 then Some ([], l1)
      else if z <? 32 then None
      else if z =? 92 then
        match l1 with
        | [] => None
        | e :: l2 =>
          if code e =? 117 then
            match read_hex4 l2 with
            | Some (r, l3) =>
              if is_surrogate r then
                match low_half r l3 with
                | Some (r', l4) => push (encode_rune r') (read_string f l4)
                | None => push (encode_rune rune_error) (read_string f l3)
                end
              else push (encode_rune r) (read_string f l3)
            | None => None
            end
          else match json_simple_escape (code e) with
               | Some r => push [chr r] (read_string f l2)
               | None => None
               end
        end
      else if z <? 128 then push [c] (read_string f l1)
      else
        let '(r, w) := decode_rune l in push (encode_rune r) (read_string f (drop w l))
    end
  end.

(** The grammar of numbers: the longest number in front. *)
Definition take_digits (l : list ascii) : list ascii * list ascii :=
  (take (length l - length (drop_while is_digit_ascii l)) l, drop_while is_digit_ascii l).
Definition read_integer (l : list ascii) : option (list ascii * list ascii) :=
  match l with
  | c :: l' => if code c =? 48 then Some ([c], l')
               else match take_digits l with ([], _) => None | p => Some p end
  | [] => None
  end.
Definition read_fraction (l : list ascii) : option (list ascii * list ascii) :=
  match l with
  | c :: l' => if code c =? 46 then match take_digits l' with ([], _) => None | (ds, r) => Some (c :: ds, r) end
               else Some ([], l)
  | [] => Some ([], [])
  end.
Definition read_exponent (l : list ascii) : option (list ascii * list ascii) :=
  match l with
  | c :: l' =>
    if (code c =? 101) || (code c =? 69) then
      let '(sign, l2) := match l' with
                         | s :: l2 => if (code s =? 43) || (code s =? 45) then ([s], l2) else ([], l')
                         | [] => ([], [])
                         end in
      match take_digits l2 with ([], _) => None | (ds, r) => Some (c :: sign ++ ds, r) end
    else Some ([], l)
  | [] => Some ([], [])
  end.
Definition read_number (l : list ascii) : option (list ascii * list ascii) :=
  let '(sign, l1) := match l with c :: l' => if code c =? 45 then ([c], l') else ([], l) | [] => ([], []) end in
  match read_integer l1 with
  | None => None
  | Some (i, l2) =>
    match read_fraction l2 with
    | None => None
    | Some (fr, l3) =>
      match read_exponent l3 with
      | None => None
      | Some (ex, l4) => Some (sign ++ i ++ fr ++ ex, l4)
      end
    end
  end.

Fixpoint literal (p l : list ascii) : option (list ascii) :=
  match p, l with
  | [], _ => Some l
  | a :: p', b :: l' => if bool_decide (a = b) then literal p' l' else None
  | _ :: _, [] => None
  end.

(** A value; the elements of an array and the members of an object after their
    bracket.  The limit of 10,000 on nesting is left out. *)
Fixpoint read_value (fuel : nat) (l : list ascii) : option (json * list ascii) :=
  match fuel with
  | O => None
  | S f =>
    match skip_space l with
    | [] => None
    | c :: l1 =>
      if code c =? 34 then option_map (λ p, (JString (of_chars p.1), p.2)) (read_string (S (length l1)) l1)
      else if code c =? 91 then
        match skip_space l1 with
        | d :: l2 => if code d =? 93 then Some (JArray [], l2)
                     else option_map (λ p, (JArray p.1, p.2)) (read_elements f l1)
        | [] => None
        end
      else if code c =? 123 then
        match skip_space l1 with
        | d :: l2 => if code d =? 125 then Some (JObject [], l2)
                     else option_map (λ p, (JObject p.1, p.2)) (read_members f l1)
        | [] => None
        end
      else if code c =? 110 then option_map (λ r, (JNull, r)) (literal (chars "ull") l1)
      else if code c =? 116 then option_map (λ r, (JBool true, r)) (literal (chars "rue") l1)
      else if code c =? 102 then option_map (λ r, (JBool false, r)) (literal (chars "alse") l1)
      else option_map (λ p, (JNumber p.1, p.2)) (read_number (c :: l1))
    end
  end
with read_elements (fuel : nat) (l : list ascii) : option (list json * list ascii) :=
  match fuel with
  | O => None
  | S f =>
    match read_value f l with
    | None => None
    | Some (v, l1) =>
      match skip_space l1 with
      | c :: l2 =>
        if code c =? 93 then Some ([v], l2)
        else if code c =? 44 then option_map (λ p, (v :: p.1, p.2)) (read_elements f l2)
        else None
      | [] => None
      end
    end
  end
with read_members (fuel : nat) (l : list ascii) : option (list (string * json) * list ascii) :=
  match fuel with
  | O => None
  | S f =>
    match skip_space l with
    | q :: l0 =>
      if negb (code q =? 34) then None
      else match read_string (S (length l0)) l0 with
      | None => None
      | Some (k, l1) =>
        match skip_space l1 with
        | c :: l2 =>
          if negb (code c =? 58) then None
          else match read_value f l2 with
          | None => None
          | Some (v, l3) =>
            match skip_space l3 with
            | d :: l4 =>
              if code d =? 125 then Some ([(of_chars k, v)], l4)
              else if code d =? 44 then option_map (λ p, ((of_chars k, v) :: p.1, p.2)) (read_members f l4)
              else None
            | [] => None
            end
          end
        | [] => None
        end
      end
    | [] => None
    end
  end.
(** Every byte allows two calls. *)
Definition json_parse (s : string) : option json :=
  let l := chars s in
  match read_value (S (2 * length l)) l with
  | Some (v, r) => match skip_space r with [] => Some v | _ => None end
  | None => None
  end.

(** A key names a field when their folded texts agree. *)
Definition fold_byte (c : ascii) : ascii := if is_upper_ascii c then chr (code c + 32) else c.
Definition fold_name (s : string) : list ascii := fold_byte <$> fold_case_runes (chars s).
Definition field_is (key field : string) : bool := bool_decide (fold_name key = fold_name field).

(** ** Reading undoes writing *)

(** No byte of the string is invalid UTF-8. *)
Definition valid_utf8 (s : string) : bool :=
  forallb (λ rb : Z * list ascii, negb ((rb.1 =? rune_error) && (length rb.2 =? 1)%nat)) (runes s).
(** A natural number. *)
Definition natural_text (t : list ascii) : bool :=
  match t with
  | c :: t' => forallb is_digit_ascii t && (negb (code c =? 48) || bool_decide (t' = []))
  | [] => false
  end.
Fixpoint json_ok (v : json) : bool :=
  match v with
  | JNull | JBool _ => true
  | JNumber t => natural_text t
  | JString s => valid_utf8 s
  | JArray l => forallb json_ok l
  | JObject l => forallb (λ kv : string * json, valid_utf8 kv.1 && json_ok kv.2) l
  end.

Section JsonInd.
Variable P : json → Prop.
Hypothesis Hnull : P JNull.
Hypothesis Hbool : ∀ b, P (JBool b).
Hypothesis Hnumber : ∀ t, P (JNumber t).
Hypothesis Hstring : ∀ s, P (JString s).
Hypothesis Harray : ∀ l, Forall P l → P (JArray l).
Hypothesis Hobject : ∀ l, Forall (λ kv : string * json, P kv.2) l → P (JObject l).
Fixpoint json_ind_nested (v : json) : P v :=
  match v with
  | JNull => Hnull
  | JBool b => Hbool b
  | JNumber t => Hnumber t
  | JString s => Hstring s
  | JArray l => Harray l ((fix go l := match l return Forall P l with
      | [] => Forall_nil_2 _ | v :: l' => Forall_cons_2 _ _ _ (json_ind_nested v) (go l') end) l)
  | JObject l => Hobject l ((fix go l := match l return Forall (λ kv : string * json, P kv.2) l with
      | [] => Forall_nil_2 _ | kv :: l' => Forall_cons_2 _ _ _ (json_ind_nested kv.2) (go l') end) l)
  end.
End JsonInd.

(** A rune read from a string decodes the same wherever it stands. *)
Lemma decode_rune_take l r w rest :
  decode_rune l = (r, w) → l ≠ [] → ¬ (r = rune_error ∧ w = 1%nat) →
  decode_rune (take w l ++ rest) = (r, w) ∧ length (take w l) = w.
Proof.
  intros E Hl Hv. destruct l as [|c l]; [done|]. unfold decode_rune in E.
  repeat case_match; simplify_eq/=; try (exfalso; by apply Hv); (split; [|done]); unfold decode_rune;
    repeat match goal with H : ?x = true |- _ => rewrite H; clear H | H : ?x = false |- _ => rewrite H; clear H end; done.
Qed.
Definition stable_rune (rb : Z * list ascii) : Prop :=
  rune_shape rb ∧ ¬ (rb.1 = rune_error ∧ length rb.2 = 1%nat)
  ∧ ∀ rest, decode_rune (rb.2 ++ rest) = (rb.1, length rb.2).
Lemma runes_stable s : valid_utf8 s = true → Forall stable_rune (runes s).
Proof.
  unfold valid_utf8. pose proof (runes_shape s) as Hs. revert Hs. unfold runes.
  generalize (String.length s), (chars s). intros n.
  induction n as [|n IH]; intros l; [constructor|].
  destruct l as [|c l]; [constructor|]. cbn [runes_fuel].
  destruct (decode_rune (c :: l)) as [r w] eqn:E.
  intros [Hs Hss]%Forall_cons [Hv Hvs]%andb_true_iff. constructor; [|by apply IH].
  cbn [fst snd] in *.
  assert (¬ (r = rune_error ∧ length (take w (c :: l)) = 1%nat)) as Hne.
  { intros [-> Hw]. rewrite Hw in Hv. done. }
  split; [done|]. split; [done|]. intros rest. cbn [fst snd].
  assert (¬ (r = rune_error ∧ w = 1%nat)) as Hne'. { intros [-> ->]. by apply Hne. }
  destruct (decode_rune_take _ _ _ rest E) as [H1 H2]; [done..|]. by rewrite H2.
Qed.

Lemma json_hex_digits n z acc :
  0 <= z < 16 ^ Z.of_nat n → json_hex (hex_digits n z) acc = Some (acc * 16 ^ Z.of_nat n + z).
Proof.
  intros Hz. rewrite <- hex_number_digits by done. clear Hz. revert acc.
  assert (Forall (λ c, code c < 65 ∨ 70 < code c) (hex_digits n z)) as Hd.
  { revert z. induction n as [|n IH]; intros z; [constructor|]. cbn [hex_digits]. apply Forall_app. split; [apply IH|].
    constructor; [|constructor]. pose proof (Z.mod_pos_bound z 16 ltac:(lia)).
    unfold hex_digit. destruct (Z.ltb_spec (z mod 16) 10); rewrite code_chr by lia; lia. }
  induction Hd as [|c l Hc Hl IH]; intros acc; [done|]. simpl. unfold json_hex_value.
  destruct (Z.leb_spec 65 (code c)), (Z.leb_spec (code c) 70); cbn [andb]; try lia; case_match; auto.
Qed.
Lemma read_hex4_digits z l : 0 <= z < 65536 → read_hex4 (hex_digits 4 z ++ l) = Some (z, l).
Proof.
  intros Hz. pose proof (json_hex_digits 4 z 0 ltac:(lia)) as H. cbn [hex_digits app] in *.
  unfold read_hex4. rewrite H. cbn [option_map]. f_equal.
Qed.

Lemma read_string_escape f rb l :
  stable_rune rb → read_string (S f) (json_escape rb ++ l) = push rb.2 (read_string f l).
Proof.
  intros (Hs & Hv & Hd). destruct Hs as [c Hc|c Hc|z bs Hz Hl He Hbs].
  - clear Hv Hd. destruct c as [[] [] [] [] [] [] [] []]; first [reflexivity|by vm_compute in Hc].
  - by destruct Hv.
  - clear Hv. cbn [fst snd] in *. unfold json_escape.
    replace (length bs =? 1)%nat with false by (symmetry; apply Nat.eqb_neq; lia). rewrite andb_false_r.
    repeat match goal with |- context [z =? ?n] =>
      lazymatch n with 8232 => fail | 8233 => fail | _ => destruct (Z.eqb_spec z n); [lia|] end end.
    destruct (Z.ltb_spec z 32); [lia|]. cbn [orb].
    destruct ((z =? 8232) || (z =? 8233)) eqn:Hsep.
    + assert (z = 8232 ∨ z = 8233) as Hz' by lia.
      change ((chr 92 :: chr 117 :: hex_digits 4 z) ++ l) with (chr 92 :: chr 117 :: hex_digits 4 z ++ l).
      cbn [read_string]. rewrite !code_chr by lia. simpl (_ =? _). simpl (_ <? _). cbv iota.
      rewrite read_hex4_digits by lia. replace (is_surrogate z) with false by (destruct Hz' as [->| ->]; done).
      by rewrite He.
    + specialize (Hd l). destruct bs as [|b bs]; [simpl in Hl; lia|]. apply Forall_cons in Hbs as [Hb _].
      cbn [app]. cbn [read_string]. change (b :: bs ++ l) with ((b :: bs) ++ l). rewrite Hd.
      destruct (Z.eqb_spec (code b) 34), (Z.ltb_spec (code b) 32), (Z.eqb_spec (code b) 92), (Z.ltb_spec (code b) 128); try lia.
      rewrite He, drop_app_length. done.
Qed.
Lemma json_escape_length rb : stable_rune rb → (1 <= length (json_escape rb))%nat.
Proof.
  intros (Hs & _). unfold json_escape. destruct rb as [r bs].
  repeat case_match; cbn [length]; try lia. inversion Hs; subst; simpl; lia.
Qed.
Lemma read_string_escapes rs l f :
  Forall stable_rune rs → (length rs < f)%nat →
  read_string f (concat (json_escape <$> rs) ++ chr 34 :: l) = Some (concat (snd <$> rs), l).
Proof.
  intros H. revert f. induction H as [|rb rs Hs Hrs IH]; intros f Hf; (destruct f as [|f]; [simpl in Hf; lia|]).
  - done.
  - rewrite !fmap_cons. cbn [concat]. rewrite <- (assoc_L (++)), read_string_escape by done.
    rewrite IH by (simpl in Hf; lia). done.
Qed.
Lemma escapes_length rs : Forall stable_rune rs → (length rs <= length (concat (json_escape <$> rs)))%nat.
Proof.
  induction 1 as [|rb rs Hs Hrs IH]; [done|]. rewrite fmap_cons. cbn [concat length]. rewrite length_app.
  apply json_escape_length in Hs. lia.
Qed.
(** A quoted string, read with the fuel [read_value] and [read_members] give it. *)
Lemma read_string_json s l :
  valid_utf8 s = true →
  ∃ l1, json_string s ++ l = chr 34 :: l1 ∧ read_string (S (length l1)) l1 = Some (chars s, l).
Proof.
  intros Hv%runes_stable. unfold json_string. cbn [app]. eexists. split; [done|].
  rewrite <- (assoc_L (++)). cbn [app]. rewrite read_string_escapes; [by rewrite runes_concat|done|].
  apply escapes_length in Hv. rewrite length_app. simpl. lia.
Qed.

(** Numbers end where no byte continues them. *)
Definition number_end (l : list ascii) : bool :=
  match l with
  | c :: _ => negb (is_digit_ascii c || (code c =? 46) || (code c =? 101) || (code c =? 69))
  | [] => true
  end.
Lemma take_digits_app t r :
  forallb is_digit_ascii t = true → number_end r = true → take_digits (t ++ r) = (t, r).
Proof.
  intros Ht Hr. assert (drop_while is_digit_ascii (t ++ r) = r) as Hd.
  { induction t as [|c t IH]; simpl in *.
    - destruct r as [|d r]; [done|]. simpl in *. by destruct (is_digit_ascii d).
    - apply andb_true_iff in Ht as [-> Ht]. by apply IH. }
  unfold take_digits. rewrite Hd, length_app, Nat.add_sub. by rewrite take_app_length.
Qed.
Lemma read_number_natural t r :
  natural_text t = true → number_end r = true → read_number (t ++ r) = Some (t, r).
Proof.
  destruct t as [|c t]; [done|]. cbn [natural_text]. intros [Hd Hz]%andb_true_iff Hr.
  pose proof Hd as [Hc Ht]%andb_true_iff. unfold is_digit_ascii in Hc.
  unfold read_number. cbn [app]. destruct (Z.eqb_spec (code c) 45); [lia|].
  assert (read_integer (c :: t ++ r) = Some (c :: t, r)) as ->.
  { unfold read_integer. destruct (code c =? 48).
    - simpl in Hz. apply bool_decide_eq_true in Hz as ->. done.
    - change (c :: t ++ r) with ((c :: t) ++ r). by rewrite take_digits_app. }
  assert (read_fraction r = Some ([], r)) as ->.
  { destruct r as [|d r]; [done|]. unfold number_end in Hr. unfold read_fraction.
    destruct (Z.eqb_spec (code d) 46); [|done]. destruct (is_digit_ascii d); simpl in Hr; lia. }
  assert (read_exponent r = Some ([], r)) as ->.
  { destruct r as [|d r]; [done|]. unfold number_end in Hr. unfold read_exponent.
    destruct (code d =? 101), (code d =? 69); cbn [orb] in *; try done;
      rewrite ?orb_true_r, ?orb_false_r in Hr; done. }
  rewrite !app_nil_r. done.
Qed.

Lemma skip_space_app ws l : forallb json_space ws = true → skip_space (ws ++ l) = skip_space l.
Proof. induction ws as [|c ws IH]; [done|]. intros [Hc Hws]%andb_true_iff. cbn. rewrite Hc. by apply IH. Qed.
Lemma line_break_space ind d : forallb json_space (line_break ind d) = true.
Proof. destruct ind; [|done]. unfold line_break. induction (2 * d)%nat; [done|]. simpl. done. Qed.

(** A text starts with a byte that is neither a space nor a closing bracket. *)
Definition starts (c : ascii) : Prop := json_space c = false ∧ code c ≠ 93 ∧ code c ≠ 125.
Lemma json_text_starts v ind d : json_ok v = true → ∃ c t, json_text ind d v = c :: t ∧ starts c.
Proof.
  destruct v as [|[]|[|c t]|s|l|l]; intros Hok; try done;
    try (eexists _, _; split; [reflexivity|by vm_compute]).
  - exists c, t. split; [done|]. simpl in Hok. apply andb_true_iff in Hok as [[Hc _]%andb_true_iff _].
    unfold is_digit_ascii in Hc. unfold starts, json_space. lia.
  - unfold json_text, bracketed. destruct (_ <$> l); (eexists _, _; split; [reflexivity|by vm_compute]).
  - unfold json_text, bracketed. destruct (_ <$> l); (eexists _, _; split; [reflexivity|by vm_compute]).
Qed.
Lemma skip_space_starts c l : starts c → skip_space (c :: l) = c :: l.
Proof. intros [H _]. unfold skip_space. simpl. by rewrite H. Qed.

(** The calls a value takes. *)
Fixpoint json_size (v : json) : nat :=
  match v with
  | JArray l => S (foldr (λ v n, S (json_size v + n)) O l)
  | JObject l => S (foldr (λ (kv : string * json) n, S (json_size kv.2 + n)) O l)
  | _ => 1
  end.
Definition reads_back (v : json) : Prop :=
  ∀ ind d f ws r, json_ok v = true → forallb json_space ws = true → number_end r = true → (json_size v <= f)%nat →
    read_value f (ws ++ json_text ind d v ++ r) = Some (v, r).
Lemma number_end_comma l : number_end (chr 44 :: l) = true. Proof. done. Qed.
Lemma number_end_break ind d c l : number_end (c :: l) = true → number_end (line_break ind d ++ c :: l) = true.
Proof. by destruct ind. Qed.

Lemma separated_two sep x y l t : separated sep (x :: y :: l) ++ t = x ++ sep ++ separated sep (y :: l) ++ t.
Proof. cbn [separated]. by rewrite <- !(assoc_L (++)). Qed.

(** The elements after the bracket, and the members. *)
Lemma read_elements_text ind d l r f ws :
  Forall reads_back l → l ≠ [] → forallb json_ok l = true → forallb json_space ws = true →
  (foldr (λ v n, S (json_size v + n)) O l <= f)%nat →
  read_elements f (ws ++ separated (chr 44 :: line_break ind (S d)) (json_text ind (S d) <$> l)
    ++ line_break ind d ++ chr 93 :: r) = Some (l, r).
Proof.
  intros H. revert f ws. induction H as [|v l Hv Hl IH]; intros f ws Hne Hok Hws Hf; [done|].
  destruct f as [|f]; [simpl in Hf; lia|]. cbn [foldr] in Hf. cbn [forallb] in Hok. apply andb_true_iff in Hok as [Hokv Hokl].
  rewrite fmap_cons. destruct l as [|v' l].
  - cbn [fmap list_fmap separated read_elements]. rewrite Hv; [|done..|by apply number_end_break|lia].
    rewrite skip_space_app by apply line_break_space. done.
  - rewrite fmap_cons in *. rewrite separated_two. cbn [read_elements app]. rewrite Hv; [|done..|lia].
    change (skip_space (chr 44 :: ?x)) with (chr 44 :: x). cbv iota.
    rewrite IH; [done..|apply line_break_space|lia].
Qed.
Definition member_text (ind : bool) (d : nat) (kv : string * json) : list ascii :=
  json_string kv.1 ++ chr 58 :: (if ind then [chr 32] else []) ++ json_text ind (S d) kv.2.
Lemma read_member_text ind d k v r f ws :
  reads_back v → valid_utf8 k = true → json_ok v = true → forallb json_space ws = true → number_end r = true →
  (json_size v <= f)%nat →
  read_members (S f) (ws ++ member_text ind d (k, v) ++ r) =
    match skip_space r with
    | e :: l4 => if code e =? 125 then Some ([(k, v)], l4)
                 else if code e =? 44 then option_map (λ p, ((k, v) :: p.1, p.2)) (read_members f l4) else None
    | [] => None
    end.
Proof.
  intros Hv Hk Hok Hws Hr Hf. unfold member_text. cbn [fst snd].
  rewrite <- (assoc_L (++)). cbn [read_members]. rewrite skip_space_app by done.
  destruct (read_string_json k ((chr 58 :: (if ind then [chr 32] else []) ++ json_text ind (S d) v) ++ r) Hk)
    as (l1 & -> & Hs).
  change (skip_space (chr 34 :: l1)) with (chr 34 :: l1). cbv iota. change (negb (code (chr 34) =? 34)) with false. cbv iota.
  rewrite Hs. cbn [app]. change (skip_space (chr 58 :: ?x)) with (chr 58 :: x). cbv iota.
  change (negb (code (chr 58) =? 58)) with false. cbv iota.
  rewrite <- (assoc_L (++)). rewrite Hv; [|done|by destruct ind|done..]. by rewrite of_chars_chars.
Qed.
Lemma read_members_text ind d l r f ws :
  Forall (λ kv : string * json, reads_back kv.2) l → l ≠ [] →
  forallb (λ kv : string * json, valid_utf8 kv.1 && json_ok kv.2) l = true → forallb json_space ws = true →
  (foldr (λ (kv : string * json) n, S (json_size kv.2 + n)) O l <= f)%nat →
  read_members f (ws ++ separated (chr 44 :: line_break ind (S d)) (member_text ind d <$> l)
    ++ line_break ind d ++ chr 125 :: r) = Some (l, r).
Proof.
  intros H. revert f ws. induction H as [|[k v] l Hv Hl IH]; intros f ws Hne Hok Hws Hf; [done|].
  destruct f as [|f]; [simpl in Hf; lia|]. cbn [foldr fst snd] in *. cbn [forallb fst snd] in Hok.
  apply andb_true_iff in Hok as [[Hk Hokv]%andb_true_iff Hokl].
  rewrite fmap_cons. destruct l as [|kv' l].
  - cbn [fmap list_fmap separated]. rewrite read_member_text; [|done..|by apply number_end_break|lia].
    rewrite skip_space_app by apply line_break_space. done.
  - rewrite fmap_cons in *. rewrite separated_two. rewrite read_member_text; [|done..|lia].
    cbn [app]. change (skip_space (chr 44 :: ?x)) with (chr 44 :: x). cbv iota.
    rewrite IH; [done..|apply line_break_space|lia].
Qed.

Lemma literal_app p r : literal p (p ++ r) = Some r.
Proof. induction p as [|c p IH]; [done|]. simpl. by rewrite bool_decide_eq_true_2. Qed.

(** The text of a value, read with enough fuel. *)
Lemma read_value_text v : reads_back v.
Proof.
  induction v as [|b|t|s|l IH|l IH] using json_ind_nested; intros ind d f ws r Hok Hws Hr Hf;
    (destruct f as [|f]; [simpl in Hf; lia|]); cbn [read_value]; rewrite skip_space_app by done.
  - done.
  - by destruct b.
  - destruct (json_text_starts _ ind d Hok) as (c & t' & Ht & Hst). cbn [json_text] in *. subst t.
    pose proof Hok as Hn. cbn [json_ok natural_text] in Hok. apply andb_true_iff in Hok as [[Hc _]%andb_true_iff _].
    unfold is_digit_ascii in Hc. cbn [app]. rewrite skip_space_starts by done.
    repeat match goal with |- context [code c =? ?n] => destruct (Z.eqb_spec (code c) n); [lia|] end.
    change (c :: t' ++ r) with ((c :: t') ++ r). by rewrite read_number_natural.
  - destruct (read_string_json s r Hok) as (l1 & Hl & Hs). cbn [json_text]. rewrite Hl.
    change (skip_space (chr 34 :: l1)) with (chr 34 :: l1). cbv iota. rewrite Hs. cbn [option_map fst snd].
    by rewrite of_chars_chars.
  - cbn [json_text json_ok json_size] in *. destruct l as [|v l]; [done|].
    unfold bracketed. rewrite fmap_cons. cbn [app]. change (skip_space (chr 91 :: ?x)) with (chr 91 :: x).
    cbv iota. change (code (chr 91) =? 34) with false. change (code (chr 91) =? 91) with true. cbv iota.
    rewrite <- !(assoc_L (++)). cbn [app]. rewrite <- fmap_cons.
    rewrite read_elements_text by (first [done|apply line_break_space|lia]).
    pose proof Hok as [Hokv _]%andb_true_iff. destruct (json_text_starts v ind (S d) Hokv) as (c & t & Ht & Hst).
    rewrite skip_space_app by apply line_break_space. rewrite fmap_cons, Ht.
    destruct (json_text ind (S d) <$> l); cbn [separated app];
      rewrite skip_space_starts by done; destruct (Z.eqb_spec (code c) 93); try done; by destruct Hst as (_ & ? & _).
  - cbn [json_text json_ok json_size] in *. change (λ kv : string * json, json_string kv.1 ++ _) with (member_text ind d).
    destruct l as [|[k v] l]; [done|]. unfold bracketed. rewrite fmap_cons. cbn [app]. change (skip_space (chr 123 :: ?x)) with (chr 123 :: x).
    cbv iota. change (code (chr 123) =? 34) with false. change (code (chr 123) =? 91) with false.
    change (code (chr 123) =? 123) with true. cbv iota.
    rewrite <- !(assoc_L (++)). cbn [app]. rewrite <- fmap_cons.
    rewrite read_members_text by (first [done|apply line_break_space|lia]).
    rewrite skip_space_app by apply line_break_space. rewrite fmap_cons.
    destruct (member_text ind d <$> l); cbn [separated app member_text json_string]; done.
Qed.

Lemma separated_length sep l : (foldr (λ t n, S (length t + n)) O l <= S (length (separated (chr 44 :: sep) l)))%nat.
Proof.
  induction l as [|x [|y l] IH]; simpl in *; [lia|lia|]. rewrite !length_app. simpl. rewrite length_app in *. lia.
Qed.
Lemma bracketed_length ind d a b l : (S (foldr (λ t n, S (length t + n)) O l) <= length (bracketed ind d a b l))%nat.
Proof.
  destruct l as [|x l]; [simpl; lia|]. pose proof (separated_length (line_break ind (S d)) (x :: l)) as H.
  unfold bracketed. cbn [length]. rewrite !length_app. cbn [length]. lia.
Qed.
Lemma json_size_text v : json_ok v = true → ∀ ind d, (json_size v <= 2 * length (json_text ind d v))%nat.
Proof.
  induction v as [|b|t|s|l IH|l IH] using json_ind_nested; intros Hok ind d.
  - simpl. lia.
  - destruct b; simpl; lia.
  - simpl in *. destruct t; [done|simpl; lia].
  - simpl. lia.
  - cbn [json_size json_text json_ok] in *. etrans; [|apply Nat.mul_le_mono_l, bracketed_length].
    enough (foldr (λ v n, S (json_size v + n)) O l <= 2 * foldr (λ t n, S (length t + n)) O (json_text ind (S d) <$> l))%nat by lia.
    induction IH as [|v l Hv Hl IH]; [simpl; lia|]. cbn [forallb] in Hok. apply andb_true_iff in Hok as [Ho Hos].
    specialize (Hv Ho ind (S d)). specialize (IH Hos). rewrite fmap_cons. cbn [foldr]. lia.
  - cbn [json_size json_text json_ok] in *. etrans; [|apply Nat.mul_le_mono_l, bracketed_length].
    change (λ kv : string * json, json_string kv.1 ++ _) with (member_text ind d).
    enough (foldr (λ (kv : string * json) n, S (json_size kv.2 + n)) O l
            <= 2 * foldr (λ t n, S (length t + n)) O (member_text ind d <$> l))%nat by lia.
    induction IH as [|[k v] l Hv Hl IH]; [simpl; lia|]. cbn [forallb fst snd] in *.
    apply andb_true_iff in Hok as [[_ Ho]%andb_true_iff Hos].
    specialize (Hv Ho ind (S d)). specialize (IH Hos). rewrite fmap_cons. cbn [foldr fst snd].
    unfold member_text at 1. cbn [fst snd]. rewrite !length_app. cbn [length]. rewrite length_app. lia.
Qed.

(** [json.Unmarshal] reads what [json.Marshal] and [json.MarshalIndent] wrote, a
    line feed or blanks after it included. *)
Lemma json_parse_text v ind ws :
  json_ok v = true → forallb json_space ws = true → json_parse (of_chars (json_text ind 0 v ++ ws)) = Some v.
Proof.
  intros Hok Hws. unfold json_parse. rewrite chars_of_chars.
  rewrite (read_value_text v ind 0%nat _ [] ws); [|done..| |].
  - rewrite <- (app_nil_r ws), skip_space_app by done. done.
  - destruct ws as [|c ws]; [done|]. apply andb_true_iff in Hws as [Hc _]. unfold json_space in Hc.
    unfold number_end, is_digit_ascii. lia.
  - pose proof (json_size_text v Hok ind 0%nat). rewrite length_app. lia.
Qed.
Lemma json_parse_compact v : json_ok v = true → json_parse (json_compact v) = Some v.
Proof. intros Hok. unfold json_compact. rewrite <- (app_nil_r (json_text _ _ _)). by apply json_parse_text. Qed.
