(* ===== verification/ProfileStore.v ===== *)
(** [internal/persistence/client_profile.go]: the client settings as a row of
    JSON, and that what was saved is loaded. *)
From S2P Require Import Prelude GoStrings Quote Json Domain Config X509 CertState ClientProfile Store StoreSpec.

(** ** JSON of [clientprofile.Settings]

    The fields have no tags: their names are the keys. *)
Definition settings_json (p : Settings) : json :=
  JObject [("PublicAddress", JString (PublicAddress p)); ("Protocol", JString (Protocol p));
           ("AntiDPI", JBool (AntiDPI p)); ("IPv6", JBool (IPv6 p));
           ("TLSProfile", JString (TLSProfile p)); ("PostQuantum", JBool (PostQuantum p))].

Definition set_string (set : string → Settings) (p : Settings) (v : json) : Settings * option gerror :=
  match v with
  | JString s => (set s, None)
  | JNull => (p, None)
  | _ => (p, Some (SysErr "json: cannot unmarshal into field of type string"))
  end.
Definition set_bool (set : bool → Settings) (p : Settings) (v : json) : Settings * option gerror :=
  match v with
  | JBool b => (set b, None)
  | JNull => (p, None)
  | _ => (p, Some (SysErr "json: cannot unmarshal into field of type bool"))
  end.
Definition set_field (p : Settings) (key : string) (v : json) : Settings * option gerror :=
  if field_is key "PublicAddress"
  then set_string (λ s, mkSettings s (Protocol p) (AntiDPI p) (IPv6 p) (TLSProfile p) (PostQuantum p)) p v
  else if field_is key "Protocol"
  then set_string (λ s, mkSettings (PublicAddress p) s (AntiDPI p) (IPv6 p) (TLSProfile p) (PostQuantum p)) p v
  else if field_is key "AntiDPI"
  then set_bool (λ b, mkSettings (PublicAddress p) (Protocol p) b (IPv6 p) (TLSProfile p) (PostQuantum p)) p v
  else if field_is key "IPv6"
  then set_bool (λ b, mkSettings (PublicAddress p) (Protocol p) (AntiDPI p) b (TLSProfile p) (PostQuantum p)) p v
  else if field_is key "TLSProfile"
  then set_string (λ s, mkSettings (PublicAddress p) (Protocol p) (AntiDPI p) (IPv6 p) s (PostQuantum p)) p v
  else if field_is key "PostQuantum"
  then set_bool (λ b, mkSettings (PublicAddress p) (Protocol p) (AntiDPI p) (IPv6 p) (TLSProfile p) b) p v
  else (p, None).
(** The members in order; the first mismatch is the error. *)
Fixpoint set_fields (p : Settings) (ms : list (string * json)) : Settings * option gerror :=
  match ms with
  | [] => (p, None)
  | (k, v) :: ms' =>
    let '(p1, e1) := set_field p k v in
    let '(p2, e2) := set_fields p1 ms' in
    (p2, match e1 with Some e => Some e | None => e2 end)
  end.
(** [json.Unmarshal(data, &p)] *)
Definition settings_unmarshal (p : Settings) (data : string) : Settings * option gerror :=
  match json_parse data with
  | None => (p, Some (SysErr "json: invalid text"))
  | Some (JObject ms) => set_fields p ms
  | Some JNull => (p, None)
  | Some _ => (p, Some (SysErr "json: cannot unmarshal into value of type Settings"))
  end.

(** ** The statements *)

Definition LoadClientProfile : M store (Settings * option gerror) :=
  let* r := query (λ t, of_row (t_profile t)) in
  ret (match r with
       | Err e => if errors_is e ErrNoRows then (Default, None) else (Default, Some e)
       | Ok data =>
         match settings_unmarshal Default data with
         | (p, Some e) => (p, Some e)
         | (p, None) => (p, Settings_Validate p)
         end
       end).
Definition SaveClientProfile (p : Settings) : M store (option gerror) :=
  match Settings_Validate p with
  | Some e => ret (Some e)
  | None =>
    let data := json_compact (settings_json p) in
    exec (λ t, (None, put_profile data t))
  end.

(** ** What was saved is loaded *)

Lemma Settings_unmarshal_marshal p0 p :
  valid_utf8 (PublicAddress p) = true → valid_utf8 (Protocol p) = true → valid_utf8 (TLSProfile p) = true →
  settings_unmarshal p0 (json_compact (settings_json p)) = (p, None).
Proof.
  intros H1 H2 H3. unfold settings_unmarshal. rewrite json_parse_compact.
  - destruct p. reflexivity.
  - simpl. by rewrite H1, H2, H3.
Qed.
Lemma names_utf8 s : s ∈ "http2" :: "http3" :: tls_profiles → valid_utf8 s = true.
Proof. unfold tls_profiles. rewrite !elem_of_cons, elem_of_nil. naive_solver. Qed.
Lemma Validate_names p :
  Settings_Validate p = None → Protocol p ∈ ["http2"; "http3"] ∧ TLSProfile p ∈ tls_profiles.
Proof.
  unfold Settings_Validate. destruct (if bool_decide _ then _ else _); [done|].
  destruct (decide (Protocol p = "http2")) as [H1|H1], (decide (Protocol p = "http3")) as [H2|H2];
    rewrite ?(bool_decide_eq_true_2 (Protocol p = "http2")), ?(bool_decide_eq_false_2 (Protocol p = "http2")),
      ?(bool_decide_eq_true_2 (Protocol p = "http3")), ?(bool_decide_eq_false_2 (Protocol p = "http3")) by done;
    cbn [negb andb]; try done; destruct (AntiDPI p); cbn [negb andb]; try done;
    destruct (decide (TLSProfile p ∈ tls_profiles)) as [H3|H3];
    rewrite ?(bool_decide_eq_true_2 (TLSProfile p ∈ tls_profiles)), ?(bool_decide_eq_false_2 (TLSProfile p ∈ tls_profiles)) by done;
    try done; intros _; (split; [rewrite !elem_of_cons; auto|done]).
Qed.

(** Settings that were saved are the settings that are loaded: a save stores
    only what [Validate] accepts, and every later load of the same row that the
    database does not fail returns those settings and no error.  The address must
    be UTF-8, as the text of a JSON string is. *)
Theorem SaveClientProfile_loads p w w1 w2 :
  SaveClientProfile p w = (None, w1) → valid_utf8 (PublicAddress p) = true →
  t_profile (db_tables w2) = t_profile (db_tables w1) → (∀ e q, db_faults w2 ≠ Some e :: q) →
  Settings_Validate p = None ∧ (LoadClientProfile w2).1 = (p, None).
Proof.
  unfold SaveClientProfile. destruct (Settings_Validate p) as [e|] eqn:Hv; [by intros [= ? _]|].
  intros H Hu Ht Hf. split; [done|]. apply exec_inv in H as [(He & _)|H]; [done|]. injection H as H.
  rewrite <- H in Ht. cbn [t_profile put_profile] in Ht. destruct (Validate_names p Hv) as [Hp Ht'].
  assert (Hq : query (λ t, of_row (t_profile t)) w2 = (Ok (json_compact (settings_json p)), mkStore (db_tables w2) (tail (db_faults w2)) (db_clock w2))).
  { unfold query, stmt. destruct (db_faults w2) as [|[e|] q]; [|by edestruct Hf|]; by rewrite Ht. }
  unfold LoadClientProfile, bind. rewrite Hq. unfold ret. cbn [fst].
  rewrite Settings_unmarshal_marshal; [by rewrite Hv|done|apply names_utf8..]; set_solver.
Qed.
