(* ===== verification/Backup.v ===== *)
(** [internal/datalock/lock.go] and [internal/backup/backup.go]: the lock on a data
    directory, and the creation, verification and restoration of backups.

    The bytes of a [.tar.gz] are a parameter with the behaviour of a codec; a
    backup is handled as the list of its entries.  SQLite's [VACUUM INTO] is a
    function from the database file to its copy. *)
From stdpp Require Import pretty.
From S2P Require Import Prelude GoStrings GoPath Quote Json Sha256 Domain GoTime FileSys PathFacts PosixFs.

(** ** datalock *)

Section DataLock.
Variable umask : Z.
Variable pid : Z.
(** [flock] fails when another process holds the lock: one of the injected
    failures.  The lock goes with the descriptor. *)
Definition flock : M fs (option gerror) := sys_err (λ t, (None, t)).
Definition open_lock (p : string) : M fs (option gerror) :=
  at_path_err true p (λ q t, match tree_get q t with
                             | Some (File _ _) => (None, t)
                             | Some _ => (Some (SysErr "is a directory"), t)
                             | None => make q (File "" (new_mode umask 384)) t
                             end).
Definition Lock_Acquire (dataDir : string) : M fs (option gerror) :=
  if negb (is_abs dataDir) then ret (Some (Errorf "data directory must be absolute"))
  else
    err? px_mkdir_all umask dataDir 448 in
    let p := join_path [dataDir; ".controller.lock"] in
    err? open_lock p in
    let* e := flock in
    match e with
    | Some e => ret (Some (Wrapf "data directory is already in use" e))
    | None =>
      let* e := px_write_file umask p "" 384 in
      let* e := (match e with
                 | None => px_write_file umask p (pretty pid +:+ String "010"%char "") 384
                 | Some _ => ret e
                 end) in
      match e with
      | Some e => let* _ := flock in ret (Some e)
      | None => let* _ := file_sync in ret None
      end
    end.
(** The error of the unlock comes before that of the close.  On a lock that was not
    acquired, a nil pointer in Go, nothing is done: [held] is [false]. *)
Definition Lock_Close (held : bool) : M fs (option gerror) :=
  if negb held then ret None
  else
    let* unlockErr := flock in
    let* closeErr := file_close in
    ret (match unlockErr with Some e => Some e | None => closeErr end).
End DataLock.

(** ** Archives *)

Inductive typeflag : Type := TypeReg | TypeDir | TypeSymlink | TypeOther.
Record header := mkHeader { hd_name : string; hd_type : typeflag; hd_mode : Z; hd_linkname : string }.
(** An entry: its header, and its data or the error met while reading it. *)
Abbreviation entry := (header * result string)%type.

(** [archive/tar] over [compress/gzip].  Reading gives the entries before the end
    or before an error; an archive is read back as it was written. *)
Class TarGz := {
  targz_write : list (header * string) → string;
  targz_read : string → result (list entry * option gerror);
  targz_read_write : ∀ es, targz_read (targz_write es) = Ok ((λ e, (e.1, Ok e.2)) <$> es, None)
}.

Record Versions := mkVersions { V_Controller : string; V_Commit : string; V_Endpoint : string }.
(** [CreatedAt] is its RFC 3339 text. *)
Record Manifest := mkManifest {
  Man_Format : Z;
  Man_CreatedAt : string;
  Man_Versions : Versions;
  Man_Files : gmap string string
}.
Definition zero_manifest : Manifest := mkManifest 0 "0001-01-01T00:00:00Z" (mkVersions "" "" "") ∅.

(** *** The manifest's JSON *)

Definition integer_text (z : Z) : list ascii := chars (pretty z).
Definition manifest_json (m : Manifest) : json :=
  JObject [("format", JNumber (integer_text (Man_Format m)));
           ("created_at", JString (Man_CreatedAt m));
           ("versions", JObject [("Controller", JString (V_Controller (Man_Versions m)));
                                 ("Commit", JString (V_Commit (Man_Versions m)));
                                 ("Endpoint", JString (V_Endpoint (Man_Versions m)))]);
           ("files", JObject ((λ kv : string * string, (kv.1, JString kv.2)) <$> sort_by fst (map_to_list (Man_Files m))))].

(** [time.Parse] of RFC 3339, which the decoder of [time.Time] applies. *)
Definition two_digits (l : list ascii) : option (Z * list ascii) :=
  match l with
  | a :: b :: l' => if is_digit_ascii a && is_digit_ascii b then Some (10 * (code a - 48) + (code b - 48), l') else None
  | _ => None
  end.
Definition expect (c : ascii) (l : list ascii) : option (list ascii) :=
  match l with d :: l' => if bool_decide (c = d) then Some l' else None | [] => None end.
Definition month_days (year month : Z) : Z :=
  if bool_decide (month ∈ [4; 6; 9; 11]) then 30
  else if month =? 2
  then (if (year mod 4 =? 0) && (negb (year mod 100 =? 0) || (year mod 400 =? 0)) then 29 else 28)
  else 31.
Definition zone_ok (l : list ascii) : bool :=
  match l with
  | [z] => code z =? 90
  | s :: l' =>
    ((code s =? 43) || (code s =? 45)) &&
    match two_digits l' ≫= λ hl, expect ":" hl.2 ≫= λ l2, two_digits l2 ≫= λ ml, Some (hl.1, ml) with
    | Some (h, (mi, [])) => (h <? 24) && (mi <? 60)
    | _ => false
    end
  | [] => false
  end.
Definition after_fraction (l : list ascii) : list ascii :=
  match l with
  | c :: (d :: _) as l' =>
    if ((code c =? 46) || (code c =? 44)) && is_digit_ascii d then drop_while is_digit_ascii l' else l
  | _ => l
  end.
Definition clock_ok (l : list ascii) : option bool :=
  two_digits l ≫= λ h, expect ":" h.2 ≫= λ l2, two_digits l2 ≫= λ mi, expect ":" mi.2 ≫= λ l4, two_digits l4 ≫= λ s,
  Some ((h.1 <? 24) && (mi.1 <? 60) && (s.1 <? 60) && zone_ok (after_fraction s.2)).
Definition rfc3339_ok (s : string) : bool :=
  default false
    (two_digits (chars s) ≫= λ c, two_digits c.2 ≫= λ y, expect "-" y.2 ≫= λ l3, two_digits l3 ≫= λ mo,
     expect "-" mo.2 ≫= λ l5, two_digits l5 ≫= λ d, expect "T" d.2 ≫= λ l7, clock_ok l7 ≫= λ b,
     Some ((1 <=? mo.1) && (mo.1 <=? 12) && (1 <=? d.1) && (d.1 <=? month_days (100 * c.1 + y.1) mo.1) && b)).
Example rfc3339_forms :
  rfc3339_ok <$> ["2024-02-29T23:59:59.25Z"; "2023-02-29T00:00:00Z"; "2024-01-01T00:00:00+01:30"; "2024-01-01 00:00:00Z"]
  = [true; false; true; false].
Proof. vm_compute. reflexivity. Qed.

(** [json.Unmarshal] into a manifest: an error ends the command, so what was set
    before it is dropped. *)
Definition bad_json : gerror := SysErr "json: cannot unmarshal into Manifest".
Definition read_text (old : string) (v : json) : result string :=
  match v with JString s => Ok s | JNull => Ok old | _ => Err bad_json end.
Fixpoint read_members {A} (set : A → string → json → result A) (a : A) (ms : list (string * json)) : result A :=
  match ms with
  | [] => Ok a
  | (k, v) :: ms' => match set a k v with Ok a' => read_members set a' ms' | Err e => Err e end
  end.
Definition read_object {A} (set : A → string → json → result A) (a : A) (v : json) : result A :=
  match v with JObject ms => read_members set a ms | JNull => Ok a | _ => Err bad_json end.
Definition map_ok {A B} (f : A → B) (r : result A) : result B := match r with Ok a => Ok (f a) | Err e => Err e end.
Definition set_version (v : Versions) (k : string) (j : json) : result Versions :=
  if field_is k "Controller" then map_ok (λ s, mkVersions s (V_Commit v) (V_Endpoint v)) (read_text (V_Controller v) j)
  else if field_is k "Commit" then map_ok (λ s, mkVersions (V_Controller v) s (V_Endpoint v)) (read_text (V_Commit v) j)
  else if field_is k "Endpoint" then map_ok (λ s, mkVersions (V_Controller v) (V_Commit v) s) (read_text (V_Endpoint v) j)
  else Ok v.
Definition set_file (m : gmap string string) (k : string) (j : json) : result (gmap string string) :=
  map_ok (λ s, <[k := s]> m) (read_text "" j).
Definition set_manifest (m : Manifest) (k : string) (j : json) : result Manifest :=
  if field_is k "format" then
    match j with
    | JNumber t => match atoi (of_chars t) with
                   | Some z => Ok (mkManifest z (Man_CreatedAt m) (Man_Versions m) (Man_Files m))
                   | None => Err bad_json
                   end
    | JNull => Ok m
    | _ => Err bad_json
    end
  else if field_is k "created_at" then
    match j with
    | JString s => if rfc3339_ok s then Ok (mkManifest (Man_Format m) s (Man_Versions m) (Man_Files m)) else Err bad_json
    | JNull => Ok m
    | _ => Err bad_json
    end
  else if field_is k "versions"
  then map_ok (λ v, mkManifest (Man_Format m) (Man_CreatedAt m) v (Man_Files m)) (read_object set_version (Man_Versions m) j)
  else if field_is k "files"
  then map_ok (λ f, mkManifest (Man_Format m) (Man_CreatedAt m) (Man_Versions m) f) (read_object set_file (Man_Files m) j)
  else Ok m.
Definition manifest_unmarshal (data : string) : result Manifest :=
  match json_parse data with
  | Some v => read_object set_manifest zero_manifest v
  | None => Err (SysErr "json: invalid text")
  end.

(** ** Paths *)

Definition safePath (root name : string) : result string :=
  let c := clean name in
  if bool_decide (c = ".") || is_abs c || bool_decide (c = "..") || has_prefix c "../"
  then Err (Errorf "unsafe backup path") else Ok (join_path [root; c]).
(** [filepath.Rel] of absolute paths. *)
Fixpoint strip_common (a b : list string) : list string * list string :=
  match a, b with
  | x :: a', y :: b' => if bool_decide (x = y) then strip_common a' b' else (a, b)
  | _, _ => (a, b)
  end.
Definition filepath_rel (base target : string) : string :=
  let '(b, t) := strip_common (components (clean base)) (components (clean target)) in
  match (replicate (length b) ".." ++ t)%list with [] => "." | l => join_strings "/" l end.

(** ** The commands *)

Section Backup.
Context {SHA : Sha256} {TG : TarGz} {MO : MapOrder}.
Variable umask : Z.
(** [VACUUM INTO]: the copy of a database file. *)
Variable vacuum : string → result string.
Variable pid : Z.

Definition digest_text (n : node) : option string :=
  match n with
  | Link l => Some (sha256_hex ("symlink:" +:+ l))
  | File d _ => Some (sha256_hex d)
  | Dir _ _ => None
  end.
Definition digestPath (p : string) : M fs (result string) :=
  let? n := px_lstat p in
  match n with
  | Link _ => let? target := px_readlink p in ret (Ok (sha256_hex ("symlink:" +:+ target)))
  | _ => let? data := px_read_file p in
         let* c := file_close in
         ret (match c with Some e => Err e | None => Ok (sha256_hex data) end)
  end.

Fixpoint check_files (root : string) (l : list (string * string)) : M fs (option gerror) :=
  match l with
  | [] => ret None
  | (name, want) :: l' =>
    match safePath root name with
    | Err e => ret (Some e)
    | Ok p =>
      let* got := digestPath p in
      match got with
      | Err e => ret (Some e)
      | Ok got =>
        if bool_decide (got = want) then check_files root l'
        else ret (Some (Errorf ("backup checksum mismatch for " +:+ name)))
      end
    end
  end.
Definition verifyDir (root : string) : M fs (result Manifest) :=
  let? data := px_read_file (join_path [root; "backup-manifest.json"]) in
  match manifest_unmarshal data with
  | Err e => ret (Err e)
  | Ok m =>
    if negb (Man_Format m =? 1) then ret (Err (Errorf "unsupported backup format"))
    else nil? check_files root (map_range (Man_Files m)) in ret (Ok m)
  end.

(** A file of [extract] and [copyTree]: created, filled and closed; the first error
    counts. *)
Definition put_file (p : string) (mode : Z) (data : result string) (sync : bool) : M fs (option gerror) :=
  let* f := px_create_excl umask p mode in
  match f with
  | Err e => ret (Some e)
  | Ok q =>
    let* e := (match data with Ok d => file_write q d | Err e => ret (Some e) end) in
    let* s := (if sync then file_sync else ret None) in
    let* c := file_close in
    ret (match e with Some _ => e | None => match s with Some _ => s | None => c end end)
  end.
Definition unsafe_link (target : string) : bool :=
  is_abs target || bool_decide (clean target = "..") || has_prefix (clean target) "../".
Definition extract_entry (target : string) (e : entry) : M fs (option gerror) :=
  let '(h, data) := e in
  match safePath target (hd_name h) with
  | Err e => ret (Some e)
  | Ok p =>
    match hd_type h with
    | TypeDir => px_mkdir_all umask p (hd_mode h)
    | TypeReg => err? px_mkdir_all umask (dir_name p) 448 in put_file p (hd_mode h) data false
    | TypeSymlink =>
      if unsafe_link (hd_linkname h) then ret (Some (Errorf "unsafe backup symlink"))
      else err? px_mkdir_all umask (dir_name p) 448 in px_symlink (hd_linkname h) p
    | TypeOther => ret (Some (Errorf "unsupported backup entry"))
    end
  end.
Fixpoint extract_entries (target : string) (es : list entry) : M fs (option gerror) :=
  match es with
  | [] => ret None
  | e :: es' => err? extract_entry target e in extract_entries target es'
  end.
Definition extract (archivePath target : string) : M fs (option gerror) :=
  let* data := px_read_file archivePath in
  match data with
  | Err e => ret (Some e)
  | Ok data =>
    match targz_read data with
    | Err e => ret (Some e)
    | Ok (es, error) => err? extract_entries target es in ret error
    end
  end.

(** [filepath.Walk] over [root] with a callback on the path below it. *)
Fixpoint walk_with (root : string) (k : path → string → node → M fs (option gerror)) (l : list (path * node)) :
    M fs (option gerror) :=
  match l with
  | [] => ret None
  | (q, n) :: l' =>
    err? k q (match q with [] => root | _ => join_path [root; join_strings "/" q] end) n in walk_with root k l'
  end.

Definition node_mode (n : node) : Z := match n with File _ m | Dir m _ => m | Link _ => 511 end.
Definition copy_one (source target : string) (q : path) (p : string) (n : node) : M fs (option gerror) :=
  let dst := match q with [] => join_path [target; "."] | _ => join_path [target; join_strings "/" q] end in
  let* info := px_lstat p in
  match info with
  | Err e => ret (Some e)
  | Ok (Link _) =>
    let* link := px_readlink p in
    match link with
    | Err e => ret (Some e)
    | Ok link => err? px_mkdir_all umask (dir_name dst) 448 in px_symlink link dst
    end
  | Ok (Dir m _) => px_mkdir_all umask dst m
  | Ok (File _ m) =>
    err? px_mkdir_all umask (dir_name dst) 448 in
    let* data := px_read_file p in
    match data with
    | Err e => ret (Some e)
    | Ok data => put_file dst m (Ok data) true
    end
  end.
Definition copyTree (source target : string) : M fs (option gerror) :=
  let* l := px_walk source in
  match l with
  | Err e => ret (Some e)
  | Ok l => walk_with source (copy_one source target) l
  end.

(** The entries of an archive, the root left out. *)
Definition archive_one (p : string) (q : path) (n : node) : M fs (result (header * string)) :=
  let name := join_strings "/" q in
  match n with
  | Dir m _ => ret (Ok (mkHeader name TypeDir m "", ""))
  | Link _ => let? l := px_readlink p in ret (Ok (mkHeader name TypeSymlink 511 l, ""))
  | File _ m => let? d := px_read_file p in ret (Ok (mkHeader name TypeReg m "", d))
  end.
Fixpoint archive_walk (root : string) (l : list (path * node)) : M fs (result (list (header * string))) :=
  match l with
  | [] => ret (Ok [])
  | ([], _) :: l' => archive_walk root l'
  | (q, n) :: l' =>
    let? e := archive_one (join_path [root; join_strings "/" q]) q n in
    let? es := archive_walk root l' in
    ret (Ok (e :: es))
  end.
(** What is written into the open file at [q]; the closers run in any case. *)
Definition archive_fill (root : string) (q : path) : M fs (option gerror) :=
  let* es := (let? l := px_walk root in archive_walk root l) in
  let* e := (match es with Ok es => file_write q (targz_write es) | Err e => ret (Some e) end) in
  let* c1 := file_close in
  let* c2 := file_close in
  let* c3 := file_close in
  ret (match e, c1, c2 with Some _, _, _ => e | _, Some _, _ => c1 | _, _, Some _ => c2 | _, _, _ => c3 end).
Definition archive (root output : string) : M fs (option gerror) :=
  err? px_mkdir_all umask (dir_name output) 448 in
  let tmp := output +:+ ".tmp" in
  let* f := px_create_excl umask tmp 384 in
  match f with
  | Err e => ret (Some e)
  | Ok q =>
    let* e := (err? archive_fill root q in px_rename tmp output) in
    match e with
    | Some e => let* _ := px_remove tmp in ret (Some e)
    | None => ret None
    end
  end.

(** *** Create *)

Definition included : list string := ["config"; "tls"; "acme"; "migration"].
(** Opening a database makes the file when it is missing. *)
Definition open_database (p : string) : M fs (result string) :=
  at_path true p (λ q t, match tree_get q t with
                         | Some (File d _) => (Ok d, t)
                         | Some _ => (Err (SysErr "unable to open database file"), t)
                         | None => match make q (File "" (new_mode umask 420)) t with
                                   | (None, t') => (Ok "", t')
                                   | (Some e, t') => (Err e, t')
                                   end
                         end).
Definition vacuum_into (db copy : string) : M fs (option gerror) :=
  let* d := open_database db in
  match d with
  | Err e => ret (Some e)
  | Ok d => match vacuum d with Err e => ret (Some e) | Ok c => px_write_file umask copy c 420 end
  end.
Fixpoint copy_included (dataDir work : string) (names : list string) : M fs (option gerror) :=
  match names with
  | [] => ret None
  | name :: names' =>
    let source := join_path [dataDir; name] in
    let* info := px_lstat source in
    match info with
    | Err e => if errors_is e ErrNotExist then copy_included dataDir work names' else ret (Some e)
    | Ok _ => err? copyTree source (join_path [work; name]) in copy_included dataDir work names'
    end
  end.
Fixpoint digests (root : string) (l : list (path * node)) (acc : gmap string string) : M fs (result (gmap string string)) :=
  match l with
  | [] => ret (Ok acc)
  | (_, Dir _ _) :: l' => digests root l' acc
  | (q, _) :: l' =>
    let name := join_strings "/" q in
    let? d := digestPath (join_path [root; name]) in
    digests root l' (<[name := d]> acc)
  end.
Definition unix_epoch : Z := 62135596800 * second.
Definition manifest_text (m : Manifest) : string := json_indented (manifest_json m) +:+ String "010"%char "".
Definition create_in (dataDir output work : string) (versions : Versions) : M fs (option gerror) :=
  let backupDB := join_path [work; "controller.db"] in
  let* e := vacuum_into (join_path [dataDir; "controller.db"]) backupDB in
  let* c := file_close in
  match e, c with
  | Some e, _ => ret (Some (Wrapf "sqlite online backup" e))
  | None, Some e => ret (Some e)
  | None, None =>
    err? px_chmod backupDB 384 in
    err? copy_included dataDir work included in
    let* now := now_unix_nano in
    let* files := (let? l := px_walk work in digests work l ∅) in
    match files with
    | Err e => ret (Some e)
    | Ok files =>
      let m := mkManifest 1 (format_time (unix_epoch + now)) versions files in
      err? px_write_file umask (join_path [work; "backup-manifest.json"]) (manifest_text m) 384 in
      archive work output
    end
  end.
Definition Create (dataDir output : string) (versions : Versions) : M fs (option gerror) :=
  if negb (is_abs dataDir) || negb (is_abs output)
  then ret (Some (Errorf "data directory and output must be absolute"))
  else
    let rel := filepath_rel dataDir output in
    if negb (bool_decide (rel = "..")) && negb (has_prefix rel "../")
    then ret (Some (Errorf "backup output must be outside data directory"))
    else
      let* work := px_mkdir_temp "trusttunnel-backup-" in
      match work with
      | Err e => ret (Some e)
      | Ok work =>
        let* e := create_in dataDir output work versions in
        let* _ := px_remove_all work in
        ret e
      end.

(** *** Verify and Restore *)

Definition Verify (archivePath : string) : M fs (result Manifest) :=
  let? work := px_mkdir_temp "trusttunnel-verify-" in
  let* r := (nil? extract archivePath work in verifyDir work) in
  let* _ := px_remove_all work in
  ret r.

Fixpoint move_all (source target : string) (names : list string) : M fs (option gerror) :=
  match names with
  | [] => ret None
  | n :: names' => err? px_rename (join_path [source; n]) (join_path [target; n]) in move_all source target names'
  end.
Definition restore_stage (archivePath target stage : string) : M fs (result Manifest) :=
  nil? extract archivePath stage in
  let? manifest := verifyDir stage in
  let? names := px_read_dir stage in
  nil? move_all stage target names in
  ret (Ok manifest).
Definition restore_locked (archivePath target : string) : M fs (result Manifest) :=
  let? names := px_read_dir target in
  if existsb (λ n, negb (bool_decide (n = ".controller.lock"))) names
  then ret (Err (Errorf "restore target must be empty"))
  else
    let stage := join_path [target; ".restore-stage"] in
    nil? px_mkdir umask stage 448 in
    let* r := restore_stage archivePath target stage in
    let* _ := px_remove_all stage in
    ret r.
Definition Restore (archivePath target : string) : M fs (result Manifest) :=
  if negb (is_abs target) then ret (Err (Errorf "target must be absolute"))
  else
    nil? Lock_Acquire umask pid target in
    let* r := restore_locked archivePath target in
    let* _ := Lock_Close true in
    ret r.
End Backup.
