(* ===== verification/BackupSafe.v ===== *)
(** Where [extract] of [internal/backup/backup.go] writes: below its target when no
    link is involved, whatever the names of the entries and whichever calls fail;
    and an archive of links that leaves the target. *)
From S2P Require Import Prelude GoStrings GoPath Quote Config Json Sha256 FileSys PathFacts PosixFs TreeWalk PosixFacts Backup.

(** ** Names *)

Lemma safePath_inv T name p :
  T ≠ [] → Forall plain T → safePath (abs_path T) name = Ok p → ∃ q, q ≠ [] ∧ Forall plain q ∧ p = abs_path (T ++ q).
Proof.
  intros HT HTp H. unfold safePath in H.
  destruct (bool_decide (clean name = ".") || is_abs (clean name) || bool_decide (clean name = "..") || has_prefix (clean name) "../") eqn:E;
    [done|]. injection H as <-. apply orb_false_iff in E as [E E4]. apply orb_false_iff in E as [E E3].
  apply orb_false_iff in E as [E1 E2]. apply bool_decide_eq_false in E1, E3.
  unfold clean in *. destruct (bool_decide (name = "")) eqn:En; [done|].
  destruct (clean_elems_shape (is_abs name) (split name slash) []) as (k & ps & Hce & Hps & Hk).
  { apply split_pieces. }
  { by exists 0%nat, []. }
  destruct (is_abs name) eqn:Habs.
  - rewrite bool_decide_eq_false_2 in E2 by done. change ("/" +:+ ?s) with (String slash s) in E2. by rewrite is_abs_slash in E2.
  - rewrite Hce in *. change ("" +:+ ?s) with s in *. destruct k as [|k]; cbn [replicate app] in *.
    + destruct ps as [|x ps]; [done|]. pose proof (plain_join_nonempty (x :: ps) ltac:(done) Hps) as Hne.
      rewrite bool_decide_eq_false_2 by done. exists (x :: ps). split; [done|]. split; [done|]. by apply join_abs.
    + exfalso. destruct (replicate k ".." ++ ps) as [|y l].
      * cbn in E3. done.
      * rewrite join_strings_cons in E4. by destruct (join_strings "/" (y :: l)).
Qed.

(** ** Trees without links *)

Definition link_free (n : node) : Prop := ∀ q l, tree_get q n ≠ Some (Link l).
Lemma link_free_entry m es c n : link_free (Dir m es) → es !! c = Some n → link_free n.
Proof. intros H Hc q l Hq. apply (H (c :: q) l). cbn. by rewrite Hc. Qed.
Lemma link_free_put p n t : link_free n → link_free t → link_free (tree_put p (Some n) t).
Proof.
  intros Hn. revert t. induction p as [|c p IH]; intros t Ht; [done|]. destruct t as [| |m es]; [done..|].
  rewrite tree_put_cons. intros q l Hq. destruct q as [|x q]; [done|]. cbn [tree_get] in Hq.
  destruct (decide (x = c)) as [->|Hx].
  - rewrite lookup_partial_alter_eq in Hq. unfold alter_below in Hq. destruct p as [|y p]; [by apply (Hn q l)|].
    destruct (es !! c) as [n'|] eqn:E; [|done]. cbn [fmap option_fmap option_map] in Hq.
    by apply (IH n' (link_free_entry m es c n' Ht E) q l).
  - rewrite lookup_partial_alter_ne in Hq by done. apply (Ht (x :: q) l). cbn. done.
Qed.
Lemma tree_get_put_under p r v t : r ≠ [] → tree_get p (tree_put (p ++ r) v t) = tree_put r v <$> tree_get p t.
Proof.
  intros Hr. revert t. induction p as [|c p IH]; intros t; [done|]. destruct t as [| |m es]; [done..|].
  cbn [app]. rewrite tree_put_cons. cbn [tree_get]. rewrite lookup_partial_alter_eq. unfold alter_below.
  assert (∀ o : option node, match p ++ r with [] => v | _ => tree_put (p ++ r) v <$> o end = tree_put (p ++ r) v <$> o) as ->
    by (intros; by destruct p, r).
  destruct (es !! c) as [n|]; [|done]. apply IH.
Qed.

(** A path below a directory without links resolves to itself. *)
Lemma resolve_link_free links t follow base n l q :
  Forall plain l → tree_get base t = Some n → link_free n → resolve links t follow base l = Ok q → q = base ++ l.
Proof.
  intros Hl. revert base n. induction Hl as [|c l Hc Hl IH]; intros base n Hb Hn H.
  - rewrite resolve_nil in H. injection H as <-. by rewrite app_nil_r.
  - destruct Hc as (_ & H1 & H2 & H3).
    assert (Hget : tree_get (base ++ [c]) t = tree_get [c] n) by by rewrite tree_get_app, Hb.
    assert (Hstep : resolve links t follow base (c :: l) = match tree_get (base ++ [c]) t with
      | Some (Link _) => resolve links t follow base (c :: l)
      | Some (Dir _ _) => resolve links t follow (base ++ [c]) l
      | Some (File _ _) => if bool_decide (l = []) then Ok (base ++ [c]) else Err no_directory
      | None => if bool_decide (l = []) then Ok (base ++ [c]) else Err ErrNotExist end).
    { destruct links; cbn [resolve]; rewrite !bool_decide_eq_false_2 by done; cbn [orb]; by destruct (tree_get (base ++ [c]) t) as [[| |]|]. }
    rewrite Hstep in H. clear Hstep. destruct (tree_get (base ++ [c]) t) as [[d m|l'|m es]|] eqn:E.
    + case_bool_decide as Hl0; [|done]. injection H as <-. by subst l.
    + exfalso. by apply (Hn [c] l').
    + rewrite (IH (base ++ [c]) (Dir m es)); [by rewrite <- (assoc_L (++))|exact E| |exact H].
      intros r l' Hr. apply (Hn (c :: r) l'). change (c :: r) with ([c] ++ r). by rewrite tree_get_app, <- Hget.
    + case_bool_decide as Hl0; [|done]. injection H as <-. by subst l.
Qed.

Section Target.
Variable umask : Z.
Variable T : path.
Hypothesis HT : T ≠ [].
Hypothesis HTp : Forall plain T.

Definition safe (t : node) : Prop := ∃ m es, tree_get T t = Some (Dir m es) ∧ link_free (Dir m es).
Definition stays (w w' : fs) : Prop := safe (fs_tree w) → safe (fs_tree w') ∧ below T (fs_tree w) (fs_tree w').
#[local] Instance stays_preorder : PreOrder stays.
Proof using.
  split.
  - intros w Hw. done.
  - intros w1 w2 w3 H1 H2 Hw. destruct (H1 Hw) as [Hw2 Hb]. destruct (H2 Hw2) as [Hw3 Hb']. split; [done|]. by etrans.
Qed.
Lemma safe_locate t follow q x : safe t → Forall plain q → locate t follow (abs_path (T ++ q)) = Ok x → x = T ++ q.
Proof using HT HTp.
  intros (m & es & HTget & Hfree) Hq H. unfold locate in H. rewrite split_abs in H; [|by destruct T|].
  2: { apply Forall_app. split; by apply Forall_plain_no_slash. }
  rewrite resolve_empty, resolve_dirs in H; [|done|cbn; by rewrite HTget]. by eapply resolve_link_free.
Qed.
Lemma safe_put q n t : safe t → q ≠ [] → link_free n → safe (tree_put (T ++ q) (Some n) t) ∧ below T t (tree_put (T ++ q) (Some n) t).
Proof using.
  intros (m & es & HTget & Hfree) Hq Hn. split; [|by apply below_put]. unfold safe. rewrite tree_get_put_under, HTget by done.
  cbn [fmap option_fmap option_map]. destruct q as [|c q]; [done|]. rewrite tree_put_cons. eexists _, _. split; [done|].
  rewrite <- tree_put_cons. by apply link_free_put.
Qed.
Lemma link_free_file d m : link_free (File d m).
Proof using. intros q l Hl. by destruct q. Qed.
Lemma link_free_dir m : link_free (Dir m ∅).
Proof using. intros q l Hl. destruct q as [|c q]; [done|]. cbn in Hl. by rewrite lookup_empty in Hl. Qed.
Hint Resolve link_free_file link_free_dir : core.

Lemma stays_sys {A} (run : node → result A * node) :
  (∀ t, safe t → safe (run t).2 ∧ below T t (run t).2) → preserves stays (sys run).
Proof using.
  intros Hr w r w' H Hs. apply sys_inv in H as [[_ ->]|H]; [done|]. specialize (Hr _ Hs). by rewrite H in Hr.
Qed.
Lemma stays_at_path {A} follow p (run : path → node → result A * node) :
  (∀ t q, safe t → locate t follow p = Ok q → safe (run q t).2 ∧ below T t (run q t).2) → preserves stays (at_path follow p run).
Proof using. intros Hr. apply stays_sys. intros t Hs. destruct (locate t follow p) as [q|e] eqn:E; [by apply Hr|done]. Qed.
Lemma stays_at_path_err follow p (run : path → node → option gerror * node) :
  (∀ t q, safe t → locate t follow p = Ok q → safe (run q t).2 ∧ below T t (run q t).2) → preserves stays (at_path_err follow p run).
Proof using.
  intros Hr. unfold at_path_err. walk. apply stays_at_path. intros t q Hs Hq. specialize (Hr t q Hs Hq).
  by destruct (run q t).
Qed.
Lemma stays_stat p : preserves stays (px_stat p).
Proof using. by apply stays_at_path. Qed.
Lemma stays_lstat p : preserves stays (px_lstat p).
Proof using. by apply stays_at_path. Qed.
Lemma stays_make q n t : safe t → q ≠ [] → link_free n → safe (make (T ++ q) n t).2 ∧ below T t (make (T ++ q) n t).2.
Proof using. intros Hs Hq Hn. unfold make. repeat case_match; try done. by apply safe_put. Qed.

(** A directory below the target, or one above it that is there. *)
Lemma stays_mkdir q mode : Forall plain q → preserves stays (px_mkdir umask (abs_path (T ++ q)) mode).
Proof using HT HTp.
  intros Hq. apply stays_at_path_err. intros t x Hs Hx. apply safe_locate in Hx as ->; [|done..].
  destruct (decide (q = [])) as [->|Hne]; [|by apply stays_make].
  rewrite app_nil_r. destruct Hs as (m & es & HTget & Hfree). unfold make. rewrite HTget. rewrite bool_decide_eq_true_2 by (by eexists).
  split; [|done]. by exists m, es.
Qed.
Lemma stays_mkdir_above a b mode : T = a ++ b → preserves stays (px_mkdir umask (abs_path a) mode).
Proof using HT HTp.
  intros Hab. apply stays_at_path_err. intros t x Hs Hx. pose proof Hs as (m & es & HTget & Hfree).
  assert (Hdir : is_dir (tree_get a t) = true) by (apply (is_dir_prefix a b); by rewrite <- Hab, HTget).
  assert (x = a) as ->.
  { destruct (decide (a = [])) as [->|Ha].
    - unfold locate in Hx. change (split (abs_path []) slash) with [""; ""] in Hx. rewrite !resolve_empty, resolve_nil in Hx. by injection Hx.
    - rewrite locate_dir in Hx; [by injection Hx|done| |done]. rewrite Hab in HTp. by apply Forall_app in HTp as [? _]. }
  unfold make. destruct (tree_get a t) as [n|]; [|done]. rewrite bool_decide_eq_true_2 by (by eexists). done.
Qed.
Definition around (l : path) : Prop := (∃ q, Forall plain q ∧ l = T ++ q) ∨ ∃ b, T = l ++ b.
Lemma stays_mkdir_all l mode : around (rev l) → preserves stays (mkdir_all umask l mode).
Proof using HT HTp.
  induction l as [|c l IH]; intros Hl; cbn [mkdir_all].
  - walk; apply stays_stat.
  - walk; [apply stays_stat| | |apply stays_lstat].
    + apply IH. cbn [rev] in Hl. destruct Hl as [(q & Hq & Hl)|[b Hb]].
      * destruct q as [|x q _] using rev_ind.
        -- right. exists [c]. rewrite app_nil_r in Hl. done.
        -- left. rewrite (assoc_L (++)) in Hl. apply app_inj_tail in Hl as [-> _]. exists q. apply Forall_app in Hq as [Hq _]. done.
      * right. exists ([c] ++ b). by rewrite (assoc_L (++)).
    + destruct Hl as [(q & Hq & ->)|[b Hb]]; [by apply stays_mkdir|by eapply stays_mkdir_above].
Qed.
Lemma stays_px_mkdir_all p mode : p ≠ [] → Forall plain p → around p → preserves stays (px_mkdir_all umask (abs_path p) mode).
Proof using HT HTp.
  intros Hne Hp Ha. unfold px_mkdir_all. apply stays_mkdir_all. rewrite rev_involutive, components_abs by done. done.
Qed.
Lemma stays_put_file q mode data sync : q ≠ [] → Forall plain q → preserves stays (put_file umask (abs_path (T ++ q)) mode data sync).
Proof using HT HTp.
  intros Hne Hq w r w' H Hs. unfold put_file in H. run_bind H.
  assert (Hc : preserves stays (px_create_excl umask (abs_path (T ++ q)) mode)).
  { unfold px_create_excl. apply stays_at_path. intros t x Hst Hx. apply safe_locate in Hx as ->; [|done..].
    pose proof (stays_make q (File "" (new_mode umask mode)) t Hst Hne (link_free_file _ _)) as Hm. by destruct (make _ _ _). }
  destruct (Hc _ _ _ E Hs) as [Hs1 Hb1]. destruct a as [x|e]; [|run_ret H; done].
  assert (Hx : x = T ++ q).
  { unfold px_create_excl, at_path in E. apply sys_inv in E as [[? _]|E]; [done|].
    destruct (locate (fs_tree w) false (abs_path (T ++ q))) as [y|e] eqn:El; [|done]. apply safe_locate in El as ->; [|done..].
    destruct (make _ _ _) as [[e|] t']; [done|]. by injection E. }
  subst x. assert (Hrest : preserves stays (let* e := (match data with Ok d => file_write (T ++ q) d | Err e => ret (Some e) end) in
     let* s := (if sync then file_sync else ret None) in let* c := file_close in
     ret (match e with Some _ => e | None => match s with Some _ => s | None => c end end))).
  { assert (Hid : preserves stays (sys_err (λ t, (None, t)))).
    { unfold sys_err. walk. by apply stays_sys. }
    walk; try exact Hid. unfold file_write, sys_err. walk. apply stays_sys. intros t Hst.
    destruct (tree_get (T ++ q) t) as [[d' m| |]|]; [by apply safe_put|done..]. }
  destruct (Hrest _ _ _ H Hs1) as [Hs2 Hb2]. split; [done|]. by etrans.
Qed.

Lemma around_parent q : Forall plain q → around (parent (T ++ q)).
Proof using HT HTp.
  intros Hq. destruct q as [|x q _] using rev_ind.
  - right. rewrite app_nil_r. destruct (split_last T HT) as (d & c & Hd). rewrite Hd. exists [c]. by rewrite parent_child.
  - left. exists q. apply Forall_app in Hq as [Hq _]. split; [done|]. rewrite (assoc_L (++)). apply parent_child.
Qed.

Definition no_symlink (e : entry) : Prop := hd_type e.1 ≠ TypeSymlink.
Lemma extract_entry_stays e : no_symlink e → preserves stays (extract_entry umask (abs_path T) e).
Proof using HT HTp.
  destruct e as [h data]. unfold no_symlink. cbn [fst]. intros Hl. unfold extract_entry.
  destruct (safePath (abs_path T) (hd_name h)) as [p|e] eqn:Hp; [|walk].
  apply safePath_inv in Hp as (q & Hq & Hqp & ->); [|done..].
  assert (Hfull : Forall plain (T ++ q)) by by apply Forall_app.
  destruct (hd_type h) eqn:Ht; [| |done|walk].
  - pose proof (around_parent q Hqp) as Ha. destruct (split_last (T ++ q)) as (d & c & Hd); [by destruct T|].
    rewrite Hd in Hfull, Ha |- *. rewrite parent_child in Ha. pose proof Hfull as [Hdp Hc]%Forall_app. apply (Forall_singleton plain) in Hc.
    assert (Hdne : d ≠ []).
    { intros ->. destruct T as [|x T'], q as [|y q']; try done. by destruct T'. }
    rewrite dir_name_child by done. walk; [by apply stays_px_mkdir_all|]. rewrite <- Hd. by apply stays_put_file.
  - apply stays_px_mkdir_all; [by destruct T|done|]. left. by exists q.
Qed.

(** C15. Extraction writes nothing outside its target when the archive holds no
    symbolic link and none is below the target: whatever the entries are named,
    and whichever system calls fail. *)
Theorem extract_confined es w e w' :
  Forall no_symlink es → safe (fs_tree w) →
  extract_entries umask (abs_path T) es w = (e, w') → safe (fs_tree w') ∧ below T (fs_tree w) (fs_tree w').
Proof using HT HTp.
  intros Hes Hs H. revert Hs. change (stays w w'). revert w e w' H.
  change (preserves stays (extract_entries umask (abs_path T) es)).
  induction Hes as [|x es Hx Hes IH]; cbn [extract_entries]; walk; [by apply extract_entry_stays|exact IH].
Qed.
End Target.

(** ** Links that leave the target

    Each link of the archive passes the test on its text, and the second is
    followed through the first: [q] is the target itself, so [q/..] is its parent. *)
Definition escape_archive : list entry :=
  [(mkHeader "q" TypeSymlink 511 ".", Ok ""); (mkHeader "p" TypeSymlink 511 "q/..", Ok "");
   (mkHeader "p/evil" TypeReg 384 "", Ok "written")].
Definition escape_tree : node := Dir 493 {["srv" := Dir 493 {["stage" := Dir 448 ∅]}]}.

(** ** What verification establishes *)

Section Sound.
Context {SHA : Sha256} {MO : MapOrder}.

(** A read that succeeded, against the same read without failures. *)
Definition reads {A} (m : M fs (result A)) : Prop := ∀ w a w',
  m w = (Ok a, w') → fs_tree w' = fs_tree w ∧ m (mkFs (fs_tree w) [] 0) = (Ok a, mkFs (fs_tree w) [] 0).
Lemma reads_at_path {A} follow p (run : path → node → result A * node) : (∀ q t, (run q t).2 = t) → reads (at_path follow p run).
Proof using.
  intros Hr w a w' H. unfold at_path in *. apply sys_inv in H as [[? _]|H]; [done|]. unfold sys. cbn [fs_faults fs_tree fs_clock].
  destruct (locate (fs_tree w) follow p) as [q|e]; [|done]. specialize (Hr q (fs_tree w)).
  destruct (run q (fs_tree w)) as [r t] eqn:E. cbn [snd] in Hr. injection H as Ha Ht. subst. by split.
Qed.
Lemma reads_lstat p : reads (px_lstat p).
Proof using. by apply reads_at_path. Qed.
Lemma reads_readlink p : reads (px_readlink p).
Proof using. by apply reads_at_path. Qed.
Lemma reads_file p : reads (px_read_file p).
Proof using. by apply reads_at_path. Qed.
Lemma reads_ret {A} (r : result A) : reads (ret r).
Proof using. by intros w a w' [= -> <-]. Qed.
Lemma reads_try {A B} (m : M fs (result A)) (k : A → M fs (result B)) : reads m → (∀ a, reads (k a)) → reads (try_ok m k).
Proof using.
  intros Hm Hk w b w' H. run_bind H. destruct a as [a|e]; [|run_absurd H].
  destruct (Hm _ _ _ E) as [Ht E']. destruct (Hk a _ _ _ H) as [Ht' H']. split; [congruence|].
  rewrite (ok_then _ _ _ _ _ E'). by rewrite <- Ht.
Qed.
Lemma reads_close {A} (a : A) : reads (let* c := file_close in ret (match c with Some e => Err e | None => Ok a end)).
Proof using.
  intros w b w' H. run_bind H. destruct a0 as [e|]; run_ret H; [done|]. split; [by eapply file_close_keeps|done].
Qed.
Lemma reads_digestPath p : reads (digestPath p).
Proof using.
  unfold digestPath. apply reads_try; [apply reads_lstat|]. intros n.
  destruct n as [data m|l|m es].
  - apply reads_try; [apply reads_file|]. intros x. apply reads_close.
  - apply reads_try; [apply reads_readlink|]. intros x. apply reads_ret.
  - apply reads_try; [apply reads_file|]. intros x. apply reads_close.
Qed.

(** The object of that name has that digest. *)
Definition holds (root : string) (t : node) (name d : string) : Prop :=
  ∃ p, safePath root name = Ok p ∧ digestPath p (mkFs t [] 0) = (Ok d, mkFs t [] 0).
Lemma check_files_sound root l w w' : check_files root l w = (None, w') →
  fs_tree w' = fs_tree w ∧ Forall (λ nd, holds root (fs_tree w) nd.1 nd.2) l.
Proof using.
  revert w. induction l as [|[name d] l IH]; intros w H; cbn [check_files] in H; [run_ret H; by split|].
  destruct (safePath root name) as [p|e] eqn:Hp; [|run_absurd H]. run_bind H. destruct a as [got|e]; [|run_absurd H].
  destruct (bool_decide (got = d)) eqn:Hd; [|run_absurd H]. apply bool_decide_eq_true in Hd as ->.
  destruct (reads_digestPath p _ _ _ E) as [Ht Hread]. destruct (IH _ H) as [Ht' Hl]. rewrite Ht in *.
  split; [congruence|]. constructor; [|done]. by exists p.
Qed.
End Sound.
