(* ===== verification/ManifestText.v ===== *)
(** The manifest of a backup as JSON: it is read back as it was written. *)
From stdpp Require Import pretty.
From S2P Require Import Prelude GoStrings Quote Config Json Sha256 Domain FileSys TreeWalk Backup.

(** ASCII text is valid UTF-8. *)
Lemma runes_fuel_ascii fuel s : Forall (λ c, code c < 128) s →
  forallb (λ rb : Z * list ascii, negb ((rb.1 =? rune_error) && (length rb.2 =? 1)%nat)) (runes_fuel fuel s) = true.
Proof.
  revert s. induction fuel as [|fuel IH]; intros s H; [done|]. destruct H as [|c s Hc Hs]; [done|].
  cbn [runes_fuel]. unfold decode_rune. replace (code c <? 128) with true by lia.
  cbn. rewrite IH by done. unfold rune_error. pose proof (code_bounds c). lia.
Qed.
Lemma ascii_utf8 s : Forall (λ c, code c < 128) (chars s) → valid_utf8 s = true.
Proof. apply runes_fuel_ascii. Qed.
Lemma sha256_utf8 `{!Sha256} s : valid_utf8 (sha256_hex s) = true.
Proof.
  apply ascii_utf8. eapply Forall_impl; [apply sha256_hex_shape|]. intros c [Hc|Hc]; [|lia].
  unfold is_digit_ascii in Hc. lia.
Qed.

(** What can be written: text that is valid UTF-8, a time of four-digit year. *)
Definition manifest_ok (m : Manifest) : Prop :=
  Man_Format m = 1 ∧ rfc3339_ok (Man_CreatedAt m) = true ∧ valid_utf8 (Man_CreatedAt m) = true
  ∧ (valid_utf8 (V_Controller (Man_Versions m)) && valid_utf8 (V_Commit (Man_Versions m))
     && valid_utf8 (V_Endpoint (Man_Versions m)) = true)
  ∧ map_Forall (λ k v, valid_utf8 k = true ∧ valid_utf8 v = true) (Man_Files m).

Lemma read_files l m : NoDup l.*1 → (∀ k v, (k, v) ∈ l → m !! k = None) →
  read_members set_file m ((λ kv : string * string, (kv.1, JString kv.2)) <$> l) = Ok (list_to_map l ∪ m).
Proof.
  revert m. induction l as [|[k v] l IH]; intros m Hnd Hm; [cbn; by rewrite (left_id_L ∅ (∪))|].
  apply NoDup_cons in Hnd as [Hk Hnd]. rewrite fmap_cons. cbn [read_members fst snd set_file read_text map_ok].
  rewrite IH; [|done|].
  - f_equal. cbn. rewrite <- insert_union_l, insert_union_r; [done|]. by apply not_elem_of_list_to_map_1.
  - intros k' v' H. rewrite lookup_insert_ne; [eapply Hm; by right|]. intros <-. apply Hk, list_elem_of_fmap. by exists (k, v').
Qed.
Lemma manifest_json_ok m : manifest_ok m → json_ok (manifest_json m) = true.
Proof.
  intros (Hf & Hr & Ht & Hv & Hm). unfold manifest_json. rewrite Hf. apply andb_true_iff in Hv as [[Hv1 Hv2]%andb_true_iff Hv3].
  assert (Hfiles : json_ok (JObject ((λ kv : string * string, (kv.1, JString kv.2)) <$> sort_by fst (map_to_list (Man_Files m)))) = true).
  { cbn [json_ok]. apply forallb_forall. intros kv (x & Hkv & Hx)%list_elem_of_In%list_elem_of_fmap.
    destruct x as [k v]. subst kv. rename Hx into H. rewrite sort_by_perm in H.
    apply elem_of_map_to_list in H. cbn [fst snd json_ok]. destruct (Hm _ _ H) as [-> ->]. done. }
  remember (JObject (_ <$> sort_by fst _)) as files. cbn [json_ok forallb fst snd].
  fold (json_ok files). rewrite Hfiles, Ht, Hv1, Hv2, Hv3. vm_compute. reflexivity.
Qed.
Lemma manifest_read_back m : manifest_ok m → manifest_unmarshal (manifest_text m) = Ok m.
Proof.
  intros H. unfold manifest_unmarshal, manifest_text, json_indented.
  replace (of_chars (json_text true 0 (manifest_json m)) +:+ String "010" "") with (of_chars (json_text true 0 (manifest_json m) ++ ["010"%char]))
    by (apply chars_inj; rewrite chars_app, !chars_of_chars; done).
  rewrite json_parse_text by (first [by apply manifest_json_ok|done]).
  destruct H as (Hf & Hr & _ & _ & Hm). unfold manifest_json. rewrite Hf. cbn [read_object read_members].
  destruct m as [f c v fs]. cbn [Man_Format Man_CreatedAt Man_Versions Man_Files] in *. subst f. destruct v as [v1 v2 v3].
  change (set_manifest zero_manifest "format" (JNumber (integer_text 1))) with (Ok (mkManifest 1 "0001-01-01T00:00:00Z" (mkVersions "" "" "") ∅)).
  cbv iota beta.
  assert (∀ o, set_manifest o "created_at" (JString c) = Ok (mkManifest (Man_Format o) c (Man_Versions o) (Man_Files o))) as ->.
  { intros o. unfold set_manifest. change (field_is "created_at" "format") with false. change (field_is "created_at" "created_at") with true.
    cbv iota. by rewrite Hr. }
  cbn [V_Controller V_Commit V_Endpoint].
  assert (∀ o, set_manifest o "versions" (JObject [("Controller", JString v1); ("Commit", JString v2); ("Endpoint", JString v3)])
               = Ok (mkManifest (Man_Format o) (Man_CreatedAt o) (mkVersions v1 v2 v3) (Man_Files o))) as ->.
  { intros o. unfold set_manifest. change (field_is "versions" "format") with false. change (field_is "versions" "created_at") with false.
    change (field_is "versions" "versions") with true. cbv iota. cbn [read_object read_members]. unfold set_version.
    change (field_is "Controller" "Controller") with true. change (field_is "Commit" "Controller") with false.
    change (field_is "Commit" "Commit") with true. change (field_is "Endpoint" "Controller") with false.
    change (field_is "Endpoint" "Commit") with false. change (field_is "Endpoint" "Endpoint") with true. done. }
  unfold set_manifest. change (field_is "files" "format") with false. change (field_is "files" "created_at") with false.
  change (field_is "files" "versions") with false. change (field_is "files" "files") with true. cbv iota. cbn [read_object].
  cbn [Man_Files]. rewrite read_files.
  - rewrite (right_id_L ∅ (∪)). cbn [map_ok read_members]. do 2 f_equal.
    rewrite <- (list_to_map_to_list fs) at 2. apply list_to_map_proper; [|apply sort_by_perm].
    rewrite sort_by_perm. apply NoDup_fst_map_to_list.
  - rewrite sort_by_perm. apply NoDup_fst_map_to_list.
  - intros. apply lookup_empty.
Qed.
