(* ===== verification/BackupSpec.v ===== *)
(** What the backups guarantee: an archive of a tree is extracted to the same
    tree, what was created verifies and restores; and one chain of links that
    leaves the directory an archive is extracted to. *)
From stdpp Require Import pretty.
From S2P Require Import Prelude GoStrings GoPath Quote Config Json Sha256 Domain GoTime FileSys PathFacts PosixFs TreeWalk PosixFacts Backup ManifestText.

Lemma put_file_new umask t d c k mode data sync :
  Forall plain d → is_dir (tree_get d t) = true → plain c → tree_get (d ++ [c]) t = None →
  put_file umask (abs_path (d ++ [c])) mode (Ok data) sync (calm t k)
  = (None, calm (tree_put (d ++ [c]) (Some (File data (new_mode umask mode))) t) k).
Proof.
  intros Hd Hdir Hc Hnew. unfold put_file, bind. unfold px_create_excl. rewrite at_path_calm, locate_new by done.
  rewrite make_child by done. cbn [fst snd]. unfold file_write, sys_err, bind, sys. cbn [fs_faults fs_tree fs_clock].
  rewrite tree_get_put_eq by (first [by destruct d|by rewrite parent_child]). cbn [fst snd tail].
  rewrite tree_put_twice by by destruct d. by destruct sync.
Qed.

(** ** Paths *)

Lemma safePath_plain T q :
  T ≠ [] → Forall plain T → q ≠ [] → Forall plain q → safePath (abs_path T) (join_strings "/" q) = Ok (abs_path (T ++ q)).
Proof.
  intros HT HTp Hq Hqp. unfold safePath. rewrite clean_rel by done.
  assert (Hs : split (join_strings "/" q) slash = q) by (apply split_join; [done|by apply Forall_plain_no_slash]).
  pose proof (is_abs_join q Hq Hqp) as Habs.
  assert (Hspecial : ∀ s, join_strings "/" q = s → split s slash = q) by (intros ? <-; done).
  rewrite !bool_decide_eq_false_2, Habs; cbn [orb].
  - destruct (has_prefix (join_strings "/" q) "../") eqn:E; [|by rewrite join_abs].
    apply dotdot_prefix in E as [l E]. rewrite Hs in E. subst q. apply Forall_cons in Hqp as [(_ & _ & _ & ?) _]. done.
  - intros E%Hspecial. cbn in E. subst q. apply Forall_cons in Hqp as [(_ & _ & _ & ?) _]. done.
  - intros E%Hspecial. cbn in E. subst q. apply Forall_cons in Hqp as [(_ & _ & ? & _) _]. done.
Qed.
(** The paths of a walk. *)
Lemma join_root T q : T ≠ [] → Forall plain T → q ≠ [] → Forall plain q →
  join_path [abs_path T; join_strings "/" q] = abs_path (T ++ q).
Proof. intros. by apply join_abs. Qed.

(** ** Extraction builds the tree again *)

Section Rebuild.
Context {SHA : Sha256} {TG : TarGz} {MO : MapOrder}.
Variable umask : Z.

(** What an archive can carry: names the file system allows, modes the mask
    leaves alone, links that do not point out. *)
Definition obj_ok (n : node) : Prop :=
  match n with
  | File _ m | Dir m _ => new_mode umask m = m
  | Link l => unsafe_link l = false
  end.
Definition entry_ok (q : path) (n : node) : Prop := Forall plain q ∧ obj_ok n.
Definition archive_entry (qn : path * node) : header * string :=
  let name := join_strings "/" qn.1 in
  match qn.2 with
  | Dir m _ => (mkHeader name TypeDir m "", "")
  | Link l => (mkHeader name TypeSymlink 511 l, "")
  | File d m => (mkHeader name TypeReg m "", d)
  end.
(** The archive of a tree: all its objects but the root. *)
Definition archive_of (n : node) : list (header * string) := archive_entry <$> tail (walk n).

Lemma extract_entry_ok T k q n t :
  T ≠ [] → Forall plain T → q ≠ [] → entry_ok q n →
  is_dir (tree_get (parent (T ++ q)) t) = true → tree_get (T ++ q) t = None →
  extract_entry umask (abs_path T) (prod_map id Ok (archive_entry (q, n))) (mkFs t [] k)
  = (None, mkFs (tree_put (T ++ q) (Some (shell n)) t) [] k).
Proof using.
  intros HT HTp Hq [Hqp Hobj] Hdir Hnone. destruct (split_last q Hq) as (d & c & ->).
  assert (Forall plain (T ++ d) ∧ plain c) as [Hd Hc].
  { apply Forall_app in Hqp as [Hqd Hqc]. apply (Forall_singleton plain) in Hqc. split; [apply Forall_app; by split|exact Hqc]. }
  assert (T ++ d ≠ []) as Hne by (by destruct T).
  rewrite (assoc_L (++)) in *. rewrite parent_child in Hdir.
  assert (∀ h, hd_name h = join_strings "/" (d ++ [c]) → safePath (abs_path T) (hd_name h) = Ok (abs_path ((T ++ d) ++ [c]))) as Hsafe.
  { intros h ->. rewrite safePath_plain by done. by rewrite (assoc_L (++)). }
  unfold extract_entry. destruct n as [data m|l|m es]; cbn [archive_entry prod_map fst snd id]; rewrite Hsafe by done;
    cbn [hd_type hd_mode hd_linkname]; cbn [obj_ok] in Hobj.
  - rewrite dir_name_child by done. unfold try_err, bind. rewrite mkdir_all_existing by done.
    rewrite put_file_new by done. by rewrite Hobj.
  - rewrite Hobj, dir_name_child by done. unfold try_err, bind. rewrite mkdir_all_existing by done. by apply symlink_new.
  - rewrite mkdir_all_new by done. by rewrite Hobj.
Qed.

Lemma extract_entries_put_all T l w :
  extract_entries umask (abs_path T) (prod_map id Ok <$> (archive_entry <$> l)) w
  = put_all (λ q n, extract_entry umask (abs_path T) (prod_map id Ok (archive_entry (q, n)))) l w.
Proof using.
  revert w. induction l as [|[q n] l IH]; intros w; [done|]. rewrite !fmap_cons. cbn [extract_entries put_all].
  unfold try_err, bind. destruct (extract_entry _ _ _ w) as [[e|] w']; [done|apply IH].
Qed.
Definition tree_ok (n : node) : Prop := ∀ q n', tree_get q n = Some n' → entry_ok q n'.

(** Extracting the archive of a tree into an empty directory. *)
Lemma extract_tree T k m m' es t :
  T ≠ [] → Forall plain T → tree_ok (Dir m' es) → is_dir (tree_get (parent T) t) = true → tree_get T t = Some (Dir m ∅) →
  extract_entries umask (abs_path T) (prod_map id Ok <$> archive_of (Dir m' es)) (mkFs t [] k)
  = (None, mkFs (tree_put T (Some (Dir m es)) t) [] k).
Proof using.
  intros HT HTp Hok Hdir Hget. unfold archive_of. rewrite extract_entries_put_all.
  apply (replay_root _ T k (λ q n, q ≠ [] ∧ entry_ok q n) (λ _, True)); try done.
  - intros q n t' [Hq Hqn] _. by apply extract_entry_ok.
  - intros q n' Hq Hn'. split; [done|by apply Hok].
Qed.

(** ** Reading the tree back *)

Section Reading.
Context {t : node} {R : path} {n : node} {k : Z}.
Hypothesis HR : R ≠ [].
Hypothesis HRp : Forall plain R.
Hypothesis Hget : tree_get R t = Some n.
Hypothesis Hplain : ∀ q n', tree_get q n = Some n' → Forall plain q.
Lemma below_root q n' : (q, n') ∈ walk n →
  R ++ q ≠ [] ∧ Forall plain q ∧ Forall plain (R ++ q) ∧ tree_get (R ++ q) t = Some n'.
Proof using HR HRp Hget Hplain.
  intros H%walk_get. assert (Forall plain q) by by eapply Hplain. split; [by destruct R|]. split; [done|].
  split; [by apply Forall_app|]. by rewrite tree_get_app, Hget.
Qed.
Lemma archive_walk_list l : (∀ q n', (q, n') ∈ l → (q, n') ∈ walk n) → (∀ q n', (q, n') ∈ l → q ≠ []) →
  archive_walk (abs_path R) l (mkFs t [] k) = (Ok (archive_entry <$> l), mkFs t [] k).
Proof using HR HRp Hget Hplain.
  induction l as [|[q n'] l IH]; intros Hin Hne; [done|].
  destruct (below_root q n') as (H1 & H2 & H3 & H4); [apply Hin; left|]. assert (q ≠ []) as Hq by (eapply Hne; left).
  destruct q as [|c q]; [done|]. cbn [archive_walk]. rewrite join_root by done.
  assert (archive_one (abs_path (R ++ c :: q)) (c :: q) n' (mkFs t [] k) = (Ok (archive_entry (c :: q, n')), mkFs t [] k)) as Hone.
  { unfold archive_one. destruct n' as [d m|l'|m es]; [by call (read_file_get (k:=k) H1 H3 H4 _ _ eq_refl)|
      by call (readlink_get (k:=k) H1 H3 H4 _ eq_refl)|done]. }
  call Hone. specialize (IH ltac:(intros; apply Hin; by right) ltac:(intros; eapply Hne; by right)). by call IH.
Qed.

(** The archive that is written, and the digests. *)
Lemma archive_entries_calm : (let? l := px_walk (abs_path R) in archive_walk (abs_path R) l) (mkFs t [] k)
  = (Ok (archive_of n), mkFs t [] k).
Proof using HR HRp Hget Hplain.
  call (walk_get_calm (k:=k) HR HRp Hget). destruct (walk_head n) as (l & Hl & Hne). unfold archive_of. rewrite Hl. cbn [archive_walk tail].
  apply archive_walk_list; [|done]. intros q n' Hq. rewrite Hl. by right.
Qed.
Definition digest_map (l : list (path * node)) (acc : gmap string string) : gmap string string :=
  foldl (λ acc qn, match digest_text qn.2 with Some d => <[join_strings "/" qn.1 := d]> acc | None => acc end) acc l.
Lemma digestPath_get q n' d : (q, n') ∈ walk n → digest_text n' = Some d →
  digestPath (abs_path (R ++ q)) (mkFs t [] k) = (Ok d, mkFs t [] k).
Proof using HR HRp Hget Hplain.
  intros Hin Hd. destruct (below_root q n' Hin) as (H1 & H2 & H3 & H4). unfold digestPath.
  call (lstat_get (k:=k) H1 H3 H4). destruct n' as [data m|l|m es]; [| |done]; injection Hd as <-.
  - call (read_file_get (k:=k) H1 H3 H4 _ _ eq_refl). by call (file_close_calm t k).
  - by call (readlink_get (k:=k) H1 H3 H4 _ eq_refl).
Qed.
Lemma digests_calm l acc : (∀ q n', (q, n') ∈ l → (q, n') ∈ walk n) → (∀ q n', (q, n') ∈ l → q = [] → is_dir (Some n') = true) →
  digests (abs_path R) l acc (mkFs t [] k) = (Ok (digest_map l acc), mkFs t [] k).
Proof using HR HRp Hget Hplain.
  revert acc. induction l as [|[q n'] l IH]; intros acc Hin Hd; [done|]. cbn [digests digest_map foldl fst snd].
  fold (digest_map l). specialize (λ acc, IH acc ltac:(intros; apply Hin; by right) ltac:(intros; eapply Hd; [by right|done])).
  destruct n' as [data m|l'|m es] eqn:En; [| |apply IH]; rewrite <- En in *.
  all: assert (Hq : q ≠ []) by (intros ->; assert (is_dir (Some n') = true) by (eapply Hd; [by left|done]); by subst n').
  all: destruct (below_root q n') as (H1 & H2 & H3 & H4); [apply Hin; by left|]; rewrite join_root by done.
  all: assert (∃ d, digest_text n' = Some d) as [d Ed] by (subst n'; by eexists).
  all: call (digestPath_get q n' d ltac:(apply Hin; by left) Ed); rewrite IH, Ed; done.
Qed.

(** Checksums of what is there. *)
Lemma check_files_calm l :
  (∀ name d, (name, d) ∈ l → ∃ q n', name = join_strings "/" q ∧ q ≠ [] ∧ tree_get q n = Some n' ∧ digest_text n' = Some d) →
  check_files (abs_path R) l (mkFs t [] k) = (None, mkFs t [] k).
Proof using HR HRp Hget Hplain.
  induction l as [|[name d] l IH]; intros Hl; [done|]. cbn [check_files].
  destruct (Hl name d) as (q & n' & -> & Hq & Hn' & Hd); [left|]. pose proof Hn' as Hin. apply walk_get in Hin.
  rewrite safePath_plain by (try done; by eapply Hplain). call (digestPath_get q n' d Hin Hd).
  rewrite bool_decide_eq_true_2 by done. apply IH. intros; eapply Hl; by right.
Qed.
End Reading.

(** ** Verification *)

(** The tree holds its manifest, and what the manifest lists. *)
Definition sealed (man : Manifest) (n : node) : Prop :=
  manifest_ok man ∧ (∃ m, tree_get ["backup-manifest.json"] n = Some (File (manifest_text man) m))
  ∧ ∀ name d, Man_Files man !! name = Some d →
      ∃ q n', name = join_strings "/" q ∧ q ≠ [] ∧ tree_get q n = Some n' ∧ digest_text n' = Some d.
Lemma tree_ok_plain n q n' : tree_ok n → tree_get q n = Some n' → Forall plain q.
Proof using. intros H Hq. by apply (H q n'). Qed.
Lemma verifyDir_sealed man R n t k :
  R ≠ [] → Forall plain R → tree_get R t = Some n → tree_ok n → sealed man n →
  verifyDir (abs_path R) (mkFs t [] k) = (Ok man, mkFs t [] k).
Proof using.
  intros HR HRp Hget Hok (Hman & [m Hm] & Hfiles). unfold verifyDir.
  assert (plain "backup-manifest.json") as Hpl by by apply (bool_decide_unpack _).
  change (join_path [abs_path R; "backup-manifest.json"]) with (join_path [abs_path R; join_strings "/" ["backup-manifest.json"]]).
  rewrite join_root by (try done; by apply Forall_singleton).
  assert (Hread : px_read_file (abs_path (R ++ ["backup-manifest.json"])) (mkFs t [] k) = (Ok (manifest_text man), mkFs t [] k)).
  { eapply read_file_get; [by destruct R|apply Forall_app; split; [done|by apply Forall_singleton]| |done].
    rewrite tree_get_app, Hget. exact Hm. }
  call Hread. rewrite manifest_read_back by done. destruct Hman as [Hf _]. rewrite Hf.
  assert (Hcheck : check_files (abs_path R) (map_range (Man_Files man)) (mkFs t [] k) = (None, mkFs t [] k)).
  { eapply check_files_calm; [done..|intros; by eapply tree_ok_plain|]. intros name d H.
    rewrite map_range_perm in H. apply elem_of_map_to_list in H. by apply Hfiles. }
  change (negb (1 =? 1)) with false. cbv iota. by call Hcheck.
Qed.

Lemma extract_archive A T k m ma es m' t :
  A ≠ [] → Forall plain A → tree_get A t = Some (File (targz_write (archive_of (Dir m' es))) ma) →
  T ≠ [] → Forall plain T → tree_ok (Dir m' es) → is_dir (tree_get (parent T) t) = true → tree_get T t = Some (Dir m ∅) →
  extract umask (abs_path A) (abs_path T) (mkFs t [] k) = (None, mkFs (tree_put T (Some (Dir m es)) t) [] k).
Proof using.
  intros HA HAp HAget HT HTp Hok Hdir Hget. unfold extract. call (read_file_get (k:=k) HA HAp HAget _ _ eq_refl).
  rewrite targz_read_write. pose proof (extract_tree T k m m' es t HT HTp Hok Hdir Hget) as Hex.
  by call Hex.
Qed.
Lemma sealed_mode man m m' es : sealed man (Dir m es) → sealed man (Dir m' es).
Proof using.
  intros (Hman & Hm & Hf). split; [done|]. split; [exact Hm|]. intros name d H. destruct (Hf name d H) as (q & n' & ? & Hq & Hget & Hd).
  exists q, n'. split; [done|]. split; [done|]. by destruct q.
Qed.
Lemma tree_ok_mode m m' es : new_mode umask m' = m' → tree_ok (Dir m es) → tree_ok (Dir m' es).
Proof using.
  intros Hm Hok q n' Hget. destruct q as [|c q].
  - injection Hget as <-. split; [constructor|done].
  - by apply Hok.
Qed.

(** Verifying the archive of a sealed tree succeeds, tells the manifest and
    leaves the file system as it was. *)
Theorem Verify_accepts man A ma m es t k :
  new_mode umask 448 = 448 → A ≠ [] → Forall plain A → is_dir (tree_get ["tmp"] t) = true →
  tree_get A t = Some (File (targz_write (archive_of (Dir m es))) ma) → tree_ok (Dir m es) → sealed man (Dir m es) →
  Verify umask (abs_path A) (mkFs t [] k) = (Ok man, mkFs t [] k).
Proof using.
  intros H448 HA HAp Htmp HAget Hok Hsealed. unfold Verify. set (prefix := "trusttunnel-verify-").
  assert (slash ∉ chars prefix) as Hslash by by apply (bool_decide_unpack _).
  assert (3 <= String.length prefix)%nat as Hlong by (simpl; lia).
  pose proof (work_dir_plain prefix t Hslash Hlong) as HWp. set (W := work_dir prefix t) in *.
  call (mkdir_temp_calm (k:=k) (prefix:=prefix) Htmp). fold W.
  assert (Hex : extract umask (abs_path A) (abs_path W) (mkFs (tree_put W (Some (Dir 448 ∅)) t) [] k)
                = (None, mkFs (tree_put W (Some (Dir 448 es)) t) [] k)).
  { erewrite extract_archive; [by rewrite tree_put_twice|done|done|by apply work_dir_get|done|done|done| |by apply tree_get_put_eq].
    apply tree_get_put_dir; [done..|]. intros [r Hr]. done. }
  assert (Hv : verifyDir (abs_path W) (mkFs (tree_put W (Some (Dir 448 es)) t) [] k)
               = (Ok man, mkFs (tree_put W (Some (Dir 448 es)) t) [] k)).
  { apply (verifyDir_sealed man W (Dir 448 es)); [done|done|by apply tree_get_put_eq|by eapply tree_ok_mode|by eapply sealed_mode]. }
  unfold bind. rewrite (nil_then _ _ _ _ Hex), Hv. unfold W. by rewrite remove_work_dir.
Qed.

(** ** Restoration *)

Abbreviation stage := ".restore-stage".
Section Inside.
(** A directory and its changing entries. *)
Variables (t : node) (T : path) (m k : Z).
Hypothesis HT : T ≠ [].
Hypothesis HTp : Forall plain T.
Hypothesis Hparent : is_dir (tree_get (parent T) t) = true.
Abbreviation inside E := (mkFs (tree_put T (Some (Dir m E)) t) [] k).
Lemma inside_get E r : tree_get (T ++ r) (tree_put T (Some (Dir m E)) t) = tree_get r (Dir m E).
Proof using HT Hparent. rewrite tree_get_app, tree_get_put_eq by done. done. Qed.
Lemma inside_dir E : is_dir (tree_get T (tree_put T (Some (Dir m E)) t)) = true.
Proof using HT Hparent. by rewrite tree_get_put_eq. Qed.
Lemma inside_child E c v : tree_put (T ++ [c]) v (tree_put T (Some (Dir m E)) t) = tree_put T (Some (Dir m (partial_alter (λ _, v) c E))) t.
Proof using HT Hparent. by apply tree_put_child. Qed.

Lemma write_file_inside E c d d' md mode :
  plain c → E !! c = Some (File d' md) →
  px_write_file umask (abs_path (T ++ [c])) d mode (inside E) = (None, inside (<[c := File d md]> E)).
Proof using HT HTp Hparent.
  intros Hc Hget. assert (tree_get (T ++ [c]) (tree_put T (Some (Dir m E)) t) = Some (File d' md)) as Hf.
  { rewrite inside_get. cbn. by rewrite Hget. }
  unfold px_write_file. rewrite at_path_err_calm. erewrite locate_get; [|by destruct T| |exact Hf|done].
  - cbn [fst snd]. rewrite Hf. cbn [fst snd]. by rewrite inside_child.
  - apply Forall_app. split; [done|by apply Forall_singleton].
Qed.
Lemma join_child c : plain c → join_path [abs_path T; c] = abs_path (T ++ [c]).
Proof using HT HTp.
  intros Hc. change (join_path [abs_path T; c]) with (join_path [abs_path T; join_strings "/" [c]]).
  apply join_root; try done. by apply Forall_singleton.
Qed.
Lemma lock_inside pid E : E !! ".controller.lock" = None →
  Lock_Acquire umask pid (abs_path T) (inside E)
  = (None, inside (<[".controller.lock" := File (pretty pid +:+ String "010"%char "") (new_mode umask 384)]> E)).
Proof using HT HTp Hparent.
  intros Hnone. assert (plain ".controller.lock") as Hc by by apply (bool_decide_unpack _).
  unfold Lock_Acquire. unfold abs_path at 1. change ("/" +:+ ?s) with (String slash s). rewrite is_abs_slash. cbn [negb].
  rewrite join_child by done.
  call (mkdir_all_existing umask (k:=k) HT HTp (inside_dir E) 448).
  assert (Hopen : open_lock umask (abs_path (T ++ [".controller.lock"])) (inside E)
                  = (None, inside (<[".controller.lock" := File "" (new_mode umask 384)]> E))).
  { unfold open_lock. rewrite at_path_err_calm, locate_new; [|done|apply inside_dir|done|rewrite inside_get; cbn; by rewrite Hnone].
    rewrite inside_get. cbn [tree_get]. rewrite Hnone. rewrite make_child; [|apply inside_dir|rewrite inside_get; cbn; by rewrite Hnone].
    cbn [fst snd]. by rewrite inside_child. }
  call Hopen. set (E1 := <[".controller.lock" := File "" (new_mode umask 384)]> E).
  assert (Hflock : flock (inside E1) = (None, inside E1)) by done. call Hflock. cbv beta iota.
  assert (H1 := write_file_inside E1 ".controller.lock" "" "" (new_mode umask 384) 384 Hc ltac:(apply lookup_insert_eq)).
  call H1. cbv beta iota. assert (<[".controller.lock" := File "" (new_mode umask 384)]> E1 = E1) as -> by apply insert_insert_eq.
  assert (H2 := write_file_inside E1 ".controller.lock" (pretty pid +:+ String "010"%char "") "" (new_mode umask 384) 384 Hc
    ltac:(apply lookup_insert_eq)).
  call H2. unfold E1. by rewrite insert_insert_eq.
Qed.
Lemma read_dir_inside E : px_read_dir (abs_path T) (inside E) = (Ok (sorted_names E), inside E).
Proof using HT HTp Hparent.
  unfold px_read_dir. rewrite at_path_calm, locate_dir by (try done; apply inside_dir). by rewrite tree_get_put_eq.
Qed.

Lemma remove_inside E c n : plain c → E !! c = Some n → px_remove_all (abs_path (T ++ [c])) (inside E) = (None, inside (delete c E)).
Proof using HT HTp Hparent.
  intros Hc Hn. unfold px_remove_all. rewrite at_path_err_calm. erewrite (locate_get _ _ _ n); [|by destruct T| | |done].
  - cbn [fst snd]. by rewrite inside_child.
  - apply Forall_app. split; [done|by apply Forall_singleton].
  - rewrite inside_get. cbn. by rewrite Hn.
Qed.

(** Moving what was extracted out of the stage. *)
Lemma stage_plain : plain stage.
Proof using. by apply (bool_decide_unpack _). Qed.
Lemma stage_path_plain : Forall plain (T ++ [stage]).
Proof using HTp. apply Forall_app. split; [done|]. apply Forall_singleton, stage_plain. Qed.
Lemma move_inside E F ms c n :
  plain c → c ≠ stage → E !! stage = Some (Dir ms F) → F !! c = Some n → E !! c = None →
  px_rename (join_path [abs_path (T ++ [stage]); c]) (join_path [abs_path T; c]) (inside E)
  = (None, inside (<[c := n]> (<[stage := Dir ms (delete c F)]> E))).
Proof using HT HTp Hparent.
  intros Hc Hcs HE HF Hnone. pose proof stage_path_plain as Hsp.
  assert (T ++ [stage] ≠ []) as Hsne by by destruct T.
  rewrite join_child by done.
  change (join_path [abs_path (T ++ [stage]); c]) with (join_path [abs_path (T ++ [stage]); join_strings "/" [c]]).
  rewrite join_root by (try done; by apply Forall_singleton).
  assert (Hsrc : tree_get ((T ++ [stage]) ++ [c]) (tree_put T (Some (Dir m E)) t) = Some n).
  { rewrite <- (assoc_L (++)), inside_get. cbn [app tree_get]. by rewrite HE, HF. }
  assert (Hdst : tree_get (T ++ [c]) (tree_put T (Some (Dir m E)) t) = None).
  { rewrite inside_get. cbn. by rewrite Hnone. }
  unfold px_rename. rewrite at_path_err_calm. erewrite (locate_get _ _ _ n); [|by destruct T| |exact Hsrc|done].
  2: { apply Forall_app. split; [done|by apply Forall_singleton]. }
  cbn [fst snd]. rewrite locate_new; [|done|apply inside_dir|done|done]. rewrite Hsrc.
  rewrite bool_decide_eq_false_2.
  2: { intros [r Hr]. apply (f_equal length) in Hr. rewrite !length_app in Hr. simpl in Hr. lia. }
  rewrite parent_child, inside_dir, Hdst.
  assert (Htree : tree_put (T ++ [c]) (Some n) (tree_put ((T ++ [stage]) ++ [c]) None (tree_put T (Some (Dir m E)) t))
                  = tree_put T (Some (Dir m (<[c := n]> (<[stage := Dir ms (delete c F)]> E)))) t).
  { rewrite <- (assoc_L (++)), tree_put_below by done. cbn [app tree_put]. rewrite HE. by rewrite inside_child. }
  destruct n; cbn [fst snd]; by rewrite Htree.
Qed.
Lemma move_all_inside l F ms E :
  NoDup l → (∀ c, c ∈ l → plain c ∧ c ≠ stage ∧ is_Some (F !! c) ∧ E !! c = None) →
  ∃ F', move_all (abs_path (T ++ [stage])) (abs_path T) l (inside (<[stage := Dir ms F]> E))
        = (None, inside (<[stage := Dir ms F']> (filter (λ kv, kv.1 ∈ l) F ∪ E))).
Proof using HT HTp Hparent.
  revert F E. induction l as [|c l IH]; intros F E Hnd Hl.
  - exists F. cbn [move_all]. assert (filter (λ kv, kv.1 ∈ []) F ∪ E = E) as ->; [|done]. apply map_eq. intros i. rewrite lookup_union.
    rewrite map_lookup_filter_None_2; [by rewrite (left_id_L None _)|]. right. intros x _ Hx. by apply not_elem_of_nil in Hx.
  - apply NoDup_cons in Hnd as [Hc Hnd]. destruct (Hl c) as (Hp & Hs & [n Hn] & Hnone); [left|].
    cbn [move_all].
    assert (Hmove := move_inside (<[stage := Dir ms F]> E) F ms c n Hp Hs ltac:(apply lookup_insert_eq) Hn
      ltac:(by rewrite lookup_insert_ne by congruence)).
    rewrite insert_insert_eq, (insert_insert_ne E c stage) in Hmove by done.
    destruct (IH (delete c F) (<[c := n]> E) Hnd) as [F' HF'].
    { intros c' Hc'. destruct (Hl c') as (? & ? & ? & ?); [by right|]. assert (c' ≠ c) by congruence.
      rewrite lookup_delete_ne, lookup_insert_ne by done. done. }
    exists F'. call Hmove. rewrite HF'.
    assert (filter (λ kv, kv.1 ∈ l) (delete c F) ∪ <[c := n]> E = filter (λ kv, kv.1 ∈ c :: l) F ∪ E) as ->; [|done]. apply map_eq. intros i. rewrite !lookup_union.
    destruct (decide (i = c)) as [->|Hic].
    + rewrite map_lookup_filter_None_2, lookup_insert_eq by (left; apply lookup_delete_eq).
      erewrite map_lookup_filter_Some_2; [|exact Hn|left]. by rewrite Hnone.
    + rewrite lookup_insert_ne by done. f_equal. apply option_eq. intros x.
      rewrite !map_lookup_filter_Some, lookup_delete_ne by done. simpl. rewrite elem_of_cons. naive_solver.
Qed.
Lemma sorted_names_elem F c : c ∈ sorted_names F ↔ is_Some (F !! c).
Proof using.
  unfold sorted_names. rewrite list_elem_of_fmap. split.
  - intros ([c' n] & -> & H). rewrite sort_by_perm in H. apply elem_of_map_to_list in H. by exists n.
  - intros [n Hn]. exists (c, n). split; [done|]. rewrite sort_by_perm. by apply elem_of_map_to_list.
Qed.
Lemma sorted_names_nodup F : NoDup (sorted_names F).
Proof using. unfold sorted_names. rewrite sort_by_perm. apply NoDup_fst_map_to_list. Qed.
Lemma move_names_inside F ms E :
  (∀ c, is_Some (F !! c) → plain c ∧ c ≠ stage ∧ E !! c = None) →
  ∃ F', move_all (abs_path (T ++ [stage])) (abs_path T) (sorted_names F) (inside (<[stage := Dir ms F]> E))
        = (None, inside (<[stage := Dir ms F']> (F ∪ E))).
Proof using HT HTp Hparent.
  intros H. destruct (move_all_inside (sorted_names F) F ms E (sorted_names_nodup F)) as [F' HF'].
  - intros c Hc%sorted_names_elem. destruct (H c Hc) as (? & ? & ?). done.
  - exists F'. rewrite HF'. assert (filter (λ kv, kv.1 ∈ sorted_names F) F = F) as ->; [|done].
    apply map_filter_id. intros c n Hn. apply sorted_names_elem. by exists n.
Qed.

(** What [Restore] does once the stage is there. *)
Lemma restore_stage_inside man A ma es E m' :
  new_mode umask 448 = 448 → A ≠ [] → Forall plain A →
  tree_get A (tree_put T (Some (Dir m (<[stage := Dir 448 ∅]> E))) t) = Some (File (targz_write (archive_of (Dir m' es))) ma) →
  tree_ok (Dir m' es) → sealed man (Dir m' es) →
  (∀ c, is_Some (es !! c) → c ≠ stage ∧ E !! c = None) →
  ∃ F', restore_stage umask (abs_path A) (abs_path T) (abs_path (T ++ [stage])) (inside (<[stage := Dir 448 ∅]> E))
        = (Ok man, inside (<[stage := Dir 448 F']> (es ∪ E))).
Proof using HT HTp Hparent.
  intros H448 HA HAp HAget Hok Hsealed Hes. pose proof stage_path_plain as Hsp.
  assert (T ++ [stage] ≠ []) as Hsne by by destruct T.
  assert (Hput : tree_put (T ++ [stage]) (Some (Dir 448 es)) (tree_put T (Some (Dir m (<[stage := Dir 448 ∅]> E))) t)
                 = tree_put T (Some (Dir m (<[stage := Dir 448 es]> E))) t).
  { rewrite inside_child. change (partial_alter (λ _, Some ?v) stage ?x) with (<[stage := v]> x). by rewrite insert_insert_eq. }
  assert (Hget : ∀ F, tree_get (T ++ [stage]) (tree_put T (Some (Dir m (<[stage := F]> E))) t) = Some F).
  { intros F. rewrite inside_get. cbn. by rewrite lookup_insert_eq. }
  assert (Hex : extract umask (abs_path A) (abs_path (T ++ [stage])) (inside (<[stage := Dir 448 ∅]> E))
                = (None, inside (<[stage := Dir 448 es]> E))).
  { erewrite extract_archive; [by rewrite Hput|done|done|exact HAget|done|done|done| |apply Hget]. rewrite parent_child. apply inside_dir. }
  assert (Hv : verifyDir (abs_path (T ++ [stage])) (inside (<[stage := Dir 448 es]> E)) = (Ok man, inside (<[stage := Dir 448 es]> E))).
  { apply (verifyDir_sealed man _ (Dir 448 es)); [done|done|apply Hget|by eapply tree_ok_mode|by eapply sealed_mode]. }
  assert (Hnames : px_read_dir (abs_path (T ++ [stage])) (inside (<[stage := Dir 448 es]> E))
                   = (Ok (sorted_names es), inside (<[stage := Dir 448 es]> E))).
  { unfold px_read_dir. rewrite at_path_calm, locate_dir by (try done; by rewrite Hget). by rewrite Hget. }
  destruct (move_names_inside es 448 E) as [F' HF'].
  { intros c Hc. destruct (Hes c Hc). split; [|done]. destruct Hc as [n Hc]. destruct (Hok [c] n) as [Hpl _]; [cbn; by rewrite Hc|].
    by apply (Forall_singleton plain) in Hpl. }
  exists F'. unfold restore_stage. call Hex. call Hv. call Hnames. by call HF'.
Qed.
End Inside.

(** Restoring the archive of a sealed tree into an empty directory puts the
    tree there, beside the lock file, and leaves no stage. *)
Theorem Restore_rebuilds pid man A ma T m m' es t k :
  new_mode umask 448 = 448 → A ≠ [] → Forall plain A → T ≠ [] → Forall plain T → is_dir (tree_get (parent T) t) = true →
  tree_get T t = Some (Dir m ∅) → tree_get A t = Some (File (targz_write (archive_of (Dir m' es))) ma) →
  tree_ok (Dir m' es) → sealed man (Dir m' es) → es !! ".controller.lock" = None → es !! ".restore-stage" = None →
  Restore umask pid (abs_path A) (abs_path T) (mkFs t [] k)
  = (Ok man, mkFs (tree_put T (Some (Dir m (<[".controller.lock" := File (pretty pid +:+ String "010"%char "") (new_mode umask 384)]> es))) t) [] k).
Proof using.
  intros H448 HA HAp HT HTp Hparent HTget HAget Hok Hsealed Hlock Hstage. unfold Restore.
  unfold abs_path at 1. change ("/" +:+ ?s) with (String slash s). rewrite is_abs_slash. cbn [negb].
  pose proof (tree_put_same T t _ HT HTget) as Ht. set (lock := File (pretty pid +:+ _) _).
  set (E := {[".controller.lock" := lock]} : gmap string node).
  assert (Hl : Lock_Acquire umask pid (abs_path T) (mkFs t [] k) = (None, mkFs (tree_put T (Some (Dir m E)) t) [] k)).
  { rewrite <- Ht at 1. by apply lock_inside. }
  assert (Hd : px_read_dir (abs_path T) (mkFs (tree_put T (Some (Dir m E)) t) [] k)
               = (Ok [".controller.lock"], mkFs (tree_put T (Some (Dir m E)) t) [] k)).
  { rewrite read_dir_inside by done. unfold sorted_names, E. by rewrite map_to_list_singleton. }
  assert (HA' : ∀ F, tree_get A (tree_put T (Some F) t) = Some (File (targz_write (archive_of (Dir m' es))) ma)).
  { intros F. rewrite tree_get_put_ne; [done| |].
    - intros [r ->]. rewrite tree_get_app, HTget in HAget. by destruct r.
    - intros [r ->]. rewrite tree_get_app, HAget in HTget. by destruct r. }
  assert (Hm : px_mkdir umask (abs_path (T ++ [stage])) 448 (mkFs (tree_put T (Some (Dir m E)) t) [] k)
               = (None, mkFs (tree_put T (Some (Dir m (<[stage := Dir 448 ∅]> E))) t) [] k)).
  { assert (tree_get (T ++ [stage]) (tree_put T (Some (Dir m E)) t) = None) as Hnone by by rewrite inside_get.
    assert (is_dir (tree_get T (tree_put T (Some (Dir m E)) t)) = true) by by rewrite inside_dir.
    unfold px_mkdir. rewrite at_path_err_calm, locate_new, make_child by (try done; apply stage_plain).
    cbn [fst snd]. by rewrite inside_child, H448. }
  destruct (restore_stage_inside t T m k HT HTp Hparent man A ma es E m') as [F' HF']; [done..| |].
  { intros c Hc. split; [intros ->; rewrite Hstage in Hc; by destruct Hc|]. apply lookup_singleton_ne.
    intros <-. rewrite Hlock in Hc. by destruct Hc. }
  call Hl. unfold restore_locked. unfold bind at 1. call Hd. cbn [existsb]. rewrite bool_decide_eq_true_2 by done. cbn [negb orb].
  rewrite join_child by (try done; apply stage_plain). call Hm. call HF'.
  assert (Hrm : px_remove_all (abs_path (T ++ [stage])) (mkFs (tree_put T (Some (Dir m (<[stage := Dir 448 F']> (es ∪ E)))) t) [] k)
                = (None, mkFs (tree_put T (Some (Dir m (<[".controller.lock" := lock]> es))) t) [] k)).
  { erewrite remove_inside; [|done..|apply stage_plain|apply lookup_insert_eq]. rewrite delete_insert_id.
    - unfold E. rewrite map_union_comm by by apply map_disjoint_singleton_r_2. by rewrite <- insert_union_singleton_l.
    - apply lookup_union_None. split; [done|]. by apply lookup_singleton_ne. }
  by call Hrm.
Qed.
End Rebuild.
