(* ===== verification/BackupCreate.v ===== *)
(** [Create] of [internal/backup/backup.go]: what is copied, digested and written
    when nothing fails, and the round trip through [Restore]. *)
From stdpp Require Import pretty.
From S2P Require Import Prelude GoStrings GoPath Quote Config Json Sha256 Domain GoTime FileSys PathFacts PosixFs TreeWalk PosixFacts Backup ManifestText BackupSpec.

Section Create.
Context {SHA : Sha256} {TG : TarGz} {MO : MapOrder}.
Variable umask : Z.
Variable vacuum : string → result string.

(** ** Copying a tree *)

Definition copy_path (S : path) (q : path) : string :=
  match q with [] => abs_path S | _ => join_path [abs_path S; join_strings "/" q] end.
Lemma walk_with_put_all S T l w :
  walk_with (abs_path S) (copy_one umask (abs_path S) (abs_path T)) l w
  = put_all (λ q n, copy_one umask (abs_path S) (abs_path T) q (copy_path S q) n) l w.
Proof using.
  revert w. induction l as [|[q n] l IH]; intros w; [done|]. cbn [walk_with put_all]. unfold try_err, bind, copy_path.
  destruct (copy_one _ _ _ _ _ _ w) as [[e|] w']; [done|apply IH].
Qed.

Section Copy.
Variables (S T : path) (n0 : node) (k : Z).
Hypothesis HS : S ≠ [].
Hypothesis HSp : Forall plain S.
Hypothesis HTp : Forall plain T.
Hypothesis HT : (2 <= length T)%nat.
Hypothesis Hst : ¬ (S `prefix_of` T).
Hypothesis Hts : ¬ (T `prefix_of` S).
Lemma copy_one_ok q n t :
  entry_ok umask q n → tree_get q n0 = Some n → tree_get S t = Some n0 →
  is_dir (tree_get (parent (T ++ q)) t) = true → tree_get (T ++ q) t = None →
  copy_one umask (abs_path S) (abs_path T) q (copy_path S q) n (mkFs t [] k)
  = (None, mkFs (tree_put (T ++ q) (Some (shell n)) t) [] k).
Proof using HS HSp HTp HT Hst Hts.
  intros [Hqp Hobj] Hq HSget Hdir Hnone.
  assert (HTne : T ≠ []) by (intros ->; simpl in HT; lia).
  assert (Hsrc : tree_get (S ++ q) t = Some n) by by rewrite tree_get_app, HSget.
  assert (Hpath : copy_path S q = abs_path (S ++ q)).
  { unfold copy_path. destruct q; [by rewrite app_nil_r|]. by apply join_root. }
  assert (Hdst : match q with [] => join_path [abs_path T; "."] | _ => join_path [abs_path T; join_strings "/" q] end = abs_path (T ++ q)).
  { destruct q; [rewrite app_nil_r; by apply join_dot|by apply join_root]. }
  assert (S ++ q ≠ [] ∧ Forall plain (S ++ q)) as [Hne Hpl] by (split; [by destruct S|by apply Forall_app]).
  unfold copy_one. rewrite Hpath, Hdst. call (lstat_get (k:=k) Hne Hpl Hsrc).
  destruct (split_last (T ++ q)) as (d & c & Edc); [by destruct T|]. rewrite Edc in *. rewrite parent_child in Hdir.
  assert (Forall plain d ∧ plain c) as [Hd Hc].
  { assert (Forall plain (d ++ [c])) as H by (rewrite <- Edc; by apply Forall_app). apply Forall_app in H as [H1 H2].
    by apply (Forall_singleton plain) in H2. }
  assert (Hdne : d ≠ []).
  { intros ->. apply (f_equal length) in Edc. rewrite length_app in Edc. simpl in Edc. lia. }
  destruct n as [data m|l|m es]; cbn [obj_ok] in Hobj.
  - rewrite dir_name_child by done. call (mkdir_all_existing umask (k:=k) Hdne Hd Hdir 448).
    call (read_file_get (k:=k) Hne Hpl Hsrc _ _ eq_refl). rewrite put_file_new by done. by rewrite Hobj.
  - call (readlink_get (k:=k) Hne Hpl Hsrc _ eq_refl). rewrite dir_name_child by done.
    call (mkdir_all_existing umask (k:=k) Hdne Hd Hdir 448). by apply symlink_new.
  - rewrite mkdir_all_new by done. by rewrite Hobj.
Qed.
Lemma copyTree_calm t :
  tree_ok umask n0 → tree_get S t = Some n0 → is_dir (tree_get (parent T) t) = true → tree_get T t = None →
  copyTree umask (abs_path S) (abs_path T) (mkFs t [] k) = (None, mkFs (tree_put T (Some n0) t) [] k).
Proof using HS HSp HTp HT Hst Hts.
  intros Hok HSget Hdir Hnone. unfold copyTree. call (walk_get_calm (k:=k) HS HSp HSget). rewrite walk_with_put_all.
  pose proof (replay (λ q n, copy_one umask (abs_path S) (abs_path T) q (copy_path S q) n) T k
    (λ q n, entry_ok umask q n ∧ tree_get q n0 = Some n) (λ t, tree_get S t = Some n0)) as H.
  rewrite <- (under_nil (walk n0)), H; [by rewrite app_nil_r|..]; rewrite ?app_nil_r; try done.
  - intros q v t' Hin. rewrite tree_get_put_ne; [done| |].
    + intros Hx. apply Hts. etrans; [by apply prefix_app_r|exact Hx].
    + intros Hx. destruct (prefix_weak_total S T (T ++ q)); [done|by apply prefix_app_r|done|done].
  - intros q n t' [? ?] ? ? ?. by apply copy_one_ok.
  - intros q n' Hq. split; [by apply Hok|done].
  - intros ->. simpl in HT. lia.
Qed.
End Copy.

(** ** The working directory *)

(** What is saved from the data directory [D], beside the database's copy. *)
Definition include (t : node) (D : path) (E : gmap string node) (name : string) : gmap string node :=
  match tree_get (D ++ [name]) t with Some n => <[name := n]> E | None => E end.
Definition saved (t : node) (D : path) (copy : string) : gmap string node :=
  foldl (include t D) {["controller.db" := File copy 384]} included.
(** All of it can be archived. *)
Definition savable (t : node) (D : path) : Prop :=
  ∀ name q n, name ∈ included → tree_get (D ++ name :: q) t = Some n →
    entry_ok umask (name :: q) n ∧ valid_utf8 (join_strings "/" (name :: q)) = true.

Lemma include_lookup t D names E c n :
  foldl (include t D) E names !! c = Some n → E !! c = Some n ∨ (c ∈ names ∧ tree_get (D ++ [c]) t = Some n).
Proof using.
  revert E. induction names as [|name names IH]; intros E H; [by left|]. cbn [foldl] in H. apply IH in H as [H|[H1 H2]].
  - unfold include in H. destruct (tree_get (D ++ [name]) t) as [n'|] eqn:En; [|by left].
    apply lookup_insert_Some in H as [[<- <-]|[_ H]]; [|by left]. right. split; [left|done].
  - right. split; [by right|done].
Qed.
Lemma savable_entry t D name n : savable t D → name ∈ included → tree_get (D ++ [name]) t = Some n → tree_ok umask n.
Proof using.
  intros Hs Hname Hn q n' Hq. destruct (Hs name q n') as [[Hpl Hobj] _]; [done| |].
  - rewrite cons_middle, (assoc_L (++)), tree_get_app, Hn. done.
  - apply Forall_cons in Hpl as [_ Hpl]. done.
Qed.
Lemma included_plain name : name ∈ included → plain name.
Proof using.
  intros H. assert (Forall plain included) as Hp by by apply (bool_decide_unpack _). rewrite Forall_forall in Hp. by apply Hp.
Qed.

Section Work.
Variables (t : node) (W D : path) (k : Z).
Hypothesis HW : (2 <= length W)%nat.
Hypothesis HWp : Forall plain W.
Hypothesis HWparent : is_dir (tree_get (parent W) t) = true.
Hypothesis HD : D ≠ [].
Hypothesis HDp : Forall plain D.
Hypothesis HDdir : is_dir (tree_get D t) = true.
Hypothesis Hapart : ∀ c, ¬ (W `prefix_of` D ++ [c]) ∧ ¬ (D ++ [c] `prefix_of` W).
Abbreviation inside E := (mkFs (tree_put W (Some (Dir 448 E)) t) [] k).
Lemma W_nonempty : W ≠ [].
Proof. clear -HW. intros ->. simpl in HW. lia. Qed.
Lemma source_get E c q : tree_get (D ++ c :: q) (tree_put W (Some (Dir 448 E)) t) = tree_get (D ++ c :: q) t.
Proof.
  rewrite (cons_middle c D q), (assoc_L (++)), !(tree_get_app (D ++ [c]) q). destruct (Hapart c).
  by rewrite tree_get_put_ne.
Qed.
Lemma source_dir E : is_dir (tree_get D (tree_put W (Some (Dir 448 E)) t)) = true.
Proof.
  apply tree_get_put_dir; [done| |]; destruct (Hapart "x") as [H _]; intros Hx; apply H; [rewrite Hx; by apply prefix_app_r|].
  etrans; [exact Hx|by apply prefix_app_r].
Qed.
Lemma source_join c : plain c → join_path [abs_path D; c] = abs_path (D ++ [c]).
Proof. intros. by apply join_child. Qed.

Lemma copy_included_calm names E :
  savable t D → NoDup names → (∀ c, c ∈ names → c ∈ included ∧ E !! c = None) →
  copy_included umask (abs_path D) (abs_path W) names (inside E) = (None, inside (foldl (include t D) E names)).
Proof.
  intros Hs. revert E. induction names as [|c names IH]; intros E Hnd Hn; [done|]. apply NoDup_cons in Hnd as [Hc Hnd].
  destruct (Hn c) as [Hin Hnone]; [left|]. pose proof (included_plain c Hin) as Hp.
  cbn [copy_included foldl]. rewrite source_join by done. pose proof (source_get E c []) as Hsrc.
  unfold include at 2. destruct (tree_get (D ++ [c]) t) as [n|] eqn:En.
  - assert (D ++ [c] ≠ [] ∧ Forall plain (D ++ [c])) as [Hne Hpl].
    { split; [by destruct D|]. apply Forall_app. split; [done|by apply Forall_singleton]. }
    call (lstat_get (k:=k) Hne Hpl Hsrc).
    rewrite join_child by (try done; apply W_nonempty).
    assert (Hcopy : copyTree umask (abs_path (D ++ [c])) (abs_path (W ++ [c])) (inside E) = (None, inside (<[c := n]> E))).
    { destruct (Hapart c) as [Ha Hb]. rewrite (copyTree_calm _ _ n); try done.
      - rewrite inside_child by (try done; apply W_nonempty). done.
      - apply Forall_app. split; [done|by apply Forall_singleton].
      - rewrite length_app. simpl. lia.
      - intros [r Hr]. destruct r as [|x r _] using rev_ind.
        + rewrite app_nil_r in Hr. apply app_inj_tail in Hr as [Hr _]. apply Ha. rewrite Hr. by apply prefix_app_r.
        + rewrite (assoc_L (++)) in Hr. apply app_inj_tail in Hr as [Hr _]. apply Hb. rewrite Hr. by apply prefix_app_r.
      - intros Hx. apply Ha. etrans; [by apply prefix_app_r|exact Hx].
      - by eapply savable_entry.
      - rewrite parent_child. apply inside_dir; [apply W_nonempty|done].
      - rewrite inside_get by (try done; apply W_nonempty). cbn. by rewrite Hnone. }
    call Hcopy. apply IH; [done|]. intros c' Hc'. destruct (Hn c') as [? ?]; [by right|]. split; [done|].
    rewrite lookup_insert_ne; [done|]. intros <-. done.
  - assert (Hl : px_lstat (abs_path (D ++ [c])) (inside E) = (Err ErrNotExist, inside E)).
    { unfold px_lstat. rewrite at_path_calm, locate_child by (try done; apply source_dir). unfold existing. by rewrite Hsrc. }
    call Hl. cbv beta iota. change (errors_is ErrNotExist ErrNotExist) with true. cbv iota. apply IH; [done|].
    intros c' Hc'. apply Hn. by right.
Qed.

Lemma write_new_inside E c d mode : plain c → E !! c = None →
  px_write_file umask (abs_path (W ++ [c])) d mode (inside E) = (None, inside (<[c := File d (new_mode umask mode)]> E)).
Proof.
  intros Hc Hnone. pose proof W_nonempty as Hne. assert (tree_get (W ++ [c]) (tree_put W (Some (Dir 448 E)) t) = None) as Hn.
  { rewrite inside_get by done. cbn. by rewrite Hnone. }
  pose proof (inside_dir t W 448 Hne HWparent E) as Hdir.
  unfold px_write_file. rewrite at_path_err_calm, locate_new by done. rewrite Hn, make_child by done.
  cbn [fst snd]. by rewrite inside_child.
Qed.
Lemma chmod_inside E c d md mode : plain c → E !! c = Some (File d md) →
  px_chmod (abs_path (W ++ [c])) mode (inside E) = (None, inside (<[c := File d (Z.land mode 511)]> E)).
Proof.
  intros Hc Hf. pose proof W_nonempty as Hne. assert (tree_get (W ++ [c]) (tree_put W (Some (Dir 448 E)) t) = Some (File d md)) as Hn.
  { rewrite inside_get by done. cbn. by rewrite Hf. }
  unfold px_chmod. rewrite at_path_err_calm. erewrite locate_get; [|by destruct W| |exact Hn|done].
  - rewrite Hn. cbn [fst snd]. by rewrite inside_child.
  - apply Forall_app. split; [done|by apply Forall_singleton].
Qed.
Lemma vacuum_calm d md copy :
  tree_get (D ++ ["controller.db"]) t = Some (File d md) → vacuum d = Ok copy →
  vacuum_into umask vacuum (join_path [abs_path D; "controller.db"]) (abs_path (W ++ ["controller.db"])) (inside ∅)
  = (None, inside {["controller.db" := File copy (new_mode umask 420)]}).
Proof.
  intros Hdb Hv. assert (plain "controller.db") as Hc by by apply (bool_decide_unpack _). rewrite source_join by done.
  unfold vacuum_into.
  assert (Hopen : open_database umask (abs_path (D ++ ["controller.db"])) (inside ∅) = (Ok d, inside ∅)).
  { unfold open_database. pose proof (source_get ∅ "controller.db" []) as Hg. rewrite Hdb in Hg.
    rewrite at_path_calm. erewrite locate_get; [|by destruct D| |exact Hg|done].
    - by rewrite Hg.
    - apply Forall_app. split; [done|by apply Forall_singleton]. }
  call Hopen. cbv beta iota. rewrite Hv. by rewrite write_new_inside.
Qed.
End Work.

(** ** Writing the archive *)

Lemma archive_calm W dO c n t k :
  W ≠ [] → Forall plain W → tree_get W t = Some n → (∀ q n', tree_get q n = Some n' → Forall plain q) →
  dO ≠ [] → Forall plain dO → plain c → is_dir (tree_get dO t) = true → tree_get (dO ++ [c]) t = None →
  tree_get (dO ++ [c +:+ ".tmp"]) t = None → ¬ (dO ++ [c +:+ ".tmp"] `prefix_of` W) → ¬ (W `prefix_of` dO ++ [c +:+ ".tmp"]) →
  archive umask (abs_path W) (abs_path (dO ++ [c])) (mkFs t [] k)
  = (None, mkFs (tree_put (dO ++ [c]) (Some (File (targz_write (archive_of n)) (new_mode umask 384))) t) [] k).
Proof using.
  intros HW HWp HWget Hpl HO HOp Hc Hdir Hnone Htnone Ha Hb. unfold archive.
  assert (plain (c +:+ ".tmp")) as Hct.
  { apply plain_suffix; [done| |simpl; lia]. by apply (bool_decide_unpack _). }
  rewrite dir_name_child, abs_path_suffix by done. call (mkdir_all_existing umask (k:=k) HO HOp Hdir 448).
  set (tmp := dO ++ [c +:+ ".tmp"]) in *. set (m0 := new_mode umask 384). set (bytes := targz_write (archive_of n)).
  assert (Hcreate : px_create_excl umask (abs_path tmp) 384 (mkFs t [] k) = (Ok tmp, mkFs (tree_put tmp (Some (File "" m0)) t) [] k)).
  { unfold px_create_excl. rewrite at_path_calm. unfold tmp. rewrite locate_new by done. by rewrite make_child. }
  call Hcreate. cbv beta iota.
  assert (Hput : ∀ v, tree_get tmp (tree_put tmp v t) = v).
  { intros v. apply tree_get_put_eq; [by destruct dO|]. unfold tmp. by rewrite parent_child. }
  assert (Hfill : archive_fill (abs_path W) tmp (mkFs (tree_put tmp (Some (File "" m0)) t) [] k)
                  = (None, mkFs (tree_put tmp (Some (File bytes m0)) t) [] k)).
  { unfold archive_fill. assert (tree_get W (tree_put tmp (Some (File "" m0)) t) = Some n) as HWget' by by rewrite tree_get_put_ne.
    call (archive_entries_calm (k:=k) HW HWp HWget' Hpl). cbv beta iota. fold bytes.
    unfold file_write, sys_err, bind, sys. cbn [fs_faults fs_tree fs_clock]. rewrite Hput. cbn [fst snd tail].
    rewrite tree_put_twice by by destruct dO. done. }
  assert (Hren : px_rename (abs_path tmp) (abs_path (dO ++ [c])) (mkFs (tree_put tmp (Some (File bytes m0)) t) [] k)
                 = (None, mkFs (tree_put (dO ++ [c]) (Some (File bytes m0)) t) [] k)).
  { assert (Hlen : String.length (c +:+ ".tmp") ≠ String.length c) by (rewrite string_length_app; simpl; lia).
    assert (Hne : ∀ x y : string, dO ++ [x] `prefix_of` dO ++ [y] → x = y).
    { intros x y [r Hr]. rewrite <- (assoc_L (++)) in Hr. apply app_inv_head in Hr. by injection Hr. }
    assert (Hdir' : is_dir (tree_get dO (tree_put tmp (Some (File bytes m0)) t)) = true).
    { apply tree_get_put_dir; [done| |].
      - intros Hx. apply (f_equal length) in Hx. unfold tmp in Hx. rewrite length_app in Hx. simpl in Hx. lia.
      - intros [r Hx]. apply (f_equal length) in Hx. unfold tmp in Hx. rewrite !length_app in Hx. simpl in Hx. lia. }
    assert (Hout : tree_get (dO ++ [c]) (tree_put tmp (Some (File bytes m0)) t) = None).
    { rewrite tree_get_put_ne; [done| |]; intros Hx%Hne; apply Hlen; congruence. }
    unfold px_rename. rewrite at_path_err_calm. erewrite (locate_get _ _ tmp); [|by destruct dO| |apply Hput|done].
    2: { unfold tmp. apply Forall_app. split; [done|by apply Forall_singleton]. }
    rewrite locate_new by done. rewrite Hput, bool_decide_eq_false_2 by (intros Hx%Hne; apply Hlen; congruence).
    rewrite parent_child, Hdir', Hout. cbn [fst snd]. rewrite tree_put_undo; [done|by destruct dO|done]. }
  unfold bind. rewrite (err_then _ _ _ _ Hfill), Hren. done.
Qed.

(** ** The backup of a data directory *)

Definition backup_manifest (t : node) (D : path) (copy : string) (now : Z) (versions : Versions) : Manifest :=
  mkManifest 1 (format_time (unix_epoch + now)) versions (digest_map (walk (Dir 448 (saved t D copy))) ∅).
Definition backup_entries (t : node) (D : path) (copy : string) (man : Manifest) : gmap string node :=
  <["backup-manifest.json" := File (manifest_text man) 384]> (saved t D copy).

(** A data directory [D] with its database, an existing directory [dO] with no
    object [c], and room for the working directory. *)
Abbreviation work t := (work_dir "trusttunnel-backup-" t).
Record site (t : node) (D dO : path) (c d copy : string) : Prop := {
  site_mask : new_mode umask 448 = 448;
  site_tmp : is_dir (tree_get ["tmp"] t) = true;
  site_data : D ≠ [] ∧ D ≠ ["tmp"] ∧ Forall plain D ∧ is_dir (tree_get D t) = true;
  site_database : (∃ m, tree_get (D ++ ["controller.db"]) t = Some (File d m)) ∧ vacuum d = Ok copy;
  site_savable : savable t D;
  site_output : dO ≠ [] ∧ Forall plain dO ∧ plain c ∧ is_dir (tree_get dO t) = true;
  site_free : tree_get (dO ++ [c]) t = None ∧ tree_get (dO ++ [c +:+ ".tmp"]) t = None;
  site_work : dO ++ [c] ≠ work t ∧ dO ++ [c +:+ ".tmp"] ≠ work t;
  site_outside : ¬ (D `prefix_of` dO ++ [c])
}.

Lemma mask_384 : new_mode umask 448 = 448 → new_mode umask 384 = 384.
Proof using.
  unfold new_mode. change (Z.land 448 511) with 448. change (Z.land 384 511) with (Z.land 384 448). intros H.
  assert (Z.ldiff (Z.land 384 448) umask = Z.land 384 (Z.ldiff 448 umask)) as ->; [|by rewrite H].
  apply Z.bits_inj'. intros i _. rewrite Z.ldiff_spec, !Z.land_spec, Z.ldiff_spec. by rewrite andb_assoc.
Qed.
Lemma rel_outside D O : D ≠ [] → O ≠ [] → Forall plain D → Forall plain O → ¬ (D `prefix_of` O) →
  negb (bool_decide (filepath_rel (abs_path D) (abs_path O) = "..")) && negb (has_prefix (filepath_rel (abs_path D) (abs_path O)) "../") = false.
Proof using.
  intros HD HO HDp HOp Hout. unfold filepath_rel. rewrite !clean_abs, !components_abs by done.
  assert (∃ x b r, strip_common D O = (x :: b, r)) as (x & b & r & ->).
  { clear -Hout. revert O Hout. induction D as [|x D IH]; intros O Hout; [by destruct Hout; apply prefix_nil|].
    destruct O as [|y O]; [by exists x, D, []|]. cbn [strip_common]. case_bool_decide as Hxy; [|by exists x, D, (y :: O)].
    subst y. apply IH. intros Hp. apply Hout. by apply prefix_cons. }
  cbn [length replicate app]. destruct (replicate (length b) ".." ++ r) as [|y l]; [done|].
  rewrite join_strings_cons. rewrite andb_false_iff. right. apply negb_false_iff. by destruct (join_strings "/" (y :: l)).
Qed.

Section Site.
Context {t : node} {D dO : path} {c d copy : string}.
Hypothesis S : site t D dO c d copy.
Lemma site_apart x : ¬ (work t `prefix_of` D ++ [x]) ∧ ¬ (D ++ [x] `prefix_of` work t).
Proof using S.
  destruct S as [_ Htmp (HD & HDt & HDp & HDdir) _ _ _ _ _ _].
  assert (Hneed : tree_get D t ≠ None) by (intros E; by rewrite E in HDdir). split.
  - intros [r Hr]. destruct r as [|y r _] using rev_ind.
    + rewrite app_nil_r in Hr. unfold work_dir in Hr. apply (app_inj_tail D ["tmp"]) in Hr as [-> _]. done.
    + rewrite (assoc_L (++)) in Hr. apply app_inj_tail in Hr as [Hr _]. apply Hneed. rewrite Hr, tree_get_app, work_dir_new; done.
  - intros [r Hr]. unfold work_dir in Hr. destruct D as [|a [|b D']]; [done| |].
    + injection Hr as Ha _. subst a. done.
    + injection Hr as _ _ Hr. by destruct D'.
Qed.
Lemma saved_entry x n : saved t D copy !! x = Some n →
  (x = "controller.db" ∧ n = File copy 384) ∨ (x ∈ included ∧ tree_get (D ++ [x]) t = Some n).
Proof using.
  unfold saved. intros [H|H]%include_lookup; [left|by right]. apply lookup_singleton_Some in H as [-> ->]. done.
Qed.
Lemma saved_object q n : tree_get q (Dir 448 (saved t D copy)) = Some n →
  entry_ok umask q n ∧ valid_utf8 (join_strings "/" q) = true.
Proof using S.
  intros Hq. destruct S as [H448 _ _ _ Hs _ _ _ _]. destruct q as [|x q].
  { injection Hq as <-. split; [|done]. split; [constructor|done]. }
  cbn [tree_get] in Hq. destruct (saved t D copy !! x) as [n'|] eqn:E; [|done]. apply saved_entry in E as [[-> ->]|[Hx Hn']].
  - destruct q as [|y q]; [|done]. injection Hq as <-. split; [|done]. split; [|by apply mask_384].
    apply Forall_singleton. by apply (bool_decide_unpack _).
  - apply Hs; [done|]. by rewrite (cons_middle x D q), (assoc_L (++)), tree_get_app, Hn'.
Qed.
Lemma saved_none x : x ≠ "controller.db" → x ∉ included → saved t D copy !! x = None.
Proof using.
  intros H1 H2. destruct (saved t D copy !! x) as [n|] eqn:E; [|done]. by apply saved_entry in E as [[? _]|[? _]].
Qed.

(** What is archived can be archived, and holds what its manifest says. *)
Lemma entries_object man q n : tree_get q (Dir 448 (backup_entries t D copy man)) = Some n → entry_ok umask q n.
Proof using S.
  intros Hq. destruct q as [|x q]; [injection Hq as <-; split; [constructor|apply S]|].
  cbn [tree_get] in Hq. unfold backup_entries in Hq. destruct (decide (x = "backup-manifest.json")) as [->|Hx].
  - rewrite lookup_insert_eq in Hq. destruct q as [|y q]; [|done]. injection Hq as <-. split; [|apply mask_384, S].
    apply Forall_singleton. by apply (bool_decide_unpack _).
  - rewrite lookup_insert_ne in Hq by done. by apply (saved_object (x :: q)).
Qed.
Lemma digest_map_sound l acc name x :
  digest_map l acc !! name = Some x → acc !! name = Some x ∨ ∃ q n, (q, n) ∈ l ∧ name = join_strings "/" q ∧ digest_text n = Some x.
Proof using.
  revert acc. induction l as [|[q n] l IH]; intros acc H; [by left|]. cbn [digest_map foldl fst snd] in H.
  fold (digest_map l) in H. apply IH in H as [H|(q' & n' & ? & ? & ?)].
  - destruct (digest_text n) as [x'|] eqn:En; [|by left]. apply lookup_insert_Some in H as [[<- <-]|[_ H]]; [|by left].
    right. exists q, n. split; [left|done].
  - right. exists q', n'. split; [by right|done].
Qed.
Lemma entries_sealed now versions :
  let man := backup_manifest t D copy now versions in
  rfc3339_ok (Man_CreatedAt man) = true → valid_utf8 (Man_CreatedAt man) = true →
  valid_utf8 (V_Controller versions) && valid_utf8 (V_Commit versions) && valid_utf8 (V_Endpoint versions) = true →
  sealed man (Dir 448 (backup_entries t D copy man)).
Proof using S.
  intros man Ht Hu Hv.
  assert (Hfiles : ∀ name x, Man_Files man !! name = Some x → ∃ q n, tree_get q (Dir 448 (saved t D copy)) = Some n
    ∧ name = join_strings "/" q ∧ q ≠ [] ∧ digest_text n = Some x).
  { intros name x [H|(q & n & Hin & -> & Hd)]%digest_map_sound; [by rewrite lookup_empty in H|]. apply walk_get in Hin.
    exists q, n. split; [done|]. split; [done|]. split; [|done]. intros ->. by injection Hin as <-. }
  split; [|split].
  - split; [done|]. split; [done|]. split; [done|]. split; [done|]. intros name x H.
    destruct (Hfiles name x H) as (q & n & Hq & -> & _ & Hd). split; [by apply (saved_object q n)|].
    destruct n; [injection Hd as <-; apply sha256_utf8..|done].
  - exists 384. cbn [tree_get]. unfold backup_entries. by rewrite lookup_insert_eq.
  - intros name x H. destruct (Hfiles name x H) as (q & n & Hq & -> & Hne & Hd). exists q, n. split; [done|]. split; [done|].
    split; [|done]. destruct q as [|y q]; [done|]. cbn [tree_get] in *. unfold backup_entries. rewrite lookup_insert_ne; [done|].
    intros <-. rewrite saved_none in Hq; [done|done|]. by apply (bool_decide_unpack _).
Qed.

Abbreviation inside_work W E k := (mkFs (tree_put W (Some (Dir 448 E)) t) [] k).
Lemma site_create_in versions k :
  create_in umask vacuum (abs_path D) (abs_path (dO ++ [c])) (abs_path (work t)) versions
    (mkFs (tree_put (work t) (Some (Dir 448 ∅)) t) [] k)
  = (None, mkFs (tree_put (dO ++ [c]) (Some (File (targz_write (archive_of (Dir 448 (backup_entries t D copy (backup_manifest t D copy k versions))))) 384))
                  (tree_put (work t) (Some (Dir 448 (backup_entries t D copy (backup_manifest t D copy k versions)))) t)) [] (k + 1)).
Proof using S.
  pose proof S as [H448 Htmp (HD & HDt & HDp & HDdir) [[md Hdb] Hv] Hs (HO & HOp & Hc & HOdir) [Hfree Hfree'] [HW HW'] _].
  pose proof site_apart as Hapart. set (W := work t) in *.
  assert (HWp : Forall plain W) by (apply work_dir_plain; [by apply (bool_decide_unpack _)|simpl; lia]).
  assert (HWl : (2 <= length W)%nat) by done. assert (HWne : W ≠ []) by done.
  assert (HWparent : is_dir (tree_get (parent W) t) = true) by done.
  assert (plain "controller.db") as Hpdb by by apply (bool_decide_unpack _).
  assert (plain "backup-manifest.json") as Hpm by by apply (bool_decide_unpack _).
  set (man := backup_manifest t D copy k versions).
  assert (H1 : vacuum_into umask vacuum (join_path [abs_path D; "controller.db"]) (abs_path (W ++ ["controller.db"])) (inside_work W ∅ k)
               = (None, inside_work W {["controller.db" := File copy (new_mode umask 420)]} k)) by by eapply vacuum_calm.
  assert (H2 : px_chmod (abs_path (W ++ ["controller.db"])) 384 (inside_work W {["controller.db" := File copy (new_mode umask 420)]} k)
               = (None, inside_work W {["controller.db" := File copy 384]} k)).
  { by erewrite chmod_inside. }
  assert (H3 : copy_included umask (abs_path D) (abs_path W) included (inside_work W {["controller.db" := File copy 384]} k)
               = (None, inside_work W (saved t D copy) k)).
  { apply copy_included_calm; try done; [by apply (bool_decide_unpack _)|]. intros x Hx. split; [done|].
    apply lookup_singleton_ne. intros <-. revert Hx. by apply (bool_decide_unpack _). }
  assert (HWget : ∀ E, tree_get W (tree_put W (Some (Dir 448 E)) t) = Some (Dir 448 E)) by (intros; by apply tree_get_put_eq).
  assert (H4 : (let? l := px_walk (abs_path W) in digests (abs_path W) l ∅) (inside_work W (saved t D copy) (k + 1))
               = (Ok (Man_Files man), inside_work W (saved t D copy) (k + 1))).
  { assert (Hpl : ∀ q n, tree_get q (Dir 448 (saved t D copy)) = Some n → Forall plain q) by (intros q n Hq; by eapply saved_object).
    call (walk_get_calm (k:=k+1) HWne HWp (HWget (saved t D copy))).
    apply (digests_calm HWne HWp (HWget (saved t D copy)) Hpl); [done|]. intros q n Hin ->. apply walk_get in Hin. by injection Hin as <-. }
  assert (H5 : px_write_file umask (abs_path (W ++ ["backup-manifest.json"])) (manifest_text man) 384 (inside_work W (saved t D copy) (k + 1))
               = (None, inside_work W (backup_entries t D copy man) (k + 1))).
  { rewrite write_new_inside; try done; [by rewrite mask_384|]. apply saved_none; [done|]. by apply (bool_decide_unpack _). }
  assert (H6 : archive umask (abs_path W) (abs_path (dO ++ [c])) (inside_work W (backup_entries t D copy man) (k + 1))
               = (None, mkFs (tree_put (dO ++ [c]) (Some (File (targz_write (archive_of (Dir 448 (backup_entries t D copy man)))) 384))
                   (tree_put W (Some (Dir 448 (backup_entries t D copy man))) t)) [] (k + 1))).
  { assert (Hparent : ∀ x, is_dir (tree_get (parent (dO ++ [x])) t) = true) by (intros; by rewrite parent_child).
    destruct (work_dir_apart_new Htmp (dO ++ [c]) Hfree (Hparent _) HW) as [Ha Hb].
    destruct (work_dir_apart_new Htmp (dO ++ [c +:+ ".tmp"]) Hfree' (Hparent _) HW') as [Ha' Hb']. fold W in Ha, Hb, Ha', Hb'.
    rewrite (archive_calm W dO c (Dir 448 (backup_entries t D copy man))); try done.
    - by rewrite mask_384.
    - intros q n Hq. by eapply entries_object.
    - apply tree_get_put_dir; [done| |]; intros Hx; apply Ha; [rewrite Hx|etrans; [exact Hx|]]; by apply prefix_app_r.
    - by rewrite tree_get_put_ne.
    - by rewrite tree_get_put_ne. }
  unfold create_in. rewrite !(join_child W HWne HWp) by done.
  call H1. unfold bind at 1. rewrite file_close_calm. cbv beta iota. call H2. call H3. unfold bind at 1, now_unix_nano at 1.
  cbn [fs_tree fs_faults fs_clock]. call H4. cbv beta iota. fold (backup_manifest t D copy k versions). fold man. call H5. exact H6.
Qed.

Lemma Create_calm versions k :
  Create umask vacuum (abs_path D) (abs_path (dO ++ [c])) versions (mkFs t [] k)
  = (None, mkFs (tree_put (dO ++ [c]) (Some (File (targz_write (archive_of (Dir 448 (backup_entries t D copy (backup_manifest t D copy k versions))))) 384)) t) [] (k + 1)).
Proof using S.
  pose proof S as [H448 Htmp (HD & HDt & HDp & HDdir) _ _ (HO & HOp & Hc & HOdir) [Hfree Hfree'] [HW _] Hout].
  unfold Create. unfold abs_path at 1 2. change ("/" +:+ ?s) with (String slash s). rewrite !is_abs_slash. cbn [negb orb].
  rewrite rel_outside; [|done|by destruct dO|done| |done].
  2: { apply Forall_app. split; [done|by apply Forall_singleton]. }
  unfold bind at 1. rewrite mkdir_temp_calm by done. cbv beta iota. unfold bind at 1. rewrite site_create_in. cbv beta iota.
  destruct (work_dir_apart_new Htmp (dO ++ [c]) Hfree ltac:(by rewrite parent_child) HW) as [Ha Hb].
  set (W := work t) in *. set (E := backup_entries _ _ _ _). set (f := File _ 384).
  assert (Hrm : px_remove_all (abs_path W) (mkFs (tree_put (dO ++ [c]) (Some f) (tree_put W (Some (Dir 448 E)) t)) [] (k + 1))
                = (None, mkFs (tree_put (dO ++ [c]) (Some f) t) [] (k + 1))).
  { unfold px_remove_all. rewrite at_path_err_calm. erewrite (locate_get _ _ _ (Dir 448 E)); [|done| | |done].
    - cbn [fst snd]. rewrite tree_put_comm by done. rewrite tree_put_undo; [done|done|]. by apply work_dir_new.
    - apply work_dir_plain; [by apply (bool_decide_unpack _)|simpl; lia].
    - rewrite tree_get_put_ne by done. by apply tree_get_put_eq. }
  by call Hrm.
Qed.

(** C10. Backing up a data directory and restoring the archive into an empty
    directory gives back what was saved: the copy of the database, the configuration,
    TLS, ACME and migration trees with their modes and links, and the manifest,
    beside the lock file.  The backup changes nothing but its output, and no
    working directory or stage is left. *)
Theorem backup_round_trip pid versions k T m :
  let man := backup_manifest t D copy k versions in
  let t1 := tree_put (dO ++ [c]) (Some (File (targz_write (archive_of (Dir 448 (backup_entries t D copy man)))) 384)) t in
  rfc3339_ok (Man_CreatedAt man) = true → valid_utf8 (Man_CreatedAt man) = true →
  valid_utf8 (V_Controller versions) && valid_utf8 (V_Commit versions) && valid_utf8 (V_Endpoint versions) = true →
  T ≠ [] → Forall plain T → is_dir (tree_get (parent T) t1) = true → tree_get T t1 = Some (Dir m ∅) →
  Create umask vacuum (abs_path D) (abs_path (dO ++ [c])) versions (mkFs t [] k) = (None, mkFs t1 [] (k + 1))
  ∧ Restore umask pid (abs_path (dO ++ [c])) (abs_path T) (mkFs t1 [] (k + 1))
    = (Ok man, mkFs (tree_put T (Some (Dir m (<[".controller.lock" := File (pretty pid +:+ String "010"%char "") 384]>
                                              (backup_entries t D copy man)))) t1) [] (k + 1)).
Proof using S.
  intros man t1 Ht Hu Hv HT HTp Hparent HTget. split; [apply Create_calm|].
  pose proof S as [H448 Htmp _ _ _ (HO & HOp & Hc & HOdir) [Hfree _] _ _].
  pose proof (Restore_rebuilds umask pid man (dO ++ [c]) 384 T m 448 (backup_entries t D copy man) t1 (k + 1)) as H.
  rewrite mask_384 in H by done. apply H; try done.
  - by destruct dO.
  - apply Forall_app. split; [done|by apply Forall_singleton].
  - apply tree_get_put_eq; [by destruct dO|by rewrite parent_child].
  - intros q n Hq. by eapply entries_object.
  - by apply entries_sealed.
  - unfold backup_entries. rewrite lookup_insert_ne by done. apply saved_none; [done|]. by apply (bool_decide_unpack _).
  - unfold backup_entries. rewrite lookup_insert_ne by done. apply saved_none; [done|]. by apply (bool_decide_unpack _).
Qed.
End Site.
End Create.
