(* ===== verification/Schema.v ===== *)
(** The schema of the database: [migrations], [Open], [migrate] and [SchemaVersion]
    of [internal/persistence/sqlite.go].  SQLite runs the text of a migration; its
    constraints on the columns are read back from that text and compared with those
    of the statements of [Store.v]. *)
From stdpp Require Import pretty.
From S2P Require Import Prelude GoStrings GoPath Quote GoTime Domain X509 CertState Store StoreSpec.

(** ** The text of the migrations *)

Definition schemaVersion : Z := 5.
Definition migrations : list string := [
"
CREATE TABLE IF NOT EXISTS schema_migrations (
    version INTEGER PRIMARY KEY,
    applied_at TEXT NOT NULL
);
CREATE TABLE IF NOT EXISTS admins (
    id INTEGER PRIMARY KEY CHECK (id = 1),
    username TEXT NOT NULL UNIQUE,
    password_hash BLOB NOT NULL,
    created_at TEXT NOT NULL,
    updated_at TEXT NOT NULL
);
CREATE TABLE IF NOT EXISTS vpn_users (
    id INTEGER PRIMARY KEY AUTOINCREMENT,
    username TEXT NOT NULL UNIQUE,
    credential TEXT NOT NULL,
    status TEXT NOT NULL CHECK (status IN ('active','disabled','revoked')),
    created_at TEXT NOT NULL,
    updated_at TEXT NOT NULL
);
CREATE INDEX IF NOT EXISTS vpn_users_status_idx ON vpn_users(status);
CREATE TABLE IF NOT EXISTS settings (
    id INTEGER PRIMARY KEY CHECK (id = 1),
    hostname TEXT NOT NULL DEFAULT '',
    listen_address TEXT NOT NULL DEFAULT '0.0.0.0:8443',
    active_revision TEXT NOT NULL DEFAULT '',
    updated_at TEXT NOT NULL
);
CREATE TABLE IF NOT EXISTS apply_events (
    id INTEGER PRIMARY KEY AUTOINCREMENT,
    revision TEXT NOT NULL,
    kind TEXT NOT NULL,
    action TEXT NOT NULL CHECK (action IN ('restart','sighup','none')),
    result TEXT NOT NULL CHECK (result IN ('pending','success','failure','rollback')),
    error TEXT NOT NULL DEFAULT '',
    created_at TEXT NOT NULL
);
CREATE INDEX IF NOT EXISTS apply_events_created_idx ON apply_events(created_at DESC);
CREATE TABLE IF NOT EXISTS sessions (
    token_hash BLOB PRIMARY KEY,
    admin_id INTEGER NOT NULL REFERENCES admins(id) ON DELETE CASCADE,
    expires_at TEXT NOT NULL,
    created_at TEXT NOT NULL
);
CREATE INDEX IF NOT EXISTS sessions_expiry_idx ON sessions(expires_at);
";
"
CREATE TABLE IF NOT EXISTS acme_account (
    id INTEGER PRIMARY KEY CHECK (id = 1),
    directory_url TEXT NOT NULL,
    email TEXT NOT NULL,
    registration_uri TEXT NOT NULL DEFAULT '',
    status TEXT NOT NULL DEFAULT 'new',
    last_error TEXT NOT NULL DEFAULT '',
    created_at TEXT NOT NULL,
    updated_at TEXT NOT NULL
);
CREATE TABLE IF NOT EXISTS tls_certificate (
    id INTEGER PRIMARY KEY CHECK (id = 1),
    state TEXT NOT NULL CHECK (state IN ('unconfigured','issuing','active','renewing','degraded','manual')),
    mode TEXT NOT NULL CHECK (mode IN ('production','staging','manual')),
    hostname TEXT NOT NULL,
    email TEXT NOT NULL DEFAULT '',
    directory_url TEXT NOT NULL DEFAULT '',
    registration_uri TEXT NOT NULL DEFAULT '',
    serial TEXT NOT NULL DEFAULT '',
    issuer TEXT NOT NULL DEFAULT '',
    sans TEXT NOT NULL DEFAULT '',
    not_before TEXT NOT NULL DEFAULT '',
    not_after TEXT NOT NULL DEFAULT '',
    fingerprint TEXT NOT NULL DEFAULT '',
    active_revision TEXT NOT NULL DEFAULT '',
    previous_revision TEXT NOT NULL DEFAULT '',
    last_error TEXT NOT NULL DEFAULT '',
    updated_at TEXT NOT NULL
);
CREATE INDEX IF NOT EXISTS tls_certificate_expiry_idx ON tls_certificate(not_after);
";
"
ALTER TABLE tls_certificate ADD COLUMN certificate_path TEXT NOT NULL DEFAULT '';
ALTER TABLE tls_certificate ADD COLUMN private_key_path TEXT NOT NULL DEFAULT '';
CREATE TABLE IF NOT EXISTS rules (
    id INTEGER PRIMARY KEY AUTOINCREMENT,
    name TEXT NOT NULL UNIQUE,
    action TEXT NOT NULL CHECK (action IN ('allow','deny')),
    network TEXT NOT NULL,
    updated_at TEXT NOT NULL
);
";
"
CREATE TABLE client_profile (
    id INTEGER PRIMARY KEY CHECK (id = 1),
    settings_json TEXT NOT NULL
);
";
"
ALTER TABLE tls_certificate ADD COLUMN source TEXT NOT NULL DEFAULT 'letsencrypt' CHECK (source IN ('letsencrypt','self-signed','provided'));
ALTER TABLE tls_certificate ADD COLUMN provided_certificate_path TEXT NOT NULL DEFAULT '';
ALTER TABLE tls_certificate ADD COLUMN provided_key_path TEXT NOT NULL DEFAULT '';
UPDATE tls_certificate SET source='provided' WHERE mode='manual' OR state='manual';
UPDATE tls_certificate SET state='active' WHERE state='manual' AND active_revision<>'';
UPDATE tls_certificate SET state='unconfigured' WHERE state='manual' AND active_revision='';
"].


(** The values a [CHECK] allows for a column: the quoted list after
    [CHECK (column IN (]. *)
Fixpoint quoted_values (fuel : nat) (l : list ascii) : option (list string) :=
  match fuel, l with
  | S k, "'"%char :: l' =>
    match split_chars "'"%char [] l' with
    | v :: rest =>
      match drop (S (length v)) l' with
      | ","%char :: l'' => cons (of_chars v) <$> quoted_values k l''
      | ")"%char :: _ => Some [of_chars v]
      | _ => None
      end
    | [] => None
    end
  | _, _ => None
  end.
Definition allowed_values (text column : string) : option (list string) :=
  let pattern := "CHECK (" +:+ column +:+ " IN (" in
  match str_index text pattern with
  | Some i => quoted_values 10 (chars (drop_bytes (i + String.length pattern) text))
  | None => None
  end.

(** ** [migrate] *)

Section Migrate.
(** What SQLite makes of a schema: [ExecContext] of a text, and whether there is a
    table [schema_migrations]. *)
Context {Sch : Type}.
Variable apply_sql : string → Sch → result Sch.
Variable has_migrations : Sch → bool.

(** The schema and the rows of [schema_migrations]: versions with their times, the
    last one first. *)
Record database := mkDatabase {
  sd_schema : Sch; sd_versions : list (Z * Time); sd_faults : list (option gerror); sd_clock : Time }.
Definition sd_stmt {A} (run : database → result (A * database)) : M database (result A) := λ d,
  match sd_faults d with
  | Some e :: q => (Err e, mkDatabase (sd_schema d) (sd_versions d) q (sd_clock d))
  | q =>
    let d := mkDatabase (sd_schema d) (sd_versions d) (tail q) (sd_clock d) in
    match run d with Ok (a, d') => (Ok a, d') | Err e => (Err e, d) end
  end.
Definition sd_query {A} (f : database → A) : M database (result A) := sd_stmt (λ d, Ok (f d, d)).
Definition sd_exec (run : database → result database) : M database (option gerror) :=
  let* r := sd_stmt (λ d, match run d with Ok d' => Ok (tt, d') | Err e => Err e end) in
  ret (match r with Ok _ => None | Err e => Some e end).
Definition sd_noop : M database (option gerror) := sd_exec Ok.
Definition sd_now : M database Time := λ d,
  (sd_clock d, mkDatabase (sd_schema d) (sd_versions d) (sd_faults d) (sd_clock d + 1)).

Definition recorded (version : Z) (d : database) : bool := existsb (λ vt, vt.1 =? version) (sd_versions d).
(** [version INTEGER PRIMARY KEY] *)
Definition record_version (version : Z) (now : Time) (d : database) : result database :=
  if negb (has_migrations (sd_schema d)) then Err (SysErr "no such table: schema_migrations")
  else if recorded version d then Err constraint_failed
  else Ok (mkDatabase (sd_schema d) ((version, now) :: sd_versions d) (sd_faults d) (sd_clock d)).
Definition apply_text (text : string) (d : database) : result database :=
  match apply_sql text (sd_schema d) with
  | Ok s => Ok (mkDatabase s (sd_versions d) (sd_faults d) (sd_clock d))
  | Err e => Err e
  end.
(** [tx.Rollback]; a commit that fails leaves nothing either. *)
Definition sd_restore (before : database) : M database unit :=
  modify (λ d, mkDatabase (sd_schema before) (sd_versions before) (sd_faults d) (sd_clock d)).
Definition apply_migration (version : Z) (text : string) : M database (option gerror) :=
  err? sd_exec (apply_text text) in
  let* now := sd_now in
  sd_exec (record_version version now).
Definition run_migration (version : Z) (text : string) : M database (option gerror) :=
  let* e := sd_noop in
  match e with
  | Some e => ret (Some e)
  | None =>
    let* before := gets id in
    let* e := apply_migration version text in
    match e with
    | Some e =>
      let* _ := sd_noop in
      sd_restore before ;;
      ret (Some (Wrapf ("migration " +:+ pretty version) e))
    | None =>
      let* e := sd_noop in
      match e with
      | Some e => sd_restore before ;; ret (Some e)
      | None => ret None
      end
    end
  end.
(** The loop, from a version on. *)
Fixpoint migrate_from (version : Z) (l : list string) : M database (option gerror) :=
  match l with
  | [] => ret None
  | text :: l' =>
    let* exists_ := sd_query (λ d, has_migrations (sd_schema d)) in
    match exists_ with
    | Err e => ret (Some e)
    | Ok ex =>
      let* applied := (if ex then sd_query (recorded version) else ret (Ok false)) in
      match applied with
      | Err e => ret (Some e)
      | Ok true => migrate_from (version + 1) l'
      | Ok false => err? run_migration version text in migrate_from (version + 1) l'
      end
    end
  end.
Definition migrate : M database (option gerror) := migrate_from 1 migrations.
Definition SchemaVersion : M database (result Z) :=
  sd_query (λ d, foldr (λ vt m, Z.max vt.1 m) 0 (sd_versions d)).

(** ** [Open] *)

(** The file: its schema, and its rows. *)
Record dbfile := mkDbfile { df_schema : database; df_rows : store }.
Definition on_schema {A} : M database A → M dbfile A := zoom df_schema (λ x f, mkDbfile x (df_rows f)).
Definition on_rows {A} : M store A → M dbfile A := zoom df_rows (λ x f, mkDbfile (df_schema f) x).
Fixpoint pragmas (n : nat) : M database (option gerror) :=
  match n with
  | O => ret None
  | S k =>
    let* e := sd_noop in
    match e with Some e => ret (Some (Wrapf "sqlite setup" e)) | None => pragmas k end
  end.
(** Whether the store is open. *)
Definition Store_Open (path : string) : M dbfile (option gerror) :=
  if negb (is_abs path) then ret (Some (Errorf "database path must be absolute"))
  else
    err? on_schema (pragmas 3) in
    err? on_schema migrate in
    on_rows Store_bootstrap.

(** ** What it does *)

Fixpoint fold_sql (l : list string) (s : Sch) : result Sch :=
  match l with
  | [] => Ok s
  | t :: l' => match apply_sql t s with Ok s' => fold_sql l' s' | Err e => Err e end
  end.
Lemma fold_sql_app l t s s' : fold_sql l s = Ok s' → fold_sql (l ++ [t]) s = apply_sql t s'.
Proof using.
  revert s. induction l as [|x l IH]; cbn [app fold_sql]; intros s.
  - intros [= <-]. by destruct (apply_sql t s).
  - destruct (apply_sql x s); [apply IH|done].
Qed.
Lemma fold_sql_prefix l l' s : is_ok (fold_sql (l ++ l') s) = true → is_ok (fold_sql l s) = true.
Proof using.
  revert s. induction l as [|x l IH]; cbn [app fold_sql]; intros s H; [done|]. destruct (apply_sql x s); [by apply IH|done].
Qed.

(** Of the migrations [ms] the first [k] were applied to [s0], each once and in
    order, and these are the ones recorded. *)
Record at_version (ms : list string) (s0 : Sch) (k : nat) (d : database) : Prop := {
  av_versions : (sd_versions d).*1 = rev (seqZ 1 (Z.of_nat k));
  av_schema : fold_sql (take k ms) s0 = Ok (sd_schema d)
}.
Definition same_file (d d' : database) : Prop := sd_schema d' = sd_schema d ∧ sd_versions d' = sd_versions d.
Lemma at_version_same ms s0 k d d' : same_file d d' → at_version ms s0 k d → at_version ms s0 k d'.
Proof using. intros [Hs Hv] [H1 H2]. split; congruence. Qed.
Lemma recorded_at ms s0 k d v : at_version ms s0 k d → recorded v d = bool_decide (1 <= v <= Z.of_nat k).
Proof using.
  intros [Hv _]. unfold recorded. destruct (existsb _ _) eqn:E; symmetry.
  - apply bool_decide_eq_true. apply existsb_exists in E as ([v' t] & Hin & Heq). cbn in Heq. apply Z.eqb_eq in Heq as <-.
    apply list_elem_of_In in Hin.
    assert (H : v' ∈ (sd_versions d).*1) by exact (list_elem_of_fmap_2 fst _ (v', t) Hin).
    rewrite Hv in H. apply list_elem_of_In, in_rev, list_elem_of_In, elem_of_seqZ in H. lia.
  - apply bool_decide_eq_false. intros H. assert (Hin : v ∈ (sd_versions d).*1).
    { rewrite Hv. apply list_elem_of_In. rewrite <- in_rev. apply list_elem_of_In, elem_of_seqZ. lia. }
    apply list_elem_of_fmap in Hin as ([v' t] & -> & Hin). assert (Ht : existsb (λ vt, vt.1 =? v') (sd_versions d) = true);
      [|cbn in E; congruence]. apply existsb_exists. exists (v', t). split; [by apply list_elem_of_In|apply Z.eqb_refl].
Qed.

(** *** Statements *)

Lemma sd_stmt_inv {A} (run : database → result (A * database)) d r d' : sd_stmt run d = (r, d') →
  (is_ok r = false ∧ same_file d d' ∧ sd_faults d ≠ []) ∨
  (let d1 := mkDatabase (sd_schema d) (sd_versions d) (tail (sd_faults d)) (sd_clock d) in
   match run d1 with Ok (a, d2) => r = Ok a ∧ d' = d2 | Err e => r = Err e ∧ d' = d1 end).
Proof using.
  unfold sd_stmt. destruct (sd_faults d) as [|[e|] q]; try (intros [= <- <-]; by left);
    intros H; right; cbn zeta; cbn [tail] in *; destruct (run _) as [[a d2]|e]; by injection H as <- <-.
Qed.
Lemma sd_query_inv {A} (f : database → A) d r d' : (∀ q c, f (mkDatabase (sd_schema d) (sd_versions d) q c) = f d) →
  sd_query f d = (r, d') → same_file d d' ∧ (r = Ok (f d) ∨ is_ok r = false ∧ sd_faults d ≠ []) ∧ (sd_faults d = [] → sd_faults d' = []).
Proof using.
  intros Hf H. apply sd_stmt_inv in H as [(Hr & Hs & Hq)|[-> ->]].
  - split; [done|]. split; [by right|done].
  - split; [done|]. cbn [sd_faults]. split; [left; by rewrite Hf|]. by intros ->.
Qed.
Lemma sd_exec_inv run d e d' : sd_exec run d = (e, d') →
  (∃ x, e = Some x ∧ same_file d d' ∧ (sd_faults d ≠ [] ∨ ∃ y d1, same_file d d1 ∧ run d1 = Err y)) ∨
  (∃ d1, e = None ∧ same_file d d1 ∧ run d1 = Ok d' ∧ (sd_faults d = [] → sd_faults d1 = [])).
Proof using.
  unfold sd_exec. intros H. run_bind H. run_ret H. apply sd_stmt_inv in E as [(Hr & Hs & Hq)|E].
  - destruct a as [|x]; [done|]. left. exists x. split; [done|]. split; [done|]. by left.
  - cbn zeta in E. destruct (run _) as [d2|x] eqn:Hrun; destruct E as [-> ->].
    + right. eexists. split; [done|]. split; [|split; [exact Hrun|]]; [done|]. cbn [sd_faults]. by intros ->.
    + left. exists x. split; [done|]. split; [done|]. right. eexists x, _. split; [|exact Hrun]. done.
Qed.

(** *** The loop *)

Section Loop.
Variable s0 : Sch.
Variable ms : list string.
(** The table of versions is made by the first migration and kept by the others. *)
Hypothesis first_creates : ∀ t s s', t ∈ ms → apply_sql t s = Ok s' → head ms = Some t ∨ has_migrations s = true → has_migrations s' = true.
Hypothesis starts_fresh : has_migrations s0 = false.
Lemma has_table k d : (k <= length ms)%nat → at_version ms s0 k d → has_migrations (sd_schema d) = bool_decide (0 < k)%nat.
Proof using first_creates starts_fresh.
  intros Hk [_ Hs]. revert Hs. generalize (sd_schema d). induction k as [|k IH]; intros s Hs.
  { rewrite take_0 in Hs. injection Hs as <-. by rewrite starts_fresh. }
  rewrite bool_decide_eq_true_2 by lia. destruct (lookup_lt_is_Some_2 ms k ltac:(lia)) as [t Ht].
  rewrite (take_S_r _ _ _ Ht) in Hs. destruct (fold_sql (take k ms) s0) as [s1|e] eqn:E1.
  - rewrite (fold_sql_app _ _ _ _ E1) in Hs. eapply first_creates; [by eapply list_elem_of_lookup_2|exact Hs|].
    destruct k as [|k]; [left; by destruct ms; simplify_eq/=|right]. rewrite (IH ltac:(lia) _ eq_refl). by apply bool_decide_eq_true_2; lia.
  - exfalso. assert (H : is_ok (fold_sql (take k ms ++ [t]) s0) = true) by by rewrite Hs.
    apply fold_sql_prefix in H. by rewrite E1 in H.
Qed.
Lemma next_text k t d d1 d2 : ms !! k = Some t → at_version ms s0 k d → same_file d d1 → apply_text t d1 = Ok d2 →
  has_migrations (sd_schema d2) = true ∧ sd_versions d2 = sd_versions d ∧ fold_sql (take (S k) ms) s0 = Ok (sd_schema d2)
  ∧ sd_faults d2 = sd_faults d1.
Proof using first_creates starts_fresh.
  intros Ht Hat [Hs Hv]. assert (Hk : (k < length ms)%nat) by by eapply lookup_lt_Some. unfold apply_text.
  destruct (apply_sql t (sd_schema d1)) as [s|] eqn:E; [|done]. intros [= <-]. cbn. rewrite Hs in E. destruct Hat as [Hav Has].
  split_and!; [|done| |done].
  - eapply first_creates; [by eapply list_elem_of_lookup_2|exact E|]. destruct k as [|k']; [left; by destruct ms; simplify_eq/=|right].
    rewrite (has_table (S k')); [by apply bool_decide_eq_true_2; lia|lia|by split].
  - by rewrite (take_S_r _ _ _ Ht), (fold_sql_app _ _ _ _ Has).
Qed.
Lemma text_accepted k t d d1 : ms !! k = Some t → at_version ms s0 k d → same_file d d1 → is_ok (fold_sql ms s0) = true →
  ∃ d2, apply_text t d1 = Ok d2.
Proof using.
  intros Ht [_ Has] [Hs _] Hok. rewrite <- (take_drop (S k) ms) in Hok. apply fold_sql_prefix in Hok.
  rewrite (take_S_r _ _ _ Ht), (fold_sql_app _ _ _ _ Has) in Hok. unfold apply_text. rewrite Hs.
  destruct (apply_sql t (sd_schema d)); [by eexists|done].
Qed.
Lemma apply_migration_spec k t d d1 e d' : ms !! k = Some t → at_version ms s0 k d → same_file d d1 →
  apply_migration (Z.of_nat k + 1) t d1 = (e, d') →
  (e = None → at_version ms s0 (S k) d' ∧ ∃ now, sd_versions d' = (Z.of_nat k + 1, now) :: sd_versions d)
  ∧ (sd_faults d1 = [] → is_ok (fold_sql ms s0) = true → e = None ∧ sd_faults d' = []).
Proof using first_creates starts_fresh.
  intros Ht Hat Hsame H. unfold apply_migration in H. run_bind H.
  apply sd_exec_inv in E as [(x & -> & _ & Hq)|(d2 & -> & Hs2 & Hrun & Hf2)].
  { run_ret H. split; [done|]. intros Hq' Hok. exfalso. destruct Hq as [?|(y & d2 & Hs2 & Hy)]; [done|].
    destruct (text_accepted k t d d2 Ht Hat) as [d3 Hd3]; [|done|congruence]. destruct Hs2, Hsame. split; congruence. }
  assert (Hd2 : same_file d d2) by (destruct Hs2, Hsame; split; congruence).
  destruct (next_text _ _ _ _ _ Ht Hat Hd2 Hrun) as (Htab & Hver & Hfold & Hfaults).
  run_bind H. injection E as <- <-. apply sd_exec_inv in H as [(x & -> & _ & Hq)|(d3 & -> & Hs3 & Hrec & Hf3)].
  - split; [done|]. intros Hq' Hok. exfalso. destruct Hq as [Hq|(y & d3 & [Hs3 Hv3] & Hy)]; [cbn in Hq; apply Hq; rewrite Hfaults; auto|].
    unfold record_version in Hy. cbn in Hs3, Hv3. rewrite Hs3, Htab in Hy. cbn [negb] in Hy.
    assert (Hr : recorded (Z.of_nat k + 1) d3 = recorded (Z.of_nat k + 1) d) by (unfold recorded; congruence).
    rewrite Hr, (recorded_at _ _ _ _ _ Hat), bool_decide_eq_false_2 in Hy by lia. done.
  - unfold record_version in Hrec. destruct (negb _); [done|]. destruct (recorded _ d3); [done|]. injection Hrec as <-.
    destruct Hs3 as [Hs3 Hv3]. cbn in Hs3, Hv3. cbn [sd_versions sd_schema sd_faults]. split.
    + intros _. split; [|exists (sd_clock w1); congruence]. destruct Hat as [Hav _]. split; cbn [sd_versions sd_schema]; [|congruence].
      rewrite fmap_cons, Hv3, Hver, Hav. cbn [fst]. rewrite Nat2Z.inj_succ, <- Z.add_1_r, seqZ_app, rev_app_distr by lia.
      replace (1 + Z.of_nat k) with (Z.of_nat k + 1) by lia. done.
    + intros Hq Hok. split; [done|]. apply Hf3. cbn. rewrite Hfaults. auto.
Qed.
Lemma run_migration_spec k t d e d' : ms !! k = Some t → at_version ms s0 k d →
  run_migration (Z.of_nat k + 1) t d = (e, d') →
  match e with
  | Some _ => same_file d d'
  | None => at_version ms s0 (S k) d' ∧ ∃ now, sd_versions d' = (Z.of_nat k + 1, now) :: sd_versions d
  end ∧ (sd_faults d = [] → is_ok (fold_sql ms s0) = true → e = None ∧ sd_faults d' = []).
Proof using first_creates starts_fresh.
  intros Ht Hat H. unfold run_migration in H. run_bind H. apply sd_exec_inv in E as [(x & -> & Hs & Hq)|(d1 & -> & Hs & [= ->] & Hf)].
  { run_ret H. split; [done|]. intros Hq'. destruct Hq as [?|(? & ? & _ & ?)]; done. }
  run_bind H. injection E as <- <-. run_bind H. destruct (apply_migration_spec _ _ _ _ _ _ Ht Hat Hs E) as [Hdone Hcalm].
  destruct a as [x|].
  - run_bind H. run_bind H. injection E1 as <- <-. run_ret H. split; [by destruct Hs|]. intros Hq Hok. by destruct (Hcalm (Hf Hq) Hok).
  - destruct (Hdone eq_refl) as [Hat' Hv]. run_bind H.
    apply sd_exec_inv in E0 as [(x & -> & Hs2 & Hq2)|(d2 & -> & Hs2 & [= ->] & Hf2)].
    + run_bind H. injection E0 as <- <-. run_ret H. split; [by destruct Hs|]. intros Hq Hok. destruct (Hcalm (Hf Hq) Hok) as [_ Hq'].
      destruct Hq2 as [?|(? & ? & _ & ?)]; done.
    + run_ret H. split.
      * split; [by eapply at_version_same|]. destruct Hs2 as [_ ->]. done.
      * intros Hq Hok. split; [done|]. apply Hf2. by apply Hcalm; [apply Hf|].
Qed.
Lemma migrate_from_spec n l k d e d' : drop n ms = l → (n <= k <= length ms)%nat → at_version ms s0 k d →
  migrate_from (Z.of_nat n + 1) l d = (e, d') →
  (∃ k' new, (k <= k' <= length ms)%nat ∧ at_version ms s0 k' d' ∧ sd_versions d' = new ++ sd_versions d ∧ (e = None → k' = length ms))
  ∧ (sd_faults d = [] → is_ok (fold_sql ms s0) = true → e = None).
Proof using first_creates starts_fresh.
  revert n k d. induction l as [|t l IH]; intros n k d Hms Hk Hat H; cbn [migrate_from] in H.
  { run_ret H. split; [|done]. exists k, []. assert (length ms - n = 0)%nat by (rewrite <- length_drop, Hms; done). split_and!; [lia|lia|done|done|lia]. }
  assert (Ht : ms !! n = Some t) by (rewrite <- (Nat.add_0_r n), <- lookup_drop, Hms; done).
  assert (Hms' : drop (S n) ms = l) by (rewrite <- (Nat.add_1_r n), <- drop_drop, Hms; done).
  assert (Hlen := lookup_lt_Some _ _ _ Ht).
  assert (Hver : Z.of_nat n + 1 + 1 = Z.of_nat (S n) + 1) by lia.
  run_bind H. apply sd_query_inv in E as (Hs1 & Ha & Hf1); [|done]. destruct a as [ex|x].
  2: { run_ret H. split; [|intros Hq; destruct Ha as [|[_ ?]]; done]. exists k, []. destruct Hs1. split_and!; [lia|lia|by eapply at_version_same|done|done]. }
  destruct Ha as [[= ->]|[? _]]; [|done]. rewrite (has_table k d) in H by (done || lia).
  assert (Hat1 : at_version ms s0 k w1) by by eapply at_version_same.
  run_bind H.
  assert (Hap : same_file d w0 ∧ (a = Ok (bool_decide (n < k)%nat) ∨ is_ok a = false ∧ sd_faults d ≠ []) ∧ (sd_faults d = [] → sd_faults w0 = [])).
  { case_bool_decide as Hk0.
    - apply sd_query_inv in E as (Hs2 & Ha & Hf2); [|done]. split; [destruct Hs1, Hs2; split; congruence|]. split; [|auto].
      destruct Ha as [-> |[? Hq]]; [left|right; split; [done|]; auto].
      rewrite (recorded_at _ _ _ _ _ Hat1). f_equal. apply bool_decide_ext. lia.
    - injection E as <- <-. split; [done|]. split; [left; rewrite bool_decide_eq_false_2 by lia; done|done]. }
  destruct Hap as (Hs2 & Ha & Hf2). assert (Hat2 : at_version ms s0 k w0) by by eapply at_version_same.
  destruct a as [ap|x].
  2: { run_ret H. split; [|intros Hq; destruct Ha as [|[_ ?]]; done]. exists k, []. destruct Hs2. split_and!; [lia|lia|done|done|done]. }
  destruct Ha as [[= ->]|[? _]]; [|done]. clear E. case_bool_decide as Hlt.
  - rewrite Hver in H. destruct (IH (S n) k w0 Hms') as [(k' & new & Hk' & Hat' & Hnew & He) Hcalm];
      [lia|done|exact H|]. split; [|auto]. exists k', new. destruct Hs2 as [_ <-]. done.
  - assert (k = n) as -> by lia. run_bind H.
    destruct (run_migration_spec _ _ _ _ _ Ht Hat2 E) as [Hrun Hrc]. destruct a as [x|].
    + run_ret H. split; [|intros Hq Hok; by destruct (Hrc (Hf2 Hq) Hok)]. exists n, [].
      destruct Hs2 as [_ Hv2], Hrun as [Hr1 Hr2]. split_and!; [lia|lia|by eapply at_version_same|cbn; congruence|done].
    + destruct Hrun as (Hat3 & now & Hv3). rewrite Hver in H.
      destruct (IH (S n) (S n) w2 Hms') as [(k' & new & Hk' & Hat' & Hnew & He) Hcalm];
        [lia|done|exact H|]. split.
      * exists k', (new ++ [(Z.of_nat n + 1, now)]). destruct Hs2 as [_ Hv2].
        split_and!; [lia|lia|done| |done]. rewrite Hnew, Hv3, Hv2, <- app_assoc. done.
      * intros Hq Hok. apply Hcalm; [|done]. by apply Hrc; [apply Hf2|].
Qed.
End Loop.

(** C20. [migrate] brings any version of the schema to the last one, and can be
    stopped anywhere: from a file to which the first [k] migrations were applied it
    applies the next ones in order, each once and together with its row, and when
    something fails it leaves the file at a version from which a later start goes
    on.  With SQLite accepting the texts and no failing call it succeeds. *)
Theorem migrate_resumes s0 k d e d' :
  has_migrations s0 = false →
  (∀ t s s', t ∈ migrations → apply_sql t s = Ok s' → head migrations = Some t ∨ has_migrations s = true → has_migrations s' = true) →
  at_version migrations s0 k d → (k <= length migrations)%nat → migrate d = (e, d') →
  (∃ k' new, (k <= k' <= length migrations)%nat ∧ at_version migrations s0 k' d' ∧ sd_versions d' = new ++ sd_versions d
    ∧ (e = None → Z.of_nat k' = schemaVersion))
  ∧ (sd_faults d = [] → is_ok (fold_sql migrations s0) = true → e = None).
Proof using.
  intros Hfresh Hfirst Hat Hk H. destruct (migrate_from_spec s0 migrations Hfirst Hfresh 0 migrations k d e d') as [(k' & new & H1 & H2 & H3 & H4) Hc];
    [done|lia|done|exact H|]. split; [|exact Hc]. exists k', new. split_and!; [lia|lia|done|done|]. intros He. by rewrite (H4 He).
Qed.
End Migrate.

(** The checks of the statements are the checks of the schema: the values the
    store accepts for the status of a user, the action of a rule, the action and the
    result of an event and the state, the mode and the source of a certificate are
    those the [CHECK]s of the migrations list. *)
Theorem checks_match :
  let check v column := default [] (t ← migrations !! v; allowed_values t column) in
  (∀ s, status_ok s = bool_decide (s ∈ check 0%nat "status"))
  ∧ (∀ a, (bool_decide (a = "allow") || bool_decide (a = "deny")) = bool_decide (a ∈ check 2%nat "action"))
  ∧ (∀ e, event_ok e = bool_decide (Event_Action e ∈ check 0%nat "action") && bool_decide (Event_Result e ∈ check 0%nat "result"))
  ∧ (∀ m, meta_ok m = bool_decide (M_State m ∈ check 1%nat "state") && bool_decide (M_Mode m ∈ check 1%nat "mode")
                     && bool_decide (EffectiveSource m ∈ check 4%nat "source")).
Proof.
  cbv zeta beta.
  assert (E1 : (t ← migrations !! 0%nat; allowed_values t "status") = Some ["active"; "disabled"; "revoked"]) by by vm_compute.
  assert (E2 : (t ← migrations !! 2%nat; allowed_values t "action") = Some ["allow"; "deny"]) by by vm_compute.
  assert (E3 : (t ← migrations !! 0%nat; allowed_values t "action") = Some ["restart"; "sighup"; "none"]) by by vm_compute.
  assert (E4 : (t ← migrations !! 0%nat; allowed_values t "result") = Some ["pending"; "success"; "failure"; "rollback"]) by by vm_compute.
  assert (E5 : (t ← migrations !! 1%nat; allowed_values t "state")
    = Some [Unconfigured; Issuing; Active; Renewing; Degraded; Manual]) by by vm_compute.
  assert (E6 : (t ← migrations !! 1%nat; allowed_values t "mode") = Some [Production; Staging; ManualMode]) by by vm_compute.
  assert (E7 : (t ← migrations !! 4%nat; allowed_values t "source") = Some [LetsEncrypt; SelfSigned; Provided]) by by vm_compute.
  rewrite E1, E2, E3, E4, E5, E6, E7. clear. cbn [default]. unfold default, from_option, id. split_and!; [| |done|done].
  - intros s. unfold status_ok. rewrite <- !bool_decide_or. apply bool_decide_ext. rewrite !elem_of_cons, elem_of_nil.
    unfold UserActive, UserDisabled, UserRevoked. naive_solver.
  - intros a. rewrite <- bool_decide_or. apply bool_decide_ext. rewrite !elem_of_cons, elem_of_nil. naive_solver.
Qed.
