(* ===== verification/App.v ===== *)
(** [internal/app]: the checks on the configuration, the staged files and the
    listening endpoint, the settings that are seeded, the recovery at start-up,
    and the order in which [Run] starts and ends the parts. *)
From S2P Require Import Prelude GoStrings GoPath Quote Sha256 Domain GoTime Config FileSys Revisions Materializer X509 CertState Store StoreSpec Services TLSSettings.

(** ** [Config.Validate] *)

Section Validate.
Context {MO : MapOrder}.
(** [url.Parse]: the scheme and [Hostname()]; [net.SplitHostPort]'s error. *)
Variable ParseURL : string → option (string * string).

Record AppConfig := mkAppConfig {
  ac_TLSHostname : string; ac_ACMEEmail : string; ac_TLSCertificateFile : string; ac_TLSKeyFile : string;
  ac_TLSSource : Source;
  ac_DataDir : string; ac_EndpointBinary : string; ac_EndpointVersion : string; ac_UIListen : string;
  ac_MetricsURL : string; ac_ProbeListen : string; ac_HTTP01Listen : string;
  ac_StartTimeout : Duration; ac_StopTimeout : Duration; ac_SessionLifetime : Duration; ac_RenewalLead : Duration;
  ac_Version : string; ac_Commit : string; ac_ACMEDefaultMode : Mode
}.
Definition listen_addresses (c : AppConfig) : gmap string string :=
  <["ui-listen" := ac_UIListen c]> (<["probe-listen" := ac_ProbeListen c]> {["http01-listen" := ac_HTTP01Listen c]}).
Fixpoint check_addresses (l : list (string * string)) : option gerror :=
  match l with
  | [] => None
  | (label, addr) :: l' =>
    match split_host_port addr with
    | None => Some (Wrapf label (SysErr ("address " +:+ addr)))
    | Some _ => check_addresses l'
    end
  end.
Definition AppConfig_Validate (c : AppConfig) : option gerror :=
  if negb (is_abs (ac_DataDir c)) || negb (is_abs (ac_EndpointBinary c))
  then Some (Errorf "data-dir and endpoint-binary must be absolute")
  else match check_addresses (map_range (listen_addresses c)) with
  | Some e => Some e
  | None =>
    match ParseURL (ac_MetricsURL c) with
    | Some (scheme, hostname) =>
      if negb (bool_decide (scheme = "http")) || bool_decide (hostname = "")
      then Some (Errorf "metrics-url must be an http URL")
      else if (ac_StartTimeout c <=? 0) || (ac_StopTimeout c <=? 0) then Some (Errorf "timeouts must be positive")
      else None
    | None => Some (Errorf "metrics-url must be an http URL")
    end
  end.

Lemma check_addresses_None l : check_addresses l = None ↔ Forall (λ la, is_Some (split_host_port la.2)) l.
Proof using.
  induction l as [|[label addr] l IH]; [by split|]. cbn [check_addresses]. rewrite Forall_cons. cbn [snd].
  destruct (split_host_port addr) as [hp|].
  - rewrite IH. split; [|by intros [_ ?]]. intros H. split; [by eexists|done].
  - split; [done|]. by intros [[? ?] _].
Qed.
(** The configuration is accepted exactly when both paths are absolute, the three
    addresses have a host and a port, the metrics are at an [http] URL with a host
    and both time-outs are positive, in whatever order the addresses are visited. *)
Theorem AppConfig_Validate_spec c :
  AppConfig_Validate c = None ↔
    is_abs (ac_DataDir c) = true ∧ is_abs (ac_EndpointBinary c) = true
    ∧ (∀ addr, addr ∈ [ac_UIListen c; ac_ProbeListen c; ac_HTTP01Listen c] → is_Some (split_host_port addr))
    ∧ (∃ host, ParseURL (ac_MetricsURL c) = Some ("http", host) ∧ host ≠ "")
    ∧ 0 < ac_StartTimeout c ∧ 0 < ac_StopTimeout c.
Proof.
  unfold AppConfig_Validate. destruct (is_abs (ac_DataDir c)); [|naive_solver]. destruct (is_abs (ac_EndpointBinary c)); [|naive_solver].
  cbn [negb orb].
  assert (Ha : check_addresses (map_range (listen_addresses c)) = None ↔
    ∀ addr, addr ∈ [ac_UIListen c; ac_ProbeListen c; ac_HTTP01Listen c] → is_Some (split_host_port addr)).
  { rewrite check_addresses_None, map_range_perm. unfold listen_addresses.
    rewrite !map_to_list_insert, map_to_list_singleton by (by rewrite ?lookup_insert_ne, ?lookup_singleton_ne).
    rewrite !Forall_cons, Forall_nil. setoid_rewrite elem_of_cons. setoid_rewrite elem_of_cons. setoid_rewrite elem_of_cons.
    setoid_rewrite elem_of_nil. naive_solver. }
  destruct (check_addresses _) as [e|]; [naive_solver|]. destruct (ParseURL _) as [[scheme host]|]; [|naive_solver].
  destruct (bool_decide (scheme = "http")) eqn:E1; [apply bool_decide_eq_true in E1|apply bool_decide_eq_false in E1; naive_solver].
  destruct (bool_decide (host = "")) eqn:E2; [apply bool_decide_eq_true in E2; naive_solver|apply bool_decide_eq_false in E2]. cbn [negb orb].
  destruct (Z.leb_spec (ac_StartTimeout c) 0), (Z.leb_spec (ac_StopTimeout c) 0); cbn [orb]; naive_solver lia.
Qed.
End Validate.

(** ** [validateStaged] *)

(** A stage holds what [write_files] made in it, so no link is met. *)
Fixpoint regular_files (sp : path) (t : node) (names : list string) : option gerror :=
  match names with
  | [] => None
  | name :: names' =>
    match tree_get (sp ++ [name]) t with
    | None => Some ErrNotExist
    | Some (File _ _) => regular_files sp t names'
    | Some _ => Some (Errorf (name +:+ " is not regular"))
    end
  end.
Definition staged_names : list string := ["vpn.toml"; "hosts.toml"; "credentials.toml"; "rules.toml"].
Definition validateStaged (sp : path) (t : node) : option gerror := regular_files sp t staged_names.

(** A stage that holds the rendered files is accepted. *)
Theorem Render_passes_staging `{!UnicodeTables} s files sp t :
  Render s = Ok files → tree_get sp t = Some (revision_node files) → validateStaged sp t = None.
Proof.
  intros HR Ht. unfold Render in HR. destruct (Validate s) as [e|]; [done|]. injection HR as <-.
  unfold validateStaged, staged_names. cbn [regular_files]. rewrite !tree_get_app, Ht. unfold revision_node. cbn [tree_get].
  unfold file_nodes. rewrite !map_lookup_imap. by simpl_map.
Qed.

(** ** [waitTCP] and the readiness of the endpoint

    A dial takes the next outcome and its time; time passes only in dials and
    waits.  When the ticker and the end of the context are both there, [select]
    takes either: the next choice. *)
Definition dial_timeout : Duration := 250 * millisecond.
Definition tick_period : Duration := 100 * millisecond.
Record dialer := mkDialer { dl_clock : Time; dl_dials : list (option gerror * Duration); dl_choices : list bool }.
Definition dl_at (t : Time) (w : dialer) : dialer := mkDialer t (dl_dials w) (dl_choices w).
Definition context_deadline_exceeded : gerror := SysErr "context deadline exceeded".

(** [context.WithTimeout]: when and why it ends; the parent may end first. *)
Definition with_timeout (parent : option (Time * gerror)) (deadline : Time) : Time * gerror :=
  match parent with
  | Some (t, e) => if t <? deadline then (t, e) else (deadline, context_deadline_exceeded)
  | None => (deadline, context_deadline_exceeded)
  end.
Section Wait.
Variables (limit : Time) (ended : gerror).
Definition dial : M dialer (option gerror) := λ w,
  if limit <=? dl_clock w then (Some ended, w)
  else match dl_dials w with
  | [] => (Some (SysErr "connection refused"), w)
  | (r, d) :: ds =>
    let d := Z.max 0 d in
    let r := if dial_timeout <? d then Some (SysErr "i/o timeout") else r in
    let t := dl_clock w + Z.min dial_timeout d in
    let w' := mkDialer (Z.min t limit) ds (dl_choices w) in
    if limit <? t then (Some ended, w') else (r, w')
  end.
(** Waits for the tick of [tick]: whether it was taken. *)
Definition select_tick (tick : Time) : M dialer bool := λ w,
  if (tick <=? dl_clock w) && (limit <=? dl_clock w) || (dl_clock w <? tick) && (tick =? limit) then
    let w' := dl_at (Z.max (dl_clock w) tick) w in
    match dl_choices w with
    | c :: cs => (c, mkDialer (dl_clock w') (dl_dials w') cs)
    | [] => (false, w')
    end
  else if tick <=? dl_clock w then (true, w)
  else if limit <=? dl_clock w then (false, w)
  else if tick <? limit then (true, dl_at tick w) else (false, dl_at limit w).
(** The ticks after [start], of which a full channel drops the later ones. *)
Definition next_tick (start now : Time) : Time := start + ((now - start) / tick_period + 1) * tick_period.
(** [None]: the rounds were not enough. *)
Fixpoint wait_loop (rounds : nat) (start tick : Time) : M dialer (option (option gerror)) :=
  match rounds with
  | O => ret None
  | S k =>
    let* e := dial in
    match e with
    | None => ret (Some None)
    | Some _ =>
      let* more := select_tick tick in
      if more then (λ w, wait_loop k start (next_tick start (dl_clock w)) w) else ret (Some (Some ended))
    end
  end.

Lemma dial_clock w e w' : dial w = (e, w') → dl_clock w <= dl_clock w' <= Z.max limit (dl_clock w).
Proof using.
  unfold dial. destruct (Z.leb_spec limit (dl_clock w)) as [H|H]; [intros [= _ <-]; lia|].
  destruct (dl_dials w) as [|[r d] ds]; [intros [= _ <-]; lia|]. unfold dial_timeout, millisecond.
  match goal with |- context [limit <? ?t] => destruct (Z.ltb_spec limit t) end; intros [= _ <-]; cbn [dl_clock]; lia.
Qed.
Lemma dial_success w w' : dial w = (None, w') → ∃ d, (None, d) ∈ dl_dials w.
Proof using.
  unfold dial. destruct (limit <=? dl_clock w); [done|]. destruct (dl_dials w) as [|[r d] ds]; [done|].
  destruct (limit <? _); [done|]. destruct (dial_timeout <? _); [done|]. intros [= -> _]. exists d. left.
Qed.
Lemma dial_later w e w' : dial w = (e, w') → ∀ x, x ∈ dl_dials w' → x ∈ dl_dials w.
Proof using.
  unfold dial. destruct (limit <=? dl_clock w); [by intros [= _ <-]|]. destruct (dl_dials w) as [|[r d] ds] eqn:E; [intros [= _ <-]; by rewrite E|].
  destruct (limit <? _); intros [= _ <-] x Hx; by right.
Qed.
Lemma select_clock tick w more w' : select_tick tick w = (more, w') → dl_clock w <= Z.max limit (dl_clock w) →
  dl_clock w <= dl_clock w' <= Z.max limit (dl_clock w) ∧ dl_dials w' = dl_dials w
  ∧ (more = true → tick <= dl_clock w' ∧ (dl_clock w <= limit → tick <= limit)).
Proof using.
  unfold select_tick. intros H Hc.
  destruct (Z.leb_spec tick (dl_clock w)), (Z.leb_spec limit (dl_clock w)), (Z.ltb_spec (dl_clock w) tick), (Z.eqb_spec tick limit),
    (Z.ltb_spec tick limit); cbn [andb orb] in H; try lia;
    try (destruct (dl_choices w) as [|c cs]); injection H as <- <-; cbn [dl_clock dl_at dl_dials]; (split; [lia|split; [done|]]; try done; intros; lia).
Qed.
Lemma next_tick_after start now : now < next_tick start now.
Proof using. unfold next_tick, tick_period, millisecond. zdiv. Qed.
Lemma wait_loop_returns rounds start tick w :
  start <= dl_clock w <= limit → (∃ k, tick = start + k * tick_period) → (limit - tick < (Z.of_nat rounds - 1) * tick_period) →
  (0 < rounds)%nat →
  ∃ e w', wait_loop rounds start tick w = (Some e, w') ∧ dl_clock w' <= limit
    ∧ match e with None => ∃ d, (None, d) ∈ dl_dials w | Some e => e = ended end.
Proof using.
  revert tick w. induction rounds as [|k IH]; intros tick w Hc [j Hj] Hl Hr; [lia|]. cbn [wait_loop]. unfold bind at 1.
  destruct (dial w) as [e w1] eqn:Hd. pose proof (dial_clock _ _ _ Hd) as Hc1. destruct e as [e|].
  - unfold bind at 1. destruct (select_tick tick w1) as [more w2] eqn:Hs. apply select_clock in Hs as (Hc2 & Hds & Hm); [|lia].
    destruct more; [|exists (Some ended), w2; split; [done|]; split; [lia|done]]. destruct (Hm eq_refl) as [Ht Htl].
    specialize (Htl ltac:(lia)).
    destruct (IH (next_tick start (dl_clock w2)) w2) as (e' & w' & He & Hw & Hres).
    + lia.
    + unfold next_tick. eauto.
    + assert (next_tick start (dl_clock w2) >= tick + tick_period).
      { unfold next_tick. subst tick. assert (j <= (dl_clock w2 - start) / tick_period) by
          (apply Z.div_le_lower_bound; [done|]; unfold tick_period, millisecond in *; lia).
        unfold tick_period, millisecond in *. lia. }
      unfold tick_period, millisecond in *. lia.
    + unfold tick_period, millisecond in *. lia.
    + exists e', w'. split; [exact He|]. split; [done|]. destruct e'; [done|]. destruct Hres as [d Hin]. exists d.
      rewrite Hds in Hin. by eapply dial_later.
  - exists None, w1. split; [done|]. split; [lia|]. by eapply dial_success.
Qed.
End Wait.
Definition waitTCP (rounds : nat) (parent : option (Time * gerror)) (timeout : Duration) : M dialer (option (option gerror)) := λ w,
  let '(limit, ended) := with_timeout parent (dl_clock w + timeout) in
  wait_loop limit ended rounds (dl_clock w) (dl_clock w + tick_period) w.

(** C21. Waiting for the endpoint ends by the end of its context, in at most one
    round more than there are ticks before it, whatever the dials do and however
    long they take: with success only after a dial that succeeded, else with the
    context's error. *)
Theorem waitTCP_returns parent timeout w :
  let '(limit, ended) := with_timeout parent (dl_clock w + timeout) in
  dl_clock w <= limit →
  ∀ rounds, (Z.to_nat ((limit - dl_clock w) / tick_period) < rounds)%nat →
  ∃ e w', waitTCP rounds parent timeout w = (Some e, w') ∧ dl_clock w' <= limit
    ∧ match e with None => ∃ d, (None, d) ∈ dl_dials w | Some e => e = ended end.
Proof.
  unfold waitTCP. destruct (with_timeout parent (dl_clock w + timeout)) as [limit ended]. intros Hc rounds Hr.
  apply wait_loop_returns; [lia|by exists 1| |lia]. unfold tick_period, millisecond in *.
  assert (0 <= (limit - dl_clock w) / (100 * 1000000)) by (apply Z.div_pos; lia).
  assert ((limit - dl_clock w) / (100 * 1000000) < Z.of_nat rounds) by lia. zdiv.
Qed.

(** [supervisor.Supervisor] as [readinessProcess] calls it, and [waitTCP]. *)
Class EndpointControl (W : Type) := {
  ep_Restart : string → M W (option gerror);
  ep_Reload : M W (option gerror);
  ep_Status : M W EndpointStatus;
  ep_MarkReady : M W unit;
  ep_MarkDegraded : gerror → M W unit;
  ep_waitTCP : string → M W (option gerror)
}.
Section Readiness.
Context {W : Type} {RS : RevisionStore W} {EC : EndpointControl W}.
Definition readiness_ready : M W (option gerror) :=
  let* r := Snapshot_ in
  match r with
  | (_, Some e) => ret (Some e)
  | (snapshot, None) =>
    let* e := ep_waitTCP (Snap_ListenAddress snapshot) in
    match e with
    | Some e => ep_MarkDegraded e ;; ret (Some e)
    | None => ep_MarkReady ;; ret None
    end
  end.
Definition readiness_Restart (revision : string) : M W (option gerror) :=
  err? ep_Restart revision in readiness_ready.
Definition readiness_Reload : M W (option gerror) :=
  let* st := ep_Status in
  if Status_PID st =? 0 then
    let* r := ActiveRevision in
    match r with
    | Err e => ret (Some e)
    | Ok revision => readiness_Restart revision
    end
  else err? ep_Reload in readiness_ready.
#[local] Instance readiness_process : Process W :=
  { process_Restart := readiness_Restart; process_Reload := readiness_Reload }.

(** What the endpoint's control and the readings of the store keep, the process
    the services are given keeps. *)
Lemma readiness_keeps (R : W → W → Prop) `{!PreOrder R} :
  preserves R Snapshot_ → preserves R ActiveRevision → (∀ r, preserves R (ep_Restart r)) → preserves R ep_Reload →
  preserves R ep_Status → preserves R ep_MarkReady → (∀ e, preserves R (ep_MarkDegraded e)) → (∀ a, preserves R (ep_waitTCP a)) →
  (∀ r, preserves R (process_Restart r)) ∧ preserves R process_Reload.
Proof using.
  intros H1 H2 H3 H4 H5 H6 H7 H8.
  assert (Hr : preserves R readiness_ready) by (unfold readiness_ready; walk; auto).
  assert (Hs : ∀ r, preserves R (readiness_Restart r)) by (intros r; unfold readiness_Restart; walk; auto).
  split; [exact Hs|]. cbn [process_Reload readiness_process]. unfold readiness_Reload. walk; auto.
Qed.
End Readiness.

(** ** [seedTLS] *)

Section Seed.
Context {UT : UnicodeTables} {W : Type}.
Variable ParseAddress : string → option string.
Variable LoadTLSMetadata : M W (result Metadata).
Variable SaveTLSMetadata : Metadata → M W (option gerror).
Variable SetHostname : string → M W (option gerror).
Variable log : option (string → M W unit).
Definition log_when (b : bool) (message : string) : M W unit :=
  match log with Some logf => if b then logf message else ret tt | None => ret tt end.
Definition seed_wanted (c : AppConfig) : bool :=
  negb (bool_decide (ac_TLSSource c = "") && bool_decide (ac_TLSHostname c = "") && bool_decide (ac_ACMEEmail c = "")
        && bool_decide (ac_TLSCertificateFile c = "") && bool_decide (ac_TLSKeyFile c = "")).
Definition seedTLS (c : AppConfig) : M W (option gerror) :=
  if negb (seed_wanted c) then ret None
  else
    let* v := View LoadTLSMetadata (default_mode (ac_ACMEDefaultMode c)) in
    match v with
    | (_, Some e) => ret (Some e)
    | (m, None) =>
      if negb (bool_decide (M_Hostname m = "")) || negb (bool_decide (M_ActiveRevision m = "")) then
        log_when (negb (bool_decide (ac_TLSHostname c = "")) && negb (bool_decide (ac_TLSHostname c = M_Hostname m)))
          ("startup TLS hostname " +:+ quote (ac_TLSHostname c) +:+ " differs from persisted hostname " +:+ quote (M_Hostname m)
           +:+ "; keeping persisted settings") ;;
        log_when (negb (bool_decide (ac_TLSSource c = "")) && negb (bool_decide (ac_TLSSource c = EffectiveSource m)))
          ("startup TLS source " +:+ quote (ac_TLSSource c) +:+ " differs from persisted source " +:+ quote (EffectiveSource m)
           +:+ "; keeping persisted settings") ;;
        ret None
      else
        let source := if bool_decide (ac_TLSSource c = "") then LetsEncrypt else ac_TLSSource c in
        let* r := ConfigureInitial ParseAddress LoadTLSMetadata SaveTLSMetadata SetHostname (default_mode (ac_ACMEDefaultMode c))
                    source (ac_TLSHostname c) (ac_ACMEEmail c) (ac_TLSCertificateFile c) (ac_TLSKeyFile c) in
        ret (Wrapf "startup TLS settings" <$> r.2)
    end.
End Seed.

Section SeedOverStore.
Context {UT : UnicodeTables}.
Variable ParseAddress : string → option string.
Variable log : option (string → M store unit).
(** Logging does not touch the database. *)
Hypothesis log_keeps : ∀ logf, log = Some logf → ∀ l w r w', logf l w = (r, w') → w' = w.
Abbreviation seed c := (seedTLS ParseAddress Store_LoadTLSMetadata Store_SaveTLSMetadata Store_SetHostname log c).

Lemma log_when_keeps b l w r w' : log_when log b l w = (r, w') → w' = w.
Proof using log_keeps. unfold log_when. destruct log as [logf|] eqn:E; [destruct b; [by eapply log_keeps|]|]; by intros [= _ <-]. Qed.
Lemma seed_kept c w e w' r :
  db_faults w = [] → t_tls (db_tables w) = Some r → M_Hostname (tls_meta r) ≠ "" ∨ M_ActiveRevision (tls_meta r) ≠ "" →
  seed c w = (e, w') → e = None ∧ db_tables w' = db_tables w.
Proof using log_keeps.
  intros Hq Hr Hne H. unfold seedTLS in H. destruct (negb (seed_wanted c)); [by run_ret H|]. run_bind H.
  assert (Hv : a.2 = None).
  { unfold View in E. run_bind E. run_ret E. apply query_inv in E0 as [_ [[_ ?]| ->]]; [done|]. by rewrite Hr. }
  apply View_inv in E as [Ht Hview]. destruct (Hview Hv) as [Hm|?]; [|done]. rewrite Hr in Hm. destruct a as [m [e'|]]; [done|].
  cbn [fst] in Hm. assert (negb (bool_decide (M_Hostname m = "")) || negb (bool_decide (M_ActiveRevision m = "")) = true) as Hb.
  { rewrite orb_true_iff, !negb_true_iff, !bool_decide_eq_false. subst m. exact Hne. }
  rewrite Hb in H. run_bind H. apply log_when_keeps in E as ->. run_bind H. apply log_when_keeps in E as ->. by run_ret H.
Qed.

Lemma query_calm {A} (f : tables → result A) t k : query f (mkStore t [] k) = (f t, mkStore t [] k).
Proof using. done. Qed.
Lemma exec_calm_eq run t k : exec run (mkStore t [] k) = ((run t).1, mkStore (run t).2 [] k).
Proof using.
  unfold exec, bind, stmt. cbn [db_faults db_tables db_clock tail]. destruct (run t) as [[e|] t']; done.
Qed.
Lemma seed_fresh c t k s w' :
  t_tls t = None → t_settings t = Some s → seed_wanted c = true → seed c (mkStore t [] k) = (None, w') →
  db_faults w' = [] ∧ (set_hostname <$> t_settings (db_tables w')) = Some (ac_TLSHostname c)
  ∧ ∃ r, t_tls (db_tables w') = Some r ∧ M_Hostname (tls_meta r) = ac_TLSHostname c ∧ M_Hostname (tls_meta r) ≠ ""
    ∧ M_Source (tls_meta r) = (if bool_decide (ac_TLSSource c = "") then LetsEncrypt else ac_TLSSource c).
Proof using.
  intros Ht Hs Hw H. unfold seedTLS in H. rewrite Hw in H. cbn [negb] in H.
  set (mode := default_mode (ac_ACMEDefaultMode c)) in *. set (source := if bool_decide (ac_TLSSource c = "") then _ else _) in *.
  assert (Hview : ∃ m, View Store_LoadTLSMetadata mode (mkStore t [] k) = ((m, None), mkStore t [] k)
    ∧ M_Hostname m = "" ∧ M_ActiveRevision m = "").
  { unfold View, Store_LoadTLSMetadata, bind. rewrite query_calm, Ht. cbn [errors_is]. rewrite bool_decide_eq_true_2 by done.
    eexists. split; [reflexivity|]. done. }
  destruct Hview as (m & Hview & Hm1 & Hm2). unfold bind at 1 in H. rewrite Hview in H. cbv beta iota in H.
  rewrite Hm1, Hm2, !bool_decide_eq_true_2 in H by done. cbn [negb orb] in H. run_bind H. destruct a as [m' e]. run_ret H.
  destruct e as [e|]; [done|]. unfold ConfigureInitial in E.
  destruct (ValidateSourceSettings _ _ _ _ _ _) as [e|] eqn:Hv; [run_absurd E|]. unfold bind at 1 in E. rewrite Hview in E. cbv beta iota in E.
  rewrite Hm1, Hm2, !bool_decide_eq_true_2 in E by done. cbn [negb orb] in E.
  unfold store_settings, Store_SaveTLSMetadata, bind, db_now in E. cbn [db_tables db_faults db_clock] in E. rewrite exec_calm_eq in E.
  set (m1 := initial_settings _ _ _ _ _ _) in *. destruct (meta_ok m1); [|by injection E].
  cbn [fst snd] in E. unfold Store_SetHostname, bind, db_now in E. cbn [db_tables db_faults db_clock] in E. rewrite exec_calm_eq in E.
  injection E as <- <-. cbn [db_faults db_tables snd put_settings put_tls t_settings t_tls fmap option_fmap option_map]. rewrite Hs.
  assert (Hsource : M_Source m1 = source ∧ M_Hostname m1 = ac_TLSHostname c).
  { unfold m1, initial_settings. by destruct (bool_decide _ || bool_decide _). }
  destruct Hsource as [Hs1 Hs2].
  assert (Hne : source ≠ "").
  { unfold source. case_bool_decide; [done|done]. }
  assert (Hh : ac_TLSHostname c ≠ "").
  { intros Hh. unfold ValidateSourceSettings, validateCertificateHostname in Hv. rewrite Hh in Hv.
    change (to_lower (trim_space "")) with "" in Hv. discriminate Hv. }
  split; [done|]. split; [done|]. eexists. split; [done|]. cbn [tls_meta].
  assert (He : EffectiveSource m1 = source) by (unfold EffectiveSource; rewrite Hs1; by rewrite bool_decide_eq_false_2).
  split; [exact Hs2|]. split; [cbn; by rewrite Hs2|exact He].
Qed.

(** C40. Start-up settings seed an empty installation once: after a start that
    seeded it, the host name and the source are those given, and no later start
    changes a table, whatever settings it is given; persisted settings win. *)
Theorem seedTLS_once c c' t k s w1 e w2 :
  t_tls t = None → t_settings t = Some s → seed_wanted c = true →
  seed c (mkStore t [] k) = (None, w1) → seed c' w1 = (e, w2) →
  e = None ∧ db_tables w2 = db_tables w1
  ∧ (set_hostname <$> t_settings (db_tables w2)) = Some (ac_TLSHostname c)
  ∧ (M_Hostname ∘ tls_meta <$> t_tls (db_tables w2)) = Some (ac_TLSHostname c)
  ∧ (M_Source ∘ tls_meta <$> t_tls (db_tables w2)) = Some (if bool_decide (ac_TLSSource c = "") then LetsEncrypt else ac_TLSSource c).
Proof using log_keeps.
  intros Ht Hs Hw H1 H2. destruct (seed_fresh _ _ _ _ _ Ht Hs Hw H1) as (Hq & Hset & r & Hr & Hh & Hne & Hsrc).
  destruct (seed_kept _ _ _ _ _ Hq Hr (or_introl Hne) H2) as [-> Htab]. rewrite Htab, Hr. split; [done|]. split; [done|].
  split; [done|]. cbn. by rewrite Hh, Hsrc.
Qed.
End SeedOverStore.

(** ** Start-up *)

Section Recover.
Context {UT : UnicodeTables} {W : Type} {RS : RevisionStore W} {CS : ConfigRevisionStore W} {P : Process W}.
Variable logf : string → M W unit.
(** [Run], from the listeners to the log line: the stored snapshot is published
    and the endpoint started with it. *)
Definition recover : M W (option gerror) :=
  let* r := Snapshot_ in
  match r with
  | (_, Some e) => ret (Some e)
  | (snapshot, None) =>
    if negb (bool_decide (Snap_Hostname snapshot = "")) && negb (bool_decide (Snap_Users snapshot = [])) then
      match Render snapshot with
      | Err e => ret (Some e)
      | Ok files =>
        let* applied := configs_Apply files in
        match applied with
        | Err e => ret (Some e)
        | Ok revision =>
          err? SetActiveRevision revision in
          let* e := process_Restart revision in
          match e with
          | Some e => logf ("endpoint startup degraded: " +:+ error_text e) ;; ret None
          | None => ret None
          end
        end
      end
    else ret None
  end.

Context {PUB : Publication W}.
Hypothesis log_keeps : ∀ l w r w', reliable w → logf l w = (r, w') → reliable w' ∧ view w' = view w.
End Recover.
