(* ===== verification/AppRun.v ===== *)
(** [Run] of [internal/app/app.go]: the order in which the parts of the program are
    opened and, on every way out, closed. *)
From S2P Require Import Prelude GoStrings GoPath Domain GoTime Config FileSys X509 CertState TLSStore AccountKey App.

(** The calls [Run] makes; what each needs beside the configuration it has. *)
Class AppParts (W : Type) := {
  part_pair : Type;                                       (** [tls.Certificate] *)
  part_mkdir : string → M W (option gerror);              (** [os.MkdirAll] of the data directory *)
  part_lock : string → M W (option gerror);               (** [datalock.Acquire] *)
  part_unlock : M W unit;
  part_open_store : string → M W (option gerror);         (** [persistence.Open] *)
  part_close_store : M W unit;
  part_materializer : string → M W (option gerror);       (** [config.NewMaterializer] *)
  part_supervisor : M W (option gerror);                  (** [supervisor.New] *)
  part_exporter : M W (option gerror);                    (** [endpointcli.New] *)
  part_tls_store : string → M W (option gerror);          (** [certificate.NewTLSStore] *)
  part_metadata : M W (result Metadata);                  (** [store.LoadTLSMetadata] *)
  part_prepare : Published → M W (result part_pair);      (** [adminCert.Prepare] *)
  part_activate : part_pair → M W unit;
  part_seed : M W (option gerror);                        (** [seedTLS] *)
  part_view : M W (Metadata * option gerror);             (** [tlsSettings.View] *)
  part_listen_probe : string → M W (option gerror);
  part_close_probe : M W unit;                            (** [probeListener.Close] *)
  part_listen_ui : string → M W (option gerror);
  part_serve : M W unit;                                  (** both [go] statements *)
  part_recover : M W (option gerror);                     (** [recover] *)
  part_renewal_start : M W (option gerror);
  part_renewal_stop : M W (option gerror);
  part_http01_shutdown : M W (option gerror);
  part_wait : M W (option gerror);                        (** the [select] *)
  part_ui_shutdown : M W (option gerror);
  part_probe_shutdown : M W (option gerror);
  part_stop : M W (option gerror);                        (** [proc.Stop] *)
  part_cancel : M W unit;                                 (** [cancelRun] *)
  part_log : string → M W unit
}.

Section Run.
Context {MO : MapOrder} {W : Type} {AP : AppParts W}.
Variable ParseURL : string → option (string * string).

(** [defer] of a call whose result is dropped. *)
Definition finally (m : M W (option gerror)) (d : M W unit) : M W (option gerror) :=
  let* e := m in d ;; ret e.

(** The administrator's certificate is loaded when one was published. *)
Definition load_admin_certificate : M W (option gerror) :=
  let* r := part_metadata in
  match r with
  | Err e => ret (if errors_is e ErrNoRows then None else Some (Wrapf "load AdminUI TLS metadata" e))
  | Ok m =>
    if bool_decide (M_ActiveRevision m = "") then ret None
    else
      let* p := part_prepare (mkPublished (M_ActiveRevision m) (M_CertificatePath m) (M_PrivateKeyPath m)) in
      match p with
      | Err e => part_log ("AdminUI TLS unavailable: " +:+ error_text e) ;; ret None
      | Ok keys => part_activate keys ;; ret None
      end
  end.
Definition log_waiting (m : Metadata) : M W unit :=
  if bool_decide (M_Hostname m = "")
  then part_log "AdminUI HTTPS is waiting for TLS settings; set TT_TLS_SOURCE and TT_TLS_HOSTNAME at startup"
  else if bool_decide (M_ActiveRevision m = "")
  then part_log ("AdminUI HTTPS is waiting for the first " +:+ EffectiveSource m +:+ " certificate for " +:+ M_Hostname m)
  else ret tt.

(** From the two [go] statements to the end, within the deferred shutdown. *)
Definition run_serving (c : AppConfig) : M W (option gerror) :=
  part_serve ;;
  err? part_recover in
  part_log ("controller started version=" +:+ ac_Version c +:+ " commit=" +:+ ac_Commit c) ;;
  err? part_renewal_start in
  finally
    (let* e := part_wait in
     part_log "controller stopping" ;;
     ret e)
    (part_cancel ;; let* _ := part_renewal_stop in let* _ := part_http01_shutdown in ret tt).
(** The listeners, and the deferred shutdown: the error of [proc.Stop] joins. *)
Definition run_listening (c : AppConfig) : M W (option gerror) :=
  let* e := part_listen_probe (ac_ProbeListen c) in
  match e with
  | Some e => ret (Some (Wrapf "probe listener" e))
  | None =>
    let* e := part_listen_ui (ac_UIListen c) in
    match e with
    | Some e => part_close_probe ;; ret (Some (Wrapf "UI listener" e))
    | None =>
      let* runErr := run_serving c in
      let* _ := part_ui_shutdown in
      let* _ := part_probe_shutdown in
      let* stopErr := part_stop in
      ret (errors_join runErr stopErr)
    end
  end.
Definition wrapped (prefix : string) (m : M W (option gerror)) : M W (option gerror) :=
  let* e := m in ret (Wrapf prefix <$> e).
Definition run_with_store (c : AppConfig) : M W (option gerror) :=
  err? wrapped "config materializer" (part_materializer (join_path [ac_DataDir c; "config"])) in
  err? part_supervisor in
  err? part_exporter in
  err? part_tls_store (join_path [ac_DataDir c; "tls"]) in
  err? load_admin_certificate in
  err? part_seed in
  let* v := part_view in
  match v with
  | (_, Some e) => ret (Some e)
  | (m, None) => log_waiting m ;; run_listening c
  end.
Definition Run (c : AppConfig) : M W (option gerror) :=
  finally
    (match AppConfig_Validate ParseURL c with
     | Some e => ret (Some e)
     | None =>
       err? wrapped "create data directory" (part_mkdir (ac_DataDir c)) in
       err? part_lock (ac_DataDir c) in
       finally
         (err? wrapped "open state" (part_open_store (join_path [ac_DataDir c; "controller.db"])) in
          finally (run_with_store c) part_close_store)
         part_unlock
     end)
    part_cancel.
End Run.

(** ** What is open

    The parts that are open.  A part is opened when what it needs is open, and
    closed when what works with it is closed; the endpoint is started and stopped
    at any time while the controller serves. *)
Inductive part := DataLock | Database | ProbeServer | UIServer | Endpoint | Renewal.
#[export] Instance part_eq_dec : EqDecision part.
Proof. solve_decision. Defined.
Definition opens_after (p : part) : list part :=
  match p with
  | DataLock => []
  | Database => [DataLock]
  | ProbeServer | UIServer => [DataLock; Database]
  | Endpoint | Renewal => [DataLock; Database; ProbeServer; UIServer]
  end.
Definition closes_after (p : part) : list part :=
  match p with
  | DataLock => [Database; ProbeServer; UIServer; Endpoint; Renewal]
  | Database => [ProbeServer; UIServer; Endpoint; Renewal]
  | Endpoint => [ProbeServer; UIServer; Renewal]
  | ProbeServer | UIServer => [Renewal]
  | Renewal => []
  end.
Definition member (p : part) (l : list part) : bool := existsb (λ q, bool_decide (p = q)) l.
Definition without (p : part) (l : list part) : list part := List.filter (λ q, negb (bool_decide (p = q))) l.
Definition may_open (p : part) (l : list part) : bool := negb (member p l) && forallb (λ q, member q l) (opens_after p).
Definition may_close (p : part) (l : list part) : bool := member p l && forallb (λ q, negb (member q l)) (closes_after p).

(** [os_orderly]: every opening and closing so far was allowed.  [os_faults] are the
    outcomes of the calls that can fail. *)
Record open_state := mkOpenState { os_open : list part; os_orderly : bool; os_faults : list (option gerror); os_metadata : Metadata }.
Definition fault : M open_state (option gerror) := λ s,
  match os_faults s with
  | f :: fs => (f, mkOpenState (os_open s) (os_orderly s) fs (os_metadata s))
  | [] => (None, s)
  end.
Definition open_now (p : part) : M open_state unit := λ s,
  (tt, mkOpenState (p :: os_open s) (os_orderly s && may_open p (os_open s)) (os_faults s) (os_metadata s)).
Definition close_part (p : part) : M open_state unit := λ s,
  (tt, mkOpenState (without p (os_open s)) (os_orderly s && may_close p (os_open s)) (os_faults s) (os_metadata s)).
Definition open_part (p : part) : M open_state (option gerror) :=
  let* f := fault in
  match f with
  | None => open_now p ;; ret None
  | Some e => ret (Some e)
  end.
(** A shutdown closes the part and reports what it likes. *)
Definition shut_part (p : part) : M open_state (option gerror) := let* e := fault in close_part p ;; ret e.
(** [proc.Stop] stops an endpoint that runs. *)
Definition stop_part : M open_state (option gerror) :=
  let* l := gets os_open in if member Endpoint l then shut_part Endpoint else fault.
(** The endpoint may start in the recovery, or fail to. *)
Definition recover_part : M open_state (option gerror) :=
  let* e := fault in
  match e with
  | Some e => ret (Some e)
  | None => let* _ := open_part Endpoint in ret None
  end.
(** While the controller serves the endpoint may be stopped, or started. *)
Definition serve_part : M open_state (option gerror) :=
  let* turn := fault in
  (match turn with
   | None => ret tt
   | Some _ => λ s,
       (tt, mkOpenState (if member Endpoint (os_open s) then without Endpoint (os_open s) else Endpoint :: os_open s) (os_orderly s)
              (os_faults s) (os_metadata s))
   end) ;;
  fault.
#[export] Instance open_parts : AppParts open_state := {
  part_pair := unit;
  part_mkdir _ := fault;
  part_lock _ := open_part DataLock; part_unlock := close_part DataLock;
  part_open_store _ := open_part Database; part_close_store := close_part Database;
  part_materializer _ := fault; part_supervisor := fault; part_exporter := fault; part_tls_store _ := fault;
  part_metadata := let* f := fault in gets (λ s, match f with Some e => Err e | None => Ok (os_metadata s) end);
  part_prepare _ := let* f := fault in ret (match f with Some e => Err e | None => Ok tt end);
  part_activate _ := ret tt;
  part_seed := fault;
  part_view := let* f := fault in gets (λ s, (os_metadata s, f));
  part_listen_probe _ := open_part ProbeServer; part_close_probe := close_part ProbeServer;
  part_listen_ui _ := open_part UIServer;
  part_serve := ret tt;
  part_recover := recover_part;
  part_renewal_start := open_part Renewal; part_renewal_stop := shut_part Renewal;
  part_http01_shutdown := fault; part_wait := serve_part;
  part_ui_shutdown := shut_part UIServer; part_probe_shutdown := shut_part ProbeServer; part_stop := stop_part;
  part_cancel := ret tt; part_log _ := ret tt
}.

(** ** Every way out closes what was opened *)

(** From an orderly state with the parts of [pre] open, [m] ends orderly with those of [post]. *)
Definition triple {A} (pre : list part → Prop) (m : M open_state A) (post : A → list part → Prop) : Prop :=
  ∀ s a s', m s = (a, s') → os_orderly s = true → pre (os_open s) → os_orderly s' = true ∧ post a (os_open s').

Section Orderly.
Context {A B : Type}.
Implicit Types (pre : list part → Prop).
Lemma triple_ret (a : A) pre post : (∀ l, pre l → post a l) → triple pre (ret a) post.
Proof using. intros Hp s b s' [= <- <-]. auto. Qed.
Lemma triple_keep (a : A) pre : triple pre (ret a) (λ _, pre).
Proof using. by apply triple_ret. Qed.
Lemma triple_gets (f : open_state → A) pre : triple pre (gets f) (λ _, pre).
Proof using. by intros s b s' [= _ <-]. Qed.
Lemma triple_fault pre : triple pre fault (λ _, pre).
Proof using. intros s b s'. unfold fault. by destruct (os_faults s); intros [= _ <-]. Qed.
Lemma triple_bind pre (m : M open_state A) (k : A → M open_state B) mid post :
  triple pre m mid → (∀ a, triple (mid a) (k a) post) → triple pre (bind m k) post.
Proof using. intros Hm Hk s b s' H Ho Hp. run_bind H. destruct (Hm _ _ _ E Ho Hp) as [Ho' Hp']. by eapply Hk. Qed.
Lemma triple_weaken pre pre' (m : M open_state A) post post' :
  triple pre m post → (∀ l, pre' l → pre l) → (∀ a l, post a l → post' a l) → triple pre' m post'.
Proof using. intros Hm H1 H2 s b s' H Ho Hp. destruct (Hm _ _ _ H Ho (H1 _ Hp)). auto. Qed.
End Orderly.

Lemma triple_open p l : may_open p l = true →
  triple (eq l) (open_part p) (λ e, match e with None => eq (p :: l) | Some _ => eq l end).
Proof.
  intros Hp. eapply triple_bind; [apply (triple_fault (eq l))|]. intros [e|]; [by apply triple_ret|].
  intros s a s' [= <- <-] Ho <-.
  cbn [os_open os_orderly]. by rewrite Ho, Hp.
Qed.
Lemma triple_close p l : may_close p l = true → triple (eq l) (close_part p) (λ _, eq (without p l)).
Proof. intros Hp s a s' [= <- <-] Ho <-. cbn [os_open os_orderly]. by rewrite Ho, Hp. Qed.
Lemma triple_shut p l (post : list part → Prop) :
  may_close p l = true → post (without p l) → triple (eq l) (shut_part p) (λ _, post).
Proof.
  intros Hp Hq. eapply triple_bind; [apply (triple_fault (eq l))|]. intros e.
  eapply triple_bind; [by apply triple_close|]. intros []. apply triple_ret. by intros l' <-.
Qed.
(** The listeners are open; the endpoint may run. *)
Definition serving : list part := [UIServer; ProbeServer; Database; DataLock].
Definition endpoint_or (l l' : list part) : Prop := l' = l ∨ l' = Endpoint :: l.
Lemma triple_endpoint_or {A} l (m : M open_state A) post :
  triple (eq l) m post → triple (eq (Endpoint :: l)) m post → triple (endpoint_or l) m post.
Proof. intros H1 H2 s a s' H Ho [Hl|Hl]; [by eapply H1|by eapply H2]. Qed.
Lemma recover_triple : triple (eq serving) recover_part (λ _, endpoint_or serving).
Proof.
  eapply triple_bind; [apply (triple_fault (eq serving))|]. intros [e|]; [apply triple_ret; by left|].
  eapply triple_bind; [by apply (triple_open Endpoint)|]. intros [e|]; apply triple_ret; intros l <-; [by left|by right].
Qed.
(** The same while the renewals run. *)
Definition renewing (l : list part) : Prop := endpoint_or (Renewal :: serving) l ∨ l = Renewal :: Endpoint :: serving.
Lemma renewing_triple {A} (m : M open_state A) post :
  triple (eq (Renewal :: serving)) m post → triple (eq (Endpoint :: Renewal :: serving)) m post →
  triple (eq (Renewal :: Endpoint :: serving)) m post → triple renewing m post.
Proof. intros H1 H2 H3 s a s' H Ho [[Hl|Hl]|Hl]; [by eapply H1|by eapply H2|by eapply H3]. Qed.
Lemma serve_triple : triple renewing serve_part (λ _, renewing).
Proof.
  eapply triple_bind; [apply (triple_fault renewing)|]. intros turn. eapply triple_bind; [|intros; apply (triple_fault renewing)].
  destruct turn; [|by apply triple_ret]. intros s a s' [= <- <-] Ho [[Hl|Hl]|Hl]; rewrite Hl; (split; [exact Ho|]);
    [by left; right|by left; left|by left; left].
Qed.
Lemma renewal_start_triple l : endpoint_or serving l →
  triple (eq l) (open_part Renewal) (λ e, match e with None => renewing | Some _ => endpoint_or serving end).
Proof.
  intros Hl. eapply triple_weaken; [apply (triple_open Renewal l); by destruct Hl as [-> | ->]|done|].
  intros [e|] l' <-; [done|]. destruct Hl as [-> | ->]; [by left; left|by right].
Qed.
Lemma renewal_stop_triple : triple renewing (shut_part Renewal) (λ _, endpoint_or serving).
Proof. apply renewing_triple; (apply triple_shut; [done|]); [by left|by right|by right]. Qed.
(** One part fewer, whether or not the endpoint runs. *)
Lemma shut_under p l l' : may_close p l = true → may_close p (Endpoint :: l) = true → without p l = l' →
  without p (Endpoint :: l) = Endpoint :: l' → triple (endpoint_or l) (shut_part p) (λ _, endpoint_or l').
Proof. intros H1 H2 H3 H4. apply triple_endpoint_or; (apply triple_shut; [done|]); [by left|by right]. Qed.
Lemma stop_triple : triple (endpoint_or [Database; DataLock]) stop_part (λ _, eq [Database; DataLock]).
Proof.
  apply triple_endpoint_or; intros s e s' H Ho Hl; unfold stop_part, bind at 1, gets in H; rewrite <- Hl in H.
  - change (fault s = (e, s')) in H. by apply (triple_fault (eq [Database; DataLock]) s e s' H Ho Hl).
  - change (shut_part Endpoint s = (e, s')) in H. by apply (triple_shut Endpoint (Endpoint :: [Database; DataLock]) (eq [Database; DataLock]) eq_refl eq_refl s e s' H Ho Hl).
Qed.

(** ** [Run] *)

Section Releases.
Context {MO : MapOrder}.
Variable ParseURL : string → option (string * string).
Lemma run_serving_triple c : triple (eq serving) (run_serving c) (λ _, endpoint_or serving).
Proof using.
  unfold run_serving. eapply triple_bind; [apply (triple_keep tt (eq serving))|]. intros [].
  eapply triple_bind; [apply recover_triple|]. intros [e|]; [by apply triple_ret|].
  eapply triple_bind; [apply (triple_keep tt)|]. intros [].
  eapply triple_bind.
  { apply triple_endpoint_or; apply renewal_start_triple; [by left|by right]. }
  intros [e|]; [by apply triple_ret|]. eapply triple_bind.
  { eapply triple_bind; [apply serve_triple|]. intros e. eapply triple_bind; [apply (triple_keep tt renewing)|].
    intros []. apply (triple_keep e renewing). }
  intros e. cbn beta. eapply (triple_bind _ _ _ (λ _, endpoint_or serving)); [|intros []; apply (triple_keep e)].
  eapply triple_bind; [apply (triple_keep tt renewing)|]. intros [].
  eapply triple_bind; [apply renewal_stop_triple|]. intros ?. eapply triple_bind; [apply (triple_fault (endpoint_or serving))|].
  intros ?. by apply triple_ret.
Qed.
Lemma run_listening_triple c : triple (eq [Database; DataLock]) (run_listening c) (λ _, eq [Database; DataLock]).
Proof using.
  unfold run_listening. eapply triple_bind; [by apply (triple_open ProbeServer)|]. intros [e|]; [by apply triple_ret|].
  eapply triple_bind; [by apply (triple_open UIServer)|]. intros [e|].
  { eapply triple_bind; [by apply (triple_close ProbeServer)|]. intros []. by apply triple_ret. }
  eapply triple_bind; [apply run_serving_triple|]. intros runErr.
  eapply triple_bind; [by apply (shut_under UIServer serving [ProbeServer; Database; DataLock])|]. intros ?.
  eapply triple_bind; [by apply (shut_under ProbeServer [ProbeServer; Database; DataLock] [Database; DataLock])|]. intros ?.
  eapply triple_bind; [apply stop_triple|]. intros stopErr. by apply triple_ret.
Qed.
Lemma triple_pass l m (k : M open_state (option gerror)) :
  triple (eq l) m (λ _, eq l) → triple (eq l) k (λ _, eq l) → triple (eq l) (err? m in k) (λ _, eq l).
Proof using. intros Hm Hk. eapply triple_bind; [exact Hm|]. intros [e|]; [by apply triple_ret|done]. Qed.
Lemma triple_fault_try l (k : M open_state (option gerror)) : triple (eq l) k (λ _, eq l) → triple (eq l) (err? fault in k) (λ _, eq l).
Proof using. apply triple_pass, (triple_fault (eq l)). Qed.
Lemma triple_wrapped_try prefix l m (k : M open_state (option gerror)) :
  triple (eq l) (err? m in k) (λ _, eq l) → triple (eq l) (err? wrapped prefix m in k) (λ _, eq l).
Proof using.
  intros Hm s e s' H Ho Hl. unfold try_err, wrapped in H. run_bind H. run_bind E. run_ret E.
  destruct a0 as [x|].
  - run_ret H. eapply (Hm s (Some x)); [|done..]. unfold try_err, bind. by rewrite E0.
  - eapply (Hm s e s'); [|done..]. unfold try_err, bind. by rewrite E0.
Qed.
Lemma load_admin_triple l (k : M open_state (option gerror)) :
  triple (eq l) k (λ _, eq l) → triple (eq l) (err? load_admin_certificate in k) (λ _, eq l).
Proof using.
  apply triple_pass. unfold load_admin_certificate. eapply triple_bind.
  { eapply triple_bind; [apply (triple_fault (eq l))|]. intros f. apply (triple_gets _ (eq l)). }
  intros [m|e]; [|by apply triple_ret]. case_bool_decide; [by apply triple_ret|]. eapply triple_bind.
  { eapply triple_bind; [apply (triple_fault (eq l))|]. intros f. apply (triple_keep _ (eq l)). }
  intros [keys|e]; (eapply triple_bind; [apply (triple_keep tt (eq l))|]); intros []; by apply triple_ret.
Qed.
Lemma run_with_store_triple c : triple (eq [Database; DataLock]) (run_with_store c) (λ _, eq [Database; DataLock]).
Proof using.
  unfold run_with_store. apply triple_wrapped_try, triple_fault_try, triple_fault_try, triple_fault_try, triple_fault_try.
  apply load_admin_triple, triple_fault_try. eapply triple_bind.
  { eapply triple_bind; [apply (triple_fault (eq [Database; DataLock]))|]. intros f. apply (triple_gets _ (eq [Database; DataLock])). }
  intros [m [e|]]; [by apply triple_ret|]. eapply (triple_bind _ _ _ (λ _, eq [Database; DataLock])); [|intros []; apply run_listening_triple].
  unfold log_waiting. repeat case_bool_decide; apply (triple_keep tt).
Qed.
(** The deferred release of what was opened last. *)
Lemma triple_finally p l m : may_close p (p :: l) = true → without p (p :: l) = l →
  triple (eq (p :: l)) m (λ _, eq (p :: l)) → triple (eq (p :: l)) (finally m (close_part p)) (λ _, eq l).
Proof using.
  intros Hc Hw Hm. eapply triple_bind; [exact Hm|]. intros e. eapply triple_bind; [by apply triple_close|]. intros [].
  apply triple_ret. by rewrite Hw.
Qed.
Lemma triple_open_try p l (k : M open_state (option gerror)) : may_open p l = true →
  triple (eq (p :: l)) k (λ _, eq l) → triple (eq l) (err? open_part p in k) (λ _, eq l).
Proof using. intros Hp Hk. eapply triple_bind; [by apply triple_open|]. intros [e|]; [by apply triple_ret|done]. Qed.

End Releases.
