(* ===== verification/Http.v ===== *)
(** [net/http] as [internal/webui] uses it: requests, responses, cookies and the
    patterns of [http.ServeMux]. *)
From S2P Require Import Prelude GoStrings Quote GoPath Base64 Sha256 Domain X509 CertState ClientProfile Store.

(** ** Requests

    [rq_path] is [r.URL.Path], [rq_escaped] is [r.URL.EscapedPath()]; the mux reads
    the second, the handlers the first.  [rq_form] is what [FormValue] sees, and
    [rq_form_error] the error of the first [ParseForm], which the second call of
    it does not repeat.  The last three fields are the values of the request's
    context. *)
Record request := mkRequest {
  rq_method : string;
  rq_path : string;
  rq_escaped : string;
  rq_cookies : list (string * string);
  rq_csrf_header : string;
  rq_form : list (string * string);
  rq_form_error : option gerror;
  rq_query : list (string * string);
  rq_tls : bool;
  rq_remote : string;
  rq_id : string;
  rq_csrf : string;
  rq_admin : option Admin
}.
Definition rq_with_context (id csrf : string) (admin : option Admin) (r : request) : request :=
  mkRequest (rq_method r) (rq_path r) (rq_escaped r) (rq_cookies r) (rq_csrf_header r) (rq_form r) (rq_form_error r)
    (rq_query r) (rq_tls r) (rq_remote r) id csrf admin.
Definition rq_set_form_error (e : option gerror) (r : request) : request :=
  mkRequest (rq_method r) (rq_path r) (rq_escaped r) (rq_cookies r) (rq_csrf_header r) (rq_form r) e
    (rq_query r) (rq_tls r) (rq_remote r) (rq_id r) (rq_csrf r) (rq_admin r).
Definition rq_set_path (p : string) (r : request) : request :=
  mkRequest (rq_method r) p (rq_escaped r) (rq_cookies r) (rq_csrf_header r) (rq_form r) (rq_form_error r)
    (rq_query r) (rq_tls r) (rq_remote r) (rq_id r) (rq_csrf r) (rq_admin r).

Fixpoint first_value (k : string) (l : list (string * string)) : option string :=
  match l with
  | [] => None
  | (k', v) :: l' => if bool_decide (k' = k) then Some v else first_value k l'
  end.
(** [r.Cookie(name)], [r.FormValue(name)], [r.URL.Query().Get(name)] *)
Definition Cookie (name : string) (r : request) : option string := first_value name (rq_cookies r).
Definition FormValue (name : string) (r : request) : string := default "" (first_value name (rq_form r)).
Definition QueryGet (name : string) (r : request) : string := default "" (first_value name (rq_query r)).

(** ** Responses *)

Record cookie := mkCookie {
  ck_name : string;
  ck_value : string;
  ck_expires : option Time;
  ck_MaxAge : Z;
  ck_Secure : bool;
  ck_HttpOnly : bool;
  ck_SameSiteStrict : bool
}.

(** What is written: a text, the execution of a template on its data, or the
    bytes of a file. *)
Inductive body : Type :=
| BText (s : string)
| BLogin (error csrf : string)
| BBootstrap (error csrf : string)
| BAccount (csrf error notice : string)
| BUsers (csrf error newUsername newPassword : string) (users : list VPNUser)
| BClient (deepLink : string)
| BConnection (profile : Settings) (csrf error : string) (saved : bool)
| BDashboard (fragment : bool) (csrf : string) (endpoint : EndpointStatus) (metrics : option EndpointMetrics) (tls : Metadata)
    (uptime : Duration)
| BEvents (csrf error endpointLogs controllerLogs : string) (events : list ApplyEvent) (next : Z)
| BTLS (csrf error notice : string) (metadata : Metadata) (expiring : bool)
| BBytes (data : string).

Record response := mkResponse {
  rs_status : Z;
  rs_headers : list (string * string);
  rs_cookies : list cookie;
  rs_body : body
}.
Definition StatusOK : Z := 200.
Definition StatusMovedPermanently : Z := 301.
Definition StatusSeeOther : Z := 303.
Definition StatusBadRequest : Z := 400.
Definition StatusForbidden : Z := 403.
Definition StatusNotFound : Z := 404.
Definition StatusMethodNotAllowed : Z := 405.
Definition StatusConflict : Z := 409.
Definition StatusTooManyRequests : Z := 429.
Definition StatusInternalServerError : Z := 500.

(** [http.Error], [http.NotFound], [http.Redirect] and a page with status 200. *)
Definition http_error (message : string) (status : Z) : response := mkResponse status [] [] (BText message).
Definition not_found : response := http_error "404 page not found" StatusNotFound.
Definition redirect (location : string) (status : Z) : response :=
  mkResponse status [("Location", location)] [] (BText "").
Definition page (b : body) : response :=
  mkResponse StatusOK [("Content-Type", "text/html; charset=utf-8")] [] b.
(** What was set on the writer before the handler wrote. *)
Definition with_header (k v : string) (r : response) : response :=
  mkResponse (rs_status r) ((k, v) :: rs_headers r) (rs_cookies r) (rs_body r).
Definition with_cookie (c : cookie) (r : response) : response :=
  mkResponse (rs_status r) (rs_headers r) (c :: rs_cookies r) (rs_body r).

(** [http.Handler] over a world. *)
Definition handler (W : Type) : Type := request → M W response.

(** ** [http.ServeMux] *)

(** [path.Clean] is [filepath.Clean] on Unix; [cleanPath] of the mux. *)
Definition ends_with_slash (p : string) : bool :=
  match rev (chars p) with c :: _ => bool_decide (c = slash) | [] => false end.
Definition clean_path (p : string) : string :=
  let p := match p with "" => "/" | _ => if has_prefix p "/" then p else "/" +:+ p end in
  let np := clean p in
  if ends_with_slash p && negb (bool_decide (np = "/")) then np +:+ "/" else np.

(** [url.PathUnescape], the argument itself when it does not parse. *)
Fixpoint unescape_chars (s : list ascii) : option (list ascii) :=
  match s with
  | [] => Some []
  | c :: s' =>
    if bool_decide (c = "%"%char) then
      match s' with
      | a :: b :: s'' =>
        match hex_digit_value a, hex_digit_value b with
        | Some x, Some y => option_map (cons (chr (16 * x + y))) (unescape_chars s'')
        | _, _ => None
        end
      | _ => None
      end
    else option_map (cons c) (unescape_chars s')
  end.
Definition path_unescape (s : string) : string :=
  match unescape_chars (chars s) with Some l => of_chars l | None => s end.

(** The segments of a clean path; a trailing slash is the segment ["/"]. *)
Definition segments (p : string) : list string :=
  match split p slash with
  | [] => []
  | _ :: segs =>
    match rev segs with
    | "" :: rest => (path_unescape <$> rev rest) ++ ["/"]
    | _ => path_unescape <$> segs
    end
  end.

(** A segment of a pattern; [{$}] is the literal ["/"]. *)
Inductive pattern_segment : Type := Lit (s : string) | Wild.
Record pattern := mkPattern {
  pt_method : string;
  pt_segments : list pattern_segment;
  pt_subtree : bool   (** a pattern that ends in a slash *)
}.
(** The wildcards' values. *)
Fixpoint match_segments (ps : list pattern_segment) (subtree : bool) (segs : list string) : option (list string) :=
  match ps, segs with
  | [], [] => if subtree then None else Some []
  | [], _ :: _ => if subtree then Some [] else None
  | Lit l :: ps', s :: segs' => if bool_decide (l = s) then match_segments ps' subtree segs' else None
  | Wild :: ps', s :: segs' =>
    if bool_decide (s = "/") then None else option_map (cons s) (match_segments ps' subtree segs')
  | _ :: _, [] => None
  end.
Definition method_matches (m pm : string) : bool :=
  bool_decide (m = pm) || (bool_decide (m = "HEAD") && bool_decide (pm = "GET")).

Section Mux.
Context {A : Type}.
Definition match_path (p : string) (pt : pattern) : option (list string) :=
  match_segments (pt_segments pt) (pt_subtree pt) (segments p).
Fixpoint find_route (m p : string) (routes : list (pattern * A)) : option (A * list string) :=
  match routes with
  | [] => None
  | (pt, a) :: routes' =>
    match (if method_matches m (pt_method pt) then match_path p pt else None) with
    | Some vs => Some (a, vs)
    | None => find_route m p routes'
    end
  end.
(** Whether a pattern of another method matches, with or without a final slash. *)
Definition other_method (p : string) (routes : list (pattern * A)) : bool :=
  existsb (λ r, bool_decide (is_Some (match_path p r.1))
                || (negb (ends_with_slash p) && bool_decide (is_Some (match_path (p +:+ "/") r.1)))) routes.

Inductive mux_result : Type :=
| MuxHandler (a : A) (values : list string)
| MuxRedirect (path : string)
| MuxNotAllowed
| MuxNotFound.
Definition mux (routes : list (pattern * A)) (r : request) : mux_result :=
  let p := if bool_decide (rq_method r = "CONNECT") then rq_escaped r else clean_path (rq_escaped r) in
  match find_route (rq_method r) p routes with
  | Some (a, vs) => if bool_decide (p = rq_escaped r) then MuxHandler a vs else MuxRedirect p
  | None =>
    if negb (ends_with_slash p) && bool_decide (is_Some (find_route (rq_method r) (p +:+ "/") routes))
    then MuxRedirect (p +:+ "/")
    else if negb (bool_decide (p = rq_escaped r)) then MuxRedirect p
    else if other_method p routes then MuxNotAllowed else MuxNotFound
  end.
End Mux.
Arguments mux_result A : clear implicits.

(** ** HMAC *)

(** [hmac.New(sha256.New, key)] for a key of at most one block of 64 bytes. *)
Definition xor_pad (pad : Z) (key : string) : string :=
  of_chars ((λ c, chr (Z.lxor (code c) pad)) <$> take 64 (chars key ++ replicate 64 (chr 0))).
Definition hmac_sha256 (key message : string) : string :=
  sha256_sum (xor_pad 92 key +:+ sha256_sum (xor_pad 54 key +:+ message)).

(** RFC 4231, test case 2, in hexadecimal. *)
Definition hex_of (s : string) : string :=
  of_chars (concat ((λ c, [hex_digit (code c / 16); hex_digit (code c mod 16)]) <$> chars s)).
Example hmac_rfc4231 :
  hex_of (hmac_sha256 "Jefe" "what do ya want for nothing?")
  = "5bdcc146bf60754e6a042426089575c75a003f089d2739839dec58b964ec3843".
Proof. vm_compute. reflexivity. Qed.
