(* ===== verification/Http01.v ===== *)
(** [internal/certificate/http01.go]: the challenges being served, and the server
    that is up exactly while there are some.

    The mutex makes the part of a method that touches the provider one step; the
    closing of a listener and [Shutdown] of a server come after it and only act on
    the ones taken out. *)
From S2P Require Import Prelude GoStrings GoPath Domain X509 CertState ClientProfile Store Http.

Record HTTP01Provider := mkHTTP01 {
  hp_address : string;
  hp_tokens : gmap string string;
  hp_server : option nat;            (** [p.server] and [p.listener], by number *)
  hp_listens : list (option gerror); (** the outcomes of the next [net.Listen] *)
  hp_next : nat;
  hp_open : gset nat;                (** listeners that are not closed *)
  hp_parallel : Z;                   (** the capacity of [p.sem] *)
  hp_busy : Z                        (** requests being served *)
}.
Definition NewHTTP01Provider (address : string) (maxParallel : Z) (listens : list (option gerror)) : HTTP01Provider :=
  mkHTTP01 address ∅ None listens 0 ∅ (if maxParallel <=? 0 then 32 else maxParallel) 0.

Definition put_tokens (ts : gmap string string) (p : HTTP01Provider) : HTTP01Provider :=
  mkHTTP01 (hp_address p) ts (hp_server p) (hp_listens p) (hp_next p) (hp_open p) (hp_parallel p) (hp_busy p).
(** [net.Listen] *)
Definition listen (p : HTTP01Provider) : result nat * HTTP01Provider :=
  match hp_listens p with
  | Some e :: q =>
    (Err e, mkHTTP01 (hp_address p) (hp_tokens p) (hp_server p) q (hp_next p) (hp_open p) (hp_parallel p) (hp_busy p))
  | q => (Ok (hp_next p), mkHTTP01 (hp_address p) (hp_tokens p) (hp_server p) (tail q) (S (hp_next p))
                            ({[hp_next p]} ∪ hp_open p) (hp_parallel p) (hp_busy p))
  end.
Definition put_server (l : option nat) (p : HTTP01Provider) : HTTP01Provider :=
  mkHTTP01 (hp_address p) (hp_tokens p) l (hp_listens p) (hp_next p) (hp_open p) (hp_parallel p) (hp_busy p).
Definition close_listener (l : nat) (p : HTTP01Provider) : HTTP01Provider :=
  mkHTTP01 (hp_address p) (hp_tokens p) (hp_server p) (hp_listens p) (hp_next p) (hp_open p ∖ {[l]}) (hp_parallel p) (hp_busy p).

Definition Present (domain token keyAuth : string) : M HTTP01Provider (option gerror) := λ p,
  if has_byte token slash || has_byte token (chr 92) || bool_decide (token = "") || bool_decide (keyAuth = "")
  then (Some (Errorf "invalid HTTP-01 challenge"), p)
  else
    let p := put_tokens (<[token := keyAuth]> (hp_tokens p)) p in
    match hp_server p with
    | Some _ => (None, p)
    | None =>
      match listen p with
      | (Err e, p) => (Some (Wrapf "listen HTTP-01" e), put_tokens (delete token (hp_tokens p)) p)
      | (Ok l, p) => (None, put_server (Some l) p)
      end
    end.
(** [CleanUp] and [Shutdown] with the listener closed; [server.Shutdown] of a server
    whose listener is gone may report the deadline. *)
Definition CleanUp (domain token keyAuth : string) (shutdown : option gerror) : M HTTP01Provider (option gerror) := λ p,
  let p := put_tokens (delete token (hp_tokens p)) p in
  if bool_decide (hp_tokens p ≠ ∅) then (None, p)
  else match hp_server p with
       | None => (None, p)
       | Some l => (shutdown, close_listener l (put_server None p))
       end.
Definition Provider_Shutdown (shutdown : option gerror) : M HTTP01Provider (option gerror) := λ p,
  let p := put_tokens ∅ p in
  match hp_server p with
  | None => (None, p)
  | Some l => (shutdown, close_listener l (put_server None p))
  end.
Definition Addr (p : HTTP01Provider) : option nat := hp_server p.

Definition StatusServiceUnavailable : Z := 503.
Definition challenge_prefix : string := "/.well-known/acme-challenge/".
(** [serveHTTP]; a request beyond the capacity of the semaphore is turned away. *)
Definition serveHTTP (p : HTTP01Provider) (r : request) : response :=
  if hp_parallel p <=? hp_busy p then http_error "busy" StatusServiceUnavailable
  else if negb (bool_decide (rq_method r = "GET"))
  then with_header "Allow" "GET" (http_error "method not allowed" StatusMethodNotAllowed)
  else if negb (has_prefix (rq_path r) challenge_prefix) || bool_decide (trim_prefix (rq_path r) challenge_prefix = "")
  then not_found
  else match hp_tokens p !! trim_prefix (rq_path r) challenge_prefix with
       | None => not_found
       | Some keyAuth =>
         mkResponse StatusOK [("Content-Type", "text/plain"); ("Cache-Control", "no-store")] [] (BText keyAuth)
       end.

(** ** The server is up exactly while a challenge is pending *)

Inductive provider_op : Type :=
| OPresent (domain token keyAuth : string)
| OCleanUp (domain token keyAuth : string) (shutdown : option gerror)
| OShutdown (shutdown : option gerror).
Definition run_provider_op (op : provider_op) : M HTTP01Provider (option gerror) :=
  match op with
  | OPresent d t k => Present d t k
  | OCleanUp d t k e => CleanUp d t k e
  | OShutdown e => Provider_Shutdown e
  end.
Fixpoint run_provider (ops : list provider_op) (p : HTTP01Provider) : HTTP01Provider :=
  match ops with
  | [] => p
  | op :: ops' => run_provider ops' (run_provider_op op p).2
  end.

Record provider_ok (p : HTTP01Provider) : Prop := {
  pk_server : hp_tokens p = ∅ ↔ hp_server p = None;
  pk_open : hp_open p = match hp_server p with Some l => {[l]} | None => ∅ end;
  pk_tokens : ∀ t k, hp_tokens p !! t = Some k → t ≠ "" ∧ k ≠ "" ∧ has_byte t slash = false
}.
Lemma close_last l (p : HTTP01Provider) :
  provider_ok p → hp_server p = Some l → provider_ok (close_listener l (put_server None (put_tokens ∅ p))).
Proof.
  intros [Hs Ho Ht] Hl. rewrite Hl in Ho. split; cbn; [done|rewrite Ho; set_solver|done].
Qed.
Lemma run_provider_op_ok op p : provider_ok p → provider_ok (run_provider_op op p).2.
Proof.
  intros Hok. assert (Hok' := Hok). destruct Hok as [Hs Ho Ht]. destruct op as [d t k|d t k e|e]; cbn [run_provider_op].
  - unfold Present. destruct (has_byte t slash) eqn:Hb; [done|]. destruct (has_byte t (chr 92)); [done|].
    case_bool_decide as Ht0; [done|]. case_bool_decide as Hk0; [done|]. cbn [orb].
    assert (∀ t' k', <[t:=k]> (hp_tokens p) !! t' = Some k' → t' ≠ "" ∧ k' ≠ "" ∧ has_byte t' slash = false) as Ht'.
    { intros t' k'. rewrite lookup_insert_Some. intros [[<- <-]|[_ H]]; [done|by apply Ht in H]. }
    cbn [hp_server put_tokens]. destruct (hp_server p) as [l|] eqn:Hl.
    + cbn [snd]. split; cbn; rewrite ?Hl; [|by rewrite Ho|done]. split; [|done]. intros H. by apply insert_non_empty in H.
    + unfold listen. cbn [hp_listens put_tokens hp_tokens]. assert (hp_tokens p = ∅) as Hp by by apply Hs.
      destruct (hp_listens p) as [|[e|] q]; cbn [snd].
      * split; cbn; [|rewrite Ho; set_solver|done]. split; [|done]. intros H. by apply insert_non_empty in H.
      * split; cbn; rewrite ?Hl; [|by rewrite Ho|].
        -- split; [done|]. intros _. rewrite Hp, insert_empty. apply delete_singleton_eq.
        -- intros t' k'. rewrite lookup_delete_Some. intros [_ H]. by apply Ht' in H.
      * split; cbn; [|rewrite Ho; set_solver|done]. split; [|done]. intros H. by apply insert_non_empty in H.
  - unfold CleanUp. cbn [hp_tokens put_tokens hp_server]. case_bool_decide as Hd; cbn [snd].
    + split; cbn; [|done|].
      * split; [done|]. intros H. exfalso. apply Hd. apply Hs in H. rewrite H. apply delete_empty.
      * intros t' k'. rewrite lookup_delete_Some. intros [_ H]. by apply Ht in H.
    + rewrite Hd. destruct (hp_server p) as [l|] eqn:Hl; [by apply close_last|].
      split; cbn; rewrite ?Hl; done.
  - unfold Provider_Shutdown. cbn [hp_server put_tokens]. destruct (hp_server p) as [l|] eqn:Hl; [by apply close_last|].
    split; cbn; rewrite ?Hl; done.
Qed.

(** C36. Whatever challenges are presented, cleaned up or dropped, and whichever
    listens fail, the HTTP-01 listener is open exactly while some challenge is
    pending, no listener leaks, and the key authorization of a token is served
    exactly when the token is pending. *)
Theorem server_up_while_pending address maxParallel listens ops :
  let p := run_provider ops (NewHTTP01Provider address maxParallel listens) in
  (hp_server p = None ↔ hp_tokens p = ∅)
  ∧ (size (hp_open p) <= 1)%nat ∧ (hp_open p = ∅ ↔ hp_server p = None)
  ∧ ∀ r token keyAuth, rq_method r = "GET" → rq_path r = challenge_prefix +:+ token → hp_busy p < hp_parallel p →
      (serveHTTP p r = mkResponse StatusOK [("Content-Type", "text/plain"); ("Cache-Control", "no-store")] [] (BText keyAuth)
       ↔ hp_tokens p !! token = Some keyAuth).
Proof.
  cbv zeta. set (p := run_provider _ _).
  assert (provider_ok p) as [Hs Ho Ht].
  { unfold p. assert (H0 : provider_ok (NewHTTP01Provider address maxParallel listens)) by by split.
    revert H0. generalize (NewHTTP01Provider address maxParallel listens). induction ops as [|op ops IH]; intros p0 H0; [done|].
    apply IH. by apply run_provider_op_ok. }
  split; [by symmetry|]. rewrite Ho. split; [destruct (hp_server p); [by rewrite size_singleton|by rewrite size_empty; lia]|].
  split; [destruct (hp_server p); set_solver|].
  intros r token keyAuth Hm Hp Hb. unfold serveHTTP. rewrite Hm, Hp.
  destruct (Z.leb_spec (hp_parallel p) (hp_busy p)); [lia|]. cbn [negb]. rewrite bool_decide_eq_true_2 by done. cbn [negb].
  assert (trim_prefix (challenge_prefix +:+ token) challenge_prefix = token) as -> by by destruct token.
  replace (has_prefix (challenge_prefix +:+ token) challenge_prefix) with true by by destruct token. cbn [negb orb].
  case_bool_decide as He.
  - subst token. split; [done|]. by intros [? _]%Ht.
  - destruct (hp_tokens p !! token) as [k|] eqn:E; (split; [|done||by intros [= ->]]).
    + by intros [= ->].
    + done.
Qed.
