(* ===== verification/Metrics.v ===== *)
(** [internal/metrics/reader.go]: the endpoint's metrics from Prometheus text, and
    [internal/probe/handler.go]: the health and readiness probes. *)
From S2P Require Import Prelude GoStrings Quote Json Domain X509 CertState ClientProfile Store Http.

(** ** [strconv.ParseFloat]

    Decimal and hexadecimal numbers with underscores, infinities and NaN, rounded
    exactly; [None] for an error, the overflow included. *)
Definition lower_byte (c : ascii) : ascii := if is_upper_ascii c then chr (code c + 32) else c.
Definition float_digit (hex : bool) (c : ascii) : option Z :=
  if is_digit_ascii c then Some (code c - 48)
  else let z := code (lower_byte c) in
       if hex && (97 <=? z) && (z <=? 102) then Some (z - 87) else None.
(** The digits of the mantissa: value, digits seen, digits after the point. *)
Fixpoint mantissa (hex point : bool) (v seen frac : Z) (l : list ascii) : Z * Z * Z * list ascii :=
  match l with
  | [] => (v, seen, frac, [])
  | c :: l' =>
    if code c =? 95 then mantissa hex point v seen frac l'
    else if code c =? 46 then if point then (v, seen, frac, l) else mantissa hex true v seen frac l'
    else match float_digit hex c with
         | Some d => mantissa hex point (v * (if hex then 16 else 10) + d) (seen + 1) (if point then frac + 1 else frac) l'
         | None => (v, seen, frac, l)
         end
  end.
(** The exponent's digits; it stops growing at 10000. *)
Fixpoint exponent_digits (e seen : Z) (l : list ascii) : Z * Z * list ascii :=
  match l with
  | [] => (e, seen, [])
  | c :: l' =>
    if code c =? 95 then exponent_digits e seen l'
    else if is_digit_ascii c then exponent_digits (if e <? 10000 then e * 10 + (code c - 48) else e) (seen + 1) l'
    else (e, seen, l)
  end.
(** [underscoreOK]: underscores stand between digits, or after the base prefix. *)
Fixpoint underscores (hex : bool) (prev : Z) (l : list ascii) : bool :=
  match l with
  | [] => negb (prev =? 95)
  | c :: l' =>
    if is_digit_ascii c || (hex && (97 <=? code (lower_byte c)) && (code (lower_byte c) <=? 102)) then underscores hex 48 l'
    else if code c =? 95 then if prev =? 48 then underscores hex 95 l' else false
    else if prev =? 95 then false else underscores hex 33 l'
  end.
Definition sign_of (l : list ascii) : bool * list ascii :=
  match l with
  | c :: l' => if code c =? 43 then (false, l') else if code c =? 45 then (true, l') else (false, l)
  | [] => (false, [])
  end.
Definition hex_prefix (l : list ascii) : option (list ascii) :=
  match l with
  | z :: x :: l' => if (code z =? 48) && (code (lower_byte x) =? 120) then Some l' else None
  | _ => None
  end.
Definition underscore_ok (l : list ascii) : bool :=
  let '(_, l) := sign_of l in
  match hex_prefix l with Some l' => underscores true 48 l' | None => underscores false 94 l end.

(** [v * base^e], rounded to nearest even. *)
Definition round_ratio (neg : bool) (v : Z) (base e : Z) : spec_float :=
  match v with
  | Z.pos m =>
    if 0 <=? e then binary_normalize 53 1024 ((if neg then -1 else 1) * v * base ^ e) 0 neg
    else let '(q, e', l) := SFdiv_core_binary 53 1024 v 0 (base ^ (- e)) 0 in binary_round_aux 53 1024 neg q e' l
  | _ => S754_zero neg
  end.
Definition is_word (w : string) (l : list ascii) : bool := bool_decide (lower_byte <$> l = chars w).
Definition parse_exponent (hex : bool) (l : list ascii) : option (Z * list ascii) :=
  match l with
  | c :: l' =>
    if code (lower_byte c) =? (if hex then 112 else 101) then
      let '(neg, l2) := sign_of l' in
      match l2 with
      | d :: _ => if is_digit_ascii d
                  then let '(e, _, r) := exponent_digits 0 0 l2 in Some (if neg : bool then - e else e, r) else None
      | [] => None
      end
    else if hex then None else Some (0, l)
  | [] => if hex then None else Some (0, [])
  end.
Definition ParseFloat (s : string) : option spec_float :=
  let l := chars s in
  let '(neg, l1) := sign_of l in
  if is_word "inf" l1 || is_word "infinity" l1 then Some (S754_infinity neg)
  else if is_word "nan" l then Some S754_nan
  else
    let '(hex, l2) := match hex_prefix l1 with Some l2 => (true, l2) | None => (false, l1) end in
    let '(v, seen, frac, l3) := mantissa hex false 0 0 0 l2 in
    if seen =? 0 then None
    else match parse_exponent hex l3 with
    | Some (e, []) =>
      if has_byte s "_" && negb (underscore_ok l) then None
      else
        let f := if hex : bool then round_ratio neg v 2 (e - 4 * frac) else round_ratio neg v 10 (e - frac) in
        match f with S754_infinity _ => None | _ => Some f end
    | _ => None
    end.
Example parse_tenth : ParseFloat "+0.1" = Some (SFdiv 53 1024 (binary_normalize 53 1024 1 0 false) (binary_normalize 53 1024 10 0 false)).
Proof. vm_compute. reflexivity. Qed.
Example parse_forms :
  ParseFloat <$> ["1_0.5e1"; "0x1.8p1"; "1e400"; "NaN"; ""; "1e"; "_1"; "-0"]
  = [Some (binary_normalize 53 1024 105 0 false); Some (binary_normalize 53 1024 3 0 false); None; Some S754_nan; None; None; None;
     Some (S754_zero true)].
Proof. vm_compute. reflexivity. Qed.

(** ** [bufio.Scanner] and [strings.Fields] *)

(** The lines as [ScanLines] cuts them, and whether one was too long. *)
Definition max_token : Z := 65536.
Definition drop_cr (l : list ascii) : list ascii :=
  match rev l with c :: r => if code c =? 13 then rev r else l | [] => [] end.
Fixpoint scan_lines (cur : list ascii) (n : Z) (l : list ascii) : list (list ascii) * bool :=
  match l with
  | [] => if max_token <=? n then ([], true) else (match cur with [] => [] | _ => [drop_cr (rev cur)] end, false)
  | c :: l' =>
    if max_token <=? n then ([], true)
    else if code c =? 10 then let '(ls, e) := scan_lines [] 0 l' in (drop_cr (rev cur) :: ls, e)
    else scan_lines (c :: cur) (n + 1) l'
  end.
Fixpoint group_fields (cur : list ascii) (rs : list (Z * list ascii)) : list (list ascii) :=
  match rs with
  | [] => match cur with [] => [] | _ => [cur] end
  | (r, bs) :: rs' =>
    if is_space_rune r then match cur with [] => group_fields [] rs' | _ => cur :: group_fields [] rs' end
    else group_fields (cur ++ bs) rs'
  end.
Definition fields (s : string) : list string := of_chars <$> group_fields [] (runes s).

(** ** [Reader] *)

Record Reader := mkReader { rd_url : string; rd_timeout : Duration; rd_maxBytes : Z }.
Definition Reader_New (url : string) (timeout : Duration) (maxBytes : Z) : Reader :=
  mkReader url (if timeout <=? 0 then 2 * second else timeout) (if maxBytes <=? 0 then 262144 else maxBytes).

(** The response of the endpoint: its status, the bytes of its body, and the error
    that ended the body, if not its end. *)
Record scrape := mkScrape { sc_status : Z; sc_body : string; sc_error : option gerror }.

Definition metric_line (line : string) (m : EndpointMetrics) : EndpointMetrics :=
  let line := trim_space line in
  if bool_decide (line = "") || has_prefix line "#" || contains line "{" then m
  else match fields line with
  | [name; text] =>
    match ParseFloat text with
    | Some value =>
      if bool_decide (name = "trusttunnel_active_connections") then mkEndpointMetrics value (TotalConnections m)
      else if bool_decide (name = "trusttunnel_connections_total") then mkEndpointMetrics (ActiveConnections m) value
      else m
    | None => m
    end
  | _ => m
  end.
(** The loop over the lines; [read] counts bytes.  The error is that of the limit. *)
Fixpoint metric_lines (maxBytes read : Z) (ls : list (list ascii)) (m : EndpointMetrics) : EndpointMetrics * option gerror :=
  match ls with
  | [] => (m, None)
  | l :: ls' =>
    let read := read + Z.of_nat (length l) + 1 in
    if maxBytes <? read then (m, Some (Errorf "metrics response exceeds limit"))
    else metric_lines maxBytes read ls' (metric_line (of_chars l) m)
  end.
Definition no_metrics : EndpointMetrics := mkEndpointMetrics (S754_zero false) (S754_zero false).
(** [io.LimitReader]: with more bytes than the limit the error is not reached. *)
Definition read_body (r : Reader) (body : string) (error : option gerror) : EndpointMetrics * option gerror :=
  let limit := rd_maxBytes r + 1 in
  let cut := limit <=? len body in
  let '(ls, long) := scan_lines [] 0 (chars (take_bytes (Z.to_nat limit) body)) in
  match metric_lines (rd_maxBytes r) 0 ls no_metrics with
  | (m, Some e) => (m, Some e)
  | (m, None) => (m, if long : bool then Some (SysErr "bufio.Scanner: token too long") else if cut then None else error)
  end.
Definition Reader_Read {W} (get : string → Duration → M W (result scrape)) (r : Reader) :
    M W (EndpointMetrics * option gerror) :=
  let* resp := get (rd_url r) (rd_timeout r) in
  ret (match resp with
       | Err e => (no_metrics, Some e)
       | Ok resp =>
         if negb (sc_status resp =? StatusOK) then (no_metrics, Some (Errorf "metrics status"))
         else read_body r (sc_body resp) (sc_error resp)
       end).

(** ** The probes *)

Class ProbeWorld (W : Type) := {
  db_SchemaVersion : M W (result Z);
  files_ActiveDir : M W (result string);
  os_Stat : string → M W (option gerror);
  process_Status : M W EndpointStatus
}.
Definition StatusServiceUnavailable : Z := 503.
Definition write_json (code : Z) (v : json) : response :=
  mkResponse code [("Content-Type", "application/json")] [] (BText (json_compact v +:+ String "010"%char "")).

Section Probe.
Context {W : Type} {PW : ProbeWorld W}.
Variable version : string.
Definition probe_health : M W response :=
  ret (write_json StatusOK (JObject [("status", JString "alive"); ("version", JString version)])).
(** The answer from the three checks; the keys of a map are written in order. *)
Definition readiness (database config : bool) (ep : EndpointStatus) : response :=
  let endpoint := bool_decide (Status_State ep = "ready") || bool_decide (Status_State ep = "degraded") in
  let ready := database && config && endpoint in
  let check (b : bool) := JString (if b then "ready" else "unavailable") in
  write_json (if ready then StatusOK else StatusServiceUnavailable)
    (JObject [("checks", JObject [("config", check config); ("database", check database);
                                  ("endpoint", JString (if endpoint then "ready" else Status_State ep))]);
              ("revision", JString (Status_Revision ep));
              ("status", JString (if ready then "ready" else "not_ready"))]).
Definition probe_ready : M W response :=
  let* v := db_SchemaVersion in
  let* d := files_ActiveDir in
  let* config := (match d with
                  | Err _ => ret false
                  | Ok dir => let* e := os_Stat dir in ret (bool_decide (e = None))
                  end) in
  let* ep := process_Status in
  ret (readiness (is_ok v) config ep).
(** [New]: the mux of the probes. *)
Definition probe_routes : list (pattern * M W response) :=
  [(mkPattern "GET" [Lit "healthz"] false, probe_health); (mkPattern "GET" [Lit "readyz"] false, probe_ready)].
Definition probe_New : handler W := λ r,
  match mux probe_routes r with
  | MuxHandler h _ => h
  | MuxRedirect p => ret (redirect p StatusMovedPermanently)
  | MuxNotAllowed => ret (http_error "Method Not Allowed" StatusMethodNotAllowed)
  | MuxNotFound => ret not_found
  end.
End Probe.

(** ** What the reader promises *)

(** A body of at most the limit in short lines is read to its end, a longer one is
    an error. *)
Lemma metric_lines_limit maxBytes read ls m :
  (metric_lines maxBytes read ls m).2 = None ↔
  ls = [] ∨ read + foldr (λ l n, Z.of_nat (length l) + 1 + n) 0 ls <= maxBytes.
Proof.
  revert read m. induction ls as [|l ls IH]; intros read m; [by split; [left|]|].
  cbn [metric_lines foldr]. set (tot := foldr _ 0 ls) in *.
  assert (0 <= tot) by (unfold tot; clear; induction ls; simpl; lia).
  destruct (Z.ltb_spec maxBytes (read + Z.of_nat (length l) + 1)).
  - split; [done|]. intros [?|?]; [done|lia].
  - rewrite IH. split.
    + intros [->|?]; right; [simpl in *; lia|lia].
    + intros [?|?]; [done|]. right. lia.
Qed.

(** Readiness is reported, with status 200, exactly when the database answers,
    the published configuration is there and the endpoint runs; and the body is
    JSON whose status says the same. *)
Theorem ready_iff database config ep :
  (rs_status (readiness database config ep) = StatusOK ↔
     database = true ∧ config = true ∧ Status_State ep ∈ ["ready"; "degraded"])
  ∧ (valid_utf8 (Status_State ep) = true → valid_utf8 (Status_Revision ep) = true →
     ∃ text members, rs_body (readiness database config ep) = BText text ∧ json_parse text = Some (JObject members)
       ∧ (("status", JString "ready") ∈ members ↔ rs_status (readiness database config ep) = StatusOK)).
Proof.
  set (e := bool_decide (Status_State ep = "ready") || bool_decide (Status_State ep = "degraded")).
  assert (He : e = true ↔ Status_State ep ∈ ["ready"; "degraded"]).
  { unfold e. rewrite orb_true_iff, !bool_decide_eq_true, !elem_of_cons, elem_of_nil. naive_solver. }
  split.
  - unfold readiness. fold e. cbn [write_json rs_status]. rewrite <- He.
    destruct database, config, e; cbn; naive_solver.
  - intros H1 H2. unfold readiness. fold e. cbn [write_json rs_status rs_body]. eexists _, _.
    split; [reflexivity|]. split.
    + unfold json_compact. rewrite <- (of_chars_chars (String "010"%char "")), <- of_chars_app.
      apply json_parse_text; [|done]. destruct database, config, e; simpl; rewrite ?H1, ?H2; reflexivity.
    + destruct database, config, e; cbn; rewrite !elem_of_cons, elem_of_nil; naive_solver.
Qed.
