(* ===== verification/AppWiring.v ===== *)
(** The parts [Run] of [internal/app/app.go] builds from its configuration, with the
    limits it gives them, and the logger it gives them; and that the endpoint, the
    exporter and the store of configurations mean the same files. *)
From S2P Require Import Prelude GoStrings GoPath Domain GoTime Config FileSys Revisions Materializer PathFacts X509 CertState.
From S2P Require Import Supervisor ClientProfile ClientExport Manager TLSSettings Limiter Http01 Metrics App.

(** ** The logger *)

(** [teeLogger]: the logger of the program, if any, and the ring of the log page. *)
Definition tee_Logf {W} (primary : option (string → M W unit)) (buffer : M W Ring) (set_buffer : Ring → M W unit)
    (message : string) : M W unit :=
  (match primary with Some log => log message | None => ret tt end) ;;
  let* ring := buffer in set_buffer (Logf ring message).

(** ** The parts *)

Section Parts.
Variable c : AppConfig.

Definition controller_logs : Ring := Ring_New (256 * 1024).
Definition config_root : string := join_path [ac_DataDir c; "config"].
(** The arguments of the endpoint for a revision. *)
Definition revision_args (revision : string) : list string :=
  let dir := join_path [ac_DataDir c; "config"; "revisions"; revision] in
  [join_path [dir; "vpn.toml"]; join_path [dir; "hosts.toml"]].
Definition supervisor_config : Supervisor.Config :=
  Supervisor.mkConfig (ac_EndpointBinary c) (Some revision_args) (join_path [ac_DataDir c; "config"; "current"])
    (ac_StopTimeout c) 0 0 0 (ac_EndpointVersion c).
Definition exporter : result Client :=
  NewClient (ac_EndpointBinary c) (join_path [ac_DataDir c; "config"; "current"; "vpn.toml"])
    (join_path [ac_DataDir c; "config"; "current"; "hosts.toml"]) (10 * second) 1048576 2.
Definition tls_root : string := join_path [ac_DataDir c; "tls"].
Definition http01 (listens : list (option gerror)) : HTTP01Provider := NewHTTP01Provider (ac_HTTP01Listen c) 4 listens.
Definition certificate_manager {F : Type} (NewLegoClient : F) : Manager F :=
  NewManager NewLegoClient (ac_DataDir c) (2 * minute) None.
Definition settings_mode : Mode := default_mode (ac_ACMEDefaultMode c).
Definition metrics_reader : Reader := Reader_New (ac_MetricsURL c) (2 * second) (256 * 1024).

(** [http.Server]: its address and limits; 0 is no limit. *)
Record http_server := mkServer {
  hs_Addr : string;
  hs_ReadHeaderTimeout : Duration;
  hs_ReadTimeout : Duration;
  hs_WriteTimeout : Duration;
  hs_IdleTimeout : Duration;
  hs_MaxHeaderBytes : Z
}.
Definition probe_server : http_server := mkServer (ac_ProbeListen c) (3 * second) 0 0 (30 * second) 0.
Definition ui_server : http_server :=
  mkServer (ac_UIListen c) (3 * second) (10 * second) (15 * second) (60 * second) (16 * 1024).
End Parts.

(** ** The endpoint reads what was published *)

Section Paths.
Context {UT : UnicodeTables} {SHA : Sha256.Sha256} {MO : MapOrder}.
Variable c : AppConfig.
Variable d : list string.
Hypothesis data_dir : ac_DataDir c = abs_path d.
Hypothesis data_plain : Forall plain d.
Hypothesis data_not_root : d ≠ [].

Lemma below_data ps : ps ≠ [] → Forall plain ps → join_path (ac_DataDir c :: ps) = abs_path (d ++ ps).
Proof using data_dir data_plain data_not_root. intros. rewrite data_dir. by apply join_abs_all. Qed.

(** What is published is what runs.  After an application that returned a
    revision, [current] selects it, and the endpoint's command for it names, below
    the data directory, the two files of that revision; they hold what was
    published under that digest.  The exporter reads the same files through
    [current], where the endpoint is started. *)
Theorem endpoint_reads_published m files w revision w' :
  store_ok (fs_tree w) → Materializer_Apply m files w = (Ok revision, w') →
  let place ps name := abs_path (d ++ "config" :: ps ++ [name]) in
  (∃ published_files, revisionID published_files = revision
     ∧ ∀ name, tree_get ["revisions"; revision; name] (fs_tree w')
               = (λ text, File text (file_mode name)) <$> published_files !! name)
  ∧ link_at (fs_tree w') "current" = Some ("revisions/" +:+ revision)
  ∧ config_root c = abs_path (d ++ ["config"])
  ∧ command_of (supervisor_config c) revision
    = Some (mkCommand (ac_EndpointBinary c) (place ["revisions"; revision] <$> ["vpn.toml"; "hosts.toml"])
              (abs_path (d ++ ["config"; "current"])))
  ∧ (ac_EndpointBinary c ≠ "" → ∃ cl, exporter c = Ok cl ∧ cl_binary cl = ac_EndpointBinary c
     ∧ cl_vpnConfig cl = place ["current"] "vpn.toml" ∧ cl_hostsConfig cl = place ["current"] "hosts.toml").
Proof using data_dir data_plain data_not_root.
  intros Hs H place. destruct (Materializer_Apply_spec _ _ _ _ _ Hs H) as (_ & _ & [(_ & _ & Hr)|HA]); [discriminate Hr|].
  destruct HA as (w1 & (Hs1 & _ & _) & _ & Hpub & _ & Hsw).
  destruct (switch_current_spec _ _ _ _ Hs1 Hpub Hsw) as (_ & HR & _ & Hcu & Hid).
  pose proof (Hid revision eq_refl) as Hrev. rewrite <- Hrev in *.
  assert (Hpub' : published (fs_tree w') revision) by (eapply published_same; [apply HR|done]).
  assert (Hplain : plain revision) by (apply revision_name_plain, (published_name _ _ Hpub')).
  assert (Hn : Forall plain ["config"; "revisions"; "current"; "vpn.toml"; "hosts.toml"])
    by (apply (bool_decide_unpack _); vm_compute; done).
  rewrite !Forall_cons in Hn. destruct Hn as (Hc & Hrs & Hcur & Hv & Hh & _).
  split_and!.
  - destruct Hpub' as (n & (files' & _ & Hfid & ->) & Hn). exists files'. split; [done|]. intros name.
    change ["revisions"; revision; name] with (["revisions"; revision] ++ [name]). rewrite tree_get_app, Hn. cbn.
    unfold file_nodes. rewrite map_lookup_imap. by destruct (files' !! name).
  - destruct Hcu as [[_ Hcu]|Hcu]; [discriminate Hcu|exact Hcu].
  - unfold config_root. apply below_data; auto.
  - unfold command_of, supervisor_config. cbn [cfg_Args cfg_Binary cfg_WorkingDir]. unfold revision_args.
    rewrite !below_data by auto. do 2 f_equal. cbn [fmap list_fmap].
    unfold place. rewrite !(join_abs_all _ [_]) by (try (rewrite Forall_app; split); auto; by destruct d).
    by rewrite <-!app_assoc.
  - intros Hb. unfold exporter, NewClient. rewrite !below_data by auto.
    rewrite !bool_decide_eq_false_2 by done. eexists. split; [done|]. by unfold place.
Qed.
End Paths.
