(* ===== verification/WebHandlers.v ===== *)
(** [internal/webui]: the handlers.  Each is a computation over the world of the
    services it calls; the classes below are the interfaces the Go package
    declares for them. *)
From stdpp Require Import pretty.
From S2P Require Import Prelude GoStrings GoPath Quote Base64 Domain X509 CertState ClientProfile Store Session Users Http.

(** ** Interfaces *)

(** [webui.SessionService] and the methods of [auth.LoginLimiter]. *)
Class SessionOps (W : Type) := {
  ses_Login : string → string → M W (result Session);
  ses_Authenticate : string → M W (result Admin);
  ses_Logout : string → M W (option gerror);
  ses_ChangePassword : string → string → string → M W (result Session);
  lim_Allow : string → string → M W (bool * Duration);
  lim_Failure : string → string → M W unit;
  lim_Success : string → string → M W unit
}.
(** [webui.BootstrapService] *)
Class BootstrapOps (W : Type) := {
  boot_Required : M W (bool * option gerror);
  boot_Bootstrap : string → string → M W (option gerror)
}.
(** [webui.UserService] *)
Class UserOps (W : Type) := {
  us_List : M W (list VPNUser * option gerror);
  us_Create : string → M W (result CreatedUser);
  us_Enable : Z → M W (option gerror);
  us_Disable : Z → M W (option gerror);
  us_Revoke : Z → M W (option gerror);
  us_Rotate : Z → M W (string * option gerror)
}.
(** [webui.ClientConfigService] and [ClientProfileRepository] *)
Class ClientOps (W : Type) := {
  cl_Export : Z → M W (result ClientConfig);
  cl_QR : Z → Z → M W (result string);
  cl_LoadClientProfile : M W (Settings * option gerror);
  cl_SaveClientProfile : Settings → M W (option gerror)
}.
(** [webui.TLSService], with the methods of [TLSSourceService] and
    [PublicSelfSignedCertificateService] the handler looks for on it. *)
Class TLSOps (W : Type) := {
  tls_View : M W (Metadata * option gerror);
  tls_Save : string → string → Mode → M W (Metadata * option gerror);
  tls_Issue : M W (Metadata * option gerror);
  tls_Renew : M W (Metadata * option gerror);
  tls_SaveConfiguration :
    option (Source → string → string → Mode → string → string → M W (Metadata * option gerror));   (** [None]: no such method *)
  tls_PublicSelfSignedCertificate : option (M W (result string))
}.
(** [ApplyEventRepository], [LogSource], [ControllerLogSource], [StatusProvider],
    [MetricsProvider], [TLSMetadataProvider], the clock and the random source. *)
Class ViewOps (W : Type) := {
  v_ListApplyEvents : Z → Z → M W (list ApplyEvent * option gerror);
  v_Logs : M W string;
  v_ControllerLogs : M W string;
  v_Status : M W EndpointStatus;
  v_Metrics : M W (result EndpointMetrics);
  v_LoadTLSMetadata : M W (Metadata * option gerror);
  v_now : M W Time;
  v_rand : Z → M W (result string)
}.

(** ** auth.go *)

Definition SessionCookie : string := "__Host-tt_session".
Definition http_max (a b : Z) : Z := Z.max a b.
(** [int(d.Seconds())] of a duration below 2^22 seconds. *)
Definition whole_seconds (d : Duration) : Z := Z.quot d second.

Section Auth.
Context {W : Type} {SO : SessionOps W} {VO : ViewOps W}.

Definition clientIP (r : request) : string :=
  match split_host_port (rq_remote r) with Some (host, _) => host | None => rq_remote r end.
Definition render_login (r : request) (message : string) : M W response := ret (page (BLogin message (rq_csrf r))).
Definition render_account (r : request) (message notice : string) : response :=
  page (BAccount (rq_csrf r) message notice).
Definition session_cookie (s : Session) (now : Time) : cookie :=
  mkCookie SessionCookie (Session_Token s) (Some (Session_ExpiresAt s))
    (http_max 1 (whole_seconds (Session_ExpiresAt s - now))) true true true.
Definition cleared_cookie : cookie := mkCookie SessionCookie "" None (-1) true true true.

Definition Auth_Login : handler W := λ r,
  if bool_decide (rq_method r = "GET") then render_login r ""
  else if negb (bool_decide (rq_method r = "POST"))
  then ret (http_error "method not allowed" StatusMethodNotAllowed)
  else match rq_form_error r with
  | Some _ => render_login r "Invalid username or password"
  | None =>
    let username := FormValue "username" r in
    let ip := clientIP r in
    let* a := lim_Allow ip username in
    if negb a.1
    then ret (with_header "Retry-After" (pretty (http_max 1 (whole_seconds a.2)))
                (http_error "too many attempts" StatusTooManyRequests))
    else
      let* s := ses_Login username (FormValue "password" r) in
      match s with
      | Err _ =>
        let* _ := lim_Failure ip username in
        render_login r "Invalid username or password"
      | Ok sess =>
        let* _ := lim_Success ip username in
        let* now := v_now in
        ret (with_cookie (session_cookie sess now) (redirect "/" StatusSeeOther))
      end
  end.
Definition Auth_Logout : handler W := λ r,
  if negb (bool_decide (rq_method r = "POST")) then ret (http_error "method not allowed" StatusMethodNotAllowed)
  else
    let* _ := (match Cookie SessionCookie r with
               | Some token => let* _ := ses_Logout token in ret tt
               | None => ret tt
               end) in
    ret (with_cookie cleared_cookie (redirect "/login" StatusSeeOther)).
Definition Auth_Account : handler W := λ r, ret (render_account r "" "").
Definition Auth_ChangePassword : handler W := λ r,
  if negb (bool_decide (rq_method r = "POST")) then ret (http_error "method not allowed" StatusMethodNotAllowed)
  else match Cookie SessionCookie r with
  | None => ret (redirect "/login" StatusSeeOther)
  | Some token =>
    match rq_form_error r with
    | Some _ => ret (http_error "invalid form" StatusBadRequest)
    | None =>
      let* s := ses_ChangePassword token (FormValue "current_password" r) (FormValue "new_password" r) in
      match s with
      | Err _ => ret (render_account r "Password change failed" "")
      | Ok session =>
        let* now := v_now in
        ret (with_cookie (session_cookie session now)
               (render_account r "" "Password changed and all other sessions were revoked."))
      end
    end
  end.
(** [Require]: the handler runs with the administrator in the context. *)
Definition Auth_Require (next : handler W) : handler W := λ r,
  match Cookie SessionCookie r with
  | None => ret (redirect "/login" StatusSeeOther)
  | Some token =>
    let* a := ses_Authenticate token in
    match a with
    | Err _ => ret (with_cookie cleared_cookie (redirect "/login" StatusSeeOther))
    | Ok admin => next (rq_with_context (rq_id r) (rq_csrf r) (Some admin) r)
    end
  end.
End Auth.

(** ** bootstrap.go *)

Section Bootstrap.
Context {W : Type} {BO : BootstrapOps W}.

Definition Bootstrap_ServeHTTP : handler W := λ r,
  let* q := boot_Required in
  match q with
  | (_, Some _) => ret (http_error "bootstrap state unavailable" StatusInternalServerError)
  | (false, None) => ret (redirect "/login" StatusSeeOther)
  | (true, None) =>
    if bool_decide (rq_method r = "POST") then
      let* err := (match rq_form_error r with
                   | Some e => ret (Some e)
                   | None => boot_Bootstrap (FormValue "username" r) (FormValue "password" r)
                   end) in
      match err with
      | None => ret (redirect "/login" StatusSeeOther)
      | Some e => ret (page (BBootstrap (error_text e) (rq_csrf r)))
      end
    else if negb (bool_decide (rq_method r = "GET"))
    then ret (with_header "Allow" "GET, POST" (http_error "method not allowed" StatusMethodNotAllowed))
    else ret (page (BBootstrap "" (rq_csrf r)))
  end.
Definition BootstrapGate (next : handler W) : handler W := λ r,
  if bool_decide (rq_path r = "/bootstrap") then Bootstrap_ServeHTTP r
  else
    let* q := boot_Required in
    match q with
    | (_, Some _) => ret (http_error "bootstrap state unavailable" StatusInternalServerError)
    | (required, None) =>
      if required && negb (has_prefix (rq_path r) "/assets/") then ret (redirect "/bootstrap" StatusSeeOther)
      else next r
    end.
End Bootstrap.

(** ** users.go, client_configs.go and connection.go *)

(** [strconv.ParseInt] of a path value that must be positive. *)
Definition positive_id (s : string) : option Z :=
  match atoi s with Some id => if id <? 1 then None else Some id | None => None end.

Section Users.
Context {W : Type} {UO : UserOps W} {CO : ClientOps W}.

Definition render_users (r : request) (message username password : string) : M W response :=
  let* l := us_List in
  let message := match l.2 with Some e => if bool_decide (message = "") then error_text e else message | None => message end in
  ret (page (BUsers (rq_csrf r) message username password l.1)).
Definition Users_List : handler W := λ r, render_users r "" "" "".
Definition Users_Create : handler W := λ r,
  if negb (bool_decide (rq_method r = "POST")) then ret (http_error "method not allowed" StatusMethodNotAllowed)
  else match rq_form_error r with
  | Some _ => render_users r "invalid form" "" ""
  | None =>
    let* c := us_Create (FormValue "username" r) in
    match c with
    | Err e => render_users r (error_text e) "" ""
    | Ok created => render_users r "" (User_Username (Created_User created)) (Created_Password created)
    end
  end.
(** [userID]: [id] is the path value. *)
Definition with_user_id (id : string) (k : Z → handler W) : handler W := λ r,
  if negb (bool_decide (rq_method r = "POST")) then ret (http_error "method not allowed" StatusMethodNotAllowed)
  else match positive_id id with
  | None => ret (http_error "invalid user" StatusBadRequest)
  | Some id => k id r
  end.
Definition users_mutate (fn : Z → M W (option gerror)) (id : string) : handler W :=
  with_user_id id (λ id r,
    let* err := fn id in
    match err with
    | Some e => render_users r (error_text e) "" ""
    | None => ret (redirect "/users" StatusSeeOther)
    end).
Definition Users_Enable : string → handler W := users_mutate us_Enable.
Definition Users_Disable : string → handler W := users_mutate us_Disable.
Definition Users_Revoke : string → handler W := users_mutate us_Revoke.
(** The name of the last user of the list with the id. *)
Definition name_of (id : Z) (us : list VPNUser) : string :=
  foldl (λ acc u, if bool_decide (User_ID u = id) then User_Username u else acc) "" us.
Definition Users_Rotate (id : string) : handler W :=
  with_user_id id (λ id r,
    let* p := us_Rotate id in
    match p with
    | (_, Some e) => render_users r (error_text e) "" ""
    | (password, None) =>
      let* l := us_List in
      render_users r "" (name_of id l.1) password
    end).

(** [clientUserID] *)
Definition clientUserID (id : string) (k : Z → handler W) : handler W := λ r,
  if negb (bool_decide (rq_method r = "POST")) then ret (http_error "method not allowed" StatusMethodNotAllowed)
  else match positive_id id with
  | None => ret (http_error "invalid user" StatusBadRequest)
  | Some id => k id r
  end.
Definition noStore (r : response) : response :=
  with_header "Cache-Control" "no-store" (with_header "Pragma" "no-cache" r).
Definition attachment : string := "attachment; filename=trusttunnel-client.toml".
Definition download (content_type data : string) : response :=
  noStore (mkResponse StatusOK [("Content-Type", content_type); ("Content-Disposition", attachment)] [] (BBytes data)).
Definition Clients_DeepLink (id : string) : handler W :=
  clientUserID id (λ id r,
    let* c := cl_Export id in
    match c with
    | Err _ => ret (http_error "client config unavailable" StatusConflict)
    | Ok cfg =>
      let payload := trim_prefix (Client_DeepLink cfg) "tt://?" in
      if bool_decide (b64_decode RawURL payload = None) || bool_decide (payload = Client_DeepLink cfg)
         || bool_decide (payload = "")
      then ret (noStore (http_error "invalid client link" StatusInternalServerError))
      else ret (noStore (page (BClient (Client_DeepLink cfg))))
    end).
Definition clients_download (field : ClientConfig → string) (id : string) : handler W :=
  clientUserID id (λ id r,
    let* c := cl_Export id in
    match c with
    | Err _ => ret (http_error "client config unavailable" StatusConflict)
    | Ok cfg => ret (download "application/toml; charset=utf-8" (field cfg))
    end).
Definition Clients_CLI : string → handler W := clients_download Client_CLI.
Definition Clients_TOML : string → handler W := clients_download Client_TOML.
Definition Clients_QR (id : string) : handler W :=
  clientUserID id (λ id r,
    let* png := cl_QR id 256 in
    match png with
    | Err _ => ret (http_error "QR unavailable" StatusConflict)
    | Ok data => ret (noStore (mkResponse StatusOK [("Content-Type", "image/png")] [] (BBytes data)))
    end).

Context {UT : UnicodeTables}.
Definition form_on (k : string) (r : request) : bool := bool_decide (FormValue k r = "on").
Definition form_settings (r : request) : Settings :=
  mkSettings (trim_space (FormValue "public_address" r)) (FormValue "protocol" r) (form_on "anti_dpi" r)
    (form_on "ipv6" r) (FormValue "tls_profile" r) (form_on "post_quantum" r).
Definition connection_page (status : Z) (p : Settings) (r : request) (message : string) : response :=
  noStore (mkResponse status [("Content-Type", "text/html; charset=utf-8")] []
             (BConnection p (rq_csrf r) message (bool_decide (QueryGet "saved" r = "1")))).
Definition Connection_ServeHTTP : handler W := λ r,
  let* l := cl_LoadClientProfile in
  match l with
  | (_, Some _) => ret (noStore (http_error "could not load connection settings" StatusInternalServerError))
  | (p, None) =>
    if negb (bool_decide (rq_method r = "POST")) then ret (connection_page StatusOK p r "")
    else match rq_form_error r with
    | Some _ => ret (noStore (http_error "invalid form" StatusBadRequest))
    | None =>
      let p := form_settings r in
      match Settings_Validate p with
      | Some e =>
        ret (connection_page (if bool_decide (error_text e = "") then StatusOK else StatusBadRequest) p r (error_text e))
      | None =>
        let* err := cl_SaveClientProfile p in
        match err with
        | Some _ => ret (noStore (http_error "could not save connection settings" StatusInternalServerError))
        | None => ret (noStore (redirect "/connection?saved=1" StatusSeeOther))
        end
      end
    end
  end.
End Users.

(** ** tls.go, events.go and dashboard.go *)

Section Views.
Context {W : Type} {TO : TLSOps W} {VO : ViewOps W}.

Definition render_tls (r : request) (message notice : string) : M W response :=
  let* v := tls_View in
  let message := match v.2 with Some e => if bool_decide (message = "") then error_text e else message | None => message end in
  let* now := v_now in
  let m := v.1 in
  ret (page (BTLS (rq_csrf r) message notice m
               (bool_decide (EffectiveSource m = Provided) && negb (is_zero_time (M_NotAfter m))
                && (M_NotAfter m - now <=? 30 * 24 * hour)))).
Definition TLS_View : handler W := λ r, render_tls r "" "".
Definition TLS_PublicCertificate : handler W := λ r,
  match tls_PublicSelfSignedCertificate with
  | None => ret not_found
  | Some read =>
    let* c := read in
    match c with
    | Err _ => ret not_found
    | Ok data =>
      ret (mkResponse StatusOK
             [("Content-Type", "application/x-pem-file");
              ("Content-Disposition", "attachment; filename=" +:+ byte_str 34 +:+ "trusttunnel-server-cert.pem" +:+ byte_str 34);
              ("Cache-Control", "no-store")] [] (BBytes data))
    end
  end.
Definition post_only (k : handler W) : handler W := λ r,
  if negb (bool_decide (rq_method r = "POST")) then ret (http_error "method not allowed" StatusMethodNotAllowed)
  else k r.
(** The error of [op], or the notice, on the page. *)
Definition report (r : request) (op : M W (Metadata * option gerror)) (notice : string) : M W response :=
  let* o := op in
  match o.2 with
  | Some e => render_tls r (error_text e) ""
  | None => render_tls r "" notice
  end.
Definition TLS_Save : handler W := post_only (λ r,
  match rq_form_error r with
  | Some _ => render_tls r "invalid form" ""
  | None =>
    report r
      (match tls_SaveConfiguration with
       | Some save => save (FormValue "source" r) (FormValue "hostname" r) (FormValue "email" r)
                        (FormValue "mode" r) (FormValue "provided_certificate_path" r) (FormValue "provided_key_path" r)
       | None => tls_Save (FormValue "hostname" r) (FormValue "email" r) (FormValue "mode" r)
       end)
      "Settings saved. Certificate update runs in the background."
  end).
Definition TLS_Issue : handler W := post_only (λ r, report r tls_Issue "Certificate issued and applied.").
Definition TLS_Renew : handler W := post_only (λ r, report r tls_Renew "Certificate renewed and applied.").

(** The number a failed [ParseInt] returns beside its error: 0 when the text is
    no number, the nearest [int64] when it is out of range. *)
Definition parse_int_lenient (s : string) : Z :=
  match atoi s with
  | Some z => z
  | None =>
    let '(neg, ds) :=
      match chars s with
      | c :: r => if code c =? 45 then (true, r) else if code c =? 43 then (false, r) else (false, chars s)
      | [] => (false, [])
      end in
    match ds with
    | [] => 0
    | _ => match decimal_value ds 0 with Some _ => if neg then min_int64 else max_int64 | None => 0 end
    end
  end.
Definition Events_ServeHTTP : handler W := λ r,
  let before := parse_int_lenient (QueryGet "before" r) in
  let limit := parse_int_lenient (QueryGet "limit" r) in
  let limit := if limit =? 0 then 50 else limit in
  if (limit <? 1) || (100 <? limit) then ret (http_error "invalid pagination" StatusBadRequest)
  else
    let* l := v_ListApplyEvents before limit in
    let events := l.1 in
    let next := if Z.of_nat (length events) =? limit then match last events with Some e => Event_ID e | None => 0 end else 0 in
    let* endpointLogs := v_Logs in
    let* controllerLogs := v_ControllerLogs in
    ret (page (BEvents (rq_csrf r) (match l.2 with Some e => error_text e | None => "" end)
                 endpointLogs controllerLogs events next)).

(** [d.Round(time.Second)], half away from zero, inside the range of [int64]. *)
Definition round_second (d : Duration) : Duration :=
  let r := Z.rem d second in
  if d <? 0 then (if 2 * - r <? second then d - r else d - r - second)
  else (if 2 * r <? second then d - r else d - r + second).
Definition Dashboard_ServeHTTP : handler W := λ r,
  let* status := v_Status in
  let* uptime := (if is_zero_time (Status_StartedAt status) then ret 0
                  else let* now := v_now in ret (round_second (now - Status_StartedAt status))) in
  let* m := v_Metrics in
  let metrics := match m with Ok m => Some m | Err _ => None end in
  let* tls := v_LoadTLSMetadata in
  ret (page (BDashboard (bool_decide (rq_path r = "/fragments/status")) (rq_csrf r) status metrics tls.1 uptime)).
End Views.
