(* ===== verification/WebRouter.v ===== *)
(** [internal/webui/security.go], [assets.go] and [server.go]: the middleware, the
    embedded files and the router; and which requests can change anything. *)
From stdpp Require Import pretty.
From S2P Require Import Prelude GoStrings GoPath Base64 Domain X509 CertState ClientProfile Store Session Users Http.
From S2P Require Import WebHandlers.

(** ** security.go *)

Definition csrfSeedCookie : string := "__Host-tt_csrf_seed".
Record CSRF := mkCSRF { csrf_secret : string; csrf_secure : bool }.
Definition csrf_token (c : CSRF) (seed : string) : string := b64_encode RawURL (hmac_sha256 (csrf_secret c) seed).
Definition csrf_seed (r : request) : string :=
  match Cookie SessionCookie r with
  | Some v => v
  | None => default "" (Cookie csrfSeedCookie r)
  end.
Definition seed_cookie (c : CSRF) (seed : string) : cookie :=
  mkCookie csrfSeedCookie seed None 3600 (csrf_secure c) true true.
Definition checked_method (m : string) : bool := bool_decide (m ∈ ["POST"; "PUT"; "PATCH"; "DELETE"]).
Definition provided_token (r : request) : string :=
  if bool_decide (rq_csrf_header r = "") then FormValue "_csrf" r else rq_csrf_header r.
(** The request after [FormValue] parsed the form: a second parse reports nothing. *)
Definition after_form_value (r : request) : request :=
  if bool_decide (rq_csrf_header r = "") then rq_set_form_error None r else r.

Section Middleware.
Context {W : Type} {VO : ViewOps W}.

(** Without random bytes the constructor panics. *)
Definition NewCSRF (secure : bool) : M W (option CSRF) :=
  let* secret := v_rand 32 in
  ret (match secret with Ok secret => Some (mkCSRF secret secure) | Err _ => None end).
Definition CSRF_Wrap (c : CSRF) (next : handler W) : handler W := λ r,
  let* s := (if bool_decide (csrf_seed r = "")
             then let* raw := v_rand 32 in
                  ret (match raw with Ok raw => Some (b64_encode RawURL raw, true) | Err _ => None end)
             else ret (Some (csrf_seed r, false))) in
  match s with
  | None => ret (http_error "entropy unavailable" StatusInternalServerError)
  | Some (seed, fresh) =>
    let token := csrf_token c seed in
    let r := rq_with_context (rq_id r) token (rq_admin r) r in
    let* resp :=
      (if checked_method (rq_method r) then
         if negb (bool_decide (token = provided_token r))
         then ret (http_error "invalid CSRF token" StatusForbidden)
         else next (after_form_value r)
       else next r) in
    ret (if fresh then with_cookie (seed_cookie c seed) resp else resp)
  end.

Definition requestID : M W string :=
  let* raw := v_rand 12 in
  ret (match raw with Ok raw => b64_encode RawURL raw | Err _ => "unavailable" end).
Definition security_headers (id : string) (tls : bool) : list (string * string) :=
  [("X-Request-ID", id);
   ("Content-Security-Policy", "default-src 'self'; script-src 'self'; style-src 'self'; img-src 'self'; object-src 'none'; base-uri 'none'; frame-ancestors 'none'; form-action 'self'");
   ("X-Content-Type-Options", "nosniff"); ("Referrer-Policy", "no-referrer"); ("X-Frame-Options", "DENY")]
  ++ (if tls then [("Strict-Transport-Security", "max-age=31536000; includeSubDomains")] else []).
(** The limit on the body shows in [rq_form_error]; [logf] is the logger. *)
Definition SecurityMiddleware (logf : option (string → M W unit)) (next : handler W) : handler W := λ r,
  let* id := requestID in
  let* start := v_now in
  let* resp := next (rq_with_context id (rq_csrf r) (rq_admin r) r) in
  let* _ := (match logf with
             | Some log =>
               let* now := v_now in
               log ("http request_id=" +:+ id +:+ " method=" +:+ rq_method r +:+ " status=" +:+ pretty (rs_status resp)
                    +:+ " duration_ms=" +:+ pretty (Z.quot (now - start) millisecond))
             | None => ret tt
             end) in
  ret (mkResponse (rs_status resp) (security_headers id (rq_tls r) ++ rs_headers resp) (rs_cookies resp) (rs_body resp)).
End Middleware.

(** ** assets.go *)

Section Assets.
(** The embedded files below [assets], and [mime.TypeByExtension]. *)
Variable asset_file : string → option string.
Variable mime_type : string → string.

Definition asset_name (p : string) : string := trim_prefix (clean ("/" +:+ p)) "/".
Definition AssetHandler {W} : handler W := λ r,
  let name := asset_name (rq_path r) in
  if bool_decide (name = ".") || has_prefix name "vendor/LICENSE" || bool_decide (name = "vendor/ASSETS.sha256")
  then ret not_found
  else match asset_file name with
  | None => ret not_found
  | Some data =>
    let t := mime_type name in
    ret (mkResponse StatusOK
           [("Content-Type", if bool_decide (t = "") then "application/octet-stream" else t);
            ("Cache-Control", "public, max-age=31536000, immutable"); ("X-Content-Type-Options", "nosniff")]
           [] (BBytes data))
  end.
(** [http.StripPrefix] *)
Definition StripPrefix {W} (prefix : string) (next : handler W) : handler W := λ r,
  if has_prefix (rq_path r) prefix && has_prefix (rq_escaped r) prefix
  then next (rq_set_path (trim_prefix (rq_path r) prefix) r) else ret not_found.
End Assets.

(** ** server.go *)

Section Router.
Context {UT : UnicodeTables} {W : Type}.
Context {SO : SessionOps W} {BO : BootstrapOps W} {UO : UserOps W} {CO : ClientOps W} {TO : TLSOps W} {VO : ViewOps W}.
Variable asset_file : string → option string.
Variable mime_type : string → string.

(** A handler with the values of its wildcards, registered directly or through
    [protected]. *)
Inductive route : Type :=
| Open (h : handler W)
| Protected (h : list string → handler W).
Definition on_id (h : string → handler W) : list string → handler W :=
  λ vs, h (default "" (head vs)).
Definition lits (l : list string) : list pattern_segment := Lit <$> l.
Definition user_route (rest : list string) (h : string → handler W) : pattern * route :=
  (mkPattern "POST" (Lit "users" :: Wild :: lits rest) false, Protected (on_id h)).
Definition fixed (method : string) (segs : list string) (h : handler W) : pattern * route :=
  (mkPattern method (lits segs) false, Protected (λ _, h)).

Definition routes : list (pattern * route) :=
  [(mkPattern "GET" (lits ["assets"; "v1"]) true,
      Open (StripPrefix "/assets/v1/" (AssetHandler asset_file mime_type)));
   (mkPattern "GET" (lits ["login"]) false, Open Auth_Login);
   (mkPattern "POST" (lits ["login"]) false, Open Auth_Login);
   fixed "GET" ["/"] Dashboard_ServeHTTP;
   fixed "GET" ["fragments"; "status"] Dashboard_ServeHTTP;
   fixed "POST" ["logout"] Auth_Logout;
   fixed "GET" ["account"] Auth_Account;
   fixed "POST" ["account"; "password"] Auth_ChangePassword;
   fixed "GET" ["users"] Users_List;
   fixed "POST" ["users"] Users_Create;
   user_route ["enable"] Users_Enable;
   user_route ["disable"] Users_Disable;
   user_route ["rotate"] Users_Rotate;
   user_route ["revoke"] Users_Revoke;
   user_route ["client"; "deeplink"] Clients_DeepLink;
   user_route ["client"; "toml"] Clients_TOML;
   user_route ["client"; "qr"] Clients_QR;
   user_route ["client"; "cli"] Clients_CLI;
   fixed "GET" ["connection"] Connection_ServeHTTP;
   fixed "POST" ["connection"] Connection_ServeHTTP;
   fixed "GET" ["tls"] TLS_View;
   fixed "GET" ["tls"; "certificate"] TLS_PublicCertificate;
   fixed "POST" ["tls"] TLS_Save;
   fixed "POST" ["tls"; "issue"] TLS_Issue;
   fixed "POST" ["tls"; "renew"] TLS_Renew;
   fixed "GET" ["events"] Events_ServeHTTP].

(** The mux's own redirections, without the query and the escaping of the
    location. *)
Definition serve_mux : handler W := λ r,
  match mux routes r with
  | MuxHandler (Open h) _ => h r
  | MuxHandler (Protected h) vs => Auth_Require (h vs) r
  | MuxRedirect p => ret (redirect p StatusMovedPermanently)
  | MuxNotAllowed => ret (http_error "Method Not Allowed" StatusMethodNotAllowed)
  | MuxNotFound => ret not_found
  end.

Variable c : CSRF.
Variable logf : option (string → M W unit).
Definition NewRouter : handler W := SecurityMiddleware logf (CSRF_Wrap c (BootstrapGate serve_mux)).
End Router.
