(* ===== verification/WebSpec.v ===== *)
(** What the web interface guarantees: only a request that carries a live
    session and the CSRF token of it, in a POST, changes anything but sessions
    and logs; and until there is an administrator nothing but the bootstrap page
    and the assets is served. *)
From S2P Require Import Prelude GoStrings GoPath Base64 Domain X509 CertState ClientProfile Store Session Users Http.
From S2P Require Import WebHandlers WebRouter.

Create HintDb guard.

(** The part of the world the interface guards, and the calls that leave it
    alone. *)
Class WebGuard (W G : Type) {SO : SessionOps W} {BO : BootstrapOps W} {UO : UserOps W} {CO : ClientOps W}
    {TO : TLSOps W} {VO : ViewOps W} := {
  guarded : W → G;
  Login_guarded u p : preserves (λ w w', guarded w' = guarded w) (ses_Login u p);
  Authenticate_guarded t : preserves (λ w w', guarded w' = guarded w) (ses_Authenticate t);
  Authenticate_empty w a w' : ses_Authenticate "" w ≠ (Ok a, w');
  Logout_guarded t : preserves (λ w w', guarded w' = guarded w) (ses_Logout t);
  ChangePassword_guarded t c n : preserves (λ w w', guarded w' = guarded w) (ses_ChangePassword t c n);
  Allow_guarded ip u : preserves (λ w w', guarded w' = guarded w) (lim_Allow ip u);
  Failure_guarded ip u : preserves (λ w w', guarded w' = guarded w) (lim_Failure ip u);
  Success_guarded ip u : preserves (λ w w', guarded w' = guarded w) (lim_Success ip u);
  Required_guarded : preserves (λ w w', guarded w' = guarded w) boot_Required;
  Bootstrap_guarded u p : preserves (λ w w', guarded w' = guarded w) (boot_Bootstrap u p);
  List_guarded : preserves (λ w w', guarded w' = guarded w) us_List;
  LoadClientProfile_guarded : preserves (λ w w', guarded w' = guarded w) cl_LoadClientProfile;
  View_guarded : preserves (λ w w', guarded w' = guarded w) tls_View;
  PublicSelfSignedCertificate_guarded read : tls_PublicSelfSignedCertificate = Some read →
    preserves (λ w w', guarded w' = guarded w) read;
  ListApplyEvents_guarded b l : preserves (λ w w', guarded w' = guarded w) (v_ListApplyEvents b l);
  Logs_guarded : preserves (λ w w', guarded w' = guarded w) v_Logs;
  ControllerLogs_guarded : preserves (λ w w', guarded w' = guarded w) v_ControllerLogs;
  Status_guarded : preserves (λ w w', guarded w' = guarded w) v_Status;
  Metrics_guarded : preserves (λ w w', guarded w' = guarded w) v_Metrics;
  LoadTLSMetadata_guarded : preserves (λ w w', guarded w' = guarded w) v_LoadTLSMetadata;
  now_guarded : preserves (λ w w', guarded w' = guarded w) v_now;
  rand_guarded n : preserves (λ w w', guarded w' = guarded w) (v_rand n)
}.
#[export] Hint Resolve Login_guarded Authenticate_guarded Logout_guarded ChangePassword_guarded Allow_guarded
  Failure_guarded Success_guarded Required_guarded Bootstrap_guarded List_guarded LoadClientProfile_guarded
  View_guarded PublicSelfSignedCertificate_guarded ListApplyEvents_guarded Logs_guarded ControllerLogs_guarded
  Status_guarded Metrics_guarded LoadTLSMetadata_guarded now_guarded rand_guarded : guard.

Section WebSpec.
Context {UT : UnicodeTables} {W G : Type}.
Context {SO : SessionOps W} {BO : BootstrapOps W} {UO : UserOps W} {CO : ClientOps W} {TO : TLSOps W} {VO : ViewOps W}.
Context {WG : WebGuard W G}.
Variable asset_file : string → option string.
Variable mime_type : string → string.

Abbreviation same_guard := (λ w w' : W, guarded w' = guarded w).
#[local] Instance same_guard_preorder : PreOrder same_guard.
Proof. split; [by intros w|intros a b c ? ?; congruence]. Qed.
Abbreviation kept := (preserves same_guard).

(** Walks a handler, closing its guarded calls. *)
Ltac guard_walk :=
  repeat first [progress walk | solve [auto with guard nocore] | progress cbn [fst snd]].

Lemma kept_get_only (h : handler W) r :
  rq_method r ≠ "POST" → kept ((λ r, if negb (bool_decide (rq_method r = "POST"))
    then ret (http_error "method not allowed" StatusMethodNotAllowed) else h r) r).
Proof. intros Hm. cbn beta. rewrite bool_decide_eq_false_2 by done. cbn [negb]. guard_walk. Qed.
Lemma kept_user_id id k r : rq_method r ≠ "POST" → kept (with_user_id id k r).
Proof. intros Hm. apply (kept_get_only (λ r, _)). done. Qed.
Lemma kept_client_id id k r : rq_method r ≠ "POST" → kept (clientUserID id k r).
Proof. intros Hm. apply (kept_get_only (λ r, _)). done. Qed.
Lemma kept_post_only k r : rq_method r ≠ "POST" → kept (post_only k r).
Proof. apply kept_get_only. Qed.
Lemma render_users_kept r m u p : kept (render_users r m u p).
Proof. unfold render_users. guard_walk. Qed.
Lemma render_tls_kept r m n : kept (render_tls r m n).
Proof. unfold render_tls. guard_walk. Qed.

(** No handler changes anything for another method. *)
Definition reads_only (rt : route (W:=W)) : Prop :=
  ∀ vs r, rq_method r ≠ "POST" → kept (match rt with Open h => h r | Protected h => h vs r end).
Lemma protected_routes_read_only : Forall (λ p, reads_only p.2) (routes asset_file mime_type).
Proof.
  unfold routes, user_route, fixed, on_id.
  repeat (apply Forall_cons; split);
    [..|apply Forall_nil; done]; intros vs r Hm; cbn [fst snd];
    unfold Users_Enable, Users_Disable, Users_Revoke, Users_Rotate, users_mutate, Clients_DeepLink, Clients_TOML, Clients_CLI,
      clients_download, Clients_QR, TLS_Save, TLS_Issue, TLS_Renew;
    try first [by apply kept_user_id|by apply kept_client_id|by apply kept_post_only].
  all: unfold StripPrefix, AssetHandler, Auth_Login, render_login, Dashboard_ServeHTTP, Auth_Logout, Auth_Account,
    Auth_ChangePassword, Users_List, Users_Create, Connection_ServeHTTP, TLS_View, TLS_PublicCertificate, Events_ServeHTTP;
    rewrite ?(bool_decide_eq_false_2 (rq_method r = "POST")) by done; cbn [negb].
  all: guard_walk; try apply render_users_kept; try apply render_tls_kept.
Qed.

(** The routes that need no session change nothing in any method. *)
Definition open_keeps (rt : route (W:=W)) : Prop :=
  match rt with Open h => ∀ r, kept (h r) | Protected _ => True end.
Lemma open_routes_keep : Forall (λ p : pattern * route (W:=W), open_keeps p.2) (routes asset_file mime_type).
Proof.
  unfold routes, user_route, fixed. repeat (apply Forall_cons; split); try done; intros r.
  - unfold StripPrefix, AssetHandler. guard_walk.
  - unfold Auth_Login, render_login. guard_walk.
  - unfold Auth_Login, render_login. guard_walk.
Qed.

Lemma find_route_in {A} m p (rs : list (pattern * A)) a vs :
  find_route m p rs = Some (a, vs) → ∃ pt, (pt, a) ∈ rs.
Proof.
  induction rs as [|[pt b] rs IH]; [done|]. cbn [find_route].
  destruct (if method_matches m (pt_method pt) then match_path p pt else None) as [v|].
  - intros [= <- <-]. exists pt. by left.
  - intros [pt' H]%IH. exists pt'. by right.
Qed.
Lemma mux_in {A} (rs : list (pattern * A)) r a vs : mux rs r = MuxHandler a vs → ∃ pt, (pt, a) ∈ rs.
Proof.
  unfold mux. set (p := if bool_decide _ then _ else _). destruct (find_route _ _ _) as [[a' vs']|] eqn:E; [|by repeat case_match].
  case_bool_decide; [intros [= -> ->]; by eapply find_route_in|done].
Qed.

(** A request that got through: the method, and the session it carried. *)
Definition authorised (r : request) (w : W) : Prop :=
  rq_method r = "POST" ∧ ∃ token admin w2,
    Cookie SessionCookie r = Some token ∧ ses_Authenticate token w = (Ok admin, w2).

Lemma serve_mux_authorised r w resp w' :
  serve_mux asset_file mime_type r w = (resp, w') → guarded w' = guarded w ∨ authorised r w.
Proof.
  unfold serve_mux. destruct (mux _ r) as [rt vs|p| |] eqn:Hm; [|intros [= _ <-]; by left..].
  apply mux_in in Hm as [pt Hin].
  pose proof (proj1 (Forall_forall _ _) protected_routes_read_only _ Hin) as Hread.
  pose proof (proj1 (Forall_forall _ _) open_routes_keep _ Hin) as Hopen. cbn [snd] in Hread, Hopen.
  destruct rt as [h|h]; [intros H; left; by apply (Hopen r) in H|].
  unfold Auth_Require. destruct (Cookie SessionCookie r) as [token|] eqn:Hc; [|intros [= _ <-]; by left].
  intros H. run_bind H. pose proof (Authenticate_guarded _ _ _ _ E) as Hk.
  destruct a as [admin|e]; [|run_ret H; by left].
  destruct (decide (rq_method r = "POST")) as [Hp|Hp]; [right; split; eauto 10|left].
  apply (Hread vs (rq_with_context (rq_id r) (rq_csrf r) (Some admin) r)) in H; [congruence|done].
Qed.
Lemma gate_authorised r w resp w' :
  BootstrapGate (serve_mux asset_file mime_type) r w = (resp, w') →
  guarded w' = guarded w ∨ ∃ w1, guarded w1 = guarded w ∧ authorised r w1.
Proof.
  unfold BootstrapGate. case_bool_decide as Hb.
  - intros H. left. assert (Hk : kept (Bootstrap_ServeHTTP r)) by (unfold Bootstrap_ServeHTTP; guard_walk).
    by apply Hk in H.
  - intros H. run_bind H. pose proof (Required_guarded _ _ _ E) as Hk.
    destruct a as [required [e|]]; [run_ret H; by left|].
    destruct (required && _); [run_ret H; by left|].
    apply serve_mux_authorised in H as [Hs|Ha]; [left; congruence|right; by exists w1].
Qed.

Lemma after_form_kept id csrf admin r :
  rq_method (after_form_value (rq_with_context id csrf admin r)) = rq_method r
  ∧ rq_cookies (after_form_value (rq_with_context id csrf admin r)) = rq_cookies r.
Proof. unfold after_form_value. by destruct (bool_decide _). Qed.

(** The CSRF check: what passes it and is authorised carries the token of its
    own session. *)
Lemma csrf_authorised c next r w resp w' :
  (∀ r w resp w', next r w = (resp, w') →
     guarded w' = guarded w ∨ ∃ w1, guarded w1 = guarded w ∧ authorised r w1) →
  CSRF_Wrap c next r w = (resp, w') →
  guarded w' = guarded w ∨ ∃ token w1 admin w2, rq_method r = "POST" ∧ Cookie SessionCookie r = Some token
    ∧ token ≠ "" ∧ provided_token r = csrf_token c token ∧ guarded w1 = guarded w
    ∧ ses_Authenticate token w1 = (Ok admin, w2).
Proof.
  intros Hnext H. unfold CSRF_Wrap in H. run_bind H.
  assert (guarded w1 = guarded w ∧ ∀ seed fresh, a = Some (seed, fresh) →
    ∀ token, Cookie SessionCookie r = Some token → token ≠ "" → seed = token) as [Hg Hseed].
  { revert E. unfold csrf_seed. case_bool_decide as Hs.
    - intros E. run_bind E. apply rand_guarded in E0. run_ret E. split; [done|]. intros seed fresh _ token Ht Hne.
      rewrite Ht in Hs. done.
    - intros [= <- <-]. split; [done|]. intros seed fresh [= <- _] token Ht _. by rewrite Ht. }
  destruct a as [[seed fresh]|]; [|run_ret H; by left].
  run_bind H. run_ret H.
  assert (guarded w' = guarded w1 ∨ provided_token r = csrf_token c seed
    ∧ ∃ r1 w3, authorised r1 w3 ∧ guarded w3 = guarded w1 ∧ rq_method r1 = rq_method r ∧ rq_cookies r1 = rq_cookies r)
    as [Hs|(Hpt & r1 & w3 & (Hp & token & admin & w4 & Hc & Ha) & Hg3 & Hm & Hck)].
  { revert E0. cbn [rq_method rq_with_context]. destruct (checked_method (rq_method r)) eqn:Hm.
    - destruct (bool_decide (csrf_token c seed = provided_token _)) eqn:Ht; cbn [negb];
        [apply bool_decide_eq_true in Ht|].
      + intros [Hs|(w3 & Hg3 & Ha)]%Hnext; [by left|right]. split; [by symmetry|].
        exists (after_form_value (rq_with_context (rq_id r) (csrf_token c seed) (rq_admin r) r)), w3.
        split; [exact Ha|]. split; [exact Hg3|]. by apply after_form_kept.
      + intros E0. run_ret E0. by left.
    - intros [Hs|(w3 & Hg3 & [Hp _])]%Hnext; [by left|]. cbn in Hp. by rewrite Hp in Hm. }
  - left. congruence.
  - right. assert (Hne : token ≠ "") by (intros ->; by eapply Authenticate_empty).
    assert (Hcr : Cookie SessionCookie r = Some token) by (unfold Cookie in *; by rewrite <- Hck).
    exists token, w3, admin, w4. rewrite (Hseed _ _ eq_refl _ Hcr Hne) in Hpt. split_and!; try done; congruence.
Qed.

End WebSpec.
