(* ===== verification/World.v ===== *)
(** The program's world put together: the database of [Store.v], the two
    revision stores of [Materializer.v] and [TLSStore.v], the random source and
    an endpoint whose restarts and reloads may fail.  The instances below
    discharge the promises the services are proved against, so every theorem
    about a service holds of the stores the program uses. *)
From S2P Require Import Prelude GoStrings GoPath Quote Sha256 Domain GoTime Config FileSys Revisions.
From S2P Require Import Materializer X509 CertState TLSStore Store StoreSpec Services Apply Users Entropy.
From S2P Require Import SessionSpec TLSService TLSServiceSpec.

(** The endpoint: what it runs, and the outcomes of the next calls. *)
Record endpoint := mkEndpoint { ep_revision : string; ep_faults : list (option gerror) }.
Definition ep_call (f : string → string) : M endpoint (option gerror) := λ w,
  match ep_faults w with
  | Some e :: q => (Some e, mkEndpoint (ep_revision w) q)
  | q => (None, mkEndpoint (f (ep_revision w)) (tail q))
  end.

Record world := mkWorld {
  w_store : store;
  w_configs : fs;
  w_pairs : fs;
  w_endpoint : endpoint;
  w_random : entropy
}.
Definition on_db {A} : M store A → M world A :=
  zoom w_store (λ x w, mkWorld x (w_configs w) (w_pairs w) (w_endpoint w) (w_random w)).
Definition on_configs {A} : M fs A → M world A :=
  zoom w_configs (λ x w, mkWorld (w_store w) x (w_pairs w) (w_endpoint w) (w_random w)).
Definition on_pairs {A} : M fs A → M world A :=
  zoom w_pairs (λ x w, mkWorld (w_store w) (w_configs w) x (w_endpoint w) (w_random w)).
Definition on_endpoint {A} : M endpoint A → M world A :=
  zoom w_endpoint (λ x w, mkWorld (w_store w) (w_configs w) (w_pairs w) x (w_random w)).
Definition on_entropy {A} : M entropy A → M world A :=
  zoom w_random (λ x w, mkWorld (w_store w) (w_configs w) (w_pairs w) (w_endpoint w) x).
Definition w_tables (w : world) : tables := db_tables (w_store w).

(** One component changed. *)
Record only_db (w w' : world) : Prop := {
  od_configs : w_configs w' = w_configs w; od_pairs : w_pairs w' = w_pairs w }.
Record only_configs (w w' : world) : Prop := {
  oc_store : w_store w' = w_store w; oc_pairs : w_pairs w' = w_pairs w }.
Record only_pairs (w w' : world) : Prop := {
  op_store : w_store w' = w_store w; op_configs : w_configs w' = w_configs w }.
Record only_rest (w w' : world) : Prop := {
  or_store : w_store w' = w_store w; or_configs : w_configs w' = w_configs w; or_pairs : w_pairs w' = w_pairs w }.

Ltac zoom_inv := unfold zoom; case_match; by intros [= <- <-].
Lemma on_db_inv {A} (m : M store A) w r w' :
  on_db m w = (r, w') → m (w_store w) = (r, w_store w') ∧ only_db w w'.
Proof. unfold on_db, zoom. destruct (m (w_store w)). by intros [= <- <-]. Qed.
Lemma on_configs_inv {A} (m : M fs A) w r w' :
  on_configs m w = (r, w') → m (w_configs w) = (r, w_configs w') ∧ only_configs w w'.
Proof. unfold on_configs, zoom. destruct (m (w_configs w)). by intros [= <- <-]. Qed.
Lemma on_pairs_inv {A} (m : M fs A) w r w' :
  on_pairs m w = (r, w') → m (w_pairs w) = (r, w_pairs w') ∧ only_pairs w w'.
Proof. unfold on_pairs, zoom. destruct (m (w_pairs w)). by intros [= <- <-]. Qed.
Lemma on_endpoint_inv {A} (m : M endpoint A) w r w' : on_endpoint m w = (r, w') → only_rest w w'.
Proof. unfold on_endpoint, zoom. destruct (m (w_endpoint w)). by intros [= <- <-]. Qed.
Lemma on_entropy_inv {A} (m : M entropy A) w r w' :
  on_entropy m w = (r, w') → m (w_random w) = (r, w_random w') ∧ only_rest w w'.
Proof. unfold on_entropy, zoom. destruct (m (w_random w)). by intros [= <- <-]. Qed.

(** ** Statements of the store that leave the revision alone *)

Lemma Snapshot_tables w r w' : Store_Snapshot w = (r, w') → db_tables w' = db_tables w.
Proof.
  intros H. unfold Store_Snapshot in H. run_bind H. apply query_inv in E as [Ht _].
  destruct a as [[[[[rev host] addr] cert] key]|e]; [|by run_ret H].
  run_bind H. apply query_inv in E as [Ht0 _]. destruct a; [|run_ret H; congruence].
  run_bind H. apply query_inv in E as [Ht2 _]. destruct a0; run_ret H; congruence.
Qed.
Lemma Snapshot_path w s w' :
  Store_Snapshot w = ((s, None), w') →
  Snap_TLSCertificatePath s
  = match t_tls (db_tables w) with Some r => M_CertificatePath (tls_meta r) | None => "" end.
Proof.
  intros H. unfold Store_Snapshot in H. run_bind H. apply query_inv in E as [_ Ha].
  destruct a as [[[[[rev host] addr] cert] key]|e]; [|run_absurd H].
  run_bind H. destruct a; [|run_absurd H]. run_bind H. destruct a0; [|run_absurd H]. injection H as <- _. simpl.
  destruct Ha as [[? _]|Ha]; [done|]. destruct (t_settings (db_tables w)); [|done]. by injection Ha as _ _ _ <- _.
Qed.
Lemma RecordEvent_tables e w r w' :
  Store_RecordEvent e w = (r, w') →
  t_settings (db_tables w') = t_settings (db_tables w) ∧ t_tls (db_tables w') = t_tls (db_tables w)
  ∧ t_users (db_tables w') = t_users (db_tables w).
Proof.
  intros H. unfold Store_RecordEvent in H. run_bind H. apply db_now_inv in E as [Ht _].
  apply exec_inv in H as [(_ & -> & _)|H]; [by rewrite Ht|]. rewrite Ht in H.
  destruct (event_ok e); injection H as _ <-; done.
Qed.
Lemma SetActive_tables a w r w' :
  Store_SetActiveRevision a w = (r, w') →
  t_tls (db_tables w') = t_tls (db_tables w) ∧ t_users (db_tables w') = t_users (db_tables w)
  ∧ match r with
    | Some _ => t_settings (db_tables w') = t_settings (db_tables w)
    | None => ∃ now, t_settings (db_tables w')
        = (λ s, mkSettingsRow (set_hostname s) (set_listen_address s) a now) <$> t_settings (db_tables w)
    end.
Proof.
  intros H. unfold Store_SetActiveRevision in H. run_bind H. apply db_now_inv in E as [Ht _].
  apply exec_inv in H as [(He & -> & _)|H]; [rewrite Ht; by destruct r|]. rewrite Ht in H.
  injection H as <- <-. split_and!; [done..|]. by eexists.
Qed.

(** ** The interfaces *)

Section World.
Context {UT : UnicodeTables} {SHA : Sha256} {MO : MapOrder} {X : X509}.
Variable m : Materializer.
Variable ts : TLSStore.

#[export] Instance world_revisions : RevisionStore world := {
  ActiveRevision := on_db Store_ActiveRevision;
  SetActiveRevision a := on_db (Store_SetActiveRevision a);
  RecordEvent e := on_db (Store_RecordEvent e);
  Snapshot_ := on_db Store_Snapshot
}.
#[export] Instance world_configs : ConfigRevisionStore world := {
  configs_Apply fs := on_configs (Materializer_Apply m fs);
  configs_Rollback := on_configs Materializer_Rollback;
  configs_Restore := Some (λ r, on_configs (Materializer_Restore r))
}.
#[export] Instance world_process : Process world := {
  process_Restart r := on_endpoint (ep_call (λ _, r));
  process_Reload := on_endpoint (ep_call id)
}.
#[export] Instance world_users : UserRepository world := {
  repo_Snapshot := on_db Store_Snapshot;
  repo_ListUsers := on_db Store_ListUsers;
  repo_UserByID i := on_db (Store_UserByID i);
  repo_InsertUser u := on_db (Store_InsertUser u);
  repo_UpdateUser u := on_db (Store_UpdateUser u);
  repo_DeleteUser i := on_db (Store_DeleteUser i)
}.
#[export] Instance world_random : Random world := { rand_Read n := on_entropy (en_read n) }.
(** The user manager [Run] makes: over the apply manager, with its lock. *)
Definition world_manager : UserManager world :=
  UserManager_SetApplyLock (NewUserManager
    (mkSnapshotApplier ApplyManager_apply (Some ApplyManager_ApplyCurrent)
       (Some (ApplyManager_ApplyCurrentLocked (Some Snapshot_))))).
#[export] Instance world_pairs : TLSRevisionStore world := {
  tls_Publish b := on_pairs (TLSStore_Publish ts None b);
  tls_Rollback := on_pairs (TLSStore_Rollback None);
  tls_Restore := Some (λ r, on_pairs (TLSStore_Restore r))
}.

(** The states in which the stores are well formed, and no file system call is
    made to fail. *)
Definition configs_quiet (w : world) : Prop := @quiet config_layout (w_configs w).
Definition pairs_quiet (w : world) : Prop := @quiet tls_layout (w_pairs w).
Definition world_reliable (w : world) : Prop :=
  configs_quiet w ∧ pairs_quiet w ∧ is_Some (t_settings (w_tables w)).
Definition world_view (w : world) : pub_view :=
  mkView (match t_settings (w_tables w) with Some s => set_active_revision s | None => "" end)
    (link_at (fs_tree (w_configs w)) "current") (link_at (fs_tree (w_configs w)) "previous").

Lemma reliable_db w w' :
  only_db w w' → is_Some (t_settings (w_tables w')) → world_reliable w → world_reliable w'.
Proof. intros [Hc Hp] Hs (Q1 & Q2 & _). unfold world_reliable, configs_quiet, pairs_quiet. by rewrite Hc, Hp. Qed.
Lemma neutral_db w w' :
  only_db w w' → t_settings (w_tables w') = t_settings (w_tables w) → world_reliable w →
  world_reliable w' ∧ world_view w' = world_view w.
Proof.
  intros Ho Hs Hr. split; [apply (reliable_db w); [done|rewrite Hs; apply Hr|done]|].
  unfold world_view. destruct Ho as [-> _]. by rewrite Hs.
Qed.
Lemma neutral_rest w w' : only_rest w w' → world_reliable w → world_reliable w' ∧ world_view w' = world_view w.
Proof.
  intros [Hs Hc Hp] Hr. unfold world_reliable, configs_quiet, pairs_quiet, world_view, w_tables in *.
  by rewrite Hs, Hc, Hp.
Qed.
Lemma reliable_configs w w' :
  only_configs w w' → @quiet config_layout (w_configs w') → world_reliable w → world_reliable w'.
Proof.
  intros [Hs Hp] Hq (_ & Q2 & Q3). unfold world_reliable, configs_quiet, pairs_quiet, w_tables in *. by rewrite Hs, Hp.
Qed.

#[export] Program Instance world_publication : Publication world := {
  reliable := world_reliable; view := world_view; revision_of := revisionID
}.
Next Obligation.
  intros w r w' Hr [H Ho]%on_db_inv. apply query_inv in H as [Ht Ha].
  destruct (neutral_db w w' Ho ltac:(unfold w_tables; by rewrite Ht) Hr) as [? ?]. split_and!; [done..|].
  intros a ->. destruct Ha as [[? _]|Ha]; [done|]. unfold world_view, w_tables. simpl.
  destruct (t_settings _); by simplify_eq/=.
Qed.
Next Obligation.
  intros a w e w' Hr [H Ho]%on_db_inv. apply SetActive_tables in H as (_ & _ & Hs).
  fold (w_tables w) (w_tables w') in Hs. destruct e as [e|]; [by apply neutral_db|]. destruct Hs as [now Hs].
  destruct Hr as (? & ? & Hset). assert (Hset' := Hset). destruct Hset' as [s Hsome].
  split; [apply (reliable_db w); [done|by rewrite Hs, Hsome|done]|].
  unfold world_view, view_set_active. destruct Ho as [-> _]. by rewrite Hs, Hsome.
Qed.
Next Obligation.
  intros ev w e w' Hr [H Ho]%on_db_inv. apply RecordEvent_tables in H as (Hs & _ & _). by apply neutral_db.
Qed.
Next Obligation.
  intros w r w' Hr [H Ho]%on_db_inv. apply Snapshot_tables in H. apply neutral_db; [done| |done].
  unfold w_tables. by rewrite H.
Qed.
Next Obligation.
  intros fs w r w' Hr [H Ho]%on_configs_inv. assert (Hr' := Hr). destruct Hr' as (Hq & _ & _).
  apply Materializer_Apply_quiet in H as [Hq' H]; [|done].
  split; [by apply (reliable_configs w)|]. unfold world_view, view_apply, w_tables. rewrite (oc_store _ _ Ho).
  destruct r as [id|e].
  - destruct H as (-> & -> & ->). done.
  - by destruct H as [-> ->].
Qed.
Next Obligation.
  intros w e w' Hr [H Ho]%on_configs_inv. assert (Hr' := Hr). destruct Hr' as (Hq & _ & _).
  apply Materializer_Rollback_outcome in H as [Hq' H]; [|done]. split; [by apply (reliable_configs w)|].
  unfold world_view, view_exchange, w_tables in *. rewrite (oc_store _ _ Ho). simpl.
  destruct (decide _) as [Hd|Hd].
  - destruct H as (-> & -> & ->). done.
  - by destruct H as [? ->].
Qed.
Next Obligation. intros r w e w' Hr H%on_endpoint_inv. by apply neutral_rest. Qed.
Next Obligation. intros w e w' Hr H%on_endpoint_inv. by apply neutral_rest. Qed.

(** ** The user table *)

#[export] Program Instance world_user_table : UserTable world := {
  users w := t_users (w_tables w);
  users_ok w := tables_ok (w_tables w);
  users_calm w := db_faults (w_store w) = []
}.
Next Obligation. intros w i u Hok Hu. by destruct (ok_users _ Hok _ _ Hu) as (? & ? & _). Qed.
Next Obligation.
  intros w us e w' Hok [H Ho]%on_db_inv. unfold Store_ListUsers in H. run_bind H.
  apply Snapshot_tables in E. run_ret H. unfold w_tables in *. by rewrite E.
Qed.
Next Obligation.
  intros i w r w' Hok [H Ho]%on_db_inv. assert (Hc := H). apply query_inv in H as [Ht Hr].
  unfold w_tables in *. rewrite Ht. split_and!; [done|done|intros Hq; by eapply stmt_calm|].
  destruct r as [u|e]; destruct Hr as [[? Hf]|Hr]; try done; destruct (t_users _ !! i); by simplify_eq/=.
Qed.
Next Obligation.
  intros u w r w' Hok [H Ho]%on_db_inv. unfold w_tables in *.
  assert (Hk : tables_ok (db_tables (w_store w'))).
  { refine (InsertUser_keeps u _ _ _ H Hok). }
  split; [done|]. unfold Store_InsertUser in H. destruct (negb _) eqn:Hst.
  { run_ret H. split; congruence. }
  run_bind H. apply db_now_inv in E as [Ht Hf].
  split. { intros Hq. eapply stmt_calm; [exact H|congruence]. }
  apply stmt_inv in H as [(Hr & Htt & _)|H]; [destruct r; [done|congruence]|].
  rewrite Ht in H. destruct (name_taken _ _ _) eqn:Hn; [injection H as <- <-; done|]. injection H as <- <-.
  assert (Hfresh : t_users (db_tables (w_store w)) !! (t_users_seq (db_tables (w_store w)) + 1) = None).
  { apply eq_None_not_Some. intros [x Hx]. destruct (ok_users _ Hok _ _ Hx) as (_ & _ & ?). lia. }
  split; [done|]. split.
  - intros i x Hx Hname. assert (i = t_users_seq (db_tables (w_store w)) + 1) as -> by by eapply name_taken_false.
    congruence.
  - simpl. eexists. reflexivity.
Qed.
Next Obligation.
  intros u old w e w' Hok Hold Hname Hst [H Ho]%on_db_inv. unfold w_tables in *.
  assert (Hk : tables_ok (db_tables (w_store w'))) by refine (UpdateUser_keeps u _ _ _ H Hok).
  split; [done|]. unfold Store_UpdateUser in H. rewrite status_ok_valid, Hst in H. simpl in H.
  run_bind H. apply db_now_inv in E as [Ht Hf].
  assert (Hn : name_taken (db_tables (w_store w)) (User_ID u) (User_Username u) = false).
  { destruct (name_taken _ _ _) eqn:En; [|done]. unfold name_taken in En. apply existsb_exists in En as ([i x] & Hin & E).
    apply list_elem_of_In, elem_of_map_to_list in Hin. simpl in E. apply andb_true_iff in E as [E1 E2%bool_decide_eq_true].
    assert (i = User_ID u) by (eapply (ok_names _ Hok); [done..|congruence]). lia. }
  split.
  - intros Hq. assert (Hf1 : db_faults w1 = []) by congruence. split; [by eapply exec_calm|].
    apply exec_inv in H as [(_ & _ & ?)|H]; [done|]. rewrite Ht, Hold, Hn in H. by injection H.
  - apply exec_inv in H as [(He & Htt & _)|H]; [destruct e; congruence|].
    rewrite Ht, Hold, Hn in H. injection H as <- <-. simpl. by eexists.
Qed.
Next Obligation.
  intros i w e w' Hok [H Ho]%on_db_inv. unfold w_tables in *.
  assert (Hk : tables_ok (db_tables (w_store w'))) by refine (DeleteUser_keeps i _ _ _ H Hok).
  split; [done|]. split.
  - intros Hq. split; [by eapply exec_calm|]. by apply exec_inv in H as [(_ & _ & ?)|[= <- _]].
  - apply exec_inv in H as [(He & -> & _)|[= <- <-]]; [by destruct e|done].
Qed.
End World.
