(* ===== verification/WorldLaws.v ===== *)
(** The rest of the promises, discharged for the world of [World.v]: those of
    the TLS coordinator, and that a publication leaves the user table alone. *)
From S2P Require Import Prelude GoStrings GoPath Quote Sha256 Domain GoTime Config FileSys Revisions.
From S2P Require Import Materializer X509 CertState TLSStore Store StoreSpec Services Apply Users Entropy.
From S2P Require Import SessionSpec TLSService TLSServiceSpec World.

Section WorldLaws.
Context {UT : UnicodeTables} {SHA : Sha256} {MO : MapOrder} {X : X509}.
Variable m : Materializer.
Variable ts : TLSStore.
#[local] Existing Instances world_revisions world_configs world_process world_users world_random world_pairs
  world_publication world_user_table.

(** The revision a certificate path belongs to. *)
Definition path_revision (p : string) : string := if bool_decide (p = "") then "" else base_name (dir_name p).
#[export] Instance world_tls_views : TLSViews world := {
  tls_view w := link_at (fs_tree (w_pairs w)) "current";
  tls_recorded w := path_revision (match t_tls (w_tables w) with Some r => M_CertificatePath (tls_meta r) | None => "" end);
  has_config w r := @published config_layout (fs_tree (w_configs w)) r;
  has_tls w r := @published tls_layout (fs_tree (w_pairs w)) r
}.

Lemma framed_db w w' :
  only_db w w' → t_tls (w_tables w') = t_tls (w_tables w) → tls_view w' = tls_view w ∧ framed w w'.
Proof. intros [Hc Hp] Ht. unfold framed. simpl. by rewrite Hc, Hp, Ht. Qed.
Lemma framed_rest w w' : only_rest w w' → tls_view w' = tls_view w ∧ framed w w'.
Proof. intros [Hs Hc Hp]. unfold framed, w_tables. simpl. unfold w_tables. by rewrite Hs, Hc, Hp. Qed.
Lemma framed_configs w w' :
  only_configs w w' → (∀ r, has_config w r → has_config w' r) → tls_view w' = tls_view w ∧ framed w w'.
Proof. intros [Hs Hp] Hk. unfold framed, w_tables. simpl in *. unfold w_tables. rewrite Hs, Hp. done. Qed.
Lemma framed_pairs w w' : only_pairs w w' → (∀ r, has_tls w r → has_tls w' r) → framed w w'.
Proof. intros [Hs Hc] Hk. unfold framed, w_tables. simpl in *. unfold w_tables. rewrite Hs, Hc. done. Qed.

Lemma reliable_pairs w w' :
  only_pairs w w' → @quiet tls_layout (w_pairs w') → world_reliable w →
  world_reliable w' ∧ world_view w' = world_view w.
Proof.
  intros [Hs Hc] Hq (Q1 & _ & Q3). unfold world_reliable, configs_quiet, pairs_quiet, world_view, w_tables in *.
  by rewrite Hs, Hc.
Qed.

#[export] Program Instance world_tls_publication : TLSPublication (PUB:=world_publication m) (TS:=world_pairs ts) world unit (ret None) None.
Next Obligation.
  intros w r w' Hr [H Ho]%on_db_inv. apply query_inv in H as [Ht _]. apply framed_db; [done|].
  unfold w_tables. by rewrite Ht.
Qed.
Next Obligation.
  intros a w r w' Hr [H Ho]%on_db_inv. apply SetActive_tables in H as (Ht & _). by apply framed_db.
Qed.
Next Obligation.
  intros ev w r w' Hr [H Ho]%on_db_inv. apply RecordEvent_tables in H as (_ & Ht & _). by apply framed_db.
Qed.
Next Obligation.
  intros w r w' Hr [H Ho]%on_db_inv. apply Snapshot_tables in H. apply framed_db; [done|].
  unfold w_tables. by rewrite H.
Qed.
Next Obligation.
  intros w s w' Hr [H Ho]%on_db_inv. apply Snapshot_path in H. unfold old_tls. by rewrite H.
Qed.
Next Obligation.
  intros fs w r w' Hr [H Ho]%on_configs_inv. apply framed_configs; [done|]. intros x. simpl.
  apply Materializer_Apply_spec in H as (_ & Hk & _); [|apply Hr]. by apply published_kept.
Qed.
Next Obligation. intros w r w' Hr H%on_endpoint_inv. by apply framed_rest. Qed.
Next Obligation. split; intros w r w' Hr [= _ <-]; [split; [done|reflexivity]|done]. Qed.
Next Obligation. intros a p [=]. Qed.
Next Obligation.
  intros b w r w' Hr [H Ho]%on_pairs_inv. assert (Hr' := Hr). destruct Hr' as (Qc & Qp & Hset).
  assert (Hq := H). apply TLSStore_Publish_quiet in Hq as [Hq' Herr]; [|done].
  destruct (TLSStore_Publish_spec _ _ _ _ _ _ (quiet_ok _ Qp) H) as (Hs' & Hk & Hcase).
  destruct (reliable_pairs _ _ Ho Hq' Hr) as [Hr' Hv']. split; [done|]. split; [done|].
  split. { apply framed_pairs; [done|]. intros x. by apply published_kept. }
  simpl. destruct r as [p|e]; [|done]. destruct Hcase as [(_ & _ & ?)|(w1 & sr & (Hs1 & _) & Hp1 & Hsw & Hres)]; [done|].
  destruct (switch_current_spec _ _ _ _ Hs1 Hp1 Hsw) as (_ & _ & _ & Hcu & _).
  destruct sr as [x|]; [|done]. injection Hres as ->. by destruct Hcu as [[_ ?]|Hcu].
Qed.
Next Obligation.
  eexists. split; [reflexivity|]. intros rev w e w' Hr Hrev [H Ho]%on_configs_inv. assert (Hr' := Hr).
  destruct Hr' as (Qc & Qp & Hset). apply (@restore_revision_quiet config_layout) in H as (-> & Hq & Hsame & Hcur); [|exact Qc|exact Hrev].
  split; [done|]. split; [by apply (reliable_configs w)|]. split.
  { simpl. unfold w_tables. by rewrite (oc_store _ _ Ho). }
  split; [exact Hcur|]. apply framed_configs; [done|]. intros x Hx. simpl. eapply published_same; [apply Hsame|done].
Qed.
Next Obligation.
  eexists. split; [reflexivity|]. intros rev w e w' Hr Hrev [H Ho]%on_pairs_inv. assert (Hr' := Hr).
  destruct Hr' as (Qc & Qp & Hset). apply (@restore_revision_quiet tls_layout) in H as (-> & Hq & Hsame & Hcur); [|exact Qp|exact Hrev].
  destruct (reliable_pairs _ _ Ho Hq Hr) as [Hr' Hv']. split; [done|]. split; [done|]. split; [done|].
  split; [exact Hcur|]. apply framed_pairs; [done|]. intros x Hx. simpl. eapply published_same; [apply Hsame|done].
Qed.

(** ** A publication and the user table *)

Record users_frame (w w' : world) : Prop := {
  uf_users : t_users (w_tables w') = t_users (w_tables w);
  uf_ok : tables_ok (w_tables w) → tables_ok (w_tables w');
  uf_calm : db_faults (w_store w) = [] → db_faults (w_store w') = []
}.
#[local] Instance users_frame_preorder : PreOrder users_frame.
Proof.
  split; [by intros w; split|]. intros a b c [U1 O1 C1] [U2 O2 C2]. split; [congruence|auto..].
Qed.
Lemma frame_rest {A} (p : M world A) : (∀ w r w', p w = (r, w') → w_store w' = w_store w) → preserves users_frame p.
Proof. intros Hp w r w' H%Hp. split; unfold w_tables; by rewrite H. Qed.
Lemma frame_db {A} (p : M store A) :
  (∀ s r s', p s = (r, s') → t_users (db_tables s') = t_users (db_tables s)) →
  preserves inv_kept p → (∀ s r s', p s = (r, s') → db_faults s = [] → db_faults s' = []) →
  preserves users_frame (on_db p).
Proof. intros Hu Hk Hc w r w' [H _]%on_db_inv. split; [by eapply Hu|by eapply Hk|by eapply Hc]. Qed.

Lemma ActiveRevision_frame : preserves users_frame (on_db Store_ActiveRevision).
Proof.
  apply frame_db; [|apply query_keeps|intros s r s' H; by eapply stmt_calm].
  intros s r s' [Ht _]%query_inv. by rewrite Ht.
Qed.
Lemma SetActiveRevision_frame a : preserves users_frame (on_db (Store_SetActiveRevision a)).
Proof.
  apply frame_db; [by intros s r s' (_ & ? & _)%SetActive_tables|..].
  - apply preserves_bind; [typeclasses eauto|apply db_now_keeps|]. intros now. apply exec_keeps. intros t.
    apply put_settings_ok.
  - intros s r s' H Hq. unfold Store_SetActiveRevision in H. run_bind H. apply db_now_inv in E as [_ Hf].
    eapply exec_calm; [exact H|congruence].
Qed.
Lemma RecordEvent_frame e : preserves users_frame (on_db (Store_RecordEvent e)).
Proof.
  apply frame_db; [by intros s r s' (_ & _ & ?)%RecordEvent_tables|apply StoreSpec.RecordEvent_keeps|].
  intros s r s' H Hq. unfold Store_RecordEvent in H. run_bind H. apply db_now_inv in E as [_ Hf].
  eapply exec_calm; [exact H|congruence].
Qed.
Lemma Snapshot_frame : preserves users_frame (on_db Store_Snapshot).
Proof.
  apply frame_db.
  - intros s r s' H%Snapshot_tables. by rewrite H.
  - intros s r s' H Hok. apply Snapshot_tables in H. unfold inv_kept. by rewrite H.
  - intros s r s' H Hq. unfold Store_Snapshot in H. run_bind H. assert (Q1 := stmt_calm _ _ _ _ E Hq).
    destruct a as [[[[[? ?] ?] ?] ?]|e]; [|by run_ret H]. run_bind H. assert (Q2 := stmt_calm _ _ _ _ E0 Q1).
    destruct a; [|by run_ret H]. run_bind H. assert (Q3 := stmt_calm _ _ _ _ E1 Q2). destruct a0; by run_ret H.
Qed.
Lemma configs_frame {A} (p : M fs A) : preserves users_frame (on_configs p).
Proof. apply frame_rest. by intros w r w' [_ [? _]]%on_configs_inv. Qed.
Lemma endpoint_frame {A} (p : M endpoint A) : preserves users_frame (on_endpoint p).
Proof. apply frame_rest. by intros w r w' [? _ _]%on_endpoint_inv. Qed.

Lemma ApplyCurrent_frame action : preserves users_frame (ApplyManager_ApplyCurrent (RS:=world_revisions) (CS:=world_configs m) (P:=world_process) action).
Proof.
  unfold ApplyManager_ApplyCurrent, ApplyManager_ApplyCurrentLocked, ApplyManager_apply, run_action, undo_action.
  walk; try first [apply ActiveRevision_frame|apply SetActiveRevision_frame|apply RecordEvent_frame
    |apply Snapshot_frame|apply configs_frame|apply endpoint_frame].
Qed.

(** The two hypotheses of [Users.v]. *)
Lemma world_apply_current_law action w r w' :
  users_ok w → apply_current (world_manager m) action w = (r, w') →
  users_ok w' ∧ users w' = users w ∧ (users_calm w → users_calm w').
Proof. intros Hok H. apply ApplyCurrent_frame in H as [Hu Ho Hc]. split; [by apply Ho|split; [exact Hu|exact Hc]]. Qed.
Lemma world_rand_Read_law n w r w' :
  0 <= n → users_ok w → rand_Read n w = (r, w') →
  users_ok w' ∧ users w' = users w ∧ (users_calm w → users_calm w') ∧ (∀ s, r = Ok s → len s = n).
Proof.
  intros Hn Hok [H [Hs _ _]]%on_entropy_inv. simpl. unfold w_tables in *. simpl in *. unfold w_tables in *. rewrite Hs.
  split_and!; [done..|]. intros s ->. by eapply en_read_length.
Qed.
End WorldLaws.
