(* ===== verification/Migration.v ===== *)
(** [internal/migration/legacy.go]: the one-time import of a legacy volume, from the
    reading of its files to the marker that says the import is complete.

    The two volumes are one tree of files; the database, the configuration store
    and the store of key pairs are those of [World.v]. *)
From stdpp Require Import pretty.
From S2P Require Import Prelude GoStrings GoPath Quote Sha256 Json Domain GoTime Config FileSys PathFacts PosixFs Backup Revisions.
From S2P Require Import Materializer X509 CertState TLSStore Store StoreSpec Services Entropy World Manager Schema.

(** ** Data *)

Record Result := mkResult {
  Res_Users : Z; Res_Rules : Z; Res_Hostname : string; Res_CertificateImported : bool; Res_AlreadyComplete : bool }.
Record legacyVPN := mkLegacyVPN { lv_ListenAddress : string }.
Record legacyHost := mkLegacyHost { lh_Hostname : string; lh_CertChainPath : string; lh_PrivateKeyPath : string }.
Record legacyHosts := mkLegacyHosts { MainHosts : list legacyHost }.
Record legacyUser := mkLegacyUser { lu_Username : string; lu_Password : string }.
Record legacyCredentials := mkLegacyCredentials { lc_Client : list legacyUser }.
Record legacyRule := mkLegacyRule { lr_Name : string; lr_Action : string; lr_CIDR : string; lr_Network : string }.
Record legacyRules := mkLegacyRules { lr_Rule : list legacyRule; lr_Rules : list legacyRule }.
Record marker := mkMarker { mk_Version : Z; mk_Source : string; mk_Files : gmap string string; mk_CompletedAt : string }.

(** [github.com/BurntSushi/toml] of the four types. *)
Class LegacyToml := {
  decode_vpn : string → result legacyVPN;
  decode_hosts : string → result legacyHosts;
  decode_credentials : string → result legacyCredentials;
  decode_rules : string → result legacyRules
}.

(** ** The certificate's paths *)

Definition legacyPath (source raw : string) : result string :=
  if bool_decide (raw = "") then Err (Errorf "legacy TLS path is missing")
  else
    let candidate :=
      if is_abs raw
      then join_path [source; trim_prefix (trim_prefix (clean raw) "/") "trusttunnel_endpoint/"]
      else join_path [source; raw] in
    let candidate := clean candidate in
    let rel := filepath_rel source candidate in
    if bool_decide (rel = "..") || has_prefix rel "../" then Err (Errorf "legacy TLS path escapes source")
    else Ok candidate.

(** ** The marker *)

Definition marker_json (m : marker) : json :=
  JObject [("version", JNumber (integer_text (mk_Version m)));
           ("source", JString (mk_Source m));
           ("files", JObject ((λ kv : string * string, (kv.1, JString kv.2)) <$> sort_by fst (map_to_list (mk_Files m))));
           ("completed_at", JString (mk_CompletedAt m))].

Section Files.
Context {SHA : Sha256}.
Variable umask : Z.
Fixpoint manifest (source : string) (names : list string) (out : gmap string string) : M fs (result (gmap string string)) :=
  match names with
  | [] => ret (Ok out)
  | name :: names' =>
    let* data := px_read_file (join_path [source; name]) in
    match data with
    | Err e => if errors_is e ErrNotExist then manifest source names' out else ret (Err e)
    | Ok data => manifest source names' (<[name := sha256_hex data]> out)
    end
  end.
Definition writeMarker (path : string) (value : marker) : M fs (option gerror) :=
  err? px_mkdir_all umask (dir_name path) 448 in
  let data := json_indented (marker_json value) in
  let tmp := path +:+ ".tmp" in
  err? px_write_file umask tmp (data +:+ String "010"%char "") 384 in
  px_rename tmp path.

(** ** The legacy volume *)

Definition required : list string := ["vpn.toml"; "hosts.toml"; "credentials.toml"].
Fixpoint check_required (source : string) (names : list string) : M fs (option gerror) :=
  match names with
  | [] => ret None
  | name :: names' =>
    let* info := px_stat (join_path [source; name]) in
    match info with
    | Ok (File _ _) => check_required source names'
    | _ => ret (Some (Errorf ("legacy " +:+ name +:+ " is unavailable")))
    end
  end.
(** [toml.DecodeFile] *)
Definition decode_file {A} (decode : string → result A) (p : string) : M fs (result A) :=
  let? data := px_read_file p in ret (decode data).
Definition named {A} (name : string) (m : M fs (result A)) : M fs (result A) :=
  let* r := m in ret (match r with Ok a => Ok a | Err e => Err (Wrapf name e) end).
Context {LT : LegacyToml}.
(** What [Run] reads before it opens the store. *)
Record volume := mkVolume {
  vol_vpn : legacyVPN; vol_host : legacyHost; vol_users : list legacyUser; vol_rules : list legacyRule }.
Definition read_volume (source : string) : M fs (result volume) :=
  nil? check_required source required in
  let? vpn := named "vpn.toml" (decode_file decode_vpn (join_path [source; "vpn.toml"])) in
  let? hosts := named "hosts.toml" (decode_file decode_hosts (join_path [source; "hosts.toml"])) in
  let? credentials := named "credentials.toml" (decode_file decode_credentials (join_path [source; "credentials.toml"])) in
  let rulePath := join_path [source; "rules.toml"] in
  let* info := px_stat rulePath in
  let? rules := (match info with
                 | Ok _ => named "rules.toml" (decode_file decode_rules rulePath)
                 | Err _ => ret (Ok (mkLegacyRules [] []))
                 end) in
  match MainHosts hosts with
  | [] => ret (Err (Errorf "legacy hostname is missing"))
  | host :: _ =>
    if bool_decide (trim_space (lh_Hostname host) = "") then ret (Err (Errorf "legacy hostname is missing"))
    else if bool_decide (lc_Client credentials = []) then ret (Err (Errorf "legacy credentials contain no users"))
    else ret (Ok (mkVolume vpn host (lc_Client credentials) (lr_Rule rules ++ lr_Rules rules)))
  end.
End Files.

(** ** [Run] *)

Section Migration.
Context {UT : UnicodeTables} {SHA : Sha256} {MO : MapOrder} {X : X509} {LT : LegacyToml} {Sch : Type}.
Variable apply_sql : string → Sch → result Sch.
Variable has_migrations : Sch → bool.
Variables umask pid : Z.

(** The files, the schema of the database, and the stores. *)
Record mig := mkMig { mg_disk : fs; mg_schema : database (Sch:=Sch); mg_world : world }.
Definition on_disk {A} : M fs A → M mig A := zoom mg_disk (λ x w, mkMig x (mg_schema w) (mg_world w)).
Definition on_world {A} : M world A → M mig A := zoom mg_world (λ x w, mkMig (mg_disk w) (mg_schema w) x).
Definition on_file {A} : M (dbfile (Sch:=Sch)) A → M mig A :=
  zoom (λ w, mkDbfile (mg_schema w) (w_store (mg_world w)))
    (λ f w, mkMig (mg_disk w) (df_schema f)
              (mkWorld (df_rows f) (w_configs (mg_world w)) (w_pairs (mg_world w)) (w_endpoint (mg_world w)) (w_random (mg_world w)))).
Definition on_store {A} (m : M store A) : M mig A := on_world (on_db m).

(** The certificate manager of the import publishes into the store of pairs, which
    has neither of the methods the manager looks for. *)
#[local] Instance mig_repository : CertRepository mig := {
  SaveACMEAccount a b c d e := on_store (Store_SaveACMEAccount a b c d e);
  SaveTLSMetadata m := on_store (Store_SaveTLSMetadata m);
  LoadTLSMetadata := on_store Store_LoadTLSMetadata;
  cert_RecordEvent e := on_store (Store_RecordEvent e)
}.
Definition mig_publisher (ts : TLSStore) : Publisher mig := {|
  pub_Publish b := on_world (on_pairs (TLSStore_Publish ts None b));
  pub_RevertLast := None;
  pub_CompletePublished := None
|}.
Context {CE : CertEnvironment mig}.

Fixpoint import_users (l : list legacyUser) (n : Z) : M mig (result Z) :=
  match l with
  | [] => ret (Ok n)
  | u :: l' =>
    if bool_decide (lu_Username u = "") || bool_decide (lu_Password u = "")
    then ret (Err (Errorf "legacy credential is incomplete"))
    else
      nil? on_store (Store_UpsertUser (mkVPNUser 0 (lu_Username u) (lu_Password u) UserActive 0 0)) in
      import_users l' (n + 1)
  end.
(** [i] is the index of the first rule of [l]. *)
Definition legacy_rule (i : Z) (r : legacyRule) : Rule :=
  mkRule (if bool_decide (lr_Name r = "") then "legacy-" +:+ pretty (i + 1) else lr_Name r) (lr_Action r)
    (if bool_decide (lr_Network r = "") then lr_CIDR r else lr_Network r).
Fixpoint import_rules (l : list legacyRule) (i n : Z) : M mig (result Z) :=
  match l with
  | [] => ret (Ok n)
  | r :: l' => nil? on_store (Store_UpsertRule (legacy_rule i r)) in import_rules l' (i + 1) (n + 1)
  end.
(** Whether a certificate was imported. *)
Definition import_certificate (source target : string) (host : legacyHost) : M mig (result bool) :=
  if negb (bool_decide (lh_CertChainPath host = "")) || negb (bool_decide (lh_PrivateKeyPath host = "")) then
    match legacyPath source (lh_CertChainPath host) with
    | Err e => ret (Err e)
    | Ok certPath =>
      match legacyPath source (lh_PrivateKeyPath host) with
      | Err e => ret (Err e)
      | Ok keyPath =>
        let? chain := on_disk (px_read_file certPath) in
        let? key := on_disk (px_read_file keyPath) in
        let? ts := on_world (on_pairs (NewTLSStore (join_path [target; "tls"]))) in
        let* r := ImportManual (PB:=mig_publisher ts) (lh_Hostname host) chain key in
        match r.2 with
        | Some e => ret (Err (Wrapf "legacy certificate" e))
        | None => ret (Ok true)
        end
      end
    end
  else ret (Ok false).
(** From the snapshot to the row that names the revision. *)
Definition publish_snapshot (target : string) : M mig (option gerror) :=
  let* r := on_store Store_Snapshot in
  match r with
  | (_, Some e) => ret (Some e)
  | (snapshot, None) =>
    match Render snapshot with
    | Err e => ret (Some e)
    | Ok files =>
      let* m := on_world (on_configs (NewMaterializer (join_path [target; "config"]) None)) in
      match m with
      | Err e => ret (Some e)
      | Ok m =>
        let* revision := on_world (on_configs (Materializer_Apply m files)) in
        match revision with
        | Err e => ret (Some e)
        | Ok revision => on_store (Store_SetActiveRevision revision)
        end
      end
    end
  end.
(** What is written to the stores, the store of the database open. *)
Definition import_volume (source target : string) (v : volume) : M mig (result Result) :=
  nil? on_store (Store_SetHostname (lh_Hostname (vol_host v))) in
  nil? (if negb (bool_decide (lv_ListenAddress (vol_vpn v) = ""))
        then on_store (Store_SetListenAddress (lv_ListenAddress (vol_vpn v))) else ret None) in
  let? users := import_users (vol_users v) 0 in
  let? rules := import_rules (vol_rules v) 0 0 in
  let? imported := import_certificate source target (vol_host v) in
  nil? publish_snapshot target in
  ret (Ok (mkResult users rules (lh_Hostname (vol_host v)) imported false)).
Definition marker_path (target : string) : string := join_path [target; "migration"; "legacy-v1.json"].
(** From the reading of the legacy volume to the hashes of its files. *)
Definition before_marker (source target : string) : M mig (result (Result * gmap string string)) :=
  let? v := on_disk (read_volume source) in
  nil? on_file (Store_Open apply_sql has_migrations (join_path [target; "controller.db"])) in
  let? result := import_volume source target v in
  let? hashes := on_disk (manifest source (required ++ ["rules.toml"]) ∅) in
  ret (Ok (result, hashes)).
(** From the check for the marker, under the lock of the target. *)
Definition run_locked (source target : string) : M mig (result Result) :=
  let* m := on_disk (px_stat (marker_path target)) in
  match m with
  | Ok _ => ret (Ok (mkResult 0 0 "" false true))
  | Err e =>
    if negb (errors_is e ErrNotExist) then ret (Err e)
    else
      let? (result, hashes) := before_marker source target in
      let* now := on_disk now_unix_nano in
      nil? on_disk (writeMarker umask (marker_path target) (mkMarker 1 source hashes (format_time (unix_epoch + now)))) in
      ret (Ok result)
  end.
Definition Migration_Run (source target : string) : M mig (result Result) :=
  if negb (is_abs source) || negb (is_abs target) then ret (Err (Errorf "source and target must be absolute"))
  else
    let source := clean source in
    let target := clean target in
    if bool_decide (source = target) then ret (Err (Errorf "source and target must differ"))
    else
      nil? on_disk (Lock_Acquire umask pid target) in
      run_locked source target.
End Migration.
