(* ===== verification/MigrationSpec.v ===== *)
(** What the import of [Migration.v] guarantees: the paths it reads stay below the
    legacy volume, everything is in the stores before a file of the target tells
    of the import, and a completed import is not repeated. *)
From stdpp Require Import pretty.
From S2P Require Import Prelude GoStrings GoPath Quote Sha256 Json Domain GoTime Config FileSys PathFacts PosixFs PosixFacts Backup Revisions.
From S2P Require Import Materializer X509 CertState TLSStore Store StoreSpec Services Entropy World Manager Schema Migration.

(** ** Paths *)

Lemma clean_rooted s : is_abs s = true → ∃ q, Forall plain q ∧ clean s = abs_path q.
Proof.
  intros Hs. destruct (clean_elems_shape true (split s slash) []) as (k & ps & He & Hp & Hk);
    [apply split_pieces|by exists 0%nat, []|]. specialize (Hk eq_refl). subst k. exists ps. split; [done|].
  unfold clean. destruct (decide (s = "")) as [->|Hne]; [done|]. rewrite bool_decide_eq_false_2 by done. cbv zeta. rewrite Hs, He. done.
Qed.
Lemma join_rooted s l : is_abs s = true → ∃ q, Forall plain q ∧ join_path (s :: l) = abs_path q.
Proof.
  intros Hs. unfold join_path. rewrite filter_cons, decide_True by (intros ->; done).
  set (r := filter _ l). assert (Ha : is_abs (join_strings "/" (s :: r)) = true).
  { destruct r as [|x r]; [done|]. rewrite join_strings_cons. destruct s as [|c s]; [done|].
    assert (Hc : ∀ t, is_abs (String c t) = bool_decide (slash = c)) by (intros [|a t]; apply andb_true_r).
    change (is_abs (String c (s +:+ "/" +:+ join_strings "/" (x :: r))) = true). by rewrite Hc in *. }
  destruct (clean_rooted _ Ha) as (q & Hq & Hc). exists q. split; [done|]. rewrite <- Hc. by destruct r.
Qed.
Lemma strip_common_inv a b t : strip_common a b = ([], t) → b = a ++ t.
Proof.
  revert b. induction a as [|x a IH]; intros b H; cbn [strip_common] in H.
  - destruct b; injection H as <-; done.
  - destruct b as [|y b]; [done|]. case_bool_decide; [|done]. subst y. cbn [app]. f_equal. by apply IH.
Qed.
Lemma components_of l : Forall plain l → components (abs_path l) = l.
Proof. intros H. destruct (decide (l = [])) as [->|Hne]; [done|]. by apply components_abs. Qed.
(** What is not refused is below the base. *)
Lemma rel_below l q : Forall plain l → Forall plain q → l ≠ [] →
  filepath_rel (abs_path l) (abs_path q) ≠ ".." → has_prefix (filepath_rel (abs_path l) (abs_path q)) "../" = false → ∃ t, q = l ++ t.
Proof.
  intros Hl Hq Hne. unfold filepath_rel. rewrite !clean_abs, !components_of by done.
  destruct (strip_common l q) as [b t] eqn:E. destruct b as [|x b].
  - intros _ _. apply strip_common_inv in E. by exists t.
  - cbn [length replicate app]. destruct (replicate (length b) ".." ++ t) as [|y r]; [done|].
    rewrite join_strings_cons. intros _ H. by destruct (join_strings "/" (y :: r)).
Qed.

(** The paths of the legacy certificate are read below the legacy volume: what
    [legacyPath] accepts is the volume or a path of plain names below it, whatever
    the configuration says, absolute paths and [..] included. *)
Lemma legacyPath_confined l raw p :
  Forall plain l → l ≠ [] → legacyPath (abs_path l) raw = Ok p → ∃ ps, Forall plain ps ∧ p = abs_path (l ++ ps).
Proof.
  intros Hl Hne H. unfold legacyPath in H. destruct (bool_decide (raw = "")); [done|]. cbv zeta in H.
  set (c := if is_abs raw then _ else _) in H.
  assert (∃ q, Forall plain q ∧ c = abs_path q) as (q & Hq & Hc).
  { unfold c. destruct (is_abs raw); apply join_rooted, is_abs_slash. }
  rewrite Hc, clean_abs in H by done. destruct (_ || _) eqn:Hrel; [done|]. injection H as <-.
  apply orb_false_iff in Hrel as [H1%bool_decide_eq_false H2].
  destruct (rel_below l q) as [t ->]; [done..|]. apply Forall_app in Hq as [_ Ht]. by exists t.
Qed.

(** ** Frames *)

(** The tree is left alone, and no failure is brought in. *)
Definition untouched (d d' : fs) : Prop := fs_tree d' = fs_tree d ∧ (fs_faults d = [] → fs_faults d' = []).
#[local] Instance untouched_preorder : PreOrder untouched.
Proof. split; [by intros w|]. intros a b c [? ?] [? ?]. split; [congruence|auto]. Qed.
Lemma at_path_untouched {A} follow p (run : path → node → result A * node) :
  (∀ q t, (run q t).2 = t) → preserves untouched (at_path follow p run).
Proof.
  intros Hr w r w' H. split; [|intros Hq; by apply sys_quiet in H as [_ ?]].
  apply sys_inv in H as [(_ & Ht)|Hrun]; [done|]. revert Hrun. destruct (locate _ _ _) as [q|]; [|by intros [= _ <-]].
  intros Hrun. specialize (Hr q (fs_tree w)). by rewrite Hrun in Hr.
Qed.
Lemma px_stat_untouched p : preserves untouched (px_stat p).
Proof. by apply at_path_untouched. Qed.
Lemma px_read_file_untouched p : preserves untouched (px_read_file p).
Proof. by apply at_path_untouched. Qed.
#[export] Hint Resolve px_stat_untouched px_read_file_untouched : fsdb.

Section Reads.
Context {SHA : Sha256} {LT : LegacyToml}.
Lemma manifest_untouched source names out : preserves untouched (manifest source names out).
Proof.
  revert out. induction names as [|name names IH]; intros out; cbn [manifest]; walk; auto.
  auto with fsdb.
Qed.
Lemma check_required_untouched source names : preserves untouched (check_required source names).
Proof. induction names as [|name names IH]; cbn [check_required]; walk; auto. auto with fsdb. Qed.
Lemma named_untouched {A} name (dec : string → result A) p : preserves untouched (named name (decode_file dec p)).
Proof. unfold named, decode_file. walk. auto with fsdb. Qed.
Lemma read_volume_untouched source : preserves untouched (read_volume source).
Proof.
  unfold read_volume. walk; auto using check_required_untouched, named_untouched; auto with fsdb.
Qed.
End Reads.

(** ** Rows *)

(** An active user with a name and a password. *)
Definition has_password (t : tables) (name password : string) : Prop :=
  ∃ id u, t_users t !! id = Some u ∧ User_Username u = name ∧ User_Credential u = password ∧ User_Status u = UserActive.
(** The passwords the legacy users end with, and the rules: of two entries with a
    name the later one counts. *)
Fixpoint passwords (l : list legacyUser) (m : gmap string string) : gmap string string :=
  match l with [] => m | u :: l' => passwords l' (<[lu_Username u := lu_Password u]> m) end.
Fixpoint rules_after (l : list legacyRule) (i : Z) (m : gmap string Rule) : gmap string Rule :=
  match l with [] => m | r :: l' => rules_after l' (i + 1) (<[Rule_Name (legacy_rule i r) := legacy_rule i r]> m) end.

Lemma exec_done run w w' : exec run w = (None, w') → run (db_tables w) = (None, db_tables w').
Proof. intros H. by apply exec_inv in H as [(? & _)|H]. Qed.

Section Rows.
Context {UT : UnicodeTables}.
Lemma UpsertUser_rows u w w' : tables_ok (db_tables w) → User_Status u = UserActive → Store_UpsertUser u w = (None, w') →
  t_settings (db_tables w') = t_settings (db_tables w) ∧ t_rules (db_tables w') = t_rules (db_tables w)
  ∧ has_password (db_tables w') (User_Username u) (User_Credential u)
  ∧ ∀ n p, n ≠ User_Username u → has_password (db_tables w) n p → has_password (db_tables w') n p.
Proof.
  intros Hok Hst H. unfold Store_UpsertUser in H. destruct (negb _); [run_absurd H|]. run_bind H. apply db_now_inv in E as [Ht _].
  apply exec_done in H. rewrite Ht in H. set (t := db_tables w) in *. destruct (List.find _ _) as [[id old]|] eqn:Ef; injection H as <-.
  - apply List.find_some in Ef as [Hin He]. cbn in He. apply bool_decide_eq_true in He. apply list_elem_of_In, elem_of_map_to_list in Hin.
    split; [done|]. split; [done|]. cbn [t_users put_users]. split.
    + eexists id, _. cbn [t_users put_users]. rewrite lookup_insert_eq. cbn. done.
    + intros n p Hn (i & x & Hi & Hx). exists i, x. cbn [t_users put_users]. rewrite lookup_insert_ne; [done|]. intros ->.
      destruct Hx as (Hx & _). congruence.
  - split; [done|]. split; [done|]. cbn [t_users put_users]. split.
    + eexists _, _. cbn [t_users put_users]. rewrite lookup_insert_eq. cbn. done.
    + intros n p Hn (i & x & Hi & Hx). exists i, x. cbn [t_users put_users]. rewrite lookup_insert_ne; [done|]. intros <-.
      destruct (ok_users _ Hok _ _ Hi) as (_ & _ & ?). lia.
Qed.
Lemma UpsertRule_rows r w w' : Store_UpsertRule r w = (None, w') →
  t_settings (db_tables w') = t_settings (db_tables w) ∧ t_users (db_tables w') = t_users (db_tables w)
  ∧ t_rules (db_tables w') = <[Rule_Name r := r]> (t_rules (db_tables w)).
Proof.
  intros H. unfold Store_UpsertRule in H. run_bind H. apply db_now_inv in E as [Ht _]. apply exec_done in H. rewrite Ht in H.
  destruct (_ || _); [|done]. by injection H as <-.
Qed.
Lemma SetHostname_rows h w w' : Store_SetHostname h w = (None, w') →
  set_hostname <$> t_settings (db_tables w') = (λ _, h) <$> t_settings (db_tables w)
  ∧ t_users (db_tables w') = t_users (db_tables w) ∧ t_rules (db_tables w') = t_rules (db_tables w).
Proof.
  intros H. unfold Store_SetHostname in H. run_bind H. apply db_now_inv in E as [Ht _]. apply exec_done in H. rewrite Ht in H.
  injection H as <-. cbn [t_settings put_settings]. by destruct (t_settings (db_tables w)).
Qed.
Lemma SetListenAddress_rows a w w' : Store_SetListenAddress a w = (None, w') →
  set_hostname <$> t_settings (db_tables w') = set_hostname <$> t_settings (db_tables w)
  ∧ t_users (db_tables w') = t_users (db_tables w) ∧ t_rules (db_tables w') = t_rules (db_tables w).
Proof.
  intros H. unfold Store_SetListenAddress in H. run_bind H. apply db_now_inv in E as [Ht _]. apply exec_done in H. rewrite Ht in H.
  injection H as <-. cbn [t_settings put_settings]. by destruct (t_settings (db_tables w)).
Qed.
Lemma bootstrap_rows w w' : Store_bootstrap w = (None, w') → is_Some (t_settings (db_tables w')).
Proof.
  intros H. unfold Store_bootstrap in H. run_bind H. apply db_now_inv in E as [Ht _]. apply exec_done in H. rewrite Ht in H.
  injection H as <-. destruct (t_settings (db_tables w)) eqn:Hs; [by rewrite Hs|by eexists].
Qed.
Lemma Snapshot_rows w s w' : Store_Snapshot w = ((s, None), w') →
  (set_hostname <$> t_settings (db_tables w)) = Some (Snap_Hostname s)
  ∧ Snap_Users s = users_by_name (db_tables w) ∧ Snap_Rules s = rules_by_name (db_tables w).
Proof.
  intros H. unfold Store_Snapshot in H. run_bind H. apply query_inv in E as [Ht Ha].
  destruct a as [[[[[rev host] addr] cert] key]|e]; [|run_absurd H]. destruct Ha as [[? _]|Ha]; [done|].
  run_bind H. apply query_inv in E as [Ht1 Hb]. destruct a as [us|]; [|run_absurd H]. destruct Hb as [[? _]|[= ->]]; [done|].
  run_bind H. apply query_inv in E as [Ht2 Hc]. destruct a as [rs|]; [|run_absurd H]. destruct Hc as [[? _]|[= ->]]; [done|].
  unfold ret in H. injection H as <- _. cbn. rewrite Ht1, Ht. split; [|done]. destruct (t_settings (db_tables w)); [|done].
  by simplify_eq/=.
Qed.
End Rows.

(** ** The import *)

Section LegacyImport.
Context {UT : UnicodeTables} {SHA : Sha256} {MO : MapOrder} {X : X509} {LT : LegacyToml} {Sch : Type}.
Variable apply_sql : string → Sch → result Sch.
Variable has_migrations : Sch → bool.
Variables umask pid : Z.
Context {CE : CertEnvironment (mig (Sch:=Sch))}.
(** Reading the clock changes nothing here. *)
Hypothesis clock_keeps : ∀ w t w', now_ w = (t, w') → w' = w.
Abbreviation mig := (mig (Sch:=Sch)).
#[local] Existing Instance mig_repository.
Definition rows (w : mig) : tables := w_tables (mg_world w).

Lemma on_disk_inv {A} (m : M fs A) (w : mig) r w' : on_disk m w = (r, w') →
  m (mg_disk w) = (r, mg_disk w') ∧ mg_world w' = mg_world w ∧ mg_schema w' = mg_schema w.
Proof. unfold on_disk, zoom. destruct (m (mg_disk w)). by intros [= <- <-]. Qed.
Lemma on_world_inv {A} (m : M world A) (w : mig) r w' : on_world m w = (r, w') →
  m (mg_world w) = (r, mg_world w') ∧ mg_disk w' = mg_disk w ∧ mg_schema w' = mg_schema w.
Proof. unfold on_world, zoom. destruct (m (mg_world w)). by intros [= <- <-]. Qed.
Lemma mig_store_inv {A} (m : M store A) (w : mig) r w' : on_store m w = (r, w') →
  m (w_store (mg_world w)) = (r, w_store (mg_world w')) ∧ mg_disk w' = mg_disk w
  ∧ w_configs (mg_world w') = w_configs (mg_world w).
Proof. intros (H & Hd & _)%on_world_inv. apply on_db_inv in H as [H Ho]. split; [done|]. split; [done|]. apply Ho. Qed.

(** What every step of the import keeps: the files, and a well-formed database. *)
Definition importing (w w' : mig) : Prop :=
  untouched (mg_disk w) (mg_disk w') ∧ (tables_ok (rows w) → tables_ok (rows w')).
#[local] Instance importing_preorder : PreOrder importing.
Proof. split; [by intros w|]. intros a b c [? ?] [? ?]. split; [by etrans|auto]. Qed.
(** And the steps that leave users, rules and settings and the configurations alone. *)
Definition rows_kept (w w' : mig) : Prop :=
  t_users (rows w') = t_users (rows w) ∧ t_rules (rows w') = t_rules (rows w) ∧ t_settings (rows w') = t_settings (rows w)
  ∧ w_configs (mg_world w') = w_configs (mg_world w).
#[local] Instance rows_kept_preorder : PreOrder rows_kept.
Proof. split; [by intros w|]. intros a b c (?&?&?&?) (?&?&?&?). split_and!; congruence. Qed.
Definition aside (w w' : mig) : Prop := importing w w' ∧ rows_kept w w'.
#[local] Instance aside_preorder : PreOrder aside.
Proof. split; [by intros w|]. intros a b c [? ?] [? ?]. split; by etrans. Qed.

Lemma on_store_importing {A} (m : M store A) : preserves inv_kept m → preserves importing (on_store m).
Proof. intros Hm w r w' (H & Hd & _)%mig_store_inv. split; [by rewrite Hd|]. exact (Hm _ _ _ H). Qed.
Lemma on_disk_aside {A} (m : M fs A) : preserves untouched m → preserves aside (on_disk m).
Proof.
  intros Hm w r w' (H & Hw & _)%on_disk_inv. unfold aside, importing, rows_kept, rows. rewrite Hw. split; [|done]. split; [|done].
  by eapply Hm.
Qed.
Lemma on_pairs_aside {A} (m : M fs A) : preserves aside (on_world (on_pairs m)).
Proof.
  intros w r w' (H & Hd & _)%on_world_inv. apply on_pairs_inv in H as [_ [Hs Hc]]. unfold aside, importing, rows_kept, rows, w_tables.
  by rewrite Hd, Hs, Hc.
Qed.
Lemma on_configs_importing {A} (m : M fs A) : preserves importing (on_world (on_configs m)).
Proof.
  intros w r w' (H & Hd & _)%on_world_inv. apply on_configs_inv in H as [_ [Hs Hc]]. unfold importing, rows, w_tables. by rewrite Hd, Hs.
Qed.
Definition kept_tables (t t' : tables) : Prop :=
  t_users t' = t_users t ∧ t_rules t' = t_rules t ∧ t_settings t' = t_settings t.
#[local] Instance kept_tables_preorder : PreOrder kept_tables.
Proof. split; [by intros t|]. intros a b c (?&?&?) (?&?&?). split_and!; congruence. Qed.
Lemma on_store_aside {A} (m : M store A) : preserves inv_kept m → preserves (over kept_tables) m → preserves aside (on_store m).
Proof.
  intros Hm Hk w r w' H. split; [by eapply on_store_importing|]. apply mig_store_inv in H as (H & _ & Hc).
  destruct (Hk _ _ _ H) as (?&?&?). by split_and!.
Qed.
Lemma op_keeps {A} (op : store_op) (m : M store A) : run_store_op op = void m → preserves inv_kept m.
Proof. intros Hop. apply void_keeps. rewrite <- Hop. apply store_op_keeps. Qed.
Lemma SetHostname_keeps h : preserves inv_kept (Store_SetHostname h).
Proof. exact (op_keeps (SSetHostname h) _ eq_refl). Qed.
Lemma SetListenAddress_keeps a : preserves inv_kept (Store_SetListenAddress a).
Proof. exact (op_keeps (SSetListenAddress a) _ eq_refl). Qed.
Lemma SetActiveRevision_keeps a : preserves inv_kept (Store_SetActiveRevision a).
Proof. exact (op_keeps (SSetActiveRevision a) _ eq_refl). Qed.
Lemma SaveTLSMetadata_aside m : preserves aside (on_store (Store_SaveTLSMetadata m)).
Proof.
  apply on_store_aside; [exact (op_keeps (SSaveTLSMetadata m) _ eq_refl)|]. unfold Store_SaveTLSMetadata.
  apply (preserves_bind (over kept_tables)); [apply db_now_over; apply _|]. intros now. apply exec_over; [apply _|].
  intros t. by destruct (meta_ok m).
Qed.
Lemma RecordEvent_aside e : preserves aside (on_store (Store_RecordEvent e)).
Proof.
  apply on_store_aside; [exact (op_keeps (SRecordEvent e) _ eq_refl)|]. unfold Store_RecordEvent.
  apply (preserves_bind (over kept_tables)); [apply db_now_over; apply _|]. intros now. apply exec_over; [apply _|].
  intros t. by destruct (event_ok e).
Qed.
Lemma query_aside {A} (f : tables → result A) : preserves aside (on_store (query f)).
Proof. apply on_store_aside; [apply query_keeps|by apply query_over; apply _]. Qed.
Lemma clock_aside : preserves aside now_.
Proof. intros w t w' ->%clock_keeps. reflexivity. Qed.
Lemma ImportManual_aside ts hostname chain key : preserves aside (ImportManual (PB:=mig_publisher ts) hostname chain key).
Proof.
  unfold ImportManual, publish_active, revertPublication, completePublication.
  cbn [pub_Publish pub_RevertLast pub_CompletePublished mig_publisher]. walk;
    first [apply query_aside | apply clock_aside | apply SaveTLSMetadata_aside | apply RecordEvent_aside | apply on_pairs_aside
          | (apply preserves_ret; apply _)].
Qed.
Lemma import_certificate_aside source target host : preserves aside (import_certificate source target host).
Proof.
  unfold import_certificate. walk; auto using ImportManual_aside, on_pairs_aside;
    apply on_disk_aside; auto with fsdb.
Qed.

Lemma import_users_spec l n (w : mig) r w' : tables_ok (rows w) → import_users l n w = (r, w') →
  importing w w' ∧ w_configs (mg_world w') = w_configs (mg_world w)
  ∧ ∀ k, r = Ok k → k = n + Z.of_nat (length l)
    ∧ t_settings (rows w') = t_settings (rows w) ∧ t_rules (rows w') = t_rules (rows w)
    ∧ ∀ m, (∀ name p, m !! name = Some p → has_password (rows w) name p) →
      ∀ name p, passwords l m !! name = Some p → has_password (rows w') name p.
Proof.
  revert n w. induction l as [|u l IH]; intros n w Hok H; cbn [import_users] in H.
  { run_ret H. split; [reflexivity|]. split; [done|]. intros k [= <-]. cbn. split; [lia|]. done. }
  destruct (_ || _); [by run_ret H; split; [reflexivity|]|]. run_bind H.
  assert (Hi : importing w w1) by (eapply on_store_importing; [|exact E]; apply UpsertUser_keeps).
  apply mig_store_inv in E as (E & _ & Hc). destruct a as [e|]; [by run_ret H|].
  apply UpsertUser_rows in E as (Hs & Hr & Hp & Hothers); [|exact Hok|done]. destruct Hi as [Ht Hok1].
  destruct (IH _ _ (Hok1 Hok) H) as ([Ht2 Hok2] & Hc2 & Hres). split; [split; [by etrans|auto]|]. split; [congruence|].
  intros k Hk. destruct (Hres k Hk) as (-> & Hs2 & Hr2 & Hpw). split; [cbn [length]; lia|].
  fold (rows w1) (rows w) in *. unfold rows, w_tables in *. split; [congruence|]. split; [congruence|].
  intros m Hm name p. cbn [passwords]. apply Hpw. intros n0 p0 [[<- <-]|[Hne Hl]]%lookup_insert_Some; [exact Hp|]. apply Hothers; [done|].
  by apply Hm.
Qed.
Lemma import_rules_spec l i n (w : mig) r w' : import_rules l i n w = (r, w') →
  importing w w' ∧ w_configs (mg_world w') = w_configs (mg_world w)
  ∧ ∀ k, r = Ok k → k = n + Z.of_nat (length l)
    ∧ t_settings (rows w') = t_settings (rows w) ∧ t_users (rows w') = t_users (rows w)
    ∧ t_rules (rows w') = rules_after l i (t_rules (rows w)).
Proof.
  revert i n w. induction l as [|u l IH]; intros i n w H; cbn [import_rules] in H.
  { run_ret H. split; [reflexivity|]. split; [done|]. intros k [= <-]. cbn. split; [lia|]. done. }
  run_bind H. assert (Hi : importing w w1) by (eapply on_store_importing; [|exact E]; apply UpsertRule_keeps).
  apply mig_store_inv in E as (E & _ & Hc). destruct a as [e|]; [by run_ret H|].
  apply UpsertRule_rows in E as (Hs & Hu & Hr). destruct (IH _ _ _ H) as (Hi2 & Hc2 & Hres).
  split; [by etrans|]. split; [congruence|]. intros k Hk. destruct (Hres k Hk) as (-> & Hs2 & Hu2 & Hr2).
  unfold rows, w_tables in *. split; [cbn [length]; lia|]. split; [congruence|]. split; [congruence|]. cbn [rules_after]. congruence.
Qed.

Lemma NewMaterializer_quiet root v w r w' : quiet (L:=config_layout) w → NewMaterializer root v w = (r, w') → quiet (L:=config_layout) w'.
Proof.
  intros Hq H. unfold NewMaterializer in H. destruct (negb _); [by run_ret H|]. run_bind H.
  destruct Hq as [Hok Hf Hroot]. apply sys_err_quiet in E as [E Hf']; [|done].
  assert (Ht : fs_tree w1 = fs_tree w).
  { pose proof (so_revisions _ Hok) as Hd. destruct (tree_get ["revisions"] (fs_tree w)) as [[| |]|]; try done. by injection E. }
  assert (Hq1 : quiet (L:=config_layout) w1) by (split; rewrite ?Ht; done). by destruct a; run_ret H.
Qed.
(** The stores after a publication. *)
Definition current_configuration (w : mig) (files : Files) : Prop :=
  (set_active_revision <$> t_settings (rows w)) = Some (revisionID files)
  ∧ link_at (fs_tree (w_configs (mg_world w))) "current" = Some (target_of (revisionID files)).
Lemma publish_snapshot_spec target w e w' : quiet (L:=config_layout) (w_configs (mg_world w)) → publish_snapshot target w = (e, w') →
  importing w w' ∧ (e = None →
    t_users (rows w') = t_users (rows w) ∧ t_rules (rows w') = t_rules (rows w)
    ∧ (set_hostname <$> t_settings (rows w')) = (set_hostname <$> t_settings (rows w))
    ∧ ∃ s files, Render s = Ok files ∧ Some (Snap_Hostname s) = (set_hostname <$> t_settings (rows w))
        ∧ Snap_Users s = users_by_name (rows w) ∧ Snap_Rules s = rules_by_name (rows w) ∧ current_configuration w' files).
Proof.
  intros Hq H. unfold publish_snapshot in H. run_bind H.
  assert (Hi : importing w w1).
  { apply mig_store_inv in E as (E & Hd & _). apply Snapshot_tables in E. unfold importing, rows, w_tables. by rewrite Hd, E. }
  apply mig_store_inv in E as (E & _ & Hc). destruct a as [s [x|]]; [by run_ret H|]. assert (Ht := Snapshot_tables _ _ _ E).
  apply Snapshot_rows in E as (Hh & Hu & Hr). destruct (Render s) as [files|x] eqn:HR; [|by run_ret H].
  run_bind H. assert (Hi2 : importing w w0) by (etrans; [exact Hi|]; by eapply on_configs_importing).
  apply on_world_inv in E as (E & _). apply on_configs_inv in E as (E & [Hs0 _]). rewrite <- Hc in Hq. apply NewMaterializer_quiet in E; [|done].
  destruct a as [m|x]; [|by run_ret H]. run_bind H.
  assert (Hi3 : importing w w2) by (etrans; [exact Hi2|]; by eapply on_configs_importing).
  apply on_world_inv in E0 as (E0 & _). apply on_configs_inv in E0 as (E0 & [Hs2 _]).
  apply Materializer_Apply_quiet in E0 as [_ Hm]; [|done]. destruct a as [id|x]; [|by run_ret H]. destruct Hm as (-> & Hl & _).
  assert (Hi4 : importing w w').
  { etrans; [exact Hi3|]. eapply on_store_importing; [|exact H]. apply SetActiveRevision_keeps. }
  split; [done|]. intros ->. apply mig_store_inv in H as (H & _ & Hc'). assert (H' := H). apply SetActive_tables in H as (_ & Husers & now & Hset).
  unfold Store_SetActiveRevision in H'. run_bind H'. apply db_now_inv in E0 as [Hn _]. apply exec_done in H'. rewrite Hn in H'. injection H' as H'.
  unfold rows, w_tables in *. rewrite Hs2, Hs0, Ht in *. split; [done|]. split; [by rewrite <- H'|].
  rewrite Hset. destruct (t_settings (db_tables (w_store (mg_world w)))) as [st|] eqn:Est; [|done]. split; [done|].
  exists s, files. split_and!; [done..|]. split; [unfold rows, w_tables; by rewrite Hset|]. by rewrite Hc'.
Qed.

(** Everything of a legacy volume is in the stores, and published. *)
Record imported (v : volume) (w : mig) : Prop := {
  im_hostname : (set_hostname <$> t_settings (rows w)) = Some (lh_Hostname (vol_host v));
  im_users : ∀ name p, passwords (vol_users v) ∅ !! name = Some p → has_password (rows w) name p;
  im_rules : ∀ name r, rules_after (vol_rules v) 0 ∅ !! name = Some r → t_rules (rows w) !! name = Some r;
  im_published : ∃ s files, Render s = Ok files ∧ Snap_Hostname s = lh_Hostname (vol_host v)
    ∧ Snap_Users s = users_by_name (rows w) ∧ Snap_Rules s = rules_by_name (rows w) ∧ current_configuration w files
}.
Lemma rules_after_mono l i m m' : m ⊆ m' → rules_after l i m ⊆ rules_after l i m'.
Proof. revert i m m'. induction l as [|r l IH]; intros i m m' Hm; cbn [rules_after]; [done|]. apply IH. by apply insert_mono. Qed.
Lemma import_settings_spec v (k : M mig (result Result)) w r w' : is_Some (t_settings (rows w)) →
  (nil? on_store (Store_SetHostname (lh_Hostname (vol_host v))) in
   nil? (if negb (bool_decide (lv_ListenAddress (vol_vpn v) = ""))
         then on_store (Store_SetListenAddress (lv_ListenAddress (vol_vpn v))) else ret None) in k) w = (r, w') →
  ∃ w1, importing w w1 ∧ w_configs (mg_world w1) = w_configs (mg_world w)
    ∧ ((is_ok r = false ∧ w' = w1) ∨
       k w1 = (r, w') ∧ (set_hostname <$> t_settings (rows w1)) = Some (lh_Hostname (vol_host v))).
Proof.
  intros [st Hst] H. run_bind H.
  assert (I1 : importing w w1) by (eapply on_store_importing; [apply SetHostname_keeps|exact E]).
  apply mig_store_inv in E as (E & _ & C1). destruct a as [x|]; [run_ret H; eexists; split; [exact I1|]; split; [done|by left]|].
  apply SetHostname_rows in E as (S1 & _ & _). run_bind H.
  assert (S1' : (set_hostname <$> t_settings (rows w1)) = Some (lh_Hostname (vol_host v))).
  { unfold rows, w_tables in *. by rewrite S1, Hst. }
  destruct (negb _).
  - assert (I2 : importing w1 w0) by (eapply on_store_importing; [apply SetListenAddress_keeps|exact E]).
    apply mig_store_inv in E as (E & _ & C2). exists w0.
    destruct a as [x|]; [run_ret H; split; [by etrans|]; split; [congruence|by left]|].
    split; [by etrans|]. split; [congruence|]. right. split; [done|]. apply SetListenAddress_rows in E as (S2 & _ & _).
    rewrite <- S1'. exact S2.
  - injection E as <- <-. exists w1. split; [done|]. split; [done|]. by right.
Qed.
Lemma import_volume_spec source target v w r w' : quiet (L:=config_layout) (w_configs (mg_world w)) → tables_ok (rows w) →
  is_Some (t_settings (rows w)) → import_volume source target v w = (r, w') →
  importing w w'
  ∧ ∀ res, r = Ok res → imported v w' ∧ Res_Users res = Z.of_nat (length (vol_users v)) ∧ Res_Rules res = Z.of_nat (length (vol_rules v))
      ∧ Res_Hostname res = lh_Hostname (vol_host v) ∧ Res_AlreadyComplete res = false.
Proof.
  intros Hq Hok Hst H. unfold import_volume in H. apply import_settings_spec in H as (w0 & I2 & C2 & [[Hr ->]|[H S2]]); [by split; [exact I2|by destruct r]| |done].
  run_bind H. destruct (import_users_spec _ _ _ _ _ (proj2 I2 Hok) E) as (I3 & C3 & Hus). assert (I3' : importing w w1) by by etrans.
  destruct a as [nu|x]; [|by run_ret H; split; [exact I3'|]]. destruct (Hus _ eq_refl) as (Hnu & S3 & R3 & P3).
  run_bind H. destruct (import_rules_spec _ _ _ _ _ _ E0) as (I4 & C4 & Hrs). assert (I4' : importing w w2) by by etrans.
  destruct a as [nr|x]; [|by run_ret H; split; [exact I4'|]]. destruct (Hrs _ eq_refl) as (Hnr & S4 & U4 & R4).
  run_bind H. destruct (import_certificate_aside _ _ _ _ _ _ E1) as [I5 (U5 & R5 & S5 & C5)]. assert (I5' : importing w w3) by by etrans.
  destruct a as [imp|x]; [|by run_ret H; split; [exact I5'|]].
  run_bind H. destruct (publish_snapshot_spec target w3 _ _ ltac:(by rewrite C5, C4, C3, C2) E2) as [I6 Hpub].
  assert (I6' : importing w w4) by by etrans. destruct a as [x|]; [by run_ret H; split; [exact I6'|]|]. run_ret H. split; [exact I6'|].
  intros res [= <-]. destruct (Hpub eq_refl) as (U6 & R6 & S6 & s & files & HR & Hh & Hu & Hr & Hcur).
  assert (Hhost : (set_hostname <$> t_settings (rows w3)) = Some (lh_Hostname (vol_host v))) by by rewrite S5, S4, S3.
  split; [|cbn; split_and!; [lia|lia|done|done]]. split.
  - by rewrite S6.
  - intros name p Hp. destruct (P3 ∅ ltac:(by intros ? ? ?%lookup_empty_Some) name p Hp) as (i & u & Hi & Hux). exists i, u.
    split; [|done]. by rewrite U6, U5, U4.
  - intros name ru Hru. rewrite R6, R5, R4. eapply lookup_weaken; [exact Hru|]. apply rules_after_mono, map_empty_subseteq.
  - exists s, files. split; [done|]. split; [by rewrite Hhost in Hh; injection Hh|]. unfold users_by_name, rules_by_name in *.
    rewrite U6, R6. done.
Qed.

(** ** [Run] under the lock *)

Lemma on_file_inv {A} (m : M (dbfile (Sch:=Sch)) A) (w : mig) r w' : on_file m w = (r, w') →
  m (mkDbfile (mg_schema w) (w_store (mg_world w))) = (r, mkDbfile (mg_schema w') (w_store (mg_world w')))
  ∧ mg_disk w' = mg_disk w ∧ w_configs (mg_world w') = w_configs (mg_world w).
Proof. unfold on_file, zoom. destruct (m _) as [a [f1 f2]]. by intros [= <- <-]. Qed.
Lemma Open_rows path (f : dbfile (Sch:=Sch)) e f' : Store_Open apply_sql has_migrations path f = (e, f') →
  (tables_ok (db_tables (df_rows f)) → tables_ok (db_tables (df_rows f'))) ∧ (e = None → is_Some (t_settings (db_tables (df_rows f')))).
Proof.
  assert (Hs : ∀ A (m : M (database (Sch:=Sch)) A) g a g', on_schema m g = (a, g') → df_rows g' = df_rows g).
  { intros A m g a g'. unfold on_schema, zoom. destruct (m (df_schema g)). by intros [= _ <-]. }
  intros H. unfold Store_Open in H. destruct (negb _); [by run_ret H|]. run_bind H. apply Hs in E. destruct a as [x|]; [run_ret H; by rewrite E|].
  run_bind H. apply Hs in E0. rewrite E in E0. destruct a as [x|]; [run_ret H; by rewrite E0|].
  unfold on_rows, zoom in H. destruct (Store_bootstrap (df_rows w0)) as [e0 s] eqn:Hb. injection H as <- <-. cbn [df_rows]. rewrite <- E0. split.
  - exact (op_keeps SBootstrap _ eq_refl _ _ _ Hb).
  - intros ->. by eapply bootstrap_rows.
Qed.
Lemma imported_world v w w' : mg_world w' = mg_world w → imported v w → imported v w'.
Proof. intros Hw []. split; unfold current_configuration, rows in *; by rewrite Hw. Qed.

Lemma on_disk_untouched {A} (m : M fs A) (w : mig) r w' : preserves untouched m → on_disk m w = (r, w') →
  untouched (mg_disk w) (mg_disk w') ∧ mg_world w' = mg_world w ∧ mg_schema w' = mg_schema w.
Proof. intros Hm (H & Hw & Hs)%on_disk_inv. split; [by eapply Hm|done]. Qed.
(** A volume that can be read at [source]. *)
Definition legacy_volume (source : string) (d : fs) (v : volume) : Prop :=
  ∃ d0, fs_tree d0 = fs_tree d ∧ (read_volume source d0).1 = Ok v.
Definition counts (v : volume) (res : Result) : Prop :=
  Res_Users res = Z.of_nat (length (vol_users v)) ∧ Res_Rules res = Z.of_nat (length (vol_rules v))
  ∧ Res_Hostname res = lh_Hostname (vol_host v) ∧ Res_AlreadyComplete res = false.
Lemma before_marker_spec source target w r w' : tables_ok (rows w) → quiet (L:=config_layout) (w_configs (mg_world w)) →
  before_marker apply_sql has_migrations source target w = (r, w') →
  untouched (mg_disk w) (mg_disk w')
  ∧ ∀ res hashes, r = Ok (res, hashes) → ∃ v, legacy_volume source (mg_disk w) v ∧ imported v w' ∧ counts v res.
Proof.
  intros Hok Hq H. unfold before_marker in H. run_bind H. assert (Hread := E).
  apply (on_disk_untouched _ _ _ _ (read_volume_untouched source)) in E as (U1 & W1 & _). apply on_disk_inv in Hread as [Hread _].
  destruct a as [v|x]; [|by run_ret H]. run_bind H. apply on_file_inv in E as (E & D2 & C2). apply Open_rows in E as [Hok2 Hset].
  cbn [df_rows] in Hok2, Hset. fold (w_tables (mg_world w0)) (w_tables (mg_world w1)) in *. rewrite W1 in Hok2. specialize (Hok2 Hok).
  destruct a as [x|]; [run_ret H; by rewrite D2|]. specialize (Hset eq_refl). run_bind H.
  apply import_volume_spec in E as ([U3 _] & Hres); [|by rewrite C2, W1|done|done].
  assert (U3' : untouched (mg_disk w) (mg_disk w2)) by (etrans; [exact U1|]; by rewrite <- D2).
  destruct a as [res|x]; [|by run_ret H]. run_bind H.
  apply (on_disk_untouched _ _ _ _ (manifest_untouched source _ ∅)) in E as (U4 & W4 & _).
  assert (U4' : untouched (mg_disk w) (mg_disk w3)) by by etrans. destruct a as [hashes|x]; [|by run_ret H]. run_ret H. split; [done|].
  intros res' hashes' [= <- <-]. destruct (Hres _ eq_refl) as (Himp & Hcounts). exists v. split_and!; [| |done].
  - exists (mg_disk w). split; [done|]. by rewrite Hread.
  - by eapply imported_world.
Qed.


(** ** Once *)

Lemma rename_new (d : path) c1 c2 n t k : d ≠ [] → Forall plain d → plain c1 → plain c2 → c1 ≠ c2 →
  is_dir (tree_get d t) = true → tree_get (d ++ [c1]) t = Some n → is_dir (Some n) = false → is_link (Some n) = false →
  tree_get (d ++ [c2]) t = None →
  ∃ t', px_rename (abs_path (d ++ [c1])) (abs_path (d ++ [c2])) (mkFs t [] k) = (None, mkFs t' [] k) ∧ tree_get (d ++ [c2]) t' = Some n.
Proof.
  intros Hd Hp H1 H2 Hne Hdir Hget Hn Hl Hnone. unfold px_rename. rewrite at_path_err_calm.
  erewrite (locate_get _ _ (d ++ [c1])); [|by destruct d| |exact Hget|done].
  2: { apply Forall_app. split; [done|]. by apply Forall_singleton. }
  cbn [fst snd]. rewrite (locate_child t false d c2) by done. rewrite Hget.
  assert (Hpre : ¬ (d ++ [c1] `prefix_of` d ++ [c2])).
  { intros [x Hx]. rewrite <- (assoc_L (++)) in Hx. apply app_inv_head in Hx. by injection Hx. }
  rewrite bool_decide_eq_false_2 by done. rewrite parent_child, Hdir, Hnone.
  exists (tree_put (d ++ [c2]) (Some n) (tree_put (d ++ [c1]) None t)).
  assert (Hput : tree_get (d ++ [c2]) (tree_put (d ++ [c2]) (Some n) (tree_put (d ++ [c1]) None t)) = Some n).
  { apply tree_get_put_eq; [by destruct d|]. rewrite parent_child. apply tree_get_put_dir; [done| |].
    - intros Hx. apply (f_equal length) in Hx. rewrite length_app in Hx. simpl in Hx. lia.
    - intros [r Hx]. apply (f_equal length) in Hx. rewrite !length_app in Hx. simpl in Hx. lia. }
  split; [|exact Hput]. by destruct n.
Qed.
Lemma marker_path_abs T : T ≠ [] → Forall plain T → marker_path (abs_path T) = abs_path ((T ++ ["migration"]) ++ ["legacy-v1.json"]).
Proof.
  intros HT Hp. rewrite <- (assoc_L (++)). change (["migration"] ++ ["legacy-v1.json"]) with ["migration"; "legacy-v1.json"].
  rewrite <- join_abs; [|done..|by repeat constructor; apply (bool_decide_unpack _)].
  unfold marker_path, join_path. by rewrite !filter_cons, !decide_True.
Qed.
Lemma marker_written T value t k : T ≠ [] → Forall plain T → is_dir (tree_get T t) = true → tree_get (T ++ ["migration"]) t = None →
  ∃ t' n, writeMarker umask (marker_path (abs_path T)) value (mkFs t [] k) = (None, mkFs t' [] k)
    ∧ tree_get ((T ++ ["migration"]) ++ ["legacy-v1.json"]) t' = Some n ∧ is_link (Some n) = false.
Proof.
  intros HT Hp Hdir Hnone. rewrite marker_path_abs by done. set (d := T ++ ["migration"]). set (c := "legacy-v1.json").
  assert (Hpc : plain c) by by apply (bool_decide_unpack _). assert (Hpt : plain (c +:+ ".tmp")) by by apply (bool_decide_unpack _).
  assert (Hpm : plain "migration") by by apply (bool_decide_unpack _).
  assert (Hpd : Forall plain d) by (apply Forall_app; split; [done|by apply Forall_singleton]). assert (Hd : d ≠ []) by by destruct T.
  set (m0 := new_mode umask 448). set (t1 := tree_put d (Some (Dir m0 ∅)) t).
  assert (Hget : tree_get d t1 = Some (Dir m0 ∅)) by (apply tree_get_put_eq; [done|]; unfold d; by rewrite parent_child).
  assert (Hdir1 : is_dir (tree_get d t1) = true) by by rewrite Hget.
  assert (Hch : ∀ x, tree_get (d ++ [x]) t1 = None) by (intros x; rewrite tree_get_app, Hget; done).
  unfold writeMarker. rewrite dir_name_child, abs_path_suffix by done.
  call (mkdir_all_new umask (k:=k) HT Hp Hdir Hpm Hnone 448). fold d m0 t1. cbv zeta.
  set (data := json_indented _ +:+ _). set (f := File data (new_mode umask 384)).
  assert (Hwrite : px_write_file umask (abs_path (d ++ [c +:+ ".tmp"])) data 384 (mkFs t1 [] k) = (None, mkFs (tree_put (d ++ [c +:+ ".tmp"]) (Some f) t1) [] k)).
  { unfold px_write_file. rewrite at_path_err_calm, (locate_new (d:=d)) by done. cbv beta. rewrite Hch. by rewrite make_child. }
  call Hwrite. set (t2 := tree_put _ (Some f) t1).
  assert (Hne : c +:+ ".tmp" ≠ c) by done.
  assert (Hpre : ¬ (d ++ [c +:+ ".tmp"] `prefix_of` d ++ [c])).
  { intros [x Hx]. rewrite <- (assoc_L (++)) in Hx. apply app_inv_head in Hx. by injection Hx. }
  assert (Hpre' : ¬ (d ++ [c] `prefix_of` d ++ [c +:+ ".tmp"])).
  { intros [x Hx]. rewrite <- (assoc_L (++)) in Hx. apply app_inv_head in Hx. by injection Hx. }
  destruct (rename_new d (c +:+ ".tmp") c f t2 k) as (t' & Hren & Hfile); try done.
  - apply tree_get_put_dir; [done| |].
    + intros Hx. apply (f_equal length) in Hx. rewrite length_app in Hx. simpl in Hx. lia.
    + intros [r Hx]. apply (f_equal length) in Hx. rewrite !length_app in Hx. simpl in Hx. lia.
  - apply tree_get_put_eq; [by destruct T|]. by rewrite parent_child.
  - unfold t2. by rewrite tree_get_put_ne.
  - exists t', f. done.
Qed.
Lemma stat_calm p t k : px_stat p (mkFs t [] k) = ((px_stat p (mkFs t [] 0)).1, mkFs t [] k).
Proof. unfold px_stat. rewrite !at_path_calm. by destruct (locate t true p). Qed.

(** C39. A completed import is not repeated: in a data directory that had none, a run
    that succeeds leaves a marker, with which every later run, of whatever volume,
    finds the import complete and changes neither a file nor a store. *)
Theorem migration_once T source source' (w : mig) res w1 r w2 :
  Forall plain T → T ≠ [] → is_dir (tree_get T (fs_tree (mg_disk w))) = true →
  tree_get (T ++ ["migration"]) (fs_tree (mg_disk w)) = None → fs_faults (mg_disk w) = [] →
  tables_ok (rows w) → quiet (L:=config_layout) (w_configs (mg_world w)) →
  run_locked apply_sql has_migrations umask source (abs_path T) w = (Ok res, w1) →
  run_locked apply_sql has_migrations umask source' (abs_path T) w1 = (r, w2) →
  r = Ok (mkResult 0 0 "" false true) ∧ mg_world w2 = mg_world w1 ∧ fs_tree (mg_disk w2) = fs_tree (mg_disk w1).
Proof.
  intros Hp HT Hdir Hnone Hcalm Hok Hq H1 H2.
  assert (Hstat : ∃ n t k, mg_disk w1 = mkFs t [] k ∧ (px_stat (marker_path (abs_path T)) (mkFs t [] 0)).1 = Ok n).
  { clear H2. unfold run_locked in H1. run_bind H1. apply on_disk_inv in E as (E & W1 & _).
    destruct (mg_disk w) as [t q k] eqn:Hdisk. cbn [fs_tree fs_faults] in *. subst q. rewrite stat_calm in E. injection E as Ea Ed.
    destruct a as [n|x]; [injection H1 as _ <-; by exists n, t, k|]. destruct (negb _); [run_absurd H1|].
    run_bind H1. apply before_marker_spec in E as [[T2 F2] _]; [|by unfold rows; rewrite W1|by rewrite W1].
    rewrite <- Ed in T2, F2. cbn [fs_tree fs_faults] in T2, F2. specialize (F2 eq_refl).
    destruct a as [[res0 hashes]|y]; [|run_absurd H1]. run_bind H1. apply on_disk_inv in E as (E & _ & _). run_bind H1.
    apply on_disk_inv in E0 as (E0 & _ & _). destruct a0; [run_absurd H1|]. injection H1 as _ <-.
    destruct (mg_disk w3) as [t3 q3 k3]. cbn [fs_tree fs_faults] in *. subst t3 q3. unfold now_unix_nano in E. injection E as Ea' Ed'.
    cbn [fs_tree fs_faults fs_clock] in Ed'. rewrite <- Ed' in E0.
    destruct (marker_written T (mkMarker 1 source hashes (format_time (unix_epoch + a))) t (k3 + 1)) as (t' & n & Hw & Hget & Hl); [done..|].
    rewrite Hw in E0. injection E0 as Hd5. exists n, t', (k3 + 1). split; [done|].
    rewrite marker_path_abs by done. unfold px_stat. rewrite at_path_calm. erewrite (locate_get t' true _ n); [|by destruct T| |exact Hget|done].
    - cbn. unfold existing. by rewrite Hget.
    - apply Forall_app. split; [apply Forall_app; split; [done|]|]; apply Forall_singleton; by apply (bool_decide_unpack _). }
  destruct Hstat as (n & t & k & Hd1 & Hn). unfold run_locked in H2. run_bind H2. apply on_disk_inv in E as (E & W2 & _).
  rewrite Hd1, stat_calm, Hn in E. injection E as <- Hd2. run_ret H2. split; [done|]. split; [done|]. by rewrite <- Hd2, Hd1.
Qed.
End LegacyImport.
