(* ===== verification/Main.v ===== *)
(** [cmd/trusttunnel-controller/main.go]: the options, the command that is run and
    the probe of the health check. *)
From stdpp Require Import pretty.
From S2P Require Import Prelude GoStrings GoTime Domain X509 CertState Backup App Migration.

(** [options] *)
Record options := mkOptions {
  op_TLSSource : string; op_TLSHostname : string; op_ACMEEmail : string; op_TLSCertificateFile : string; op_TLSKeyFile : string;
  op_DataDir : string; op_EndpointBinary : string; op_EndpointVersion : string; op_UIListen : string; op_MetricsURL : string;
  op_ProbeListen : string; op_HTTP01Listen : string; op_StartTimeout : Duration; op_StopTimeout : Duration;
  op_SessionLifetime : Duration; op_RenewalLead : Duration; op_LogFormat : string; op_LogLevel : string; op_ShowVersion : bool;
  op_MigrateLegacy : string; op_Healthcheck : bool; op_Readycheck : bool; op_ACMEDefaultMode : string; op_BackupPath : string;
  op_VerifyBackup : string; op_RestoreBackup : string
}.

(** What a command calls. *)
Class Commands (W : Type) := {
  cmd_migrate : string → string → M W (result Result);                (** [migration.Run] *)
  cmd_create : string → string → Versions → M W (option gerror);      (** [backup.Create] *)
  cmd_verify : string → M W (result Manifest);
  cmd_restore : string → string → M W (result Manifest);
  cmd_serve : AppConfig → M W (option gerror);                        (** [app.Run] *)
  cmd_get : string → M W (result Z);                                  (** [http.Client.Get]: the status *)
  cmd_print : string → M W unit
}.
(** [flags.ParseArgs]: the options, a request for help, or an error. *)
Inductive parsed := Parsed (o : options) | AskedHelp | BadArgs (e : gerror).

Section Main.
Context {W : Type} {C : Commands W}.
Variables version commit : string.
Variable env_set : string → bool.
Variable ParseArgs : list string → parsed.

Definition obsolete_variables : list string := ["TT_EXTERNAL_TLS"; "TT_TRUSTED_PROXY"].
Fixpoint check_environment (names : list string) : option gerror :=
  match names with
  | [] => None
  | name :: names' =>
    if env_set name
    then Some (Errorf (name +:+ " is obsolete: remove the reverse-proxy configuration and use built-in HTTPS on TT_UI_LISTEN; see docs/reverse-proxy.md"))
    else check_environment names'
  end.
Definition obsolete_arg (arg : string) : bool :=
  bool_decide (arg = "--external-tls") || has_prefix arg "--external-tls=" || bool_decide (arg = "--trusted-proxy")
  || has_prefix arg "--trusted-proxy=".
Fixpoint check_args (args : list string) : option gerror :=
  match args with
  | [] => None
  | arg :: args' =>
    if obsolete_arg arg then Some (Errorf (arg +:+ " is obsolete: use built-in HTTPS on TT_UI_LISTEN; see docs/reverse-proxy.md"))
    else check_args args'
  end.
Definition checkProbe (address p : string) : M W (option gerror) :=
  let* r := cmd_get ("http://" +:+ address +:+ p) in
  match r with
  | Err e => ret (Some e)
  | Ok status => ret (if negb (status =? 200) then Some (Errorf ("probe " +:+ p +:+ " status " +:+ pretty status)) else None)
  end.
(** [%t] *)
Definition bool_text (b : bool) : string := if b then "true" else "false".
Definition versions_text (m : Manifest) : string :=
  "controller=" +:+ V_Controller (Man_Versions m) +:+ " commit=" +:+ V_Commit (Man_Versions m) +:+ " endpoint=" +:+ V_Endpoint (Man_Versions m)
  +:+ byte_str 10.
Definition app_config (o : options) : AppConfig :=
  mkAppConfig (op_TLSHostname o) (op_ACMEEmail o) (op_TLSCertificateFile o) (op_TLSKeyFile o) (op_TLSSource o) (op_DataDir o)
    (op_EndpointBinary o) (op_EndpointVersion o) (op_UIListen o) (op_MetricsURL o) (op_ProbeListen o) (op_HTTP01Listen o)
    (op_StartTimeout o) (op_StopTimeout o) (op_SessionLifetime o) (op_RenewalLead o) version commit (op_ACMEDefaultMode o).
Definition print_manifest (prefix : string) (m : M W (result Manifest)) : M W (option gerror) :=
  let* r := m in
  match r with
  | Err e => ret (Some e)
  | Ok manifest => cmd_print (prefix +:+ versions_text manifest) ;; ret None
  end.
(** From the parsed options on. *)
Definition run_options (o : options) : M W (option gerror) :=
  if op_ShowVersion o then
    cmd_print ("trusttunnel-controller " +:+ version +:+ " (" +:+ commit +:+ ")" +:+ byte_str 10) ;; ret None
  else if negb (bool_decide (op_MigrateLegacy o = "")) then
    let* r := cmd_migrate (op_MigrateLegacy o) (op_DataDir o) in
    match r with
    | Err e => ret (Some (Wrapf "legacy migration" e))
    | Ok res =>
      cmd_print ("migration complete users=" +:+ pretty (Res_Users res) +:+ " rules=" +:+ pretty (Res_Rules res) +:+ " certificate="
                 +:+ bool_text (Res_CertificateImported res) +:+ " already_complete=" +:+ bool_text (Res_AlreadyComplete res) +:+ byte_str 10) ;;
      ret None
    end
  else if op_Healthcheck o then checkProbe (op_ProbeListen o) "/healthz"
  else if op_Readycheck o then checkProbe (op_ProbeListen o) "/readyz"
  else if negb (bool_decide (op_BackupPath o = "")) then
    err? cmd_create (op_DataDir o) (op_BackupPath o) (mkVersions version commit (op_EndpointVersion o)) in
    let* r := cmd_verify (op_BackupPath o) in
    match r with
    | Err e => ret (Some e)
    | Ok _ => cmd_print ("backup created and verified" +:+ byte_str 10) ;; ret None
    end
  else if negb (bool_decide (op_VerifyBackup o = "")) then print_manifest "backup verified " (cmd_verify (op_VerifyBackup o))
  else if negb (bool_decide (op_RestoreBackup o = "")) then
    print_manifest "backup restored " (cmd_restore (op_RestoreBackup o) (op_DataDir o))
  else cmd_serve (app_config o).
Definition run (args : list string) : M W (option gerror) :=
  match check_environment obsolete_variables with
  | Some e => ret (Some e)
  | None =>
    match check_args args with
    | Some e => ret (Some e)
    | None =>
      match ParseArgs args with
      | AskedHelp => ret None
      | BadArgs e => ret (Some e)
      | Parsed o => run_options o
      end
    end
  end.
(** [main]: the exit status and what is written to the standard error. *)
Definition main (args : list string) : M W (Z * string) :=
  let* e := run (drop 1 args) in
  ret (match e with Some e => (1, "controller: " +:+ error_text e +:+ byte_str 10) | None => (0, "") end).

Lemma check_args_None args : check_args args = None ↔ Forall (λ a, obsolete_arg a = false) args.
Proof using.
  induction args as [|a args IH]; [by split|]. cbn [check_args]. rewrite Forall_cons. destruct (obsolete_arg a).
  - split; [done|]. by intros [? _].
  - rewrite IH. split; [done|]. by intros [_ ?].
Qed.
End Main.

(** ** What a command line may touch

    The calls of a run, the last one first; [tr_answers] tells which succeed. *)
Inductive command := CMigrate | CCreate | CVerify | CRestore | CServe | CProbe.
#[export] Instance command_eq_dec : EqDecision command.
Proof. solve_decision. Defined.
Record command_trace := mkTrace { tr_calls : list command; tr_answers : list (option gerror); tr_status : Z; tr_manifest : Manifest; tr_result : Result }.
Definition call (c : command) : M command_trace (option gerror) := λ w,
  (head (tr_answers w) ≫= id, mkTrace (c :: tr_calls w) (tail (tr_answers w)) (tr_status w) (tr_manifest w) (tr_result w)).
Definition answering {A} (c : command) (f : command_trace → A) : M command_trace (result A) :=
  let* e := call c in
  match e with Some e => ret (Err e) | None => gets (λ w, Ok (f w)) end.
#[export] Instance trace_commands : Commands command_trace := {
  cmd_migrate _ _ := answering CMigrate tr_result; cmd_create _ _ _ := call CCreate; cmd_verify _ := answering CVerify tr_manifest;
  cmd_restore _ _ := answering CRestore tr_manifest; cmd_serve _ := call CServe; cmd_get _ := answering CProbe tr_status;
  cmd_print _ := ret tt
}.
(** The calls of the command the options ask for, when they succeed. *)
Definition asked (o : options) : list command :=
  if op_ShowVersion o then []
  else if negb (bool_decide (op_MigrateLegacy o = "")) then [CMigrate]
  else if op_Healthcheck o || op_Readycheck o then [CProbe]
  else if negb (bool_decide (op_BackupPath o = "")) then [CVerify; CCreate]
  else if negb (bool_decide (op_VerifyBackup o = "")) then [CVerify]
  else if negb (bool_decide (op_RestoreBackup o = "")) then [CRestore]
  else [CServe].
(** One command per run.  A command line or an environment with an option of the
    former reverse proxy is refused before anything is called; else only the calls
    of the one command the options ask for are made, and a run succeeds only when all
    of them did: a backup is reported as made only after it was verified. *)
Theorem run_one_command version commit env_set ParseArgs args w e w' :
  run (C:=trace_commands) version commit env_set ParseArgs args w = (e, w') → tr_calls w = [] →
  ((∃ name, name ∈ obsolete_variables ∧ env_set name = true) ∨ (∃ a, a ∈ args ∧ obsolete_arg a = true) → e ≠ None ∧ w' = w)
  ∧ (tr_calls w' = [] ∨ ∃ o, ParseArgs args = Parsed o ∧ tr_calls w' `suffix_of` asked o)
  ∧ (e = None → ParseArgs args = AskedHelp ∨ ∃ o, ParseArgs args = Parsed o ∧ tr_calls w' = asked o).
Proof.
  intros H Hw. unfold run in H. destruct (check_environment env_set obsolete_variables) as [x|] eqn:He.
  { unfold ret in H. injection H as <- <-. split; [done|]. split; [by left|done]. }
  assert (Henv : ¬ ∃ name, name ∈ obsolete_variables ∧ env_set name = true).
  { unfold obsolete_variables in *. cbn in He. intros (n & Hn & Ht). rewrite !elem_of_cons, elem_of_nil in Hn.
    destruct Hn as [-> |[-> |[]]]; rewrite Ht in He; [done|]. by destruct (env_set "TT_EXTERNAL_TLS"). }
  destruct (check_args args) as [x|] eqn:Ha.
  { unfold ret in H. injection H as <- <-. split; [done|]. split; [by left|done]. }
  apply check_args_None in Ha. assert (Hargs : ¬ ∃ a, a ∈ args ∧ obsolete_arg a = true).
  { intros (a & Hin & Hob). rewrite Forall_forall in Ha. by rewrite (Ha a Hin) in Hob. }
  split; [tauto|]. destruct (ParseArgs args) as [o| |x].
  2,3: unfold ret in H; injection H as <- <-; split; [by left|]; first [by left|done].
  assert (Hrun : tr_calls w' `suffix_of` asked o ∧ (e = None → tr_calls w' = asked o)).
  2: { destruct Hrun. split; [right; by exists o|]. intros He0. right. exists o. auto. }
  clear He Henv Ha Hargs. destruct w as [calls answers st mf rs]. cbn [tr_calls] in Hw. subst calls. revert H.
  unfold run_options, asked, print_manifest, checkProbe, try_err, cmd_migrate, cmd_create, cmd_verify, cmd_restore, cmd_serve, cmd_get, cmd_print, trace_commands,
    answering, call, bind, ret, gets.
  destruct (op_ShowVersion o); [intros [= <- <-]; done|].
  destruct (negb (bool_decide (op_MigrateLegacy o = ""))); [destruct answers as [|[x|] q]; intros [= <- <-]; done|].
  destruct (op_Healthcheck o); [|destruct (op_Readycheck o); cbn [orb]];
    [destruct answers as [|[x|] q]; cbn; intros [= <- <-]; done..|].
  destruct (negb (bool_decide (op_BackupPath o = ""))).
  { destruct answers as [|[x|] q]; [intros [= <- <-]; done|intros [= <- <-]; split; [by exists [CVerify]|done]|].
    destruct q as [|[x|] q]; intros [= <- <-]; done. }
  destruct (negb (bool_decide (op_VerifyBackup o = ""))); [destruct answers as [|[x|] q]; intros [= <- <-]; done|].
  destruct (negb (bool_decide (op_RestoreBackup o = ""))); destruct answers as [|[x|] q]; intros [= <- <-]; done.
Qed.
