(* ===== verification/WebWorld.v ===== *)
(** The web interface over the services the program gives it: the instances of
    the interfaces of [WebHandlers.v] that [internal/app/app.go] wires together,
    and the promises [WebSpec.v] asks of them. *)
From S2P Require Import Prelude GoStrings Sha256 GoTime Domain X509 CertState TLSStore FileSys Materializer ClientProfile ProfileStore.
From S2P Require Import Store StoreSpec Password Limiter Services Apply Users Entropy Session SessionSpec TLSSettings.
From S2P Require Import ClientExport World Http WebHandlers WebSpec.

(** The world of [World.v], the limiter of the log in, and what the supervisor,
    the metrics reader and the log buffers show. *)
Record web := mkWeb {
  web_world : world;
  web_limiter : LoginLimiter;
  web_status : EndpointStatus;
  web_metrics : result EndpointMetrics;
  web_logs : string;
  web_controller : Ring
}.
Definition in_world {A} : M world A → M web A :=
  zoom web_world (λ x w, mkWeb x (web_limiter w) (web_status w) (web_metrics w) (web_logs w) (web_controller w)).
Definition in_auth {A} (m : M auth_world A) : M web A :=
  in_world (zoom (λ w, mkAuthWorld (w_store w) (w_random w))
              (λ x w, mkWorld (aw_store x) (w_configs w) (w_pairs w) (w_endpoint w) (aw_random x)) m).
Definition web_now : M web Time := in_world (on_db db_now).
Definition with_limiter (f : LoginLimiter → LoginLimiter) : M web unit :=
  modify (λ w, mkWeb (web_world w) (f (web_limiter w)) (web_status w) (web_metrics w) (web_logs w) (web_controller w)).

(** [NewAuthHandler]: the limiter of the handler. *)
Definition NewAuthHandler (limiter : option LoginLimiter) : LoginLimiter :=
  match limiter with None => NewLoginLimiter (15 * minute) 4096 | Some l => l end.

(** ** What the interface guards *)

(** All tables but those of the administrator and the sessions. *)
Definition table_data (t : tables) :=
  (t_settings t, (t_users t, t_users_seq t), t_rules t, (t_events t, t_events_seq t), t_account t, t_tls t, t_profile t).
Definition same_data (t t' : tables) : Prop := table_data t' = table_data t.
#[local] Instance same_data_preorder : PreOrder same_data.
Proof. split; [by intros t|]. unfold same_data. intros a b c ? ?. congruence. Qed.
(** The files, the endpoint and those tables. *)
Definition web_data (w : web) :=
  (table_data (w_tables (web_world w)), w_configs (web_world w), w_pairs (web_world w), w_endpoint (web_world w)).

Create HintDb webdata.
Abbreviation data_kept := (over same_data).
Lemma exec_data run : (∀ t, same_data t (run t).2) → preserves data_kept (exec run).
Proof. exact (exec_over same_data run). Qed.
Lemma stmt_data {A} (run : tables → result A * tables) : (∀ t, same_data t (run t).2) → preserves data_kept (stmt run).
Proof. exact (stmt_over same_data run). Qed.
Lemma query_data {A} (f : tables → result A) : preserves data_kept (query f).
Proof. exact (query_over same_data f). Qed.
Lemma db_now_data : preserves data_kept db_now.
Proof. exact (db_now_over same_data). Qed.
Lemma transaction_data body : preserves data_kept body → preserves data_kept (transaction body).
Proof. exact (transaction_over same_data body). Qed.
#[export] Hint Resolve query_data db_now_data : webdata.

Ltac data_walk :=
  repeat first [progress walk | solve [auto with webdata nocore] | progress cbn [fst snd]
    | apply transaction_data | apply exec_data; intros ?; repeat case_match; reflexivity
    | apply stmt_data; intros ?; repeat case_match; reflexivity].

Lemma AdminByUsername_data u : preserves data_kept (Store_AdminByUsername u).
Proof. unfold Store_AdminByUsername. data_walk. Qed.
Lemma CreateSession_data h a x : preserves data_kept (Store_CreateSession h a x).
Proof. unfold Store_CreateSession. data_walk. Qed.
Lemma SessionAdmin_data h n : preserves data_kept (Store_SessionAdmin h n).
Proof. unfold Store_SessionAdmin. data_walk. Qed.
Lemma DeleteSession_data h : preserves data_kept (Store_DeleteSession h).
Proof. unfold Store_DeleteSession. data_walk. Qed.
Lemma UpdateAdminPassword_data a h : preserves data_kept (Store_UpdateAdminPassword a h).
Proof. unfold Store_UpdateAdminPassword. data_walk. Qed.
Lemma CreateFirstAdmin_data u h : preserves data_kept (Store_CreateFirstAdmin u h).
Proof. unfold Store_CreateFirstAdmin. data_walk. Qed.
Lemma HasAdmin_data : preserves data_kept Store_HasAdmin.
Proof. unfold Store_HasAdmin. data_walk. Qed.
Lemma ListUsers_data : preserves data_kept Store_ListUsers.
Proof. unfold Store_ListUsers, Store_Snapshot. data_walk. Qed.
Lemma ListApplyEvents_data b l : preserves data_kept (Store_ListApplyEvents b l).
Proof. unfold Store_ListApplyEvents. data_walk. Qed.
Lemma LoadTLSMetadata_data : preserves data_kept Store_LoadTLSMetadata.
Proof. unfold Store_LoadTLSMetadata. data_walk. Qed.
Lemma LoadClientProfile_data : preserves data_kept LoadClientProfile.
Proof. unfold LoadClientProfile. data_walk. Qed.
#[export] Hint Resolve AdminByUsername_data CreateSession_data SessionAdmin_data DeleteSession_data
  UpdateAdminPassword_data CreateFirstAdmin_data HasAdmin_data ListUsers_data ListApplyEvents_data
  LoadTLSMetadata_data LoadClientProfile_data : webdata.

(** The same for the computations over the database and the random source. *)
Definition auth_data (w w' : auth_world) : Prop := same_data (aw_tables w) (aw_tables w').
#[local] Instance auth_data_preorder : PreOrder auth_data.
Proof. unfold auth_data. split; [by intros w|]. intros a b c ? ?. by etrans. Qed.
Lemma on_store_data {A} (p : M store A) : preserves data_kept p → preserves auth_data (on_store p).
Proof. intros Hp w r w' H%on_store_inv. exact (Hp _ _ _ H). Qed.
Lemma on_random_data {A} (p : M entropy A) : preserves auth_data (on_random p).
Proof. intros w r w' [_ H]%on_random_inv. unfold auth_data, aw_tables. by rewrite H. Qed.
#[export] Hint Resolve on_store_data on_random_data : webdata.

Section AuthData.
Context {UT : UnicodeTables} {ARGON : Argon2}.
Ltac auth_walk := repeat first [progress walk | solve [auto with webdata] | progress cbn [fst snd]].
Lemma hash_password_data p : preserves auth_data (hash_password p).
Proof. unfold hash_password. auth_walk. Qed.
Lemma session_create_data s a : preserves auth_data (session_create s a).
Proof. unfold session_create, newToken. auth_walk. Qed.
Lemma Login_data s u p : preserves auth_data (Login s u p).
Proof. unfold Login. auth_walk. apply session_create_data. Qed.
Lemma Authenticate_data t : preserves auth_data (Authenticate t).
Proof. unfold Authenticate. auth_walk. Qed.
Lemma Logout_data t : preserves auth_data (Logout t).
Proof. unfold Logout. auth_walk. Qed.
Lemma ChangePassword_data s t c n : preserves auth_data (ChangePassword s t c n).
Proof.
  unfold ChangePassword. auth_walk; auto using Authenticate_data, hash_password_data, session_create_data with webdata.
Qed.
Lemma Bootstrap_Required_data : preserves auth_data Bootstrap_Required.
Proof. unfold Bootstrap_Required. auth_walk. Qed.
Lemma Bootstrap_data u p : preserves auth_data (Bootstrap u p).
Proof. unfold Bootstrap. auth_walk; auto using hash_password_data with webdata. Qed.
End AuthData.

Definition web_kept (w w' : web) : Prop := web_data w' = web_data w.
#[local] Instance web_kept_preorder : PreOrder web_kept.
Proof. split; [by intros w|]. unfold web_kept. intros a b c ? ?. congruence. Qed.
Lemma on_db_kept {A} (p : M store A) : preserves data_kept p → preserves web_kept (in_world (on_db p)).
Proof.
  intros Hp w r w' H. unfold in_world, on_db, zoom in H. destruct (p _) as [a x] eqn:E. injection H as <- <-.
  apply Hp in E. unfold web_kept, web_data, w_tables.
  unfold over, auth_data, same_data, aw_tables in E. cbn in *. by rewrite E.
Qed.
Lemma in_auth_kept {A} (p : M auth_world A) : preserves auth_data p → preserves web_kept (in_auth p).
Proof.
  intros Hp w r w' H. unfold in_auth, in_world, zoom in H. destruct (p _) as [a x] eqn:E. injection H as <- <-.
  apply Hp in E. unfold web_kept, web_data, w_tables.
  unfold over, auth_data, same_data, aw_tables in E. cbn in *. by rewrite E.
Qed.
Lemma with_limiter_kept f : preserves web_kept (with_limiter f).
Proof. by intros w r w' [= <- <-]. Qed.
Lemma gets_kept {A} (f : web → A) : preserves web_kept (gets f).
Proof. by intros w r w' [= <- <-]. Qed.
Lemma random_kept n : preserves web_kept (in_world (on_entropy (en_read n))).
Proof.
  intros w r w' H. unfold in_world, on_entropy, zoom in H. destruct (en_read _ _) as [a x]. by injection H as <- <-.
Qed.
Lemma web_now_kept : preserves web_kept web_now.
Proof. apply on_db_kept. auto with webdata. Qed.
#[export] Hint Resolve on_db_kept in_auth_kept with_limiter_kept gets_kept random_kept web_now_kept
  Login_data Authenticate_data Logout_data ChangePassword_data Bootstrap_Required_data Bootstrap_data : webdata.

(** ** The instances *)

Section WebWorld.
Context {UT : UnicodeTables} {SHA : Sha256} {MO : MapOrder} {X : X509} {ARGON : Argon2} {AO : AttemptOrder} {TOML : Toml}.
Variable m : Materializer.
Variable sessions : SessionService.
Variable cert : CertificateOperations web.
Variable ParseAddress : string → option string.
Variable defaultMode : Mode.
(** [os.ReadFile] of a published chain, the endpoint's export and the QR code. *)
Variable read_file : string → web → result string.
Variable exporter_Export : VPNUser → string → M web (result ClientConfig).
Variable qr_encode : string → Z → M web (option (result string)).
Variable qr_ctx_error : gerror.

#[export] Instance web_sessions : SessionOps web := {
  ses_Login u p := in_auth (Login sessions u p);
  ses_Authenticate t := in_auth (Authenticate t);
  ses_Logout t := in_auth (Logout t);
  ses_ChangePassword t c n := in_auth (ChangePassword sessions t c n);
  lim_Allow ip u := let* now := web_now in gets (λ w, Allow (web_limiter w) now ip u);
  lim_Failure ip u := let* now := web_now in with_limiter (λ l, Failure l now ip u);
  lim_Success ip u := with_limiter (λ l, Success l ip u)
}.
#[export] Instance web_bootstrap : BootstrapOps web := {
  boot_Required := in_auth Bootstrap_Required;
  boot_Bootstrap u p := in_auth (Bootstrap u p)
}.
Abbreviation web_apply := (world_manager m).
#[export] Instance web_users : UserOps web := {
  us_List := in_world (UserManager_List (UR:=world_users));
  us_Create u := in_world (UserManager_Create (UR:=world_users) (RND:=world_random) web_apply u);
  us_Enable i := in_world (UserManager_Enable (UR:=world_users) web_apply i);
  us_Disable i := in_world (UserManager_Disable (UR:=world_users) web_apply i);
  us_Revoke i := in_world (UserManager_Revoke (UR:=world_users) web_apply i);
  us_Rotate i := in_world (UserManager_Rotate (UR:=world_users) (RND:=world_random) web_apply i)
}.
#[export] Instance web_client_users : ClientUserRepository web := {
  cc_UserByID i := in_world (on_db (Store_UserByID i));
  cc_Snapshot := in_world (on_db Store_Snapshot);
  cc_LoadClientProfile := in_world (on_db LoadClientProfile)
}.
#[export] Instance web_clients : ClientOps web := {
  cl_Export i := ClientConfig_Export exporter_Export (gets web_status) i;
  cl_QR i size := QR exporter_Export (gets web_status) qr_encode qr_ctx_error i size;
  cl_LoadClientProfile := in_world (on_db LoadClientProfile);
  cl_SaveClientProfile p := in_world (on_db (SaveClientProfile p))
}.
Abbreviation web_load_tls := (in_world (on_db Store_LoadTLSMetadata)).
Abbreviation web_save_tls := (λ x, in_world (on_db (Store_SaveTLSMetadata x))).
Abbreviation web_set_host := (λ h, in_world (on_db (Store_SetHostname h))).
#[export] Instance web_tls : TLSOps web := {
  tls_View := TLSSettings.View web_load_tls defaultMode;
  tls_Save := TLSSettings.Save ParseAddress web_load_tls web_save_tls web_set_host defaultMode;
  tls_SaveConfiguration := Some (TLSSettings.SaveConfiguration ParseAddress web_load_tls web_save_tls web_set_host defaultMode);
  tls_Issue := TLSSettings.Issue web_load_tls cert defaultMode;
  tls_Renew := TLSSettings.Renew cert;
  tls_PublicSelfSignedCertificate := Some (TLSSettings.PublicSelfSignedCertificate web_load_tls (λ p, gets (read_file p)) defaultMode)
}.
#[export] Instance web_views : ViewOps web := {
  v_ListApplyEvents b l :=
    let* r := in_world (on_db (Store_ListApplyEvents b l)) in
    ret (match r with Ok es => (es, None) | Err e => ([], Some e) end);
  v_Logs := gets web_logs;
  v_ControllerLogs := gets (λ w, ring_buf (web_controller w));
  v_Status := gets web_status;
  v_Metrics := gets web_metrics;
  v_LoadTLSMetadata :=
    let* r := web_load_tls in
    ret (match r with Ok x => (x, None) | Err e => (zero_metadata, Some e) end);
  v_now := web_now;
  v_rand n := in_world (on_entropy (en_read n))
}.

Ltac web_walk :=
  intros; cbv beta iota delta [web_sessions web_bootstrap web_users web_clients web_tls web_views ses_Login ses_Authenticate ses_Logout ses_ChangePassword lim_Allow lim_Failure lim_Success boot_Required boot_Bootstrap
    us_List cl_LoadClientProfile tls_View tls_PublicSelfSignedCertificate v_ListApplyEvents v_Logs v_ControllerLogs
    v_Status v_Metrics v_LoadTLSMetadata v_now v_rand]; change (λ w w' : web, web_data w' = web_data w) with web_kept;
  unfold TLSSettings.PublicSelfSignedCertificate, TLSSettings.View;
  repeat first [progress walk | solve [auto with webdata] | progress cbn [fst snd]].

#[export] Program Instance web_guard : WebGuard web _ := { guarded := web_data }.
Solve Obligations with web_walk.
Next Obligation.
  web_walk. intros w r w' H. unfold in_world, zoom in H. destruct (UserManager_List _) as [a x] eqn:E.
  injection H as <- <-. unfold UserManager_List in E. run_bind E. run_ret E.
  assert (Hk : preserves web_kept (in_world (on_db Store_ListUsers))) by auto with webdata.
  eapply Hk. unfold in_world, zoom. simpl in E0. by rewrite E0.
Qed.
Next Obligation. intros read [= <-]. web_walk. Qed.
End WebWorld.
