(* ===== verification/Demo.v ===== *)
(** A concrete world: small functions for the code the model takes as a
    parameter, and a few states, for the examples and the witnesses. *)
From S2P Require Import Prelude GoStrings GoPath Quote Base64 Sha256 Domain GoTime Config FileSys Revisions.
From S2P Require Import Materializer X509 CertState TLSStore Store StoreSpec Password Limiter Services Apply.
From S2P Require Import Users Entropy Session TLSService TLSServiceSpec Manager ManagerSpec ClientProfile.
From S2P Require Import World WorldLaws.

(** ** Parameters *)

(** Nothing above 127 is a letter or a digit. *)
#[export] Instance ascii_tables : UnicodeTables :=
  { uni_is_lower _ := false; uni_is_upper _ := false; uni_is_digit _ := false; uni_is_print _ := false;
    uni_to_lower r := r }.
#[export] Program Instance listed_order : MapOrder := { map_range m := map_to_list m }.
Next Obligation. done. Qed.
#[export] Program Instance listed_attempts : AttemptOrder := { attempt_range m := map_to_list m }.
Next Obligation. done. Qed.

(** A key derivation that pads the password to the asked length. *)
Definition pad_to (n : Z) (s : string) : string :=
  of_chars (take (Z.to_nat n) (chars s ++ replicate (Z.to_nat n) "0"%char)).
#[export] Program Instance padding_argon : Argon2 := { IDKey pw salt t m p n := pad_to n pw }.
Next Obligation.
  intros pw salt t m p n Hn. unfold pad_to, len. rewrite <-chars_length, chars_of_chars, length_take, length_app, length_replicate.
  lia.
Qed.

(** Certificates and keys of one letter: [C] is a certificate block, [K] a key. *)
Definition letter_pem (d : string) : option (string * string * string) :=
  match d with
  | String c r => if bool_decide (c = "C"%char) then Some ("CERTIFICATE", "cert", r)
                  else if bool_decide (c = "K"%char) then Some ("PRIVATE KEY", "key", r) else None
  | "" => None
  end.
#[export] Program Instance letter_x509 : X509 := {
  Certificate := string; PublicKey := unit; pem_decode := letter_pem;
  ParseCertificate b := Ok b; cert_Raw c := c; cert_PublicKey _ := tt;
  cert_NotBefore _ := 0; cert_NotAfter _ := 10 ^ 20; cert_SerialNumber _ := "1"; cert_Issuer _ := "CN=demo";
  cert_DNSNames _ := ["vpn.example.org"]; VerifyHostname _ _ := None; CheckSignatureFrom _ _ := None;
  ParsePKCS8PrivateKey _ := Some tt; ParseECPrivateKey _ := None; ParsePKCS1PrivateKey _ := None;
  MarshalPKIXPublicKey _ := Ok "public"
}.
Next Obligation.
  intros d ty bs rest H. destruct d as [|c r]; [done|]. simpl in H.
  assert (rest = r) as -> by (destruct (bool_decide (c = "C"%char)), (bool_decide (c = "K"%char)); simplify_eq; done).
  unfold len. simpl. lia.
Qed.
#[export] Instance letter_directories : ACMEDirectories := { directory_production := "https://p"; directory_staging := "https://s" }.

(** ** States *)

Definition alice : VPNUser := mkVPNUser 1 "alice" "correct-horse-battery" UserActive 5 5.
Definition bob : VPNUser := mkVPNUser 2 "bob" "staple-horse-battery" UserRevoked 5 6.
Definition demo_tables : tables :=
  mkTables (Some (mkSettingsRow "vpn.example.org" "0.0.0.0:8443" "" 5)) {[ 1 := alice; 2 := bob ]} 2 ∅ [] 0 None ∅ None None None.
Definition calm_store (t : tables) : store := mkStore t [] 100.
Definition demo_fs : fs := mkFs (Dir 448 {[ "revisions" := Dir 448 ∅ ]}) [] 0.
Definition demo_entropy : entropy := mkEntropy (λ _, "x"%char) 0 [].
(** A world whose endpoint meets the given outcomes. *)
Definition demo_world (faults : list (option gerror)) : world :=
  mkWorld (calm_store demo_tables) demo_fs demo_fs (mkEndpoint "" faults) demo_entropy.
Definition demo_materializer : Materializer := mkMaterializer (λ _ _, None) None.
Definition demo_pairs : TLSStore := mkTLSStore "/data/tls" None.
Definition demo_bundle : Bundle := mkBundle "C" "" "K".
Definition refused : gerror := SysErr "connection refused".

Definition demo_snapshot (address : string) : Snapshot :=
  mkSnapshot "" "vpn.example.org" address [alice] [] "" "".

Lemma demo_users_get i u : t_users demo_tables !! i = Some u → i = 1 ∧ u = alice ∨ i = 2 ∧ u = bob.
Proof.
  cbn [t_users demo_tables]. intros [[<- <-]|[_ [<- <-]%lookup_singleton_Some]]%lookup_insert_Some; [by left|by right].
Qed.
Lemma demo_tables_ok : tables_ok demo_tables.
Proof.
  split.
  - by intros i u [[-> ->]|[-> ->]]%demo_users_get.
  - by intros i j u v [[-> ->]|[-> ->]]%demo_users_get [[-> ->]|[-> ->]]%demo_users_get.
  - done.
  - split; [constructor|]. intros e He. by apply not_elem_of_nil in He.
  - done.
  - done.
Qed.

(** A result of the right shape, for runs that are evaluated. *)
Lemma ok_run {A W} (p : result A * W) : is_ok p.1 = true → ∃ a w, p = (Ok a, w).
Proof. destruct p as [[a|e] w]; [|done]. by exists a, w. Qed.
Lemma err_run {A W} (p : result A * W) : is_ok p.1 = false → ∃ e w, p = (Err e, w).
Proof. destruct p as [[a|e] w]; [done|]. by exists e, w. Qed.
Lemma nil_run {W} (p : option gerror * W) : p.1 = None → ∃ w, p = (None, w).
Proof. destruct p as [e w]. intros [= ->]. by exists w. Qed.
Lemma some_run {W} (p : option gerror * W) : negb (bool_decide (p.1 = None)) = true → ∃ e w, p = (Some e, w).
Proof. destruct p as [[e|] w]; [|done]. by exists e, w. Qed.
Lemma done_run {B W} (p : (B * option gerror) * W) : p.1.2 = None → ∃ b w, p = ((b, None), w).
Proof. destruct p as [[b e] w]. intros [= ->]. by exists b, w. Qed.

Lemma demo_fs_get p n :
  tree_get p (fs_tree demo_fs) = Some n → p = [] ∨ p = ["revisions"] ∧ n = Dir 448 ∅.
Proof.
  destruct p as [|c p]; [by left|right]. revert H. cbn [tree_get fs_tree demo_fs].
  destruct (decide (c = "revisions")) as [->|Hne]; [|by rewrite lookup_singleton_ne].
  rewrite lookup_singleton_eq. destruct p; simpl; [by intros [= <-]|by rewrite lookup_empty].
Qed.
Lemma demo_store_ok {L : Layout} : store_ok (fs_tree demo_fs).
Proof.
  split; [done|done|..].
  - by intros id n [?|[? ?]]%demo_fs_get.
  - by intros n [?|[? ?]]%demo_fs_get.
  - by intros n [?|[? ?]]%demo_fs_get.
Qed.
Lemma demo_quiet {L : Layout} : quiet demo_fs.
Proof. split; [apply demo_store_ok|done|]. intros c [n [?|[[= ->] _]]%demo_fs_get]; [done|by left]. Qed.
Lemma demo_reliable faults : world_reliable (demo_world faults).
Proof. split; [apply demo_quiet|]. split; [apply demo_quiet|by eexists]. Qed.

(** ** Publications in the demo world *)

#[export] Existing Instances world_revisions world_process world_users world_random.
#[export] Instance demo_configs : ConfigRevisionStore world := world_configs demo_materializer.
#[export] Instance demo_tls : TLSRevisionStore world := world_pairs demo_pairs.
#[export] Instance demo_publication : Publication world := world_publication demo_materializer.
#[export] Existing Instances world_user_table world_tls_views.
#[export] Instance demo_tls_publication : TLSPublication world unit (ret None) None :=
  world_tls_publication demo_materializer demo_pairs.

Definition first_address : string := "0.0.0.0:8443".
Definition second_address : string := "0.0.0.0:9443".
Abbreviation apply_to address := (ApplyManager_apply (demo_snapshot address) "restart").

(** Publishing the revision that is already current and meeting a failing
    restart is not undone: the rollback exchanges the links although [Apply]
    changed none, so the configuration that was current before the last change
    becomes current again while the database names the new one, and the error
    reports a complete rollback. *)
Definition reapply_story : list (result string) * world :=
  let w := demo_world [None; None; Some refused] in
  let '(r1, w) := apply_to first_address w in
  let '(r2, w) := apply_to second_address w in
  let '(r3, w) := apply_to second_address w in
  ([r1; r2; r3], w).

(** ** A certificate manager's world

    The metadata row and the publisher, with a client that always delivers the
    letter pair. *)
Record desk := mkDesk { dk_row : option Metadata; dk_live : string; dk_pending : option string }.
#[export] Instance desk_repository : CertRepository desk := {
  SaveACMEAccount _ _ _ _ _ := ret None;
  SaveTLSMetadata m := λ d,
    if meta_ok m then (None, mkDesk (Some (stored_form 9 m)) (dk_live d) (dk_pending d)) else (Some constraint_failed, d);
  LoadTLSMetadata := gets (λ d, match dk_row d with Some m => Ok m | None => Err ErrNoRows end);
  cert_RecordEvent _ := ret None
}.
#[export] Instance desk_publisher : Publisher desk := {
  pub_Publish b := λ d,
    (Ok (published_at demo_pairs (tls_revision b)), mkDesk (dk_row d) (tls_revision b) (Some (dk_live d)));
  pub_RevertLast := Some (λ d,
    match dk_pending d with
    | Some r => (None, mkDesk (dk_row d) r None)
    | None => (Some (Errorf "no pending TLS publication"), d)
    end);
  pub_CompletePublished := Some (modify (λ d, mkDesk (dk_row d) (dk_live d) None))
}.
#[export] Instance desk_clients : ACMEClientFactory desk := {
  ACMEClient := unit; new_client _ := ret (Ok tt); EnsureAccount _ := ret (Ok "https://acct/1");
  Obtain _ _ := ret (Ok demo_bundle)
}.
#[export] Instance desk_environment : CertEnvironment desk := {
  now_ := ret 7; ReadFile _ := ret (Err ErrNotExist); OpenRegular _ := ret (Err ErrNotExist);
  ECKey := unit; GenerateKey := ret (Ok tt); rand_Int _ := ret (Ok 5);
  CreateCertificate _ _ := ret (Ok ""); MarshalPKCS8PrivateKey _ := Ok "";
  pem_encode ty _ := if bool_decide (ty = "CERTIFICATE") then "C" else "K"
}.
Definition desk_ok (d : desk) : Prop :=
  match dk_row d with Some m => meta_wf m ∧ M_State m ∈ all_states | None => True end.
Definition letter_address (s : string) : option string := Some s.

Lemma stored_form_wf t m : meta_ok m = true → meta_wf (stored_form t m) ∧ M_State (stored_form t m) ∈ all_states.
Proof.
  unfold meta_ok. intros H. apply andb_true_iff in H as [H Hsrc]. apply andb_true_iff in H as [Hst Hmode].
  repeat split; [|by eapply bool_decide_eq_true|by eapply bool_decide_eq_true].
  unfold stored_form. cbn [meta_set_updated meta_set_source_sans M_Source]. by eapply bool_decide_eq_true.
Qed.
#[export] Program Instance desk_world : CertWorld desk := {
  cert_ok := desk_ok; cert_calm _ := True; stored := dk_row; live := dk_live; pending := dk_pending
}.
Ltac desk_run H := unfold completePublication in H; cbn in H; unfold ret, gets, modify in H; injection H as <- <-.
Solve All Obligations with (intros; try (match goal with H : _ = (_, _) |- _ => desk_run H; split_and!; done end)).
Next Obligation.
  intros w r w' Hok H. desk_run H. split; [done|]. unfold desk_ok in Hok. destruct (dk_row w) as [m|]; [|done].
  by destruct Hok.
Qed.
Next Obligation.
  intros m w e w' Hok H. simpl in H. destruct (meta_ok m) eqn:Hm; injection H as <- <-; [|done].
  split; [by apply stored_form_wf|]. split; [done|]. split; [done|]. split; [done|]. by exists 9.
Qed.
Next Obligation.
  intros w e w' Hok H. unfold revertPublication in H. simpl in H. destruct (dk_pending w) as [r|] eqn:Hp; injection H as <- <-; [|done].
  done.
Qed.

(** The pair "old" is active and was issued for the demo host. *)
Definition old_metadata : Metadata :=
  activate (SHA:=sha256_go) "older" (mkPublished "old" "/data/tls/old/cert.pem" "/data/tls/old/key.pem") "" 3
    (meta_set_identity LetsEncrypt Production "vpn.example.org" "ops@example.org" "https://p"
       (meta_set_state Renewing zero_metadata)).
Definition desk_idle : desk := mkDesk None "" None.
Definition desk_active : desk := mkDesk (Some old_metadata) "old" None.
Lemma desk_active_ok : desk_ok desk_active.
Proof. repeat split; apply (bool_decide_unpack _); vm_compute; exact I. Qed.

(** ** An administrator with one session *)
Definition admin_password : string := "Correct-Horse-9!".
Definition demo_hash : string := hash_with admin_password "0123456789abcdef".
Definition admin_tables : tables :=
  put_admin (Some (mkAdminRow "root" demo_hash 5 5)) {[ tokenHash "token" := mkSessionRow 1 (10 ^ 18) 5 ]} demo_tables.
Definition demo_auth (t : tables) : auth_world := mkAuthWorld (calm_store t) demo_entropy.
Definition demo_sessions : SessionService := mkSessionService (12 * hour) demo_hash.
Lemma admin_tables_ok : tables_ok admin_tables.
Proof.
  split; try apply demo_tables_ok. intros h s Hs. split; [|by eexists].
  change (({[tokenHash "token" := mkSessionRow 1 (10 ^ 18) 5]} : gmap string SessionRow) !! h = Some s) in Hs.
  by apply lookup_singleton_Some in Hs as [_ <-].
Qed.

(** ** TOML documents

    One table and its text. *)
#[export] Instance demo_toml : Toml := {
  toml_Decode s := if bool_decide (s = "host") then Ok {[ "hostname" := TString "vpn.example.org" ]} else Err (Errorf "toml");
  toml_Encode _ := Ok "table"
}.
