(* ===== verification/Witnesses.v ===== *)
(** Every theorem with hypotheses, applied to a concrete run on which they
    hold. *)
From S2P Require Import Prelude GoStrings GoPath Quote Base64 Sha256 Domain GoTime Config FileSys Revisions.
From S2P Require Import Materializer X509 CertState TLSStore ShelfSpec Store StoreSpec Manager ManagerSpec ManagerCert.
From S2P Require Import Password Limiter Services Apply Users Entropy Session SessionSpec TLSService.
From S2P Require Import TLSServiceSpec TLSSettings Supervisor SupervisorSpec ClientProfile ClientExport World.
From S2P Require Import WorldLaws Demo.

(** ** The revision stores *)

Definition demo_files : Files := {[ "vpn.toml" := "listen" ]}.

Lemma Apply_publishes_atomically_witness :
  ∃ id w', Materializer_Apply demo_materializer demo_files demo_fs = (Ok id, w')
    ∧ store_ok (fs_tree w') ∧ link_at (fs_tree w') "current" = Some (target_of id).
Proof.
  destruct (ok_run (Materializer_Apply demo_materializer demo_files demo_fs)) as (id & w' & H); [vm_compute; reflexivity|].
  destruct (Apply_publishes_atomically _ _ _ _ _ demo_store_ok H) as (Hs & _ & _ & _ & Hid).
  destruct (Hid _ eq_refl) as (_ & _ & _ & Hc). exists id, w'. exact (conj H (conj Hs Hc)).
Defined.

(** A store whose second file system call fails. *)
Lemma Publish_publishes_atomically_witness :
  let w := mkFs (fs_tree demo_fs) [None; Some refused] 0 in
  ∃ r w', TLSStore_Publish demo_pairs None demo_bundle w = (r, w') ∧ is_ok r = false ∧ @store_ok tls_layout (fs_tree w').
Proof.
  intros w. destruct (err_run (TLSStore_Publish demo_pairs None demo_bundle w)) as (e & w' & H); [vm_compute; reflexivity|].
  exists (Err e), w'. split; [exact H|]. split; [reflexivity|].
  exact (proj1 (Publish_publishes_atomically demo_pairs None demo_bundle w _ _ demo_store_ok H)).
Defined.

(** The store after a first publication. *)
Definition fs1 : fs := (Materializer_Apply demo_materializer demo_files demo_fs).2.
Lemma fs1_quiet : quiet fs1.
Proof.
  destruct (Materializer_Apply demo_materializer demo_files demo_fs) as [r w'] eqn:H.
  unfold fs1. rewrite H. by eapply Materializer_Apply_quiet in H as [Hq _]; [|apply demo_quiet].
Qed.
Lemma Apply_then_Rollback_witness :
  let other := <["rules.toml" := "deny"]> demo_files in
  ∃ id w1 w2, Materializer_Apply demo_materializer other fs1 = (Ok id, w1) ∧ Materializer_Rollback w1 = (None, w2)
    ∧ link_at (fs_tree w2) "current" = Some (target_of (revisionID demo_files)).
Proof.
  intros other. destruct (ok_run (Materializer_Apply demo_materializer other fs1)) as (id & w1 & H); [vm_compute; reflexivity|].
  destruct (Materializer_Rollback w1) as [e w2] eqn:R.
  edestruct (Apply_then_Rollback demo_materializer other fs1 id w1 e w2 (target_of (revisionID demo_files)))
    as (-> & _ & Hc & _); [apply fs1_quiet|vm_compute; reflexivity|vm_compute; discriminate|exact H|exact R|].
  exists id, w1, w2. exact (conj H (conj R Hc)).
Defined.

(** Two publications, a rollback, a restore of the first revision while the
    switch of the link is refused, and a clean-up. *)
Definition shelf_ops : list config_op :=
  [ConfigApply demo_files; ConfigApply (<["rules.toml" := "deny"]> demo_files); ConfigRollback;
   ConfigRestore (revisionID demo_files); ConfigRestore ""].
Fixpoint store_trace {Op} (run : Op → M fs bool) (l : list Op) (w : fs) : list bool * fs :=
  match l with
  | [] => ([], w)
  | o :: l' => let '(ok, w1) := run o w in let '(oks, w2) := store_trace run l' w1 in (ok :: oks, w2)
  end.
Lemma trace_is_store_run {L : Layout} {Op} (run : Op → M fs bool) allowed spec l w :
  Forall allowed l → store_run run allowed spec w (zip (spec <$> l) (store_trace run l w).1) (store_trace run l w).2.
Proof.
  revert w. induction l as [|o l IH]; intros w Hl; [constructor|]. apply Forall_cons in Hl as [Ho Hl]. cbn [store_trace].
  destruct (run o w) as [ok w1] eqn:E. specialize (IH w1 Hl). destruct (store_trace run l w1) as [oks w2].
  cbn [fst snd fmap list_fmap zip zip_with] in *. by econstructor.
Qed.
Definition one_refusal : fs := mkFs (fs_tree demo_fs) (replicate 57 None ++ [Some refused]) 0.
Lemma config_store_refines_witness :
  ∃ oks w', store_trace (run_config demo_materializer) shelf_ops one_refusal = (oks, w')
    ∧ oks = [true; true; true; false; true] ∧ sh_current (shelf_of (fs_tree w')) = None
    ∧ shelf_run (shelf_of (fs_tree one_refusal)) (zip (config_request <$> shelf_ops) oks) (shelf_of (fs_tree w')).
Proof.
  assert (Ha : Forall config_op_ok shelf_ops) by (repeat (apply Forall_cons; split); try exact I; [right; apply revisionID_name|left; reflexivity|apply Forall_nil_2]).
  assert (H := trace_is_store_run (run_config demo_materializer) config_op_ok config_request shelf_ops one_refusal Ha).
  destruct (store_trace (run_config demo_materializer) shelf_ops one_refusal) as [oks w'] eqn:E. exists oks, w'.
  destruct (config_store_refines demo_materializer one_refusal (zip (config_request <$> shelf_ops) oks) w') as (_ & _ & Hr & _); [|apply demo_store_ok|exact H|].
  - unfold honest, one_refusal. cbn [fs_faults]. apply Forall_app_2; [apply Forall_replicate; discriminate|].
    repeat constructor. intros e [= <-]. reflexivity.
  - split; [reflexivity|]. split; [|split; [|exact Hr]]; apply (f_equal fst) in E as E1; apply (f_equal snd) in E as E2; cbn [fst snd] in *.
    + rewrite <- E1. vm_compute. reflexivity.
    + rewrite <- E2. vm_compute. reflexivity.
Defined.

(** [Apply] ignores a failure to read [current]: the second publication succeeds
    without recording the first as the previous one, and cannot be rolled back. *)
Example unread_current_is_forgotten :
  let ops := [ConfigApply demo_files; ConfigApply (<["rules.toml" := "deny"]> demo_files); ConfigRollback] in
  let '(oks, w') := store_trace (run_config demo_materializer) ops (mkFs (fs_tree demo_fs) (replicate 40 None ++ [Some refused]) 0) in
  oks = [true; true; false] ∧ sh_previous (shelf_of (fs_tree w')) = None.
Proof. vm_compute. split; reflexivity. Qed.

Lemma tls_store_refines_witness :
  ∃ oks w', store_trace (run_pairs demo_pairs) [PairPublish None demo_bundle; PairRollback None] demo_fs = (oks, w')
    ∧ oks = [true; true] ∧ shelf_run (shelf_of (fs_tree demo_fs)) [(Put (tls_revision demo_bundle), true); (Exchange true, true)] (shelf_of (fs_tree w')).
Proof.
  set (ops := [PairPublish None demo_bundle; PairRollback None]).
  assert (H := trace_is_store_run (L:=tls_layout) (run_pairs demo_pairs) pair_op_ok pair_request ops demo_fs ltac:(repeat constructor)).
  destruct (store_trace (run_pairs demo_pairs) ops demo_fs) as [oks w'] eqn:E. exists oks, w'. cbn [fst snd] in H.
  assert (Ho : oks = [true; true]) by (apply (f_equal fst) in E; cbn [fst] in E; rewrite <- E; vm_compute; reflexivity).
  split; [reflexivity|]. split; [exact Ho|]. subst oks.
  destruct (tls_store_refines demo_pairs demo_fs _ w' ltac:(by constructor) demo_store_ok H) as (_ & _ & Hr & _). exact Hr.
Defined.

(** ** Publication *)


(** The world with a first revision, and an endpoint that refuses the second. *)
Definition world1 : world := (apply_to first_address (demo_world [None; Some refused])).2.
Definition current1 : string := target_of "8bc639ca6b28c3bd".
Lemma world1_reliable : world_reliable world1.
Proof.
  exact (apply_keeps_reliable (PUB:=demo_publication) (demo_snapshot first_address) "restart"
           (demo_world [None; Some refused]) _ _ (demo_reliable _) (surjective_pairing _)).
Qed.



(** ** Publication of a key pair *)

Abbreviation coord_publish := (TLSCoordinator_Publish (P:=unit) (ret None) None demo_bundle).
Lemma demo_consistent faults : consistent (demo_world faults).
Proof.
  split; [exact (demo_reliable faults)|vm_compute; reflexivity|left; vm_compute; reflexivity
         |vm_compute; reflexivity|left; vm_compute; reflexivity].
Qed.


Lemma TLS_publish_commits_witness :
  ∃ p c', coord_publish (mkCoord (demo_world []) None) = (Ok p, c')
    ∧ tls_view (co_env c') = Some (target_of (Pub_Revision p)) ∧ is_Some (co_pending c').
Proof.
  destruct (ok_run (coord_publish (mkCoord (demo_world []) None))) as (p & c' & H); [vm_compute; reflexivity|].
  destruct (TLS_publish_commits (TP:=demo_tls_publication) (ret None) None demo_bundle
              (mkCoord (demo_world []) None) p c' (demo_consistent _) H) as (Ht & _ & Hp).
  exists p, c'. exact (conj H (conj Ht Hp)).
Defined.

Lemma RevertLast_undoes_witness :
  ∃ p c1 c2, coord_publish (mkCoord (demo_world []) None) = (Ok p, c1)
    ∧ RevertLast (ret None) c1 = (None, c2) ∧ tls_view (co_env c2) = None ∧ v_active (view (co_env c2)) = "".
Proof.
  destruct (ok_run (coord_publish (mkCoord (demo_world []) None))) as (p & c1 & H); [vm_compute; reflexivity|].
  assert (R0 : (RevertLast (ret None) (coord_publish (mkCoord (demo_world []) None)).2).1 = None) by (vm_compute; reflexivity).
  rewrite H in R0. destruct (nil_run _ R0) as (c2 & R).
  destruct (RevertLast_undoes (TP:=demo_tls_publication) (ret None) None demo_bundle
              (mkCoord (demo_world []) None) p c1 c2 (demo_consistent _) H R) as (_ & Ha & _ & Ht).
  exists p, c1, c2. split; [exact H|]. split; [exact R|]. split; [rewrite Ht|rewrite Ha]; vm_compute; reflexivity.
Defined.

(** ** Users *)

Abbreviation apply_all := (world_manager demo_materializer).
Lemma demo_calm_ok : tables_ok (w_tables (demo_world [])).
Proof. exact demo_tables_ok. Qed.

Lemma Create_adds_one_witness :
  ∃ c w', UserManager_Create apply_all "carol" (demo_world []) = (Ok c, w')
    ∧ User_Credential (Created_User c) = "" ∧ len (Created_Password c) = 32 ∧ users_ok w'.
Proof.
  destruct (ok_run (UserManager_Create apply_all "carol" (demo_world []))) as (c & w' & H); [vm_compute; reflexivity|].
  destruct (Create_adds_one apply_all (world_apply_current_law demo_materializer) world_rand_Read_law "carol"
              (demo_world []) (Ok c) w' demo_calm_ok H) as (Hok & _ & _ & _ & Hc & Hl & _).
  exists c, w'. exact (conj H (conj Hc (conj Hl Hok))).
Defined.

(** The endpoint refuses the restart: the row is written back. *)
Lemma mutation_atomic_witness :
  ∃ e w', run_mutation apply_all Revoke 1 (demo_world [Some refused]) = (Some e, w')
    ∧ same_users (users (demo_world [])) (users w').
Proof.
  destruct (some_run (run_mutation apply_all Revoke 1 (demo_world [Some refused]))) as (e & w' & H); [vm_compute; reflexivity|].
  destruct (mutation_atomic apply_all (world_apply_current_law demo_materializer) world_rand_Read_law
    Revoke 1 (demo_world [Some refused]) (Some e) w' demo_calm_ok H) as (_ & Hs).
  exists e, w'. split; [exact H|]. exact (Hs eq_refl).
Defined.

Lemma revoked_is_final_witness :
  ∃ w', run_ops apply_all [OpMutate Enable 2; OpRotate 2] (demo_world []) = (tt, w')
    ∧ revoked_row (users w') 2 "bob" (User_Credential bob).
Proof.
  destruct (run_ops apply_all [OpMutate Enable 2; OpRotate 2] (demo_world [])) as [[] w'] eqn:H.
  exists w'. split; [reflexivity|].
  refine (proj2 (revoked_is_final apply_all (world_apply_current_law demo_materializer) world_rand_Read_law
    [OpMutate Enable 2; OpRotate 2] (demo_world []) w' 2 "bob" (User_Credential bob) demo_calm_ok _ H)).
  exists bob. repeat split.
Defined.

(** ** The administrator *)

Lemma Bootstrap_once_witness :
  ∃ w', Bootstrap "  root " admin_password (demo_auth demo_tables) = (None, w')
    ∧ ∃ row, t_admin (aw_tables w') = Some row ∧ adm_username row = "root".
Proof.
  destruct (nil_run (Bootstrap "  root " admin_password (demo_auth demo_tables))) as (w' & H); [vm_compute; reflexivity|].
  destruct (Bootstrap_once "  root " admin_password (demo_auth demo_tables) None w' H) as (_ & _ & row & Ht & Hn & _).
  exists w'. split; [exact H|]. exists row. split; [rewrite Ht; reflexivity|exact Hn].
Defined.

Lemma Login_opens_one_session_witness :
  ∃ sess w', Login demo_sessions "root" admin_password (demo_auth admin_tables) = (Ok sess, w')
    ∧ ∃ row, t_admin (aw_tables (demo_auth admin_tables)) = Some row ∧ adm_username row = "root".
Proof.
  destruct (ok_run (Login demo_sessions "root" admin_password (demo_auth admin_tables))) as (sess & w' & H);
    [vm_compute; reflexivity|].
  destruct (Login_opens_one_session demo_sessions "root" admin_password (demo_auth admin_tables) (Ok sess) w' H)
    as (row & _ & Hr & Hn & _).
  exists sess, w'. split; [exact H|]. exists row. exact (conj Hr Hn).
Defined.

Lemma Authenticate_sound_witness :
  ∃ a w', Authenticate "token" (demo_auth admin_tables) = (Ok a, w') ∧ t_admin (aw_tables w') = t_admin admin_tables.
Proof.
  destruct (ok_run (Authenticate "token" (demo_auth admin_tables))) as (a & w' & H); [vm_compute; reflexivity|].
  exists a, w'. exact (conj H (proj2 (proj2 (Authenticate_sound "token" (demo_auth admin_tables) a w' H)))).
Defined.


Lemma DeleteAdmin_resets_witness :
  ∃ w', DeleteAdmin "token" admin_password (demo_auth admin_tables) = (None, w')
    ∧ t_admin (aw_tables w') = None ∧ t_sessions (aw_tables w') = ∅.
Proof.
  destruct (nil_run (DeleteAdmin "token" admin_password (demo_auth admin_tables))) as (w' & H); [vm_compute; reflexivity|].
  destruct (DeleteAdmin_resets "token" admin_password (demo_auth admin_tables) w' admin_tables_ok H) as (_ & Ha & Hs & _).
  exists w'. exact (conj H (conj Ha Hs)).
Defined.

Lemma HashPassword_verifies_witness :
  ∃ h, HashPassword admin_password (Ok "0123456789abcdef") = Ok h ∧ VerifyPassword h admin_password = true.
Proof.
  exists demo_hash. assert (H : HashPassword admin_password (Ok "0123456789abcdef") = Ok demo_hash) by (vm_compute; reflexivity).
  split; [exact H|].
  exact (proj1 (proj2 (proj2 (proj2 (HashPassword_verifies admin_password "0123456789abcdef" demo_hash eq_refl H))))).
Defined.

Lemma Failure_bounded_witness :
  limiter_ok (Failure (NewLoginLimiter (15 * minute) 4096) 7 "192.0.2.1" "root").
Proof.
  refine (proj1 (Failure_bounded (NewLoginLimiter (15 * minute) 4096) 7 "192.0.2.1" "root" _)).
  apply NewLoginLimiter_ok.
Defined.
Lemma Failure_blocks_account_witness :
  let l := NewLoginLimiter (15 * minute) 4096 in
  (Allow (Failure l 7 "192.0.2.1" "root") 9 "192.0.2.2" "root").1 = false.
Proof.
  intros l. refine (proj1 (Failure_blocks_account l 7 "192.0.2.1" "root" "192.0.2.2" 9 _ _ _ _)).
  - apply NewLoginLimiter_ok.
  - vm_compute. discriminate.
  - vm_compute. by split.
  - vm_compute. reflexivity.
Defined.

(** ** Certificates *)

Lemma ValidateSourceSettings_sound_witness :
  settings_of Provided "" "/etc/tls/cert.pem" "/etc/tls/key.pem".
Proof.
  refine (proj1 (ValidateSourceSettings_sound letter_address Provided "vpn.example.org" "" "/etc/tls/cert.pem"
                   "/etc/tls/key.pem" _)). vm_compute. reflexivity.
Defined.



Lemma renew_certifies_witness :
  ∃ m w', renew letter_address desk_active = ((m, None), w')
    ∧ ∃ current w1, LoadTLSMetadata desk_active = (Ok current, w1)
      ∧ (M_Fingerprint current ≠ "" → M_Fingerprint m ≠ M_Fingerprint current).
Proof.
  destruct (done_run (renew letter_address desk_active)) as (m & w' & H); [vm_compute; reflexivity|].
  exists m, w'. split; [exact H|].
  destruct (renew_certifies letter_address desk_active m w' H) as (current & w1 & Hl & _ & _ & Hf & _).
  exists current, w1. exact (conj Hl Hf).
Defined.

(** ** The store *)

Lemma store_invariant_witness :
  tables_ok (db_tables (run_store_op (SInsertUser (mkVPNUser 0 "dave" "credential" UserActive 0 0))
                          (calm_store demo_tables)).2).
Proof.
  exact (store_invariant (SInsertUser (mkVPNUser 0 "dave" "credential" UserActive 0 0)) (calm_store demo_tables)
           _ _ demo_tables_ok (surjective_pairing _)).
Defined.

Definition tls_tables : tables :=
  put_tls (mkTLSRow (meta_set_source_sans LetsEncrypt [] old_metadata) "vpn.example.org") demo_tables.
Lemma tls_tables_ok : tables_ok tls_tables.
Proof. split; try apply demo_tables_ok. intros r [= <-]. split; vm_compute; reflexivity. Qed.

Lemma SaveConfiguration_consistent_witness :
  ∃ m w', SaveConfiguration letter_address Store_LoadTLSMetadata Store_SaveTLSMetadata Store_SetHostname Production
    SelfSigned "new.example.org" "" ManualMode "" "" (calm_store tls_tables) = ((m, None), w')
    ∧ (set_hostname <$> t_settings (db_tables w')) = Some "new.example.org".
Proof.
  destruct (done_run (SaveConfiguration letter_address Store_LoadTLSMetadata Store_SaveTLSMetadata Store_SetHostname
    Production SelfSigned "new.example.org" "" ManualMode "" "" (calm_store tls_tables))) as (m & w' & H);
    [vm_compute; reflexivity|].
  exists m, w'. split; [exact H|].
  exact (proj1 (proj2 (proj2 (SaveConfiguration_consistent letter_address Production SelfSigned "new.example.org" ""
    ManualMode "" "" (calm_store tls_tables) m w' _ _ tls_tables_ok eq_refl eq_refl eq_refl H)))).
Defined.

(** ** Rendering *)

Lemma Render_credentials_roundtrip_witness :
  ∃ fs text, Render (demo_snapshot first_address) = Ok fs ∧ fs !! "credentials.toml" = Some text
    ∧ read_credentials text = Some [("alice", "correct-horse-battery")].
Proof.
  destruct (Render (demo_snapshot first_address)) as [fs|e] eqn:H; [|vm_compute in H; discriminate H].
  destruct (Render_credentials_roundtrip (demo_snapshot first_address) fs H) as (text & Hf & Hr).
  exists fs, text. split; [reflexivity|]. split; [exact Hf|]. rewrite Hr. vm_compute. reflexivity.
Defined.

Lemma Render_order_independent_witness :
  let s us := mkSnapshot "" "vpn.example.org" first_address us [] "" "" in
  ∃ fs, Render (s [alice; bob]) = Ok fs ∧ Render (s [bob; alice]) = Ok fs.
Proof.
  intros s. destruct (Render (s [alice; bob])) as [fs|e] eqn:H; [|vm_compute in H; discriminate H].
  exists fs. split; [reflexivity|].
  refine (Render_order_independent (s [alice; bob]) (s [bob; alice]) fs _ (NoDup_nil_2) H).
  split; try reflexivity. apply perm_swap.
Defined.

(** ** The client profile *)

(** A link with an entry of tag 1 and one of tag 4. *)
Definition demo_entries : list (Z * list ascii) :=
  [(1, [ascii_of_nat 1; ascii_of_nat 1; "a"%char]); (4, [ascii_of_nat 4; ascii_of_nat 1; "b"%char])].
Definition demo_link : string :=
  link_prefix +:+ b64_encode RawURL (of_chars (concat (snd <$> demo_entries))).
Lemma demo_link_entries : link_entries demo_link demo_entries.
Proof.
  eexists _, _. split; [reflexivity|]. split; [vm_compute; reflexivity|].
  eapply (entries_cons _ 1 [ascii_of_nat 1; ascii_of_nat 1; "a"%char]); [vm_compute; reflexivity|].
  eapply entries_cons; [vm_compute; reflexivity|constructor].
Qed.

Lemma tuneLink_entries_witness :
  ∃ link', tuneLink demo_link Default = Ok link'
    ∧ link_entries link' (List.filter keep demo_entries ++ settings_tlv Default).
Proof.
  refine (tuneLink_entries demo_link demo_entries Default demo_link_entries _ _); vm_compute; discriminate.
Defined.

Lemma tuneLink_idempotent_witness :
  ∃ link', tuneLink demo_link Default = Ok link' ∧ tuneLink link' Default = Ok link'.
Proof.
  destruct (tuneLink demo_link Default) as [link'|e] eqn:H; [|vm_compute in H; discriminate H].
  exists link'. split; [reflexivity|].
  refine (proj1 (proj2 (tuneLink_idempotent demo_link Default Default link' H _))).
  vm_compute in H. injection H as <-. vm_compute. discriminate.
Defined.

Lemma Profile_Apply_changes_settings_witness :
  ∃ cfg', Profile_Apply (mkClientConfig demo_link "host" "") Default = Ok cfg' ∧ Settings_Validate Default = None.
Proof.
  destruct (Profile_Apply (mkClientConfig demo_link "host" "") Default) as [cfg'|e] eqn:H; [|vm_compute in H; discriminate H].
  exists cfg'. split; [reflexivity|].
  exact (proj1 (Profile_Apply_changes_settings (mkClientConfig demo_link "host" "") Default cfg' H)).
Defined.

Lemma limit_writes_bounded_witness :
  lb_buf (limit_writes 4 ["abc"; "def"]) = "abcd".
Proof. refine (proj1 (limit_writes_bounded 4 ["abc"; "def"] _)). discriminate. Defined.

(** ** The supervisor *)

Definition initial : Supervisor :=
  mkSupervisor (Supervisor.mkConfig "endpoint" (Some (λ _, [])) "" (10 * second) 5 minute 262144 "v1")
    None false false (mkEndpointStatus "stopped" "" "v1" 0 0 "") [] ∅ 1 ∅ ∅.
Definition after (es : list event) : Supervisor := default initial (run initial es).
Lemma after_reachable es : reachable demo_config (after es).
Proof.
  unfold after. destruct (run initial es) as [s|] eqn:E; simpl.
  - eapply reachable_run; [apply reach_new; reflexivity|exact E].
  - apply reach_new. reflexivity.
Qed.
Definition started : list event := [EStart 7 "r1" 1 None; EMarkReady].
Definition crashed_events : list event := started ++ [EExit 1 (Some refused)].
Definition crashed_proc : proc := mkProc "r1" 7 (Some (Some refused)) false Waiting.
Lemma crashed_after es : es = [] ∨ es = [ECancel 7] → crashed (after (crashed_events ++ es)) 1 crashed_proc (Some refused).
Proof. intros [->| ->]; repeat split. Qed.

Lemma at_most_one_endpoint_witness :
  sv_cmd (after started) = Some 1%nat ∧ Status_PID (Status (after started)) = 1.
Proof.
  destruct (at_most_one_endpoint demo_config (after started) 1 (mkProc "r1" 7 None false Waiting)
              (after_reachable started) eq_refl eq_refl) as (Hc & Hp & _).
  exact (conj Hc Hp).
Defined.


Lemma cancelled_seven : 7%nat ∈ ({[ 7%nat ]} ∪ ∅ : gset nat).
Proof. set_solver. Qed.
Lemma ended_context_disarms_restart_witness :
  ∃ s1, run (after (crashed_events ++ [ECancel 7])) [EWaited 1; EWatch 1 9] = Some s1
    ∧ Status_State (Status s1) = "stopped" ∧ sv_desired s1 = true.
Proof.
  destruct (ended_context_disarms_restart demo_config (after (crashed_events ++ [ECancel 7])) 1 crashed_proc (Some refused) 9
              (after_reachable _) (crashed_after [ECancel 7] (or_intror eq_refl)) (conj eq_refl eq_refl) cancelled_seven)
    as (s1 & Hs & Hst & _ & Hd & _).
  exists s1. exact (conj Hs (conj Hst Hd)).
Defined.

(** A stop of the running endpoint, to the point where its end was seen. *)
Definition stopping : list event := started ++ [EStop 3 0 None; ESignal 3 None; EExit 1 None; EWaited 1; EDone 3].
Lemma Stop_waits_for_exit_witness :
  ∃ s', step (after stopping) (EFinish 3) = Some s' ∧ Status_State (Status s') = "stopped".
Proof.
  destruct (step (after stopping) (EFinish 3)) as [s'|] eqn:H; [|vm_compute in H; discriminate H].
  exists s'. split; [reflexivity|].
  exact (proj1 (proj2 (Stop_waits_for_exit demo_config (after stopping) 3 1 0 None s' (after_reachable _) eq_refl H))).
Defined.

