(* ===== verification/WebWitnesses.v ===== *)
(** The web interface on the concrete world of [Demo.v]: an administrator with a
    live session creates a user, and the theorems of [WebSpec.v] and
    [ProfileStore.v] applied to it. *)
From S2P Require Import Prelude GoStrings GoPath Quote Base64 Sha256 Domain GoTime Config FileSys Revisions.
From S2P Require Import Materializer X509 CertState TLSStore Store StoreSpec Password Limiter Services Apply.
From S2P Require Import Users Entropy Session TLSSettings ClientProfile ProfileStore ClientExport World Http.
From S2P Require Import WebHandlers WebRouter WebSpec WebWorld Demo.

Definition no_certificates : CertificateOperations web :=
  mkCertificateOperations _ (λ _ _ _, ret (zero_metadata, Some refused)) (ret (zero_metadata, Some refused)).
Definition no_export : VPNUser → string → M web (result ClientConfig) := λ _ _, ret (Err refused).
Definition no_qr : string → Z → M web (option (result string)) := λ _ _, ret None.
Definition no_file : string → web → result string := λ _ _, Err ErrNotExist.
Definition no_asset : string → option string := λ _, None.
Definition no_type : string → string := λ _, "".

#[export] Instance demo_web_sessions : SessionOps web := web_sessions demo_sessions.
#[export] Existing Instances web_bootstrap web_views.
#[export] Instance demo_web_users : UserOps web := web_users demo_materializer.
#[export] Instance demo_web_clients : ClientOps web := web_clients no_export no_qr refused.
#[export] Instance demo_web_tls : TLSOps web := web_tls no_certificates letter_address Production no_file.
#[export] Instance demo_web_guard : WebGuard web _ :=
  web_guard demo_materializer demo_sessions no_certificates letter_address Production no_file no_export no_qr refused.

Definition demo_web : web :=
  mkWeb (mkWorld (calm_store admin_tables) demo_fs demo_fs (mkEndpoint "" []) demo_entropy)
    (NewLoginLimiter 0 0) (mkEndpointStatus "ready" "" "" 7 0 "") (Err refused) "" (Ring_New 0).
Definition demo_csrf : CSRF := mkCSRF "0123456789abcdef0123456789abcdef" true.
(** The form that creates a user, with the session's token or another. *)
Definition create_request (csrf : string) : request :=
  mkRequest "POST" "/users" "/users" [(SessionCookie, "token")] "" [("_csrf", csrf); ("username", "carol")] None [] true
    "10.0.0.1:5" "" "" None.
Abbreviation demo_router := (NewRouter no_asset no_type demo_csrf None).


(** Another token is turned away. *)
Example wrong_token : rs_status (demo_router (create_request "guess") demo_web).1 = StatusForbidden.
Proof. vm_compute. reflexivity. Qed.

Definition quic : Settings := mkSettings "vpn.example.org:8443" "http3" false true "firefox" true.
Lemma SaveClientProfile_loads_witness :
  ∃ w, SaveClientProfile quic (calm_store demo_tables) = (None, w) ∧ (LoadClientProfile w).1 = (quic, None).
Proof.
  destruct (nil_run (SaveClientProfile quic (calm_store demo_tables))) as (w & H); [vm_compute; reflexivity|].
  assert (Hq : db_faults w = []) by (change w with (@None gerror, w).2; rewrite <- H; vm_compute; reflexivity).
  exists w. split; [exact H|].
  exact (proj2 (SaveClientProfile_loads quic (calm_store demo_tables) w w H eq_refl eq_refl
                  (λ e q E, match eq_trans (eq_sym Hq) E with end))).
Defined.
