(* ===== verification/OpsWitnesses.v ===== *)
(** The theorems on keys, schedules, probes and backups applied to concrete
    states: a small data directory that is saved, verified and restored. *)
From stdpp Require Import countable.
From S2P Require Import Prelude GoStrings GoPath Quote Base64 Sha256 Domain GoTime Config Json FileSys PathFacts PosixFs TreeWalk PosixFacts X509.
From S2P Require Import AccountKey Scheduler Backup BackupSafe ManifestText BackupSpec BackupCreate Http Http01 Metrics Demo.

(** ** Schedules *)

Lemma Backoff_spec_witness : 1000 <= max_int64 ∧ 5000 <= max_int64 ∧ Backoff 3 1000 5000 = 5000.
Proof.
  assert (H1 : 1000 <= max_int64) by (vm_compute; discriminate). assert (H2 : 5000 <= max_int64) by (vm_compute; discriminate).
  split; [exact H1|]. split; [exact H2|]. exact (Backoff_spec 3 1000 5000 H1 H2).
Defined.
Lemma one_worker_witness :
  ∃ s, Lifecycle.run Lifecycle.initial [Lifecycle.EStart; Lifecycle.EStop 1; Lifecycle.EReturn 0; Lifecycle.EDone 1; Lifecycle.EStart] = Some s
    ∧ Lifecycle.st_cancel s = Some 1%nat.
Proof.
  destruct (Lifecycle.run Lifecycle.initial [Lifecycle.EStart; Lifecycle.EStop 1; Lifecycle.EReturn 0; Lifecycle.EDone 1; Lifecycle.EStart])
    as [s|] eqn:H; [|vm_compute in H; discriminate H].
  assert (Hin : 1%nat ∈ Lifecycle.st_running s).
  { assert (E : default ∅ (Lifecycle.st_running <$> Some s) = {[ 1%nat ]}) by (rewrite <- H; vm_compute; reflexivity).
    change (Lifecycle.st_running s = {[ 1%nat ]}) in E. rewrite E. set_solver. }
  exists s. split; [reflexivity|].
  exact (proj2 (Lifecycle.one_worker _ s 1%nat 1%nat H ltac:(vm_compute; reflexivity) Hin Hin)).
Defined.

(** ** The account's key *)

Definition empty_data : fs := mkFs (Dir 448 ∅) [] 0.
Lemma empty_data_place : account_place (fs_tree empty_data).
Proof. split; [reflexivity|left; reflexivity]. Qed.
Lemma StoreAccountKey_atomic_witness :
  ∃ p w, StoreAccountKey "/data" "K1" empty_data = (Ok p, w) ∧ account_key (fs_tree w) = Some (File "K1" 384).
Proof.
  destruct (ok_run (StoreAccountKey "/data" "K1" empty_data)) as (p & w & H); [vm_compute; reflexivity|].
  exists p, w. split; [exact H|]. exact (proj2 (StoreAccountKey_atomic "/data" "K1" empty_data _ w empty_data_place H) eq_refl).
Defined.
(** Keys that are their own text after the letter [K]. *)
Definition letter_key (s : string) : result string := Ok (String "K" "").
Lemma letter_key_parse k text :
  letter_key k = Ok text → parseAccountKey unit (λ _, Ok tt) text = Ok tt.
Proof. intros [= <-]. reflexivity. Qed.
Lemma account_key_kept_witness :
  ∃ w, loadOrCreateAccountKey unit (Ok tt) (λ _, letter_key "") (λ _, Ok tt) "/data" empty_data = (Ok tt, w)
    ∧ ∃ d m, account_key (fs_tree w) = Some (File d m).
Proof.
  destruct (ok_run (loadOrCreateAccountKey unit (Ok tt) (λ _, letter_key "") (λ _, Ok tt) "/data" empty_data)) as (k & w & H);
    [vm_compute; reflexivity|].
  destruct k. exists w. split; [exact H|].
  destruct (proj2 (account_key_kept unit (Ok tt) (λ _, letter_key "") (λ _, Ok tt)
    (λ k text E, match k as k' return parseAccountKey unit (λ _, Ok tt) text = Ok k' with tt => letter_key_parse "" text E end)
    "/data" empty_data _ w empty_data_place
    (λ e q E, match E in _ = l return match l with [] => True | _ => errors_is e ErrNotExist = false end with eq_refl => I end) H) tt eq_refl)
    as (d & m & Hk & _).
  exists d, m. exact Hk.
Defined.

(** ** Probes and challenges *)

Lemma ready_iff_witness :
  Status_State (mkEndpointStatus "ready" "" "" 7 0 "") ∈ ["ready"; "degraded"]
  ∧ rs_status (readiness true true (mkEndpointStatus "ready" "" "" 7 0 "")) = StatusOK.
Proof.
  assert (Hin : Status_State (mkEndpointStatus "ready" "" "" 7 0 "") ∈ ["ready"; "degraded"]) by (left).
  split; [exact Hin|]. exact (proj2 (proj1 (ready_iff true true (mkEndpointStatus "ready" "" "" 7 0 ""))) (conj eq_refl (conj eq_refl Hin))).
Defined.

(** ** Backups *)

(** Archives as numbers in binary, by the countability of their entries. *)
Definition flag_number (f : typeflag) : nat := match f with TypeReg => 0 | TypeDir => 1 | TypeSymlink => 2 | TypeOther => 3 end.
Definition number_flag (n : nat) : typeflag := match n with 0 => TypeReg | 1 => TypeDir | 2 => TypeSymlink | _ => TypeOther end%nat.
Abbreviation entry_code := (string * nat * Z * string * string)%type.
Definition entry_out (e : header * string) : entry_code := (hd_name e.1, flag_number (hd_type e.1), hd_mode e.1, hd_linkname e.1, e.2).
Definition entry_in (c : entry_code) : header * string :=
  let '(n, f, m, l, d) := c in (mkHeader n (number_flag f) m l, d).
Fixpoint bits_of (p : positive) : string :=
  match p with xH => "" | xO q => String "0" (bits_of q) | xI q => String "1" (bits_of q) end.
Fixpoint of_bits (s : string) : positive :=
  match s with "" => xH | String c s' => if bool_decide (c = "0"%char) then xO (of_bits s') else xI (of_bits s') end.
Lemma of_bits_of p : of_bits (bits_of p) = p.
Proof. induction p as [p IH|p IH|]; simpl; congruence. Qed.
Definition binary_write (es : list (header * string)) : string := bits_of (encode (entry_out <$> es)).
Definition binary_read (s : string) : result (list entry * option gerror) :=
  match decode (A:=list entry_code) (of_bits s) with
  | Some cs => Ok ((λ c, prod_map id Ok (entry_in c)) <$> cs, None)
  | None => Err (SysErr "gzip: invalid header")
  end.
Lemma binary_read_write es : binary_read (binary_write es) = Ok ((λ e, (e.1, Ok e.2)) <$> es, None).
Proof.
  unfold binary_read, binary_write. rewrite of_bits_of, decode_encode. do 2 f_equal. rewrite <- list_fmap_compose.
  apply list_fmap_ext. intros _ [[n f m l] d] _. by destruct f.
Qed.
#[export] Instance binary_targz : TarGz := {| targz_read_write := binary_read_write |}.

(** A data directory with a database and a configuration, and an empty [/new]. *)
Definition saved_tree : node :=
  Dir 493 {["tmp" := Dir 511 ∅; "out" := Dir 493 ∅; "new" := Dir 448 ∅;
            "data" := Dir 448 {["controller.db" := File "rows" 384;
                                "config" := Dir 448 {["current" := Link "revisions/a"; "revisions" := Dir 448 ∅]}]}]}.
Definition copy_database (s : string) : result string := Ok s.
Definition demo_versions : Versions := mkVersions "1.0.0" "c0ffee" "0.9.0".
Lemma plain_names l : bool_decide (Forall plain l) = true → Forall plain l.
Proof. apply bool_decide_eq_true. Qed.
Lemma walk_all (P : path → node → Prop) n : Forall (λ qn, P qn.1 qn.2) (walk n) → ∀ q n', tree_get q n = Some n' → P q n'.
Proof. intros H q n' Hq. apply walk_get in Hq. rewrite Forall_forall in H. by apply (H (q, n')). Qed.
Lemma saved_tree_savable : savable 18 saved_tree ["data"].
Proof.
  intros name q n Hname. rewrite (cons_middle name ["data"] q), (assoc_L (++)), tree_get_app.
  destruct (tree_get (["data"] ++ [name]) saved_tree) as [n0|] eqn:E; [|done]. revert q n.
  apply (walk_all (λ q n, entry_ok 18 (name :: q) n ∧ valid_utf8 (join_strings "/" (name :: q)) = true)).
  unfold included in Hname. rewrite !elem_of_cons, elem_of_nil in Hname.
  destruct Hname as [-> |[-> |[-> |[-> |[]]]]]; vm_compute in E; try discriminate E.
  injection E as <-. match goal with |- Forall _ (walk ?n) =>
    let l := eval vm_compute in (walk n) in replace (walk n) with l by (vm_compute; reflexivity) end.
  repeat (apply Forall_cons; split); try apply Forall_nil_2; cbn [fst snd]; (split; [split; [apply plain_names|]|]; vm_compute; reflexivity).
Qed.
Lemma saved_site : site 18 copy_database saved_tree ["data"] ["out"] "b.tgz" "rows" "rows".
Proof.
  split.
  - vm_compute; reflexivity.
  - vm_compute; reflexivity.
  - split; [discriminate|]. split; [discriminate|]. split; [apply plain_names|]; vm_compute; reflexivity.
  - split; [exists 384|]; vm_compute; reflexivity.
  - apply saved_tree_savable.
  - split; [discriminate|]. split; [apply plain_names; vm_compute; reflexivity|].
    split; [by apply (bool_decide_unpack _)|vm_compute; reflexivity].
  - split; vm_compute; reflexivity.
  - split; intros E; vm_compute in E; discriminate E.
  - intros [r E]. discriminate E.
Qed.
Definition saved_manifest : Manifest := backup_manifest saved_tree ["data"] "rows" 0 demo_versions.
Lemma saved_manifest_time :
  rfc3339_ok (Man_CreatedAt saved_manifest) = true ∧ valid_utf8 (Man_CreatedAt saved_manifest) = true.
Proof. vm_compute. done. Qed.
Definition archived_tree : node :=
  tree_put ["out"; "b.tgz"]
    (Some (File (targz_write (archive_of (Dir 448 (backup_entries saved_tree ["data"] "rows" saved_manifest)))) 384)) saved_tree.

Lemma backup_round_trip_witness :
  ∃ w n, Create 18 copy_database (abs_path ["data"]) (abs_path ["out"; "b.tgz"]) demo_versions (mkFs saved_tree [] 0) = (None, w)
    ∧ (Restore 18 7 (abs_path ["out"; "b.tgz"]) (abs_path ["new"]) w).1 = Ok saved_manifest
    ∧ tree_get ["new"] (fs_tree (Restore 18 7 (abs_path ["out"; "b.tgz"]) (abs_path ["new"]) w).2) = Some n.
Proof.
  assert (Hparent : is_dir (tree_get (parent ["new"]) archived_tree) = true) by reflexivity.
  assert (Hnew : tree_get ["new"] archived_tree = Some (Dir 448 ∅)).
  { unfold archived_tree. rewrite tree_get_put_ne; [reflexivity|intros [r E]; discriminate E..]. }
  destruct (backup_round_trip 18 copy_database saved_site 7 demo_versions 0 ["new"] 448
    (proj1 saved_manifest_time) (proj2 saved_manifest_time) ltac:(vm_compute; reflexivity) ltac:(discriminate)
    ltac:(apply plain_names; vm_compute; reflexivity) Hparent Hnew) as [H1 H2].
  exists (mkFs archived_tree [] (0 + 1)). eexists. split; [exact H1|]. split; [exact (f_equal fst H2)|].
  refine (eq_trans (f_equal (λ p : result Manifest * fs, tree_get ["new"] (fs_tree p.2)) H2) _).
  apply tree_get_put_eq; [discriminate|exact Hparent].
Defined.

Lemma archived_facts :
  tree_get ["out"; "b.tgz"] archived_tree
    = Some (File (targz_write (archive_of (Dir 448 (backup_entries saved_tree ["data"] "rows" saved_manifest)))) 384)
  ∧ tree_ok 18 (Dir 448 (backup_entries saved_tree ["data"] "rows" saved_manifest))
  ∧ sealed saved_manifest (Dir 448 (backup_entries saved_tree ["data"] "rows" saved_manifest)).
Proof.
  split; [apply tree_get_put_eq; [discriminate|reflexivity]|]. split.
  - intros q n Hq. exact (entries_object 18 copy_database saved_site saved_manifest q n Hq).
  - apply (entries_sealed 18 copy_database saved_site 0 demo_versions); [apply saved_manifest_time..|vm_compute; reflexivity].
Qed.
Lemma Verify_accepts_witness :
  Verify 18 (abs_path ["out"; "b.tgz"]) (mkFs archived_tree [] 1) = (Ok saved_manifest, mkFs archived_tree [] 1).
Proof.
  destruct archived_facts as (Hget & Hok & Hs).
  assert (Htmp : is_dir (tree_get ["tmp"] archived_tree) = true).
  { unfold archived_tree. rewrite tree_get_put_ne; [reflexivity|intros [r E]; discriminate E..]. }
  exact (Verify_accepts 18 saved_manifest ["out"; "b.tgz"] 384 448 _ archived_tree 1 ltac:(vm_compute; reflexivity)
    ltac:(discriminate) ltac:(apply plain_names; vm_compute; reflexivity) Htmp Hget Hok Hs).
Defined.
(** The unpacked tree, verified in place. *)
Definition unpacked : fs := mkFs (Dir 493 {["srv" := Dir 448 (backup_entries saved_tree ["data"] "rows" saved_manifest)]}) [] 0.

(** A hostile name, and a file below the target. *)
Definition plain_archive : list entry :=
  [(mkHeader "a/b" TypeReg 384 "", Ok "data"); (mkHeader "../x" TypeReg 384 "", Ok "out")].
Lemma extract_confined_witness :
  ∃ e w, extract_entries 18 (abs_path ["srv"; "stage"]) plain_archive (mkFs escape_tree [] 0) = (Some e, w)
    ∧ below ["srv"; "stage"] escape_tree (fs_tree w) ∧ tree_get ["srv"; "stage"; "a"; "b"] (fs_tree w) = Some (File "data" 384).
Proof.
  destruct (some_run (extract_entries 18 (abs_path ["srv"; "stage"]) plain_archive (mkFs escape_tree [] 0))) as (e & w & H);
    [vm_compute; reflexivity|].
  assert (Hn : Forall no_symlink plain_archive) by (repeat (apply Forall_cons; split; [discriminate|]); apply Forall_nil_2).
  assert (Hs : safe ["srv"; "stage"] (fs_tree (mkFs escape_tree [] 0))) by (exists 448, ∅; split; [reflexivity|apply link_free_dir]).
  exists e, w. split; [exact H|]. split.
  - exact (proj2 (extract_confined 18 ["srv"; "stage"] ltac:(discriminate) ltac:(apply plain_names; vm_compute; reflexivity)
      plain_archive (mkFs escape_tree [] 0) (Some e) w Hn Hs H)).
  - change w with (Some e, w).2. rewrite <- H. vm_compute. reflexivity.
Defined.
