(* ===== verification/AppWitnesses.v ===== *)
(** The theorems on the start-up, the schema, the import of a legacy volume and the
    commands applied to concrete states. *)
From S2P Require Import Prelude GoStrings GoPath Quote Sha256 Domain GoTime Config FileSys PathFacts PosixFs Revisions X509 CertState TLSStore Store StoreSpec Services.
From S2P Require Import Materializer ClientExport Supervisor World Manager Acme Backup Schema App AppRun AppWiring Migration MigrationSpec Main Demo.

(** ** Start-up *)

Definition slow_endpoint : dialer := mkDialer 0 [(Some refused, 40 * millisecond); (None, 3 * millisecond)] [].
Lemma waitTCP_returns_witness :
  ∃ e w', waitTCP 200%nat None (15 * second) slow_endpoint = (Some e, w') ∧ dl_clock w' <= 15 * second.
Proof.
  assert (H1 : dl_clock slow_endpoint <= 15 * second) by (vm_compute; discriminate).
  assert (H2 : (Z.to_nat ((0 + 15 * second - dl_clock slow_endpoint) / tick_period) < 200)%nat) by (vm_compute; lia).
  destruct (waitTCP_returns None (15 * second) slow_endpoint H1 200%nat H2) as (e & w' & H & Ht & _).
  exists e, w'. split; [exact H|exact Ht].
Defined.

Definition seed_config (hostname : string) : AppConfig :=
  mkAppConfig hostname "ops@example.org" "" "" "letsencrypt" "/data" "/endpoint" "1" "0.0.0.0:8444" "http://127.0.0.1/metrics" "127.0.0.1:8081"
    "0.0.0.0:80" second second hour hour "1" "c" Production.
Lemma seedTLS_once_witness :
  ∃ w1 w2, seedTLS letter_address Store_LoadTLSMetadata Store_SaveTLSMetadata Store_SetHostname None (seed_config "vpn.example.org")
      (calm_store demo_tables) = (None, w1)
    ∧ seedTLS letter_address Store_LoadTLSMetadata Store_SaveTLSMetadata Store_SetHostname None (seed_config "other.example.org") w1 = (None, w2)
    ∧ db_tables w2 = db_tables w1.
Proof.
  destruct (nil_run (seedTLS letter_address Store_LoadTLSMetadata Store_SaveTLSMetadata Store_SetHostname None (seed_config "vpn.example.org")
    (calm_store demo_tables))) as (w1 & H1); [vm_compute; reflexivity|].
  destruct (seedTLS letter_address Store_LoadTLSMetadata Store_SaveTLSMetadata Store_SetHostname None (seed_config "other.example.org") w1)
    as [e w2] eqn:H2.
  destruct (seedTLS_once letter_address None
    (λ logf E, match E in _ = l return match l with Some _ => ∀ l w r w', logf l w = (r, w') → w' = w | None => True end
               with eq_refl => I end)
    (seed_config "vpn.example.org") (seed_config "other.example.org") demo_tables 100 _ w1 e w2 eq_refl eq_refl ltac:(vm_compute; reflexivity) H1 H2)
    as (He & Ht & _).
  subst e. exists w1, w2. split; [exact H1|]. split; [exact H2|exact Ht].
Defined.

Definition silent (l : string) : M world unit := ret tt.

(** ** The schema

    An engine that keeps the texts it was given. *)
Definition keep_text (t : string) (s : list string) : result (list string) := Ok (s ++ [t]).
Definition any_text (s : list string) : bool := negb (bool_decide (s = [])).
Definition no_database : database (Sch:=list string) := mkDatabase [] [] [] 0.
Lemma any_text_kept t s s' : t ∈ migrations → keep_text t s = Ok s' → head migrations = Some t ∨ any_text s = true → any_text s' = true.
Proof. intros _ [= <-] _. unfold any_text. by rewrite bool_decide_eq_false_2 by (by destruct s). Qed.
Lemma migrate_resumes_witness : ∃ d', migrate keep_text any_text no_database = (None, d') ∧ sd_faults no_database = [].
Proof.
  destruct (migrate keep_text any_text no_database) as [e d'] eqn:H.
  assert (Hat : at_version keep_text migrations [] 0 no_database) by (split; reflexivity).
  assert (He : e = None).
  { exact (proj2 (migrate_resumes keep_text any_text [] 0 no_database e d' eq_refl any_text_kept Hat ltac:(lia) H) eq_refl ltac:(vm_compute; reflexivity)). }
  exists d'. subst e. split; reflexivity.
Defined.

(** ** The import *)

Lemma legacyPath_confined_witness : ∃ p, legacyPath (abs_path ["legacy"]) "/trusttunnel_endpoint/../certs/cert.pem" = Ok p
  ∧ ∃ ps, p = abs_path (["legacy"] ++ ps).
Proof.
  destruct (legacyPath (abs_path ["legacy"]) "/trusttunnel_endpoint/../certs/cert.pem") as [p|e] eqn:H; [|vm_compute in H; discriminate H].
  destruct (legacyPath_confined ["legacy"] "/trusttunnel_endpoint/../certs/cert.pem" p
    ltac:(repeat constructor; apply (bool_decide_unpack _); vm_compute; exact I) ltac:(discriminate) H) as (ps & _ & Hp).
  exists p. split; [reflexivity|]. exists ps. exact Hp.
Defined.

(** Files of one word each. *)
#[export] Instance word_toml : LegacyToml := {
  decode_vpn _ := Ok (mkLegacyVPN "0.0.0.0:9443");
  decode_hosts _ := Ok (mkLegacyHosts [mkLegacyHost "vpn.example.org" "certs/cert.pem" "/trusttunnel_endpoint/certs/key.pem"]);
  decode_credentials _ := Ok (mkLegacyCredentials [mkLegacyUser "carol" "Correct-Horse-7!"; mkLegacyUser "dave" "Correct-Horse-8!"]);
  decode_rules _ := Ok (mkLegacyRules [mkLegacyRule "" "allow" "10.0.0.0/8" ""] [])
}.
Definition legacy_files : node :=
  Dir 448 (list_to_map [("vpn.toml", File "v" 384); ("hosts.toml", File "h" 384); ("credentials.toml", File "c" 384);
    ("rules.toml", File "r" 384); ("certs", Dir 448 (list_to_map [("cert.pem", File "C" 384); ("key.pem", File "K" 384)]))]).
Definition volumes : fs := mkFs (Dir 448 (list_to_map [("legacy", legacy_files); ("data", Dir 448 ∅)])) [] 0.
Definition empty_tables : tables := mkTables None ∅ 0 ∅ [] 0 None ∅ None None None.
Definition before_import : mig (Sch:=list string) :=
  mkMig volumes no_database (mkWorld (calm_store empty_tables) demo_fs demo_fs (mkEndpoint "" []) demo_entropy).
#[export] Instance mig_environment : CertEnvironment (mig (Sch:=list string)) := {
  now_ := ret 7; ReadFile _ := ret (Err ErrNotExist); OpenRegular _ := ret (Err ErrNotExist);
  ECKey := unit; GenerateKey := ret (Ok tt); rand_Int _ := ret (Ok 5);
  CreateCertificate _ _ := ret (Ok ""); MarshalPKCS8PrivateKey _ := Ok ""; pem_encode _ s := s
}.
Lemma empty_tables_ok : tables_ok empty_tables.
Proof. split; try done. split; [constructor|]. intros e He. by apply not_elem_of_nil in He. Qed.
Lemma mig_clock (w : mig (Sch:=list string)) t w' : now_ w = (t, w') → w' = w.
Proof. by intros [= _ <-]. Qed.
Abbreviation import_legacy := (run_locked keep_text any_text 63 (abs_path ["legacy"]) (abs_path ["data"])).
Lemma migration_once_witness :
  ∃ res w1 w2, import_legacy before_import = (Ok res, w1) ∧ import_legacy w1 = (Ok (mkResult 0 0 "" false true), w2).
Proof.
  destruct (ok_run (import_legacy before_import)) as (res & w1 & H1); [vm_compute; reflexivity|].
  destruct (import_legacy w1) as [r w2] eqn:H2.
  destruct (migration_once keep_text any_text 63 mig_clock ["data"] (abs_path ["legacy"]) (abs_path ["legacy"]) before_import res w1 r w2
    ltac:(repeat constructor; apply (bool_decide_unpack _); vm_compute; exact I) ltac:(discriminate)
    ltac:(vm_compute; reflexivity) ltac:(vm_compute; reflexivity) eq_refl empty_tables_ok demo_quiet H1 H2) as (Hr & _ & _).
  subst r. exists res, w1, w2. split; [exact H1|exact H2].
Defined.

(** ** The commands *)

Definition backup_options : options :=
  mkOptions "" "" "" "" "" "/data" "/endpoint" "1" "0.0.0.0:8444" "http://127.0.0.1/metrics" "127.0.0.1:8081" "0.0.0.0:80" second second
    hour hour "json" "info" false "" false false Production "/backup.tar.gz" "" "".
Definition no_calls : command_trace := mkTrace [] [] 200 zero_manifest (mkResult 0 0 "" false false).
Lemma run_one_command_witness :
  ∃ w', run "1" "c" (λ _, false) (λ _, Parsed backup_options) ["--backup"; "/backup.tar.gz"] no_calls = (None, w')
    ∧ tr_calls w' = [CVerify; CCreate].
Proof.
  destruct (nil_run (run "1" "c" (λ _, false) (λ _, Parsed backup_options) ["--backup"; "/backup.tar.gz"] no_calls)) as (w' & H);
    [vm_compute; reflexivity|].
  destruct (run_one_command "1" "c" (λ _, false) (λ _, Parsed backup_options) ["--backup"; "/backup.tar.gz"] no_calls None w' H eq_refl)
    as (_ & _ & Hok).
  exists w'. split; [exact H|]. destruct (Hok eq_refl) as [E|(o & E & Hcalls)]; [discriminate E|]. injection E as <-. exact Hcalls.
Defined.

(** ** An account server

    Accounts of keys that are strings; an account's location is its key's text. *)
Abbreviation accounts := (gmap string string).
Definition found (k : string) : M accounts (result string) :=
  gets (λ s, match s !! k with Some x => Ok x | None => Err (SysErr "account does not exist") end).
#[export] Instance map_server : Lego string accounts := {
  lego_NewClient _ _ _ _ := ret None; lego_SetHTTP01Provider := ret None;
  lego_QueryRegistration u _ := found (lu_Key u); lego_ResolveAccountByKey u := found (lu_Key u);
  lego_Register u := λ s, match s !! lu_Key u with
                         | Some x => (Ok x, s)
                         | None => (Ok (lu_Key u), <[lu_Key u := lu_Key u]> s)
                         end;
  lego_Obtain _ _ _ := ret (Ok demo_bundle)
}.
Lemma found_law k s r s' : found k s = (r, s') → (λ k, s' !! k) = (λ k, s !! k) ∧ ∀ x, r = Ok x → s !! k = Some x.
Proof. intros [= <- <-]. split; [done|]. intros x. destruct (s !! k); [by intros [= ->]|done]. Qed.
#[export] Program Instance map_server_laws : LegoLaws := { account s k := s !! k }.
Next Obligation. intros u uri s r s'. apply found_law. Qed.
Next Obligation. intros u s r s'. apply found_law. Qed.
Next Obligation.
  intros u s r s' H. cbn in H. destruct (s !! lu_Key u) as [x|] eqn:E; injection H as <- <-.
  - split; [done|]. split; [done|]. by intros y [= <-].
  - cbn. split; [intros k Hk; by rewrite lookup_insert_ne|]. split; [by rewrite E|]. intros x [= <-]. apply lookup_insert_eq.
Qed.
Definition new_account : acme_world (R:=accounts) := mkAcmeWorld demo_fs ∅ 1 ∅.
Lemma EnsureAccount_finds_witness :
  ∃ w', LegoClient_EnsureAccount (mkLegoUser string "ops@example.org" "key" 0) new_account = (Ok "key", w')
    ∧ aw_registrations w' !! 0%nat = Some "key".
Proof.
  destruct (LegoClient_EnsureAccount (mkLegoUser string "ops@example.org" "key" 0) new_account) as [r w'] eqn:H.
  assert (Hr : r = Ok "key") by (change r with (r, w').1; rewrite <- H; vm_compute; reflexivity). subst r.
  exists w'. split; [reflexivity|]. destruct (EnsureAccount_finds _ _ _ _ H) as [(_ & _ & Hok) _]. exact (proj2 (Hok _ eq_refl)).
Defined.

(** The configuration above publishes a revision and runs it. *)
Lemma endpoint_reads_published_witness :
  let files : Files := {[ "vpn.toml" := "a"; "hosts.toml" := "b" ]} in
  ∃ revision w', Materializer_Apply demo_materializer files demo_fs = (Ok revision, w')
    ∧ (∃ cmd, command_of (supervisor_config (seed_config "vpn.example.org")) revision = Some cmd ∧ ec_Dir cmd = "/data/config/current")
    ∧ link_at (fs_tree w') "current" = Some ("revisions/" +:+ revision).
Proof.
  intros files. destruct (ok_run (Materializer_Apply demo_materializer files demo_fs)) as (id & w' & H); [vm_compute; reflexivity|].
  exists id, w'. split; [exact H|].
  destruct (endpoint_reads_published (seed_config "vpn.example.org") ["data"] ltac:(vm_compute; reflexivity)
    ltac:(apply (bool_decide_unpack _); vm_compute; exact I) ltac:(discriminate) demo_materializer files demo_fs id w'
    demo_store_ok H) as (_ & Hl & _ & Hcmd & _).
  split; [|exact Hl]. eexists. split; [exact Hcmd|]. vm_compute. reflexivity.
Defined.
