(* ===== verification/ReleaseWitnesses.v ===== *)
(** The theorems on the release scripts applied to an official export: four
    documents with a text each, and a link of four entries. *)
From S2P Require Import Prelude GoStrings Quote Base64 GoPath Domain X509 ClientProfile ClientExport ReleaseScripts Demo.

(** ** A library of named documents *)

Definition document : Type := string * gmap string toml_value.
Fixpoint text_of (docs : list document) (m : gmap string toml_value) : result string :=
  match docs with
  | [] => Err (Errorf "toml")
  | (name, m') :: docs' => if decide (m = m') then Ok name else text_of docs' m
  end.
Fixpoint document_of (docs : list document) (text : string) : result (gmap string toml_value) :=
  match docs with
  | [] => Err (Errorf "toml")
  | (name, m) :: docs' => if decide (text = name) then Ok m else document_of docs' text
  end.
Definition document_toml (docs : list document) : Toml :=
  {| toml_Decode := document_of docs; toml_Encode := text_of docs |}.
Lemma text_of_in docs m text : text_of docs m = Ok text → text ∈ docs.*1.
Proof.
  induction docs as [|[name m'] docs IH]; [done|]. simpl. case_decide; [intros [= <-]; by left|]. intros Ht. right. by apply IH.
Qed.
Lemma document_roundtrip docs m text : NoDup docs.*1 → text_of docs m = Ok text → document_of docs text = Ok m.
Proof.
  induction docs as [|[name m'] docs IH]; [done|]. simpl. intros [Hn Hd]%NoDup_cons. case_decide as E.
  - intros [= <-]. rewrite decide_True by done. by subst.
  - intros Ht. rewrite decide_False; [by apply IH|]. intros ->. apply text_of_in in Ht. by apply Hn.
Qed.

(** ** An official export *)

Definition tlv (tag : Z) (value : string) : list ascii := chr tag :: chr (len value) :: chars value.
Definition official_link : string :=
  link_prefix +:+ b64_encode RawURL (of_chars (tlv 2 "vpn.example.com:443" ++ tlv 5 "alice"
    ++ tlv 6 "integration-test-password" ++ tlv 8 "cert" ++ tlv 10 (byte_str 0))).
Definition official : gmap string toml_value :=
  list_to_map [("hostname", TString "vpn.example.com"); ("username", TString "alice");
    ("password", TString "integration-test-password"); ("addresses", TList ["vpn.example.com:443"]);
    ("certificate", TString "C"); ("custom_sni", TString "kept")].
#[local] Instance plain_print : ExportCheck.Sprint := { sprint_value _ := "" }.

Definition quic : Settings := mkSettings "" "http3" false true "chrome" true.
Definition isolated_quic : gmap string toml_value :=
  match ConnectionSmoke.isolate (cli_table quic (client_fields quic official)) with Done full => full | _ => ∅ end.
Definition export_documents : list document :=
  [("official", official); ("endpoint", client_fields ExportCheck.check_settings official);
   ("cli", cli_table ExportCheck.check_settings (client_fields ExportCheck.check_settings official));
   ("quic", client_fields quic official); ("quic-cli", cli_table quic (client_fields quic official)); ("smoke", isolated_quic)].
Definition export_toml : Toml := document_toml export_documents.
Lemma export_roundtrip m text : toml_Encode (Toml:=export_toml) m = Ok text → toml_Decode (Toml:=export_toml) text = Ok m.
Proof. apply document_roundtrip. apply (bool_decide_unpack _). by vm_compute. Qed.

Lemma is_short {A} (f : A → string) (r : result A) (a : A) :
  r = Ok a → match r with Ok a => len (f a) <=? 1048576 | Err _ => false end = true → len (f a) <= 1048576.
Proof. intros -> H. by apply Z.leb_le. Qed.

Lemma tuned_link_decodes_witness :
  ∃ fields link', ExportCheck.decodeFields official_link = Ok fields ∧ tuneLink official_link Default = Ok link'
    ∧ ExportCheck.decodeFields link' = Ok (tuned_fields Default fields).
Proof.
  destruct (ExportCheck.decodeFields official_link) as [fields|e] eqn:Hf; [|vm_compute in Hf; discriminate Hf].
  destruct (tuneLink official_link Default) as [link'|e] eqn:Ht; [|vm_compute in Ht; discriminate Ht].
  exists fields, link'. split; [reflexivity|]. split; [reflexivity|].
  refine (tuned_link_decodes official_link Default link' fields Hf Ht _).
  refine (is_short id _ _ Ht _). vm_compute. reflexivity.
Defined.

(** A script run on the export, its second line and a certificate. *)
Definition official_output : string := official_link +:+ String "010"%char "tt://other".

Lemma smoke_profile_isolated_witness :
  ∃ full, document_of export_documents "smoke" = Ok full
    ∧ full !! "listener" = Some (TTable {[ "socks" := TTable {[ "address" := TString "127.0.0.1:1080" ]} ]}).
Proof.
  destruct (smoke_profile_isolated (TOML:=export_toml) export_roundtrip official_output "official" "quic" "smoke"
    ltac:(vm_compute; reflexivity)) as (s & m & full & endpoint & _ & _ & Hf & Hl & _).
  exists full. split; [exact Hf|exact Hl].
Defined.

(** Files by name; a write is refused when its name is empty. *)
#[local] Instance named_files : ScriptFiles (gmap string string) := {
  script_ReadFile p fs := (match fs !! p with Some data => Ok data | None => Err ErrNotExist end, fs);
  script_WriteFile p data _ fs := if bool_decide (p = "") then (Some ErrNotExist, fs) else (None, <[p := data]> fs)
}.
Definition script_inputs : gmap string string := {[ "link.txt" := official_output; "endpoint.toml" := "official" ]}.
Lemma smoke_main_writes_once_witness :
  let w' := <["out.toml" := "smoke"]> script_inputs in
  ConnectionSmoke.main (TOML:=export_toml) ["write"; "link.txt"; "endpoint.toml"; "quic"; "out.toml"] script_inputs = (Done tt, w')
  ∧ ∃ output text, script_WriteFile output text 384 script_inputs = (None, w').
Proof.
  intros w'.
  assert (H : ConnectionSmoke.main (TOML:=export_toml) ["write"; "link.txt"; "endpoint.toml"; "quic"; "out.toml"] script_inputs
    = (Done tt, w')) by (vm_compute; reflexivity).
  split; [exact H|].
  destruct (smoke_main_writes_once (TOML:=export_toml) (F:=named_files) _ script_inputs _ _ (λ path v, eq_refl v) H)
    as [[_ []]|(p & d & en & v & output & lo & et & text & e & _ & _ & _ & _ & Hw & He)]; [reflexivity|].
  exists output, text. rewrite Hw. f_equal. apply He. reflexivity.
Defined.
